(* ===== verification/_CoqProject ===== *)
-Q . S2P
Prelude.v
Cboring.v
GoStrings.v
GoSort.v
GoTime.v
Flags.v
Crc.v
DtnTime.v
GoFormat.v
GoJson.v
Endpoint.v
BundleId.v
ExtensionBlocks.v
Blocks.v
Bundle.v
Samples.v
BundleValid.v
BundleCodec.v
BundleJson.v
Streams.v
Received.v
Partial.v
PartialProps.v
Fragmentation.v
FragmentMtu.v
AdminRecord.v
Builder.v
BuilderProps.v
IdKeeper.v
Descriptor.v
Store.v
StoreInv.v
StoreHistory.v
StoreExamples.v
StoreSpec.v
Cla.v
Mtcp.v
MtcpProps.v
Quicl.v
QuiclProps.v
Dummy.v
Discovery.v
Routing.v
RoutingProps.v
Config.v
Mailbox.v
MailboxProps.v
AgentManager.v
Daemon.v
DaemonProps.v
Agents.v
Wire.v
AgentLoop.v
Client.v
AgentsProps.v
ClientProps.v
Processing.v
Forwarding.v
ForwardingSpec.v
Reception.v
Quiescence.v
Content.v
Transport.v
Integrity.v
Network.v
Validity.v
Delivered.v
