(* ===== verification/Prelude.v ===== *)
(** * dtn7-go: a delay-tolerant networking daemon, verified

    The program under [src/dtnd7-go] is a node of a delay-tolerant network that
    speaks the Bundle Protocol version 7 (RFC 9171).  Applications hand bundles to
    application agents; the store keeps them on disk; a routing algorithm picks the
    peers a bundle goes to; convergence layer adapters (CLAs) transmit it; fragments
    are put together again.  This library models the Go code as functions and step
    relations and proves what makes it correct.

    ** How the code is modelled

    - A Go call returns a value, returns an error or panics: [res] ([Ok], [Err],
      [Panic]).  State is passed explicitly; [M] is a state monad over [res] that
      keeps the state on every outcome, since a reader has advanced and a receiver
      has been assigned also when a method fails.
    - A [uint64] is a [Z] with wrap-around written out ([wrap_u64], [wrap_i64],
      [wrap_u8]); byte slices are lists of bytes; Go strings are byte strings; maps
      are [gmap]s, and where a range over a map has an effect, the order it takes is
      an argument.
    - An object that others point to (a bundle descriptor) lives in a heap and is
      named by its address.  A mutex-protected method is atomic; a goroutine is a
      pending action or a task of a step relation, and theorems about them hold for
      every interleaving.
    - Packages outside the repository are classes with the laws the code relies on,
      each with a concrete instance that satisfies them: [Cboring] (CBOR heads,
      strings, floats), [Crc16], [Ed25519], [Badgerhold] (the metadata database),
      [Sha256] (file names), [GoMapRange] (the order of map ranges in encoders),
      [GoFloat] (conversions the language leaves open), [UnixMsgpack], [RecMsgpack]
      and [ClientMsgpack] (the messages of agents and client; [UnixWire] relates the two
      sides).  A call of a library whose result depends on the world
      (sockets, QUIC, the multicast library, the scheduler) is an outcome the definition
      takes as an argument.
    - Loops that are not structural take fuel: [read_blocks] the number of input
      bytes plus one, since every round consumes a byte ([read_blocks_terminates]);
      [fragment_loop] the number of payload bytes; [next_number] the number
      of blocks; [handleSender] the bytes of the connection plus one
      ([handleSender_fuel]); [partial_blocks] the bytes of the file plus one, enough for
      readers that cannot seek ([partial_terminates]) and for files the store has written
      ([partial_parse]), while a forged length makes a seeker loop for ever
      ([partial_seek_loops]).  Each of the others is shown to be enough.

    ** Files

    - [Prelude]: results, the state monad, machine integers, bytes; tactics.
    - [Cboring]: the CBOR library's interface, its laws and an instance.
      [GoStrings], [GoSort], [GoTime], [GoFormat], [GoJson]: what the code uses of
      [strings], [strconv], [regexp], [sort], [time], [encoding/base64] and [encoding/json].
      [Wire]: a class of prefix-free encodings, for instances of the message classes.
    - [Flags], [Crc], [DtnTime], [Endpoint], [BundleId]: the small types of
      [pkg/bpv7] ([bundle_control_flags.go], [block_control_flags.go], [crc.go], [time.go], [endpoint.go] and its schemes,
      [bundle_id.go]).
    - [ExtensionBlocks], [Blocks], [Bundle]: blocks and bundles ([extension_block.go] and the block types,
      [primary_block.go], [canonical_block.go], [bundle.go]); [Samples] has concrete
      instances.
    - [BundleValid], [BundleCodec]: theorems on editing, validity and signatures, and
      on the CBOR form.  [Streams]: readers never give input back.  [Received]: what the
      decoders guarantee of the values they return, and the fuzzing entry.  [BundleJson]:
      the JSON form ([MarshalJSON] of all types).
    - [Partial], [PartialProps]: partially loaded bundles.
    - [Fragmentation], [FragmentMtu]: [fragmentation.go].
    - [AdminRecord]: [administrative_record.go] and the status report.
    - [Builder], [BuilderProps]: [bundle_builder.go].
    - [IdKeeper]: [pkg/id_keeper].
    - [Descriptor], [Store], [StoreInv], [StoreHistory], [StoreExamples]: [pkg/store].
      [StoreSpec]: the abstract store that it implements.
    - [Cla]: the CLA manager of [pkg/cla].  [Mtcp], [MtcpProps]: [pkg/cla/mtcp].
      [Quicl], [QuiclProps]: [pkg/cla/quicl].  [Dummy]: [pkg/cla/dummy_cla].
    - [Discovery]: [pkg/discovery].
    - [Routing], [RoutingProps]: [pkg/routing]; the interface [Algorithm] with the
      laws [AlgorithmLaws], met by both algorithms.
    - [Mailbox], [MailboxProps], [AgentManager]: [pkg/application_agent].  [Agents],
      [AgentsProps]: the request handlers of [rest_agent], [unix_agent] and [rec_agent];
      [AgentLoop]: start, accept loop and shutdown of the socket agents.
    - [Processing], [Forwarding], [ForwardingSpec], [Reception], [Quiescence]:
      [pkg/processing], against [AlgorithmLaws].
    - [Content], [Validity], [Transport], [Integrity], [Network], [Delivered]: the parts
      put together to a network of nodes.  [Content] says what stays of a bundle on its way,
      [Validity] that it stays valid; [Transport] is the interface to the convergence layers,
      met by MTCP and QUICL; [Integrity] is about the files of a store; [Network] has the
      steps of a network and its invariant, [Delivered] the ways of bundles through it.
    - [Config], [Daemon], [DaemonProps]: [cmd/dtnd].  [Client], [ClientProps]:
      [cmd/dtnclient], against the handlers of the UNIX agent.

    ** What is proved

    - Codecs: bundles, endpoints, bundle ids, status reports and announcements are read
      back as they were written; the bundle parser terminates on every input; reading a
      part of a bundle agrees with reading the whole; the values the bundle parser accepts
      are well formed and can be written again; the JSON text tells apart what it shows.
    - Bundles: editing keeps block numbers distinct and ordered; what [CheckValid]
      guarantees; signatures verify; the lifetime test is exact within the range of
      the clock.
    - Fragmentation: fragments fit the MTU and reassemble to the bundle in any order.
    - Store: an invariant over all operations and deletion goroutines, insertion and
      loading, garbage collection, restart, and what is never forgotten; and a refinement:
      in every history the store answers as an abstract map from ids to bundles does
      ([store_refines]).
    - Routing: epidemic routing offers a bundle to exactly the peers not known to have
      it; spray and wait conserves the number of copies.
    - Processing: for every interleaving of goroutines a peer that got a bundle is not
      selected for it again; runs of forwarding and reception do what RFC 9171 asks; all
      goroutines come to an end.
    - The network: over every interleaving of all nodes, what is sent, loaded or fetched is
      the content of a bundle that an application created ([network_integrity]), for any
      transport that keeps the promise of [Transport] and any algorithm of the class
      [PlainRouting] (epidemic routing, and spray and wait unless it is binary, which writes
      its copies into a block); and a valid bundle, once created, can travel along any route of
      connected nodes into the mailboxes at its end, by calls of goroutines and arrivals of
      what was sent alone ([route_delivered]).  Both suppose that the file
      names of different bundle ids differ, that is, no collision of SHA-256 among them.
      Nodes of the network do not restart: a file that a crash left half written may hold
      anything.
    - Mailboxes and agents: delivery reaches every agent with a mailbox for the
      destination, at most once; retrieval returns every message once; requests send
      only what they may, and leave the agents' state consistent.
    - The builder: what [Build] makes of any chain of calls, that errors are sticky, and
      that the order of a map does not matter.
    - Convergence layers: bundles sent over MTCP arrive up to the first that is not valid
      when it is read, and those sent over QUICL if they are valid; the QUICL handshake; the
      life of an MTCP client in the manager, which is told of its disconnection once, and
      lists it for good if it was closed too early; announced peers are connected to; no
      message of a dummy CLA is lost or made up.
    - The daemon: which configurations are accepted, that they lead to a running daemon,
      and that its periodic collection keeps mailboxes and store in step; the accept loops
      of its agents end.
    - The client: a command is a call of the agent's handler, and [create] sends the bundle
      it describes.

    Behaviour that differs from what the code or its comments intend is stated as
    theorems too, on concrete inputs (for example [contained_fragment_panics],
    [insert_while_deleting], [concurrent_forwarding_duplicates]).

    ** What is not modelled

    What lies below the bytes of a connection: system calls, TLS, HTTP, UDP multicast; the
    decoding of TOML, JSON and MessagePack and of command line arguments; log messages and
    the [String] methods that only they use; the texts of errors, except where the code
    compares or returns them to a client.  The accessors of singletons ([Get...Singleton])
    are the state the operations take.  Data races that Go's memory model forbids are not
    modelled: methods are atomic where the code locks, and a task of [Processing] takes the
    selection of peers, and the delivery to all agents, as one step each (spray routing locks
    once to read and once to write a copy counter).  The Python project [src/rec] beside
    the daemon is not part of this development. *)

From stdpp Require Import base tactics list gmap strings numbers sorting.
From Stdlib Require Import ZArith Lia.
From Stdlib Require Strings.Byte.

#[export] Set Warnings "-clear-no-such-hyp".

(** ** Results, errors and panics

    A Go call either returns a value, returns an [error], or panics (a nil
    dereference, a failed type assertion, a slice index out of range).  The
    three outcomes are kept apart. *)

(** The errors the code distinguishes: the sentinel [cboring.FlagBreakCode],
    which the bundle parser compares against, and every error made on the spot
    with [fmt.Errorf]/[errors.New] (or by a library), identified by its text. *)
Inductive error :=
  | FlagBreakCode
  | errorf (msg : string).

#[global] Instance error_eq_dec : EqDecision error.
Proof. solve_decision. Defined.

Inductive res (A : Type) :=
  | Ok (a : A)
  | Err (e : error)
  | Panic.
Arguments Ok {A} a.
Arguments Err {A} e.
Arguments Panic {A}.

#[global] Instance res_eq_dec {A} `{EqDecision A} : EqDecision (res A).
Proof. solve_decision. Defined.

Definition is_ok {A} (r : res A) : bool :=
  match r with Ok _ => true | _ => false end.

Lemma Ok_inj {A} (x y : A) : Ok x = Ok y → x = y.
Proof. congruence. Qed.

#[global] Instance res_ret : MRet res := λ A a, Ok a.
#[global] Instance res_bind : MBind res := λ A B f r,
  match r with Ok a => f a | Err e => Err e | Panic => Panic end.
#[global] Instance res_fmap : FMap res := λ A B f r,
  match r with Ok a => Ok (f a) | Err e => Err e | Panic => Panic end.

(** [multierror.Append] accumulates; a [CheckValid] method returns the list of
    the errors it appended, and that list is [nil] exactly when Go's returned
    [error] is [nil]. *)
Abbreviation errors := (list error).

(** ** A state monad over results

    [M σ A] is a call that reads and writes a mutable [σ] and ends in a result.
    The state is returned on every outcome: an [io.Reader] has advanced and a
    receiver has been partly assigned also when the method returns an error. *)
Definition M (σ A : Type) : Type := σ → res A * σ.

#[global] Instance M_ret {σ} : MRet (M σ) := λ A a s, (Ok a, s).
#[global] Instance M_bind {σ} : MBind (M σ) := λ A B f m s,
  match m s with
  | (Ok a, s') => f a s'
  | (Err e, s') => (Err e, s')
  | (Panic, s') => (Panic, s')
  end.

Definition fail {σ A} (e : error) : M σ A := λ s, (Err e, s).
Definition panic {σ A} : M σ A := λ s, (Panic, s).
Definition gets {σ A} (f : σ → A) : M σ A := λ s, (Ok (f s), s).
Definition modify {σ} (f : σ → σ) : M σ () := λ s, (Ok (), f s).
Definition lift_res {σ A} (r : res A) : M σ A := λ s, (r, s).

(** Bytes of an [io.Reader] still to be read. *)
Abbreviation bytes := (list Byte.byte).
Abbreviation reader := (M bytes).

(** A reader used by a method whose receiver is the first component. *)
Definition on_input {σ A} (m : reader A) : M (σ * bytes) A := λ '(s, inp),
  let '(r, inp') := m inp in (r, (s, inp')).
Definition on_self {σ} (f : σ → σ) : M (σ * bytes) () := λ '(s, inp),
  (Ok (), (f s, inp)).
Definition self {σ} : M (σ * bytes) σ := λ '(s, inp), (Ok s, (s, inp)).

(** A method called on a field of the receiver. *)
Definition on_field {σ F A} (get : σ → F) (set : F → σ → σ) (m : M (F * bytes) A) :
    M (σ * bytes) A := λ '(s, inp),
  let '(r, (f, inp')) := m (get s, inp) in (r, (set f s, inp')).

(** [fmt.Errorf("...: %v", err)] around a call: the error becomes a new one, so
    that the sentinel [FlagBreakCode] is no longer recognised. *)
Definition wrap_err {σ A} (msg : string) (m : M σ A) : M σ A := λ s,
  match m s with
  | (Err _, s') => (Err (errorf msg), s')
  | x => x
  end.

(** [io.TeeReader]: what a reader consumed is copied to a buffer. *)
Definition consumed (before after : bytes) : bytes :=
  take (length before - length after) before.
Definition tee {A} (m : reader A) : reader (A * bytes) := λ inp,
  match m inp with
  | (Ok a, inp') => (Ok (a, consumed inp inp'), inp')
  | (Err e, inp') => (Err e, inp')
  | (Panic, inp') => (Panic, inp')
  end.

Definition tee_self {σ A} (m : M (σ * bytes) A) : M (σ * bytes) (A * bytes) := λ '(s, inp),
  match m (s, inp) with
  | (Ok a, (s', inp')) => (Ok (a, consumed inp inp'), (s', inp'))
  | (Err e, s') => (Err e, s')
  | (Panic, s') => (Panic, s')
  end.

Lemma bind_ok {σ A B} (m : M σ A) (k : A → M σ B) s s' a :
  m s = (Ok a, s') → (x ← m; k x) s = k a s'.
Proof. unfold mbind, M_bind. by intros ->. Qed.

Lemma bind_err {σ A B} (m : M σ A) (k : A → M σ B) s s' e :
  m s = (Err e, s') → (x ← m; k x) s = (Err e, s').
Proof. unfold mbind, M_bind. by intros ->. Qed.

Lemma bind_panic {σ A B} (m : M σ A) (k : A → M σ B) s s' :
  m s = (Panic, s') → (x ← m; k x) s = (Panic, s').
Proof. unfold mbind, M_bind. by intros ->. Qed.

Lemma on_input_ok {σ A} (m : reader A) (s : σ) inp a inp' :
  m inp = (Ok a, inp') → on_input m (s, inp) = (Ok a, (s, inp')).
Proof. unfold on_input. by intros ->. Qed.

Lemma on_input_err {σ A} (m : reader A) (s : σ) inp e inp' :
  m inp = (Err e, inp') → on_input m (s, inp) = (Err e, (s, inp')).
Proof. unfold on_input. by intros ->. Qed.

Lemma on_field_ok {σ F A} get set (m : M (F * bytes) A) (s : σ) inp a f inp' :
  m (get s, inp) = (Ok a, (f, inp')) → on_field get set m (s, inp) = (Ok a, (set f s, inp')).
Proof. unfold on_field. by intros ->. Qed.

Lemma wrap_err_ok {σ A} msg (m : M σ A) s a s' :
  m s = (Ok a, s') → wrap_err msg m s = (Ok a, s').
Proof. unfold wrap_err. by intros ->. Qed.

Lemma consumed_app (w rest : bytes) : consumed (w ++ rest) rest = w.
Proof.
  unfold consumed. rewrite length_app.
  replace (length w + length rest - length rest)%nat with (length w) by lia.
  by rewrite take_app_length.
Qed.

Lemma tee_ok {A} (m : reader A) w rest a :
  m (w ++ rest) = (Ok a, rest) → tee m (w ++ rest) = (Ok (a, w), rest).
Proof. unfold tee. intros ->. by rewrite consumed_app. Qed.

Lemma tee_self_ok {σ A} (m : M (σ * bytes) A) s s' w rest a :
  m (s, w ++ rest) = (Ok a, (s', rest)) → tee_self m (s, w ++ rest) = (Ok (a, w), (s', rest)).
Proof. unfold tee_self. intros ->. by rewrite consumed_app. Qed.

(** One call of a monadic program that succeeds: [mstep by t] proves the call's
    equation with [t] and continues with what follows it. *)
Tactic Notation "mstep" "by" tactic3(t) := erewrite bind_ok by t; cbv beta iota.

(** A test between constants: take the branch it selects. *)
Ltac mif :=
  match goal with
  | |- context [if ?c then _ else _] =>
      let v := eval vm_compute in c in
      first [constr_eq v true | constr_eq v false];
      change c with v; cbv beta iota
  end.

(** ** Machine integers *)

Definition two64 : Z := 18446744073709551616.
Definition two63 : Z := 9223372036854775808.

Definition is_u64 (z : Z) : Prop := (0 ≤ z < two64)%Z.
Definition is_u8 (z : Z) : Prop := (0 ≤ z < 256)%Z.
#[global] Instance is_u64_dec z : Decision (is_u64 z).
Proof. unfold is_u64. apply _. Defined.
#[global] Instance is_u8_dec z : Decision (is_u8 z).
Proof. unfold is_u8. apply _. Defined.

(** Conversion and arithmetic wrap around at the width. *)
Definition wrap_u64 (z : Z) : Z := (z mod two64)%Z.
Definition wrap_u8 (z : Z) : Z := (z mod 256)%Z.
Definition wrap_i64 (z : Z) : Z := ((z + two63) mod two64 - two63)%Z.

Lemma wrap_u64_id z : is_u64 z → wrap_u64 z = z.
Proof. apply Z.mod_small. Qed.
Lemma wrap_u8_id z : is_u8 z → wrap_u8 z = z.
Proof. apply Z.mod_small. Qed.
Lemma wrap_u64_range z : is_u64 (wrap_u64 z).
Proof. by apply Z.mod_pos_bound. Qed.
Lemma wrap_u8_range z : is_u8 (wrap_u8 z).
Proof. by apply Z.mod_pos_bound. Qed.
Lemma wrap_i64_id z : (- two63 ≤ z < two63)%Z → wrap_i64 z = z.
Proof.
  intros H. unfold wrap_i64. rewrite Z.mod_small; [lia|].
  unfold two63, two64 in *. lia.
Qed.

Ltac u64_lia :=
  unfold is_u64, is_u8, two64, two63 in *; lia.

(** ** Bytes, big-endian numbers and strings *)

#[global] Instance byte_eq_dec : EqDecision Byte.byte := Byte.byte_eq_dec.

Definition Z_of_byte (b : Byte.byte) : Z := Z.of_N (Byte.to_N b).
Definition byte_of_Z (z : Z) : Byte.byte :=
  match Byte.of_N (Z.to_N (z mod 256)) with Some b => b | None => Byte.x00 end.

Lemma Z_of_byte_range b : (0 ≤ Z_of_byte b < 256)%Z.
Proof. unfold Z_of_byte. pose proof (Byte.to_N_bounded b). lia. Qed.

Lemma Z_of_byte_of_Z z : Z_of_byte (byte_of_Z z) = (z mod 256)%Z.
Proof.
  unfold byte_of_Z, Z_of_byte.
  pose proof (Z.mod_pos_bound z 256 ltac:(lia)) as Hz.
  destruct (Byte.of_N (Z.to_N (z mod 256))) as [b|] eqn:E.
  - apply Byte.to_of_N_iff in E. rewrite E. lia.
  - apply Byte.of_N_None_iff in E. lia.
Qed.

Lemma byte_of_Z_of_byte b : byte_of_Z (Z_of_byte b) = b.
Proof.
  pose proof (Z_of_byte_range b). unfold byte_of_Z. rewrite Z.mod_small by lia.
  unfold Z_of_byte. rewrite N2Z.id. by rewrite Byte.of_to_N.
Qed.

(** The [n] low bytes of [z], most significant first
    ([binary.BigEndian.PutUint16] and its siblings). *)
Fixpoint be_bytes (n : nat) (z : Z) : bytes :=
  match n with
  | O => []
  | S n => be_bytes n (z / 256) ++ [byte_of_Z z]
  end.

Definition be_value (l : bytes) : Z :=
  foldl (λ acc b, acc * 256 + Z_of_byte b)%Z 0%Z l.

Lemma be_bytes_length n z : length (be_bytes n z) = n.
Proof. revert z. induction n; intros; simpl; [done|]. rewrite length_app, IHn. simpl. lia. Qed.

Lemma be_value_bytes n z : (0 ≤ z < 256 ^ Z.of_nat n)%Z → be_value (be_bytes n z) = z.
Proof.
  revert z. induction n as [|n IH]; intros z Hz.
  - simpl in *. change (be_value []) with 0%Z. lia.
  - simpl. unfold be_value in *. rewrite foldl_app. simpl. rewrite Z_of_byte_of_Z, IH.
    + pose proof (Z.div_mod z 256). lia.
    + rewrite Nat2Z.inj_succ, Z.pow_succ_r in Hz by lia.
      split; [apply Z.div_pos; lia | apply Z.div_lt_upper_bound; lia].
Qed.

Lemma be_value_range l : (0 ≤ be_value l < 256 ^ Z.of_nat (length l))%Z.
Proof.
  unfold be_value. induction l as [|b l IH] using rev_ind; [simpl; lia|].
  rewrite foldl_app, length_app. simpl.
  rewrite Nat2Z.inj_add, Z.pow_add_r by lia. simpl (256 ^ Z.of_nat 1)%Z.
  pose proof (Z_of_byte_range b). lia.
Qed.

(** Go strings are byte strings. *)
Abbreviation str_bytes := String.list_byte_of_string.
Abbreviation bytes_str := String.string_of_list_byte.

Lemma bytes_str_bytes s : bytes_str (str_bytes s) = s.
Proof. apply String.string_of_list_byte_of_string. Qed.
Lemma str_bytes_str l : str_bytes (bytes_str l) = l.
Proof. apply String.list_byte_of_string_of_list_byte. Qed.

Lemma length_str_bytes s : length (str_bytes s) = String.length s.
Proof.
  unfold String.list_byte_of_string. rewrite length_map.
  induction s; simpl; congruence.
Qed.

Definition len {A} (l : list A) : Z := Z.of_nat (length l).

Lemma len_nonneg {A} (l : list A) : (0 ≤ len l)%Z.
Proof. unfold len. lia. Qed.
Lemma len_app {A} (l k : list A) : len (l ++ k) = (len l + len k)%Z.
Proof. unfold len. rewrite length_app. lia. Qed.
