(* ===== verification/Cboring.v ===== *)
(** * The CBOR library the code calls, as an interface

    [github.com/dtn7/cboring] is a third-party package.  [Cboring] lists the
    functions of it that the code under [src/] calls, with in-memory writers
    (a writer's output is the bytes it appends) and readers over the remaining
    input.  [CboringLaws] is what the code relies on: reading undoes writing,
    the break code is reported as [FlagBreakCode], and a head is encoded in the
    shortest form of RFC 8949, section 3.  Every theorem that needs the library
    is proved against the two classes.  [rfc8949] is a concrete codec that
    satisfies the laws; the concrete examples of the development run with it. *)

From stdpp Require Import base tactics list strings.
From Stdlib Require Import ZArith Lia.
From S2P Require Import Prelude.

(** The major types of RFC 8949, section 3.1. *)
Inductive MajorType :=
  | UInt | NegInt | ByteString | TextString | Array | Map | Tag | SimpleData.

#[global] Instance MajorType_eq_dec : EqDecision MajorType.
Proof. solve_decision. Defined.

Class Cboring := {
  IndefiniteArray : Byte.byte;
  BreakCode : Byte.byte;

  WriteUInt : Z → bytes;
  WriteArrayLength : Z → bytes;
  WriteByteStringLen : Z → bytes;
  WriteMapPairLength : Z → bytes;
  WriteByteString : bytes → bytes;
  WriteTextString : bytes → bytes;
  WriteBoolean : bool → bytes;
  WriteFloat64 : Z → bytes;

  ReadMajors : reader (MajorType * Z);
  ReadRawBytes : Z → reader bytes;
  ReadExpect : Byte.byte → reader ();
  ReadUInt : reader Z;
  ReadArrayLength : reader Z;
  ReadByteStringLen : reader Z;
  ReadMapPairLength : reader Z;
  ReadByteString : reader bytes;
  ReadBoolean : reader bool;
  ReadFloat64 : reader Z;
}.

(** Size of a head with argument [n] in the shortest form. *)
Definition head_len (n : Z) : Z :=
  if (n <? 24)%Z then 1 else
  if (n <? 256)%Z then 2 else
  if (n <? 65536)%Z then 3 else
  if (n <? 4294967296)%Z then 5 else 9.

Lemma head_len_mono m n : (m ≤ n)%Z → (head_len m ≤ head_len n)%Z.
Proof. intros. unfold head_len. repeat case_match; lia. Qed.

Lemma head_len_pos n : (1 ≤ head_len n ≤ 9)%Z.
Proof. unfold head_len. repeat case_match; lia. Qed.

Class CboringLaws (C : Cboring) : Prop := {
  uint_rt n r : is_u64 n → ReadUInt (WriteUInt n ++ r) = (Ok n, r);
  array_rt n r : is_u64 n → ReadArrayLength (WriteArrayLength n ++ r) = (Ok n, r);
  bslen_rt n r : is_u64 n → ReadByteStringLen (WriteByteStringLen n ++ r) = (Ok n, r);
  map_rt n r : is_u64 n → ReadMapPairLength (WriteMapPairLength n ++ r) = (Ok n, r);
  bstr_rt d r : is_u64 (len d) → ReadByteString (WriteByteString d ++ r) = (Ok d, r);
  bool_rt b r : ReadBoolean (WriteBoolean b ++ r) = (Ok b, r);
  float_rt f r : is_u64 f → ReadFloat64 (WriteFloat64 f ++ r) = (Ok f, r);
  majors_uint n r : is_u64 n → ReadMajors (WriteUInt n ++ r) = (Ok (UInt, n), r);
  majors_text s r : is_u64 (len s) →
    ReadMajors (WriteTextString s ++ r) = (Ok (TextString, len s), s ++ r);
  raw_rt d r : ReadRawBytes (len d) (d ++ r) = (Ok d, r);
  expect_rt b r : ReadExpect b (b :: r) = (Ok (), r);
  array_break r : ReadArrayLength (BreakCode :: r) = (Err FlagBreakCode, r);

  (** reading never gives input back, and a head takes at least one byte *)
  array_progress inp n r : ReadArrayLength inp = (Ok n, r) → length r < length inp;
  uint_mono inp : length (ReadUInt inp).2 ≤ length inp;
  bstr_mono inp : length (ReadByteString inp).2 ≤ length inp;
  bslen_progress inp n r : ReadByteStringLen inp = (Ok n, r) → length r < length inp;
  bslen_mono inp : length (ReadByteStringLen inp).2 ≤ length inp;
  array_mono inp : length (ReadArrayLength inp).2 ≤ length inp;
  majors_mono inp : length (ReadMajors inp).2 ≤ length inp;
  raw_mono n inp : length (ReadRawBytes n inp).2 ≤ length inp;
  expect_mono b inp : length (ReadExpect b inp).2 ≤ length inp;

  (** numbers and lengths are 64 bits wide, and as many bytes are read as were asked for *)
  uint_u64 inp n r : ReadUInt inp = (Ok n, r) → is_u64 n;
  majors_u64 inp m n r : ReadMajors inp = (Ok (m, n), r) → is_u64 n;
  bstr_u64 inp d r : ReadByteString inp = (Ok d, r) → is_u64 (len d);
  raw_length n inp d r : is_u64 n → ReadRawBytes n inp = (Ok d, r) → len d = n;
  raw_within n inp d r : ReadRawBytes n inp = (Ok d, r) → length d + length r ≤ length inp;
  bstr_within inp d r : ReadByteString inp = (Ok d, r) → length d + length r ≤ length inp;

  bstr_split d : WriteByteString d = WriteByteStringLen (len d) ++ d;
  uint_len n : is_u64 n → len (WriteUInt n) = head_len n;
  array_len n : is_u64 n → len (WriteArrayLength n) = head_len n;
  bslen_len n : is_u64 n → len (WriteByteStringLen n) = head_len n;
  text_len d : is_u64 (len d) → len (WriteTextString d) = (head_len (len d) + len d)%Z;
}.

(** ** A concrete codec *)

Module Rfc8949.
Local Open Scope Z_scope.

Definition major_of (n : Z) : MajorType :=
  match n with
  | 0 => UInt | 1 => NegInt | 2 => ByteString | 3 => TextString
  | 4 => Array | 5 => Map | 6 => Tag | _ => SimpleData
  end.

Definition major_no (m : MajorType) : Z :=
  match m with
  | UInt => 0 | NegInt => 1 | ByteString => 2 | TextString => 3
  | Array => 4 | Map => 5 | Tag => 6 | SimpleData => 7
  end.

Definition byte0 (m : MajorType) (info : Z) : Byte.byte :=
  byte_of_Z (32 * major_no m + info).

Definition head (m : MajorType) (n : Z) : bytes :=
  if n <? 24 then [byte0 m n] else
  if n <? 256 then byte0 m 24 :: be_bytes 1 n else
  if n <? 65536 then byte0 m 25 :: be_bytes 2 n else
  if n <? 4294967296 then byte0 m 26 :: be_bytes 4 n else
  byte0 m 27 :: be_bytes 8 n.

Definition eof : error := errorf "EOF".

Definition raw (n : Z) : reader bytes := λ inp,
  if len inp <? n then (Err eof, []) else
  (Ok (take (Z.to_nat n) inp), drop (Z.to_nat n) inp).

Definition rd_byte : reader Byte.byte := λ inp,
  match inp with [] => (Err eof, []) | b :: r => (Ok b, r) end.

Definition majors_tail (b : Byte.byte) : reader (MajorType * Z) :=
  if bool_decide (b = Byte.xff) then fail FlagBreakCode else
  if bool_decide (b = Byte.x9f) then fail (errorf "FlagIndefiniteArray") else
  let m := major_of (Z_of_byte b / 32) in
  let info := Z_of_byte b mod 32 in
  if info <? 24 then mret (m, info) else
  if info =? 24 then l ← raw 1; mret (m, be_value l) else
  if info =? 25 then l ← raw 2; mret (m, be_value l) else
  if info =? 26 then l ← raw 4; mret (m, be_value l) else
  if info =? 27 then l ← raw 8; mret (m, be_value l) else
  fail (errorf "unknown additional information").

Definition majors : reader (MajorType * Z) := b ← rd_byte; majors_tail b.

Definition expect_major (m : MajorType) : reader Z :=
  '(m', n) ← majors;
  if bool_decide (m = m') then mret n else fail (errorf "wrong major type").

Definition expect (b : Byte.byte) : reader () :=
  b' ← rd_byte;
  if bool_decide (b = b') then mret () else fail (errorf "unexpected byte").

Definition bstr : reader bytes :=
  n ← expect_major ByteString; raw n.

Definition boolean : reader bool :=
  n ← expect_major SimpleData;
  if n =? 20 then mret false else
  if n =? 21 then mret true else fail (errorf "no boolean").

Definition float64 : reader Z :=
  expect (byte0 SimpleData 27);; l ← raw 8; mret (be_value l).
End Rfc8949.

#[export] Instance rfc8949 : Cboring := {|
  IndefiniteArray := Byte.x9f;
  BreakCode := Byte.xff;
  WriteUInt := Rfc8949.head UInt;
  WriteArrayLength := Rfc8949.head Array;
  WriteByteStringLen := Rfc8949.head ByteString;
  WriteMapPairLength := Rfc8949.head Map;
  WriteByteString d := Rfc8949.head ByteString (len d) ++ d;
  WriteTextString d := Rfc8949.head TextString (len d) ++ d;
  WriteBoolean b := Rfc8949.head SimpleData (if b then 21 else 20);
  WriteFloat64 z := Rfc8949.byte0 SimpleData 27 :: be_bytes 8 z;
  ReadMajors := Rfc8949.majors;
  ReadRawBytes := Rfc8949.raw;
  ReadExpect := Rfc8949.expect;
  ReadUInt := Rfc8949.expect_major UInt;
  ReadArrayLength := Rfc8949.expect_major Array;
  ReadByteStringLen := Rfc8949.expect_major ByteString;
  ReadMapPairLength := Rfc8949.expect_major Map;
  ReadByteString := Rfc8949.bstr;
  ReadBoolean := Rfc8949.boolean;
  ReadFloat64 := Rfc8949.float64;
|}.

(** ** The concrete codec satisfies the laws *)

Section Rfc8949Laws.
Local Open Scope Z_scope.
Import Rfc8949.

Lemma byte0_value m i : 0 ≤ i < 32 → Z_of_byte (byte0 m i) = 32 * major_no m + i.
Proof. intros. unfold byte0. rewrite Z_of_byte_of_Z, Z.mod_small; destruct m; simpl; lia. Qed.

Lemma byte0_flags m i : 0 ≤ i < 28 → byte0 m i ≠ Byte.xff ∧ byte0 m i ≠ Byte.x9f.
Proof.
  intros Hi. pose proof (byte0_value m i ltac:(lia)) as H.
  split; intros E; rewrite E in H;
    [change (Z_of_byte Byte.xff) with 255 in H | change (Z_of_byte Byte.x9f) with 159 in H];
    destruct m; simpl in H; lia.
Qed.

Lemma major_of_no m : major_of (major_no m) = m.
Proof. by destruct m. Qed.

Lemma raw_app d r : raw (len d) (d ++ r) = (Ok d, r).
Proof.
  unfold raw. rewrite len_app. pose proof (len_nonneg r).
  rewrite (proj2 (Z.ltb_ge _ _)) by lia. unfold len. rewrite Nat2Z.id.
  by rewrite take_app_length, drop_app_length.
Qed.

Lemma raw_be n z r : 0 ≤ z < 256 ^ Z.of_nat n →
  (l ← raw (Z.of_nat n); mret (be_value l)) (be_bytes n z ++ r) = (Ok z, r).
Proof.
  intros. pose proof (raw_app (be_bytes n z) r) as Hr.
  unfold len in Hr. rewrite be_bytes_length in Hr.
  erewrite bind_ok by exact Hr. unfold mret, M_ret. by rewrite be_value_bytes.
Qed.

(** What [majors] does with a first byte of ours. *)
Lemma majors_byte0 m i r : 0 ≤ i < 28 →
  majors (byte0 m i :: r) =
  (if i <? 24 then mret (m, i) else
   if i =? 24 then l ← raw 1; mret (m, be_value l) else
   if i =? 25 then l ← raw 2; mret (m, be_value l) else
   if i =? 26 then l ← raw 4; mret (m, be_value l) else
   if i =? 27 then l ← raw 8; mret (m, be_value l) else
   fail (errorf "unknown additional information")) r.
Proof.
  intros Hi. destruct (byte0_flags m i Hi) as [H1 H2].
  unfold majors. erewrite bind_ok by done. unfold majors_tail.
  rewrite !bool_decide_eq_false_2 by done.
  rewrite byte0_value by lia.
  rewrite (Z.mul_comm 32), Z.div_add_l, (Z.div_small i) by lia.
  rewrite Z.add_0_r, major_of_no, Z.add_comm, Z.mod_add, Z.mod_small by lia. done.
Qed.

Lemma raw_pair m n z r : 0 ≤ z < 256 ^ Z.of_nat n →
  (l ← raw (Z.of_nat n); mret (M := M bytes) (m : MajorType, be_value l)) (be_bytes n z ++ r) = (Ok (m, z), r).
Proof.
  intros. pose proof (raw_app (be_bytes n z) r) as Hr.
  unfold len in Hr. rewrite be_bytes_length in Hr.
  erewrite bind_ok by exact Hr. unfold mret, M_ret. by rewrite be_value_bytes.
Qed.

Lemma majors_head m n r : is_u64 n → majors (head m n ++ r) = (Ok (m, n), r).
Proof.
  unfold is_u64, two64. intros Hn. unfold head.
  destruct (Z.ltb_spec n 24).
  { simpl app. rewrite majors_byte0 by lia. by rewrite (proj2 (Z.ltb_lt n 24)) by lia. }
  destruct (Z.ltb_spec n 256).
  { simpl app. rewrite majors_byte0 by lia. apply (raw_pair m 1). lia. }
  destruct (Z.ltb_spec n 65536).
  { rewrite <- app_comm_cons, majors_byte0 by lia. apply (raw_pair m 2). lia. }
  destruct (Z.ltb_spec n 4294967296).
  { rewrite <- app_comm_cons, majors_byte0 by lia. apply (raw_pair m 4). lia. }
  rewrite <- app_comm_cons, majors_byte0 by lia. apply (raw_pair m 8). lia.
Qed.

Lemma expect_major_head m n r : is_u64 n → expect_major m (head m n ++ r) = (Ok n, r).
Proof.
  intros. unfold expect_major. erewrite bind_ok by (by apply majors_head).
  simpl. by rewrite bool_decide_eq_true_2.
Qed.

Lemma head_length m n : len (head m n) = head_len n.
Proof.
  unfold head, head_len, len. repeat case_match; simpl length; rewrite ?be_bytes_length; lia.
Qed.

(** Readers that never give input back. *)
Definition shrinks {A} (m : reader A) : Prop := ∀ inp, (length (m inp).2 ≤ length inp)%nat.

Lemma shrinks_bind {A B} (m : reader A) (k : A → reader B) :
  shrinks m → (∀ a, shrinks (k a)) → shrinks (x ← m; k x).
Proof.
  intros Hm Hk inp. unfold mbind, M_bind. specialize (Hm inp).
  destruct (m inp) as [[a| |] inp']; simpl in *; [|lia..]. specialize (Hk a inp'). lia.
Qed.

Lemma raw_shrinks n : shrinks (raw n).
Proof. intros inp. unfold raw. case_match; simpl; rewrite ?length_drop; lia. Qed.

Lemma majors_tail_shrinks b : shrinks (majors_tail b).
Proof.
  unfold majors_tail. cbv zeta.
  repeat case_match; try (intros inp; simpl; lia); (apply shrinks_bind; [apply raw_shrinks|]);
    intros l inp; simpl; lia.
Qed.

Lemma majors_progress inp x r : majors inp = (Ok x, r) → (length r < length inp)%nat.
Proof.
  destruct inp as [|b inp]; [done|]. unfold majors. erewrite bind_ok by done.
  intros E. pose proof (majors_tail_shrinks b inp) as Hs. rewrite E in Hs. simpl in *. lia.
Qed.

Lemma majors_shrinks : shrinks majors.
Proof.
  intros [|b inp]; [done|]. unfold majors. erewrite bind_ok by done.
  pose proof (majors_tail_shrinks b inp). simpl in *. lia.
Qed.

Lemma expect_major_shrinks m : shrinks (expect_major m).
Proof.
  apply shrinks_bind; [apply majors_shrinks|]. intros [m' n] inp. case_match; simpl; lia.
Qed.

Lemma expect_major_progress m inp n r : expect_major m inp = (Ok n, r) → (length r < length inp)%nat.
Proof.
  unfold expect_major, mbind, M_bind. destruct (majors inp) as [[[m' n']| |] inp'] eqn:E; [|done..].
  apply majors_progress in E. unfold mret, M_ret, fail. case_match; [|done]. intros [= <- <-]. done.
Qed.

Lemma raw_taken n inp d r : 0 ≤ n → raw n inp = (Ok d, r) → len d = n.
Proof.
  intros Hn. unfold raw. destruct (Z.ltb_spec (len inp) n); [done|]. intros [= <- _]. unfold len in *. rewrite length_take. lia.
Qed.

Lemma raw_inside n inp d r : raw n inp = (Ok d, r) → (length d + length r ≤ length inp)%nat.
Proof. unfold raw. case_match; [done|]. intros [= <- <-]. rewrite length_take, length_drop. lia. Qed.

Lemma raw_value_u64 k m inp x n r : 0 ≤ k ≤ 8 → (l ← raw k; mret (M := M bytes) (m : MajorType, be_value l)) inp = (Ok (x, n), r) → is_u64 n.
Proof.
  intros Hk. unfold mbind, M_bind. destruct (raw k inp) as [[l| |] i] eqn:E; [|done..]. intros [= _ <- _].
  apply raw_taken in E; [|lia]. pose proof (be_value_range l) as Hr. unfold len in E. unfold is_u64, two64.
  assert (256 ^ Z.of_nat (length l) ≤ 256 ^ 8) by (apply Z.pow_le_mono_r; lia). lia.
Qed.

Lemma majors_range inp m n r : majors inp = (Ok (m, n), r) → is_u64 n.
Proof.
  destruct inp as [|b inp]; [done|]. unfold majors. erewrite bind_ok by done. unfold majors_tail. cbv zeta.
  do 2 (case_match; [done|]). pose proof (Z.mod_pos_bound (Z_of_byte b) 32 ltac:(lia)).
  destruct (Z.ltb_spec (Z_of_byte b mod 32) 24); [intros [= _ <- _]; unfold is_u64, two64; lia|].
  do 4 (case_match; [apply raw_value_u64; lia|]). done.
Qed.

Lemma expect_major_range m inp n r : expect_major m inp = (Ok n, r) → is_u64 n.
Proof.
  unfold expect_major, mbind, M_bind. destruct (majors inp) as [[[m' n']| |] inp'] eqn:E; [|done..].
  apply majors_range in E. unfold mret, M_ret, fail. case_match; [|done]. by intros [= <- _].
Qed.

#[export] Instance rfc8949_laws : CboringLaws rfc8949.
Proof.
  split; cbn [WriteUInt WriteArrayLength WriteByteStringLen WriteMapPairLength WriteByteString
    WriteTextString WriteBoolean WriteFloat64 ReadMajors ReadRawBytes ReadExpect ReadUInt
    ReadArrayLength ReadByteStringLen ReadMapPairLength ReadByteString ReadBoolean ReadFloat64
    BreakCode rfc8949]; intros; try (by apply expect_major_head).
  - rewrite <- app_assoc. unfold bstr. erewrite bind_ok by (by apply expect_major_head).
    apply raw_app.
  - unfold boolean. by destruct b; erewrite bind_ok by (by apply expect_major_head; u64_lia).
  - unfold float64. simpl app. erewrite bind_ok by (unfold expect; by erewrite bind_ok by done).
    apply (raw_be 8). u64_lia.
  - by apply majors_head.
  - rewrite <- app_assoc. by apply majors_head.
  - apply raw_app.
  - unfold expect. erewrite bind_ok by done. by rewrite bool_decide_eq_true_2.
  - done.
  - by eapply expect_major_progress.
  - apply expect_major_shrinks.
  - revert inp. apply shrinks_bind; [apply expect_major_shrinks|apply raw_shrinks].
  - by eapply expect_major_progress.
  - apply expect_major_shrinks.
  - apply expect_major_shrinks.
  - apply majors_shrinks.
  - apply raw_shrinks.
  - destruct inp as [|b' inp]; [done|]. unfold expect. erewrite bind_ok by done. case_match; simpl; lia.
  - by eapply expect_major_range.
  - by eapply majors_range.
  - match goal with E : bstr _ = _ |- _ => unfold bstr, mbind, M_bind in E end. destruct (expect_major ByteString inp) as [[n| |] i] eqn:E; [|done..].
    apply expect_major_range in E. match goal with E : raw _ _ = _ |- _ => apply raw_taken in E; [congruence|u64_lia] end.
  - match goal with E : raw _ _ = _ |- _ => apply raw_taken in E; [done|u64_lia] end.
  - by eapply raw_inside.
  - match goal with E : bstr _ = _ |- _ => unfold bstr, mbind, M_bind in E end. pose proof (expect_major_shrinks ByteString inp) as Hs.
    destruct (expect_major ByteString inp) as [[n| |] i]; [|done..]. simpl in Hs.
    match goal with E : raw _ _ = _ |- _ => apply raw_inside in E; lia end.
  - done.
  - apply head_length.
  - apply head_length.
  - apply head_length.
  - by rewrite len_app, head_length.
Qed.

End Rfc8949Laws.
