(* ===== verification/GoStrings.v ===== *)
(** * The string functions of Go's standard library the code uses

    [strings.HasPrefix], [strings.Split], [strings.SplitN], [fmt]'s [%d] on
    unsigned numbers, [strconv.ParseUint] in base 10, and character classes of
    the regular expressions in [pkg/bpv7]. *)

From stdpp Require Import base tactics list strings pretty.
From Stdlib Require Import ZArith Lia Ascii.
From S2P Require Import Prelude.
Local Open Scope Z_scope.

Fixpoint string_forall (p : ascii → bool) (s : string) : bool :=
  match s with
  | EmptyString => true
  | String a s => p a && string_forall p s
  end.

Definition nonempty (s : string) : bool :=
  match s with EmptyString => false | _ => true end.

(** Cut at the first occurrence of [c]: [strings.SplitN(s, c, 2)]. *)
Fixpoint split_first (c : ascii) (s : string) : string * option string :=
  match s with
  | EmptyString => (EmptyString, None)
  | String a s' =>
      if bool_decide (a = c) then (EmptyString, Some s') else
      let '(l, r) := split_first c s' in (String a l, r)
  end.

(** [strings.Split(s, c)] for a one-character separator. *)
Fixpoint split_all (c : ascii) (s : string) : list string :=
  match s with
  | EmptyString => [EmptyString]
  | String a s' =>
      if bool_decide (a = c) then EmptyString :: split_all c s' else
      match split_all c s' with
      | [] => [String a EmptyString]
      | p :: ps => String a p :: ps
      end
  end.

Definition between (lo hi : Z) (a : ascii) : bool :=
  let n := Z.of_nat (nat_of_ascii a) in (lo <=? n) && (n <=? hi).

Definition is_digit (a : ascii) : bool := between 48 57 a.
(** [[[:alnum:]]] *)
Definition is_alnum (a : ascii) : bool := is_digit a || between 65 90 a || between 97 122 a.
(** [\w] *)
Definition is_word (a : ascii) : bool := is_alnum a || bool_decide (a = "_"%char).
(** [.] without the [s] flag: everything but a line feed. *)
Definition is_dot (a : ascii) : bool := negb (bool_decide (a = "010"%char)).

Definition digit_value (a : ascii) : option Z :=
  if is_digit a then Some (Z.of_nat (nat_of_ascii a) - 48) else None.

Fixpoint dec_value (acc : Z) (s : string) : option Z :=
  match s with
  | EmptyString => Some acc
  | String a s => d ← digit_value a; dec_value (acc * 10 + d) s
  end.

(** [strconv.ParseUint(s, 10, 64)] *)
Definition ParseUint (s : string) : res Z :=
  if nonempty s then
    match dec_value 0 s with
    | None => Err (errorf "strconv.ParseUint: invalid syntax")
    | Some n => if n <? two64 then Ok n else Err (errorf "strconv.ParseUint: value out of range")
    end
  else Err (errorf "strconv.ParseUint: invalid syntax").

(** [%d] of an unsigned integer. *)
Definition fmt_d (n : Z) : string := pretty (Z.to_N n).

(** ** Lemmas *)

Lemma string_forall_app p s t : string_forall p (s +:+ t) = string_forall p s && string_forall p t.
Proof. induction s as [|a s IH]; [done|]. change (String a s +:+ t) with (String a (s +:+ t)).
  simpl. rewrite IH. by rewrite andb_assoc. Qed.

Lemma string_forall_impl (p q : ascii → bool) s :
  (∀ a, p a = true → q a = true) → string_forall p s = true → string_forall q s = true.
Proof.
  intros Hpq. induction s as [|a s IH]; simpl; [done|]. rewrite !andb_true_iff. intros []. auto.
Qed.

Definition not_char (c : ascii) : ascii → bool := λ a, negb (bool_decide (a = c)).

Lemma split_first_app c s t : string_forall (not_char c) s = true →
  split_first c (s +:+ String c t) = (s, Some t).
Proof.
  induction s as [|a s IH]; intros H.
  - change (EmptyString +:+ String c t) with (String c t). simpl. by rewrite bool_decide_eq_true_2.
  - change (String a s +:+ String c t) with (String a (s +:+ String c t)).
    simpl in H. apply andb_true_iff in H as [Ha H]. unfold not_char in Ha.
    simpl. destruct (bool_decide (a = c)); [done|]. by rewrite IH.
Qed.

(** What a successful cut says about the string. *)
Lemma split_first_Some c s l r : split_first c s = (l, Some r) →
  s = l +:+ String c r ∧ string_forall (not_char c) l = true.
Proof.
  revert l. induction s as [|a s IH]; simpl; intros l H; [done|].
  unfold not_char in *. destruct (bool_decide (a = c)) eqn:E.
  - apply bool_decide_eq_true in E as ->. simplify_eq. done.
  - destruct (split_first c s) as [l' r'] eqn:Es. simplify_eq.
    destruct (IH l' eq_refl) as [-> H]. simpl. by rewrite E, H.
Qed.

Lemma split_all_app c s t : string_forall (not_char c) s = true →
  split_all c (s +:+ String c t) = s :: split_all c t.
Proof.
  induction s as [|a s IH]; intros H.
  - change (EmptyString +:+ String c t) with (String c t). simpl. by rewrite bool_decide_eq_true_2.
  - change (String a s +:+ String c t) with (String a (s +:+ String c t)).
    simpl in H. apply andb_true_iff in H as [Ha H]. unfold not_char in Ha.
    simpl. destruct (bool_decide (a = c)); [done|]. by rewrite IH.
Qed.

Lemma split_all_none c s : string_forall (not_char c) s = true → split_all c s = [s].
Proof.
  induction s as [|a s IH]; intros H; [done|].
  simpl in H. apply andb_true_iff in H as [Ha H]. unfold not_char in Ha.
  simpl. destruct (bool_decide (a = c)); [done|]. by rewrite IH.
Qed.

(** Digits and decimal numbers. *)
Lemma pretty_N_char_digit n : (n < 10)%N →
  is_digit (pretty_N_char n) = true ∧ digit_value (pretty_N_char n) = Some (Z.of_N n).
Proof.
  intros. assert (n = 0 ∨ n = 1 ∨ n = 2 ∨ n = 3 ∨ n = 4 ∨ n = 5 ∨ n = 6 ∨ n = 7 ∨ n = 8 ∨ n = 9)%N
    as Hn by lia.
  repeat (destruct Hn as [->|Hn]; [by split|]). by subst.
Qed.

Lemma dec_value_pretty_go x s : dec_value 0 (pretty_N_go x s) = dec_value (Z.of_N x) s.
Proof.
  revert s. induction (N.lt_wf_0 x) as [x _ IH]; intros s.
  destruct (decide (x = 0)%N) as [->|Hx]; [by rewrite pretty_N_go_0|].
  rewrite pretty_N_go_step by lia. rewrite IH by (apply N.div_lt; lia).
  destruct (pretty_N_char_digit (x mod 10)) as [_ Hd]; [by apply N.mod_lt|].
  cbn [dec_value]. rewrite Hd. cbn [mbind option_bind].
  f_equal. pose proof (N.div_mod x 10). lia.
Qed.

Lemma pretty_go_digits x s : string_forall is_digit s = true → string_forall is_digit (pretty_N_go x s) = true.
Proof.
  revert s. induction (N.lt_wf_0 x) as [x _ IH]; intros s Hs.
  destruct (decide (x = 0)%N) as [->|Hx]; [by rewrite pretty_N_go_0|].
  rewrite pretty_N_go_step by lia. apply IH; [apply N.div_lt; lia|].
  destruct (pretty_N_char_digit (x mod 10)) as [Hd _]; [by apply N.mod_lt|].
  simpl. by rewrite Hd, Hs.
Qed.

Lemma pretty_go_nonempty x s : nonempty s = true → nonempty (pretty_N_go x s) = true.
Proof.
  revert s. induction (N.lt_wf_0 x) as [x _ IH]; intros s Hs.
  destruct (decide (x = 0)%N) as [->|Hx]; [by rewrite pretty_N_go_0|].
  rewrite pretty_N_go_step by lia. apply IH; [apply N.div_lt; lia|done].
Qed.

Lemma fmt_d_unfold n : fmt_d n = if decide (Z.to_N n = 0)%N then "0" else pretty_N_go (Z.to_N n) "".
Proof. done. Qed.

Lemma fmt_d_nonempty n : nonempty (fmt_d n) = true.
Proof.
  rewrite fmt_d_unfold. case_decide; [done|]. rewrite pretty_N_go_step by lia.
  by apply pretty_go_nonempty.
Qed.

Lemma fmt_d_digits n : string_forall is_digit (fmt_d n) = true.
Proof. rewrite fmt_d_unfold. case_decide; [done|]. by apply pretty_go_digits. Qed.

Lemma dec_value_fmt_d n : 0 ≤ n → dec_value 0 (fmt_d n) = Some n.
Proof.
  intros Hn. rewrite fmt_d_unfold. case_decide; [change (dec_value 0 "0") with (Some 0); f_equal; lia|].
  rewrite dec_value_pretty_go. simpl dec_value. f_equal. lia.
Qed.

Lemma ParseUint_fmt_d n : is_u64 n → ParseUint (fmt_d n) = Ok n.
Proof.
  intros Hn. unfold ParseUint. rewrite fmt_d_nonempty, dec_value_fmt_d by u64_lia.
  by rewrite (proj2 (Z.ltb_lt _ _)) by u64_lia.
Qed.

Lemma ParseUint_u64 s n : ParseUint s = Ok n → n < two64.
Proof. unfold ParseUint. repeat case_match; intros; simplify_eq. by apply Z.ltb_lt. Qed.

Lemma digit_not_char c a : is_digit c = false → is_digit a = true → not_char c a = true.
Proof. unfold not_char. intros Hc Ha. rewrite bool_decide_eq_false_2; [done|congruence]. Qed.

Lemma fmt_d_not_char c n : is_digit c = false → string_forall (not_char c) (fmt_d n) = true.
Proof. intros. eapply string_forall_impl, fmt_d_digits. by intros; apply digit_not_char. Qed.

Lemma app_assoc_string (s t u : string) : (s +:+ t) +:+ u = s +:+ (t +:+ u).
Proof. induction s as [|a s IH]; [done|]. change (String a ((s +:+ t) +:+ u) = String a (s +:+ (t +:+ u))). by rewrite IH. Qed.

Lemma append_nil (s : string) : "" +:+ s = s.
Proof. done. Qed.

Lemma app_nil_string (s : string) : s +:+ "" = s.
Proof. induction s as [|a s IH]; [done|]. change (String a (s +:+ "") = String a s). by rewrite IH. Qed.

Lemma append_cons a (s t : string) : String a s +:+ t = String a (s +:+ t).
Proof. done. Qed.

Lemma length_append (s t : string) : String.length (s +:+ t) = (String.length s + String.length t)%nat.
Proof. induction s as [|a s IH]; [done|]. rewrite append_cons. simpl. by rewrite IH. Qed.

(** An equation between concatenations splits where the lengths agree. *)
Lemma append_inj_head (s s' t t' : string) : String.length s = String.length s' →
  s +:+ t = s' +:+ t' → s = s' ∧ t = t'.
Proof.
  revert s'. induction s as [|a s IH]; intros [|a' s'] Hl; try done.
  rewrite !append_cons. intros [= -> E]. destruct (IH s') as [-> ->]; auto.
Qed.

Lemma append_inj_tail (s s' t t' : string) : String.length t = String.length t' →
  s +:+ t = s' +:+ t' → s = s' ∧ t = t'.
Proof.
  intros Hl E. apply append_inj_head; [|done].
  apply (f_equal String.length) in E. rewrite !length_append in E. lia.
Qed.
