(* ===== verification/GoSort.v ===== *)
(** * Go's [sort]

    [sort.Sort] and [sort.Slice] arrange a slice so that no later element is less
    than an earlier one; they are not stable.  [go_sort] is the insertion sort
    that the standard library runs on slices of at most twelve elements.  On
    elements that [less] tells apart every correct sort returns the same slice
    ([go_sort_unique]), so for those the choice of algorithm does not matter. *)

From stdpp Require Import base tactics list sorting.
From S2P Require Import Prelude.

Section GoSort.
Context {A : Type} (less : A → A → bool).

Fixpoint go_insert (x : A) (l : list A) : list A :=
  match l with
  | [] => [x]
  | y :: l' => if less x y then x :: y :: l' else y :: go_insert x l'
  end.

Definition go_sort (l : list A) : list A := foldl (λ acc x, go_insert x acc) [] l.

(** [not_less x y]: [x] may stand before [y]. *)
Definition not_less (x y : A) : Prop := less y x = false.

Lemma go_insert_perm x l : go_insert x l ≡ₚ x :: l.
Proof.
  induction l as [|y l IH]; simpl; [done|]. case_match; [done|].
  rewrite IH. apply Permutation_swap.
Qed.

Lemma go_sort_perm l : go_sort l ≡ₚ l.
Proof.
  unfold go_sort. induction l as [|x l IH] using rev_ind; [done|].
  rewrite foldl_app. simpl. rewrite go_insert_perm, IH. apply Permutation_cons_append.
Qed.

Hypothesis less_asym : ∀ x y, less x y = true → less y x = false.
Hypothesis not_less_trans : ∀ x y z, not_less x y → not_less y z → not_less x z.

Lemma go_insert_sorted x l : StronglySorted not_less l → StronglySorted not_less (go_insert x l).
Proof.
  induction 1 as [|y l Hl IH Hy]; simpl; [repeat constructor|].
  destruct (less x y) eqn:E.
  - assert (not_less x y) by (by apply less_asym).
    repeat constructor; [done..|]. eapply Forall_impl; [exact Hy|]. intros z Hz. by eapply not_less_trans.
  - constructor; [done|]. rewrite go_insert_perm. by constructor.
Qed.

Lemma go_sort_sorted l : StronglySorted not_less (go_sort l).
Proof.
  unfold go_sort. induction l as [|x l IH] using rev_ind; [constructor|].
  rewrite foldl_app. simpl. by apply go_insert_sorted.
Qed.

(** Every sorted rearrangement of elements that [less] tells apart is the same. *)
Lemma go_sort_unique l l' :
  (∀ x y, x ∈ l → y ∈ l → not_less x y → not_less y x → x = y) →
  l' ≡ₚ l → StronglySorted not_less l' → l' = go_sort l.
Proof.
  intros Hanti Hp Hs. apply (StronglySorted_unique_strong not_less); [|done|apply go_sort_sorted|].
  - intros x y Hx Hy. rewrite Hp in Hx. rewrite go_sort_perm in Hy. by apply Hanti.
  - by rewrite go_sort_perm.
Qed.

(** Sorting a sorted slice changes nothing. *)
Lemma go_insert_last x l : Forall (λ y, not_less y x) l → go_insert x l = l ++ [x].
Proof.
  induction 1 as [|y l Hy Hl IH]; simpl; [done|]. unfold not_less in Hy. by rewrite Hy, IH.
Qed.

Lemma go_sort_id l : StronglySorted not_less l → go_sort l = l.
Proof.
  unfold go_sort. induction l as [|x l IH] using rev_ind; [done|].
  intros Hs. rewrite foldl_app. simpl. apply StronglySorted_app in Hs as (Hx & Hl & _).
  rewrite IH by done. apply go_insert_last, Forall_forall. intros y Hy. by apply Hx, list_elem_of_singleton.
Qed.
End GoSort.
