(* ===== verification/GoTime.v ===== *)
(** * Floats and durations of the Go standard library

    What the bundle builder uses of [float64], [time.ParseDuration] and
    [encoding/binary].  A [float64] is its IEEE bit pattern; arithmetic on it is that
    of the Standard Library's specification of binary floats. *)

From stdpp Require Import base tactics list strings gmap.
From Stdlib Require Import ZArith Lia Bool Ascii Floats.SpecFloat.
From S2P Require Import Prelude GoStrings.
Local Open Scope Z_scope.

(** ** [float64] *)

Definition f64_prec : Z := 53.
Definition f64_emax : Z := 1024.

(** The number a bit pattern stands for. *)
Definition f64_of_bits (bits : Z) : spec_float :=
  let sign := Z.testbit bits 63 in
  let exponent := Z.land (Z.shiftr bits 52) 2047 in
  let mantissa := Z.land bits (2 ^ 52 - 1) in
  if exponent =? 2047 then (if mantissa =? 0 then S754_infinity sign else S754_nan)
  else if exponent =? 0 then
    match mantissa with Zpos m => S754_finite sign m (-1074) | _ => S754_zero sign end
  else
    match mantissa + 2 ^ 52 with Zpos m => S754_finite sign m (exponent - 1075) | _ => S754_nan end.

Definition f64_of_Z (z : Z) : spec_float := binary_normalize f64_prec f64_emax z 0 false.
Definition f64_mul : spec_float → spec_float → spec_float := SFmul f64_prec f64_emax.
Definition f64_div : spec_float → spec_float → spec_float := SFdiv f64_prec f64_emax.

(** [f < 0], false for a NaN and for both zeros. *)
Definition f64_negative (f : spec_float) : bool := SFltb f (S754_zero false).

(** The integer part, towards zero, of a number. *)
Definition f64_trunc (f : spec_float) : option Z :=
  match f with
  | S754_zero _ => Some 0
  | S754_finite sign m e =>
      let v := if 0 <=? e then Zpos m * 2 ^ e else Zpos m / 2 ^ (- e) in
      Some (if sign then - v else v)
  | _ => None
  end.

(** What converting a float that does not fit gives is left to the implementation
    by the language. *)
Class GoFloat := float_overflow : spec_float → Z.

Definition f64_to_uint64 `{GoFloat} (f : spec_float) : Z :=
  match f64_trunc f with
  | Some v => if (0 <=? v) && (v <? two64) then v else wrap_u64 (float_overflow f)
  | None => wrap_u64 (float_overflow f)
  end.

(** ** [time.ParseDuration] *)

(** [leadingInt]: the digits at the start, if they are at most 2^63. *)
Fixpoint leadingInt (x : Z) (s : string) : option (Z * string) :=
  match s with
  | String c s' =>
      match digit_value c with
      | None => Some (x, s)
      | Some d =>
          if two63 / 10 <? x then None else
          let x := x * 10 + d in
          if two63 <? x then None else leadingInt x s'
      end
  | EmptyString => Some (x, s)
  end.

(** [leadingFraction]: digits after those that fit are skipped. *)
Fixpoint leadingFraction (x : Z) (scale : spec_float) (overflow : bool) (s : string) : Z * spec_float * string :=
  match s with
  | String c s' =>
      match digit_value c with
      | None => (x, scale, s)
      | Some d =>
          if overflow then leadingFraction x scale true s' else
          if (two63 - 1) / 10 <? x then leadingFraction x scale true s' else
          let y := x * 10 + d in
          if two63 <? y then leadingFraction x scale true s' else
          leadingFraction y (f64_mul scale (f64_of_Z 10)) false s'
      end
  | EmptyString => (x, scale, s)
  end.

(** The unit: everything up to the next digit or dot. *)
Fixpoint split_unit (s : string) : string * string :=
  match s with
  | EmptyString => (EmptyString, EmptyString)
  | String c s' =>
      if bool_decide (c = "."%char) || match digit_value c with Some _ => true | None => false end then (EmptyString, s)
      else let '(u, r) := split_unit s' in (String c u, r)
  end.

Definition unitMap (u : string) : option Z :=
  if bool_decide (u = "ns") then Some 1 else
  if bool_decide (u ∈ ["us"; "µs"; "μs"]) then Some 1000 else
  if bool_decide (u = "ms") then Some 1000000 else
  if bool_decide (u = "s") then Some 1000000000 else
  if bool_decide (u = "m") then Some 60000000000 else
  if bool_decide (u = "h") then Some 3600000000000 else None.

(** One number with its unit: nanoseconds and the rest of the text. *)
Definition parse_item (s : string) : option (Z * string) :=
  '(v, r) ← leadingInt 0 s;
  let pre := negb (Nat.eqb (String.length s) (String.length r)) in
  let '(f, scale, post, r) :=
    match r with
    | String "."%char r' =>
        let '(f, scale, r'') := leadingFraction 0 (f64_of_Z 1) false r' in
        (f, scale, negb (Nat.eqb (String.length r') (String.length r'')), r'')
    | _ => (0, f64_of_Z 1, false, r)
    end in
  if negb pre && negb post then None else
  let '(u, r) := split_unit r in
  if bool_decide (u = "") then None else
  unit ← unitMap u;
  if two63 / unit <? v then None else
  let v := v * unit in
  let v := if 0 <? f then
             match f64_trunc (f64_mul (f64_of_Z f) (f64_div (f64_of_Z unit) scale)) with Some n => v + n | None => v end
           else v in
  if two63 <? v then None else Some (v, r).

(** The loop over the items; every item has a unit, so the length of the text
    bounds the rounds. *)
Fixpoint parse_items (fuel : nat) (d : Z) (s : string) : option Z :=
  match s, fuel with
  | EmptyString, _ => Some d
  | _, O => None
  | _, S fuel =>
      '(v, r) ← parse_item s;
      if two63 <? d + v then None else parse_items fuel (d + v) r
  end.

Definition ParseDuration (s : string) : res Z :=
  let '(neg, s) :=
    match s with
    | String "-"%char r => (true, r)
    | String "+"%char r => (false, r)
    | _ => (false, s)
    end in
  if bool_decide (s = "0") then Ok 0 else
  if bool_decide (s = "") then Err (errorf "time: invalid duration") else
  match parse_items (String.length s) 0 s with
  | None => Err (errorf "time: invalid duration")
  | Some d =>
      if neg then Ok (- d) else
      if two63 - 1 <? d then Err (errorf "time: invalid duration") else Ok d
  end.

Example ParseDuration_24h : ParseDuration "24h" = Ok 86400000000000.
Proof. vm_compute. reflexivity. Qed.
Example ParseDuration_mixed : ParseDuration "-1h30m.5s" = Ok (- 5400500000000).
Proof. vm_compute. reflexivity. Qed.
Example ParseDuration_micro : ParseDuration "2µs" = Ok 2000.
Proof. vm_compute. reflexivity. Qed.
Example ParseDuration_no_unit : ParseDuration "24" = Err (errorf "time: invalid duration").
Proof. vm_compute. reflexivity. Qed.

(** ** [binary.Write] with little-endian order *)

Definition le_bytes (n : nat) (z : Z) : bytes := reverse (be_bytes n z).

(** ** Fuel *)

Lemma leadingInt_length x s v r : leadingInt x s = Some (v, r) → (String.length r ≤ String.length s)%nat.
Proof.
  revert x. induction s as [|c s IH]; intros x; simpl; [intros; by simplify_eq|].
  destruct (digit_value c); [|intros; by simplify_eq]. repeat case_match; try done. intros E%IH. lia.
Qed.

Lemma leadingFraction_length x scale o s : (String.length (leadingFraction x scale o s).2 ≤ String.length s)%nat.
Proof.
  revert x scale o. induction s as [|c s IH]; intros x scale o; simpl; [done|].
  destruct (digit_value c); [|done]. repeat case_match; etrans; try apply IH; lia.
Qed.

Lemma split_unit_length s : let '(u, r) := split_unit s in (String.length u + String.length r = String.length s)%nat.
Proof. induction s as [|c s IH]; simpl; [done|]. destruct (_ || _); [done|]. destruct (split_unit s). simpl. lia. Qed.

(** An item is not empty. *)
Lemma parse_item_shorter s v r : parse_item s = Some (v, r) → (String.length r < String.length s)%nat.
Proof.
  unfold parse_item. generalize (f64_of_Z 1) as one. intros one. destruct (leadingInt 0 s) as [[v0 r0]|] eqn:E; [|done]. apply leadingInt_length in E. simpl.
  set (frac := match r0 with EmptyString => _ | String _ _ => _ end).
  assert (String.length frac.2 ≤ String.length r0)%nat as Hfrac.
  { subst frac. destruct r0 as [|c r']; [done|]. pose proof (leadingFraction_length 0 one false r') as Hl.
    destruct (leadingFraction 0 one false r') as [[f scale] r'']. simpl in Hl. destruct c as [[] [] [] [] [] [] [] []]; simpl; lia. }
  destruct frac as [[[f scale] post] r1]. simpl in Hfrac. case_match; [done|].
  pose proof (split_unit_length r1) as Hu. destruct (split_unit r1) as [u r2].
  destruct (bool_decide (u = "")) eqn:Hne; [done|]. apply bool_decide_eq_false in Hne. destruct (unitMap u) as [unit|]; [|done]. simpl.
  repeat case_match; intros; simplify_eq; destruct u; simpl in *; try done; lia.
Qed.

(** More fuel than the length of the text changes nothing. *)
Lemma parse_items_fuel n m d s : (String.length s ≤ n)%nat → (String.length s ≤ m)%nat → parse_items n d s = parse_items m d s.
Proof.
  revert m d s. induction n as [|n IH]; intros [|m] d s Hn Hm; destruct s as [|c s]; simpl in Hn, Hm; try lia; try done.
  cbn [parse_items]. destruct (parse_item (String c s)) as [[v r]|] eqn:E; [|done]. simpl.
  apply parse_item_shorter in E. simpl in E. case_match; [done|]. apply IH; lia.
Qed.
