(* ===== verification/Flags.v ===== *)
(** * Processing control flags

    [pkg/bpv7/bundle_control_flags.go] and [pkg/bpv7/block_control_flags.go]:
    the flag words are [uint64], kept as [Z]; the masks are the code's. *)

From stdpp Require Import base tactics list strings.
From Stdlib Require Import ZArith Lia Bool.
From S2P Require Import Prelude.
Local Open Scope Z_scope.

(** ** Bundle processing control flags *)

Definition IsFragment : Z := 0x000001.
Definition AdministrativeRecordPayload : Z := 0x000002.
Definition MustNotFragmented : Z := 0x000004.
Definition RequestUserApplicationAck : Z := 0x000020.
Definition RequestStatusTime : Z := 0x000040.
Definition StatusRequestReception : Z := 0x004000.
Definition StatusRequestForward : Z := 0x010000.
Definition StatusRequestDelivery : Z := 0x020000.
Definition StatusRequestDeletion : Z := 0x040000.

(** [BundleControlFlags.Has], and the identical [BlockControlFlags.Has]. *)
Definition Has (bcf flag : Z) : bool := negb (Z.land bcf flag =? 0).

Definition BundleControlFlags_CheckValid (bcf : Z) : errors :=
  (if Has bcf IsFragment && Has bcf MustNotFragmented then
     [errorf "BundleControlFlags: both 'bundle is a fragment' and 'bundle must not be fragmented' flags are set"]
   else []) ++
  (let adminRecCheck :=
     negb (Has bcf AdministrativeRecordPayload) ||
     (negb (Has bcf StatusRequestReception) &&
      negb (Has bcf StatusRequestForward) &&
      negb (Has bcf StatusRequestDelivery) &&
      negb (Has bcf StatusRequestDeletion)) in
   if negb adminRecCheck then
     [errorf "BundleControlFlags: payload is administrative record => no status report request flags failed"]
   else []).

Definition BundleControlFlags_checks : list (Z * string) :=
  [(StatusRequestDeletion, "REQUESTED_DELETION_STATUS_REPORT");
   (StatusRequestDelivery, "REQUESTED_DELIVERY_STATUS_REPORT");
   (StatusRequestForward, "REQUESTED_FORWARD_STATUS_REPORT");
   (StatusRequestReception, "REQUESTED_RECEPTION_STATUS_REPORT");
   (RequestStatusTime, "REQUESTED_TIME_IN_STATUS_REPORT");
   (RequestUserApplicationAck, "REQUESTED_APPLICATION_ACK");
   (MustNotFragmented, "MUST_NOT_BE_FRAGMENTED");
   (AdministrativeRecordPayload, "ADMINISTRATIVE_PAYLOAD");
   (IsFragment, "IS_FRAGMENT")].

Definition BundleControlFlags_Strings (bcf : Z) : list string :=
  omap (λ '(field, text), if Has bcf field then Some text else None) BundleControlFlags_checks.

(** ** Block processing control flags *)

Definition ReplicateBlock : Z := 0x01.
Definition StatusReportBlock : Z := 0x02.
Definition DeleteBundle : Z := 0x04.
Definition RemoveBlock : Z := 0x10.

Definition BlockControlFlags_CheckValid (bcf : Z) : errors := [].

Definition BlockControlFlags_checks : list (Z * string) :=
  [(DeleteBundle, "DELETE_BUNDLE");
   (StatusReportBlock, "REQUEST_STATUS_REPORT");
   (RemoveBlock, "REMOVE_BLOCK");
   (ReplicateBlock, "REPLICATE_BLOCK")].

Definition BlockControlFlags_Strings (bcf : Z) : list string :=
  omap (λ '(field, text), if Has bcf field then Some text else None) BlockControlFlags_checks.

(** ** Lemmas *)

(** A one-bit mask tests that bit. *)
Lemma Has_bit bcf k : 0 ≤ k → Has bcf (2 ^ k) = Z.testbit bcf k.
Proof.
  intros Hk. unfold Has. destruct (Z.testbit bcf k) eqn:E.
  - apply negb_true_iff, Z.eqb_neq. intros H.
    apply (f_equal (λ z, Z.testbit z k)) in H.
    rewrite Z.land_spec, Z.pow2_bits_true, E, Z.bits_0 in H by lia. done.
  - apply negb_false_iff, Z.eqb_eq, Z.bits_inj'. intros n Hn.
    rewrite Z.land_spec, Z.bits_0, Z.pow2_bits_eqb by lia.
    destruct (Z.eqb_spec k n) as [->|]; [by rewrite E | apply andb_false_r].
Qed.

(** Setting one flag changes no other one-bit flag. *)
Lemma Has_lor_bit bcf k j : 0 ≤ k → 0 ≤ j →
  Has (Z.lor bcf (2 ^ k)) (2 ^ j) = Has bcf (2 ^ j) || (k =? j).
Proof. intros. rewrite !Has_bit, Z.lor_spec, Z.pow2_bits_eqb by lia. done. Qed.

Lemma Has_lor_IsFragment bcf : Has (Z.lor bcf IsFragment) IsFragment = true.
Proof. change IsFragment with (2 ^ 0). rewrite Has_lor_bit by lia. apply orb_true_r. Qed.

Lemma Has_ldiff_bit bcf k j : 0 ≤ k → 0 ≤ j →
  Has (Z.ldiff bcf (2 ^ k)) (2 ^ j) = Has bcf (2 ^ j) && negb (k =? j).
Proof. intros. rewrite !Has_bit, Z.ldiff_spec, Z.pow2_bits_eqb by lia. done. Qed.

(** Setting a flag and clearing it again gives the word back if it was clear. *)
Lemma ldiff_lor_bit bcf k : 0 ≤ k → Has bcf (2 ^ k) = false →
  Z.ldiff (Z.lor bcf (2 ^ k)) (2 ^ k) = bcf.
Proof.
  intros Hk H. rewrite Has_bit in H by lia. apply Z.bits_inj'. intros n Hn.
  rewrite Z.ldiff_spec, Z.lor_spec, Z.pow2_bits_eqb by lia.
  destruct (Z.eqb_spec k n) as [->|].
  - rewrite H. done.
  - by rewrite orb_false_r, andb_true_r.
Qed.

Lemma lor_u64 a b : is_u64 a → is_u64 b → is_u64 (Z.lor a b).
Proof.
  unfold is_u64, two64. change 18446744073709551616 with (2 ^ 64). intros Ha Hb.
  split; [by apply Z.lor_nonneg; split; lia|].
  destruct (Z.eq_dec (Z.lor a b) 0) as [->|]; [done|].
  pose proof (proj2 (Z.lor_nonneg a b) ltac:(lia)).
  apply Z.log2_lt_pow2; [lia|]. rewrite Z.log2_lor by lia.
  apply Z.max_lub_lt.
  - destruct (Z.eq_dec a 0) as [->|]; [done | apply Z.log2_lt_pow2; lia].
  - destruct (Z.eq_dec b 0) as [->|]; [done | apply Z.log2_lt_pow2; lia].
Qed.

(** [ldiff a b ≤ a] and [a ≤ lor a b]: clearing a flag never lengthens, and
    setting one never shortens, the encoding of a non-negative word. *)
Lemma ldiff_le_l a b : 0 ≤ a → Z.ldiff a b ≤ a.
Proof.
  intros Ha. apply Z.ldiff_le; [done|]. apply Z.bits_inj'. intros n Hn.
  rewrite !Z.ldiff_spec, Z.bits_0. by destruct (Z.testbit a n), (Z.testbit b n).
Qed.

Lemma lor_ge a b : 0 ≤ a → 0 ≤ b → a ≤ Z.lor a b.
Proof.
  intros Ha Hb. apply Z.ldiff_le; [by apply Z.lor_nonneg|]. apply Z.bits_inj'. intros n Hn.
  rewrite Z.ldiff_spec, Z.lor_spec, Z.bits_0. by destruct (Z.testbit a n), (Z.testbit b n).
Qed.

Lemma ldiff_u64 a b : is_u64 a → is_u64 (Z.ldiff a b).
Proof.
  intros Ha. pose proof (ldiff_le_l a b ltac:(u64_lia)).
  pose proof (proj2 (Z.ldiff_nonneg a b) ltac:(u64_lia)). u64_lia.
Qed.

Lemma check_strings_In (checks : list (Z * string)) bcf text :
  text ∈ omap (λ '(f, t), if Has bcf f then Some t else None) checks ↔
  ∃ f, (f, text) ∈ checks ∧ Has bcf f = true.
Proof.
  rewrite list_elem_of_omap. split.
  - intros ([f t] & Hin & H). destruct (Has bcf f) eqn:E; simplify_eq. eauto.
  - intros (f & Hin & H). exists (f, text). by rewrite H.
Qed.
