(* ===== verification/Crc.v ===== *)
(** * CRC values of blocks

    [pkg/bpv7/crc.go].  CRC-32C comes from Go's [hash/crc32] and is written out
    here bit by bit; CRC-16 comes from the third-party [howeyc/crc16] and is the
    parameter [Crc16]. *)

From stdpp Require Import base tactics list strings.
From Stdlib Require Import ZArith Lia Bool.
From S2P Require Import Prelude Cboring.
Local Open Scope Z_scope.

(** [CRCType] is a [uint64]; only three values are known. *)
Definition CRCNo : Z := 0.
Definition CRC16 : Z := 1.
Definition CRC32 : Z := 2.

Definition CRCType_String (c : Z) : string :=
  if c =? CRCNo then "no" else
  if c =? CRC16 then "16" else
  if c =? CRC32 then "32" else "unknown".

(** [crc16.Checksum(data, crc16table)]. *)
Class Crc16 := crc16_Checksum : bytes → Z.

(** [crc32.Checksum(data, crc32.MakeTable(crc32.Castagnoli))]: reflected
    polynomial, initial value and final complement all ones. *)
Definition Castagnoli : Z := 0x82f63b78.

Definition crc32_bit (c : Z) : Z :=
  if Z.odd c then Z.lxor (Z.shiftr c 1) Castagnoli else Z.shiftr c 1.

Definition crc32_byte (c : Z) (b : Byte.byte) : Z :=
  Nat.iter 8 crc32_bit (Z.lxor c (Z_of_byte b)).

Definition crc32_Checksum (data : bytes) : Z :=
  Z.lxor (foldl crc32_byte 0xffffffff data) 0xffffffff.

Example crc32_check_value :
  crc32_Checksum (str_bytes "123456789") = 0xe3069283.
Proof. vm_compute. reflexivity. Qed.

(** [emptyCRC]: the CRC field filled with zeros. *)
Definition emptyCRC (crcType : Z) : res bytes :=
  if crcType =? CRCNo then Ok [] else
  if crcType =? CRC16 then Ok (replicate 2 Byte.x00) else
  if crcType =? CRC32 then Ok (replicate 4 Byte.x00) else
  Err (errorf "unknown CRCType").

Section Calculate.
Context `{Cboring} `{Crc16}.

(** [calculateCRCBuff]: append the empty CRC field to the buffer and return the
    checksum of the whole, big-endian. *)
Definition calculateCRCBuff (buff : bytes) (crcType : Z) : res bytes :=
  data ← emptyCRC crcType;
  let buff := buff ++ WriteByteString data in
  if crcType =? CRCNo then Ok data else
  if crcType =? CRC16 then Ok (be_bytes 2 (crc16_Checksum buff)) else
  if crcType =? CRC32 then Ok (be_bytes 4 (crc32_Checksum buff)) else
  Err (errorf "unknown CRCType").

Definition crc_size (crcType : Z) : nat :=
  if crcType =? CRCNo then 0 else if crcType =? CRC16 then 2 else 4.

Definition crc_known (crcType : Z) : Prop :=
  crcType = CRCNo ∨ crcType = CRC16 ∨ crcType = CRC32.

Lemma calculateCRCBuff_known buff t : crc_known t →
  ∃ v, calculateCRCBuff buff t = Ok v ∧ length v = crc_size t.
Proof.
  intros [->|[->| ->]]; unfold calculateCRCBuff; simpl; eexists;
    (split; [reflexivity|]); rewrite ?be_bytes_length; done.
Qed.

Lemma calculateCRCBuff_Ok buff t v : calculateCRCBuff buff t = Ok v → crc_known t ∧ length v = crc_size t.
Proof.
  unfold calculateCRCBuff, emptyCRC, crc_known.
  destruct (Z.eqb_spec t CRCNo) as [->|]; [intros; simplify_eq/=; auto|].
  destruct (Z.eqb_spec t CRC16) as [->|]; [intros; simplify_eq/=; auto|].
  destruct (Z.eqb_spec t CRC32) as [->|]; [intros; simplify_eq/=; auto|].
  done.
Qed.

End Calculate.

(** ** CRC-32C as a function of the buffer *)

Definition is_u32 (z : Z) : Prop := 0 ≤ z < 4294967296.

Lemma u32_bits z : is_u32 z ↔ 0 ≤ z ∧ ∀ n, 32 ≤ n → Z.testbit z n = false.
Proof.
  unfold is_u32. change 4294967296 with (2 ^ 32). split.
  - intros [H0 H]. split; [done|]. intros n Hn.
    destruct (Z.eq_dec z 0) as [->|]; [by rewrite Z.bits_0|].
    apply Z.bits_above_log2; [done|]. apply Z.lt_le_trans with 32; [|done].
    apply Z.log2_lt_pow2; lia.
  - intros [H0 H]. split; [done|].
    destruct (Z.eq_dec z 0) as [->|Hz]; [done|].
    apply Z.log2_lt_pow2; [lia|]. destruct (Z.lt_ge_cases (Z.log2 z) 32); [done|].
    exfalso. pose proof (Z.bit_log2 z ltac:(lia)). rewrite H in *; done.
Qed.

Lemma u32_lxor a b : is_u32 a → is_u32 b → is_u32 (Z.lxor a b).
Proof.
  rewrite !u32_bits. intros [Ha Ha'] [Hb Hb']. split; [by apply Z.lxor_nonneg|].
  intros n Hn. by rewrite Z.lxor_spec, Ha', Hb'.
Qed.

Lemma u32_shiftr a : is_u32 a → is_u32 (Z.shiftr a 1).
Proof.
  rewrite !u32_bits. intros [Ha Ha']. split; [by apply Z.shiftr_nonneg|].
  intros n Hn. rewrite Z.shiftr_spec by lia. apply Ha'. lia.
Qed.

Lemma crc32_bit_u32 c : is_u32 c → is_u32 (crc32_bit c).
Proof.
  intros. unfold crc32_bit. case_match; [apply u32_lxor; [|by unfold is_u32, Castagnoli]|];
    by apply u32_shiftr.
Qed.

(** The top bit of the result tells which branch was taken, so a bit step loses
    nothing. *)
Lemma crc32_bit_top c : is_u32 c → Z.testbit (crc32_bit c) 31 = Z.odd c.
Proof.
  rewrite u32_bits. intros [_ Hc]. unfold crc32_bit.
  assert (Z.testbit (Z.shiftr c 1) 31 = false) by (rewrite Z.shiftr_spec by lia; by apply Hc).
  destruct (Z.odd c); [|done]. rewrite Z.lxor_spec. by rewrite H.
Qed.

Lemma lxor_cancel_r a b c : Z.lxor a c = Z.lxor b c → a = b.
Proof.
  intros H. rewrite <- (Z.lxor_0_r a), <- (Z.lxor_0_r b), <- (Z.lxor_nilpotent c),
    <- !Z.lxor_assoc. by rewrite H.
Qed.

Lemma crc32_bit_inj c d : is_u32 c → is_u32 d → crc32_bit c = crc32_bit d → c = d.
Proof.
  intros Hc Hd H. pose proof (crc32_bit_top c Hc) as Tc. rewrite H, crc32_bit_top in Tc by done.
  assert (Z.shiftr c 1 = Z.shiftr d 1) as Hs.
  { unfold crc32_bit in H. rewrite Tc in H. destruct (Z.odd c); [by eapply lxor_cancel_r|done]. }
  rewrite !Z.shiftr_div_pow2 in Hs by lia.
  pose proof (Z.div_mod c 2). pose proof (Z.div_mod d 2).
  rewrite !Zmod_odd in *. rewrite Tc in *. change (2 ^ 1) with 2 in Hs. lia.
Qed.

Lemma iter_crc32_bit n c : is_u32 c → is_u32 (Nat.iter n crc32_bit c).
Proof. intros. induction n; simpl; [done|by apply crc32_bit_u32]. Qed.

Lemma iter_crc32_bit_inj n c d : is_u32 c → is_u32 d →
  Nat.iter n crc32_bit c = Nat.iter n crc32_bit d → c = d.
Proof.
  intros Hc Hd. induction n; simpl; [done|].
  intros H. apply IHn, crc32_bit_inj; auto using iter_crc32_bit.
Qed.

Lemma u32_byte b : is_u32 (Z_of_byte b).
Proof. pose proof (Z_of_byte_range b). unfold is_u32. lia. Qed.

Lemma crc32_byte_u32 c b : is_u32 c → is_u32 (crc32_byte c b).
Proof. intros. apply iter_crc32_bit, u32_lxor; auto using u32_byte. Qed.

Lemma crc32_byte_inj_l c d b : is_u32 c → is_u32 d → crc32_byte c b = crc32_byte d b → c = d.
Proof.
  intros ?? H. apply iter_crc32_bit_inj in H; auto using u32_lxor, u32_byte.
  by eapply lxor_cancel_r.
Qed.

Lemma crc32_byte_inj_r c b b' : is_u32 c → crc32_byte c b = crc32_byte c b' → b = b'.
Proof.
  intros ? H. apply iter_crc32_bit_inj in H; auto using u32_lxor, u32_byte.
  rewrite !(Z.lxor_comm c) in H. apply lxor_cancel_r in H.
  by rewrite <- (byte_of_Z_of_byte b), H, byte_of_Z_of_byte.
Qed.

Lemma crc32_fold_u32 data c : is_u32 c → is_u32 (foldl crc32_byte c data).
Proof. revert c. induction data; simpl; intros; auto using crc32_byte_u32. Qed.

Lemma crc32_fold_inj data c d : is_u32 c → is_u32 d →
  foldl crc32_byte c data = foldl crc32_byte d data → c = d.
Proof.
  revert c d. induction data as [|b data IH]; simpl; intros c d ?? H; [done|].
  apply IH in H; auto using crc32_byte_u32. by eapply crc32_byte_inj_l.
Qed.

Lemma crc32_Checksum_u32 data : is_u32 (crc32_Checksum data).
Proof. apply u32_lxor; [apply crc32_fold_u32|]; unfold is_u32; lia. Qed.

Lemma crc32_Checksum_change pre b b' post : b ≠ b' →
  crc32_Checksum (pre ++ b :: post) ≠ crc32_Checksum (pre ++ b' :: post).
Proof.
  intros Hb H. apply lxor_cancel_r in H. rewrite !foldl_app in H. simpl in H.
  pose proof (crc32_fold_u32 pre 0xffffffff ltac:(unfold is_u32; lia)).
  apply crc32_fold_inj in H; auto using crc32_byte_u32.
  apply crc32_byte_inj_r in H; auto.
Qed.

(** ** Properties *)

(** Any corruption confined to one byte of a block protected by CRC-32
    changes the CRC value that [calculateCRCBuff] computes for it. *)
Theorem crc32_detects_byte_error `{Cboring} `{Crc16} pre b b' post :
  b ≠ b' →
  calculateCRCBuff (pre ++ b :: post) CRC32 ≠ calculateCRCBuff (pre ++ b' :: post) CRC32.
Proof.
  intros Hb. unfold calculateCRCBuff. intros E.
  apply (Ok_inj (A := bytes)) in E.
  rewrite <- !app_assoc, <- !app_comm_cons in E.
  apply (f_equal be_value) in E. rewrite !be_value_bytes in E by apply crc32_Checksum_u32.
  by eapply crc32_Checksum_change.
Qed.

(** A concrete instance of the parameter: CRC-16/X-25, the checksum RFC 9171 names. *)
Definition x25_bit (c : Z) : Z :=
  if Z.odd c then Z.lxor (Z.shiftr c 1) 0x8408 else Z.shiftr c 1.
Definition x25_byte (c : Z) (b : Byte.byte) : Z := Nat.iter 8 x25_bit (Z.lxor c (Z_of_byte b)).

#[export] Instance x25 : Crc16 := λ data, Z.lxor (foldl x25_byte 0xffff data) 0xffff.

Example x25_check_value : crc16_Checksum (str_bytes "123456789") = 0x906e.
Proof. vm_compute. reflexivity. Qed.

Lemma crc32_detects_byte_error_witness :
  calculateCRCBuff (str_bytes "ab") CRC32 ≠ calculateCRCBuff (str_bytes "ac") CRC32.
Proof. exact (crc32_detects_byte_error [Byte.x61] Byte.x62 Byte.x63 [] ltac:(discriminate)). Defined.
