(* ===== verification/DtnTime.v ===== *)
(** * DTN time and creation timestamps

    [pkg/bpv7/time.go].  A [time.Time] is the [Z] number of nanoseconds since the
    Unix epoch; [int64] arithmetic wraps. *)

From stdpp Require Import base tactics list strings countable.
From Stdlib Require Import ZArith Lia.
From S2P Require Import Prelude Cboring.
Local Open Scope Z_scope.

Definition milliseconds1970To2k : Z := 946684800000.
Definition milliToSec : Z := 1000.
Definition nanoToMilli : Z := 1000000.
Definition DtnTimeEpoch : Z := 0.

(** [int64(t) + milliseconds1970To2k] *)
Definition unixMilliseconds (t : Z) : Z :=
  wrap_i64 (wrap_i64 t + milliseconds1970To2k).

(** [time.Unix(sec, nsec)] *)
Definition time_Unix (sec nsec : Z) : Z := sec * 1000000000 + nsec.

(** [DtnTime.Time]; Go's [/] on [int64] truncates towards zero. *)
Definition DtnTime_Time (t : Z) : Z :=
  let unixSec := Z.quot (unixMilliseconds t) milliToSec in
  let unixNano := wrap_i64 ((unixMilliseconds t - unixSec * milliToSec) * nanoToMilli) in
  time_Unix unixSec unixNano.

(** [DtnTimeFromTime]; [UnixNano] is an [int64]. *)
Definition DtnTimeFromTime (t : Z) : Z :=
  wrap_u64 (Z.quot (wrap_i64 t) nanoToMilli - milliseconds1970To2k).

(** [time.Duration(ms) * time.Millisecond], two wrapping [int64] operations. *)
Definition Duration_ms (ms : Z) : Z := wrap_i64 (wrap_i64 ms * nanoToMilli).

(** [CreationTimestamp] is a [[2]uint64]. *)
Record CreationTimestamp := mkTimestamp { ct_time : Z; ct_seq : Z }.

#[global] Instance CreationTimestamp_eq_dec : EqDecision CreationTimestamp.
Proof. solve_decision. Defined.
#[global] Instance CreationTimestamp_countable : Countable CreationTimestamp.
Proof.
  apply (inj_countable' (λ c, (ct_time c, ct_seq c)) (λ '(t, s), mkTimestamp t s)). by intros [].
Defined.

Definition NewCreationTimestamp (time sequence : Z) : CreationTimestamp := mkTimestamp time sequence.
Definition CreationTimestamp_DtnTime (ct : CreationTimestamp) : Z := ct_time ct.
Definition IsZeroTime (ct : CreationTimestamp) : bool := CreationTimestamp_DtnTime ct =? DtnTimeEpoch.
Definition SequenceNumber (ct : CreationTimestamp) : Z := ct_seq ct.

Definition CreationTimestamp_wf (ct : CreationTimestamp) : Prop :=
  is_u64 (ct_time ct) ∧ is_u64 (ct_seq ct).

Section Codec.
Context `{Cboring}.

Definition CreationTimestamp_MarshalCbor (ct : CreationTimestamp) : bytes :=
  WriteArrayLength 2 ++ WriteUInt (ct_time ct) ++ WriteUInt (ct_seq ct).

(** The receiver is assigned element by element. *)
Definition CreationTimestamp_UnmarshalCbor : M (CreationTimestamp * bytes) () :=
  l ← on_input ReadArrayLength;
  if negb (l =? 2) then fail (errorf "expected array with length 2") else
  f ← on_input ReadUInt;
  on_self (λ ct, mkTimestamp f (ct_seq ct));;
  f ← on_input ReadUInt;
  on_self (λ ct, mkTimestamp (ct_time ct) f).

Context `{!CboringLaws _}.

Lemma CreationTimestamp_rt ct ct0 r : CreationTimestamp_wf ct →
  CreationTimestamp_UnmarshalCbor (ct0, CreationTimestamp_MarshalCbor ct ++ r) = (Ok (), (ct, r)).
Proof.
  intros [H1 H2]. unfold CreationTimestamp_UnmarshalCbor, CreationTimestamp_MarshalCbor.
  rewrite <- !app_assoc.
  mstep by (apply on_input_ok, array_rt; u64_lia). mif.
  mstep by (by apply on_input_ok, uint_rt).
  mstep by done.
  mstep by (by apply on_input_ok, uint_rt). by destruct ct.
Qed.
End Codec.

(** ** Properties of the clock arithmetic *)

(** The largest DTN time whose [time.Time] fits [UnixNano]'s [int64]. *)
Definition DtnTime_max : Z := 8276687236854.

Lemma DtnTime_Time_exact t : 0 ≤ t < 2 ^ 62 →
  DtnTime_Time t = (t + milliseconds1970To2k) * nanoToMilli.
Proof.
  intros Ht. unfold DtnTime_Time, unixMilliseconds, time_Unix, milliseconds1970To2k, milliToSec, nanoToMilli in *.
  rewrite (wrap_i64_id t), (wrap_i64_id (t + _)) by u64_lia.
  set (m := t + 946684800000) in *. assert (0 ≤ m) by lia.
  rewrite Z.quot_div_nonneg by lia. pose proof (Z.div_mod m 1000) as Hd.
  pose proof (Z.mod_pos_bound m 1000).
  rewrite wrap_i64_id by u64_lia. lia.
Qed.

(** Converting a DTN time to a [time.Time] and back is the identity as long
    as the instant is representable in [UnixNano] (until the year 2262). *)
Theorem DtnTime_roundtrip t : 0 ≤ t ≤ DtnTime_max → DtnTimeFromTime (DtnTime_Time t) = t.
Proof.
  unfold DtnTime_max. intros Ht. rewrite DtnTime_Time_exact by lia.
  unfold DtnTimeFromTime, milliseconds1970To2k, nanoToMilli.
  rewrite wrap_i64_id by u64_lia. rewrite Z.quot_mul by lia.
  rewrite wrap_u64_id by u64_lia. lia.
Qed.

Lemma DtnTime_roundtrip_witness : DtnTimeFromTime (DtnTime_Time 800000000123) = 800000000123.
Proof. exact (DtnTime_roundtrip 800000000123 ltac:(unfold DtnTime_max; lia)). Defined.

Example DtnTime_roundtrip_fails_later : DtnTimeFromTime (DtnTime_Time (DtnTime_max + 1)) ≠ DtnTime_max + 1.
Proof. vm_compute. discriminate. Qed.
