(* ===== verification/GoFormat.v ===== *)
(** * Dates and base64

    What the JSON output uses of Go's library: [time.Time.Format] with the layout
    ["2006-01-02 15:04:05.000"] for UTC, and [base64.StdEncoding]. *)

From stdpp Require Import base tactics list strings pretty.
From Stdlib Require Import ZArith Lia Ascii.
From S2P Require Import Prelude GoStrings DtnTime.
Local Open Scope Z_scope.

(** ** The calendar *)

(** The Gregorian calendar repeats every 146097 days; an era begins on the first of March
    so that the leap day is its last. *)
Record civil := mkCivil { cv_year : Z; cv_month : Z; cv_day : Z }.

(** Centuries, four-year cycles and years of an era before the day [doe]; the last
    century and the last year of a cycle have the leap day more. *)
Definition centuries (doe : Z) : Z := Z.min 3 (doe / 36524).
Definition quads (doe : Z) : Z := (doe - 36524 * centuries doe) / 1461.
Definition years (doe : Z) : Z := Z.min 3 ((doe - 36524 * centuries doe - 1461 * quads doe) / 365).

Definition year_of_era (doe : Z) : Z := 100 * centuries doe + 4 * quads doe + years doe.
Definition day_of_year (doe : Z) : Z := doe - 36524 * centuries doe - 1461 * quads doe - 365 * years doe.

(** The date of a day since the Unix epoch. *)
Definition civil_from_days (days : Z) : civil :=
  let z := days + 719468 in
  let era := z / 146097 in
  let doe := z mod 146097 in
  let doy := day_of_year doe in
  let mp := (5 * doy + 2) / 153 in
  let month := if mp <? 10 then mp + 3 else mp - 9 in
  mkCivil (year_of_era doe + era * 400 + (if month <=? 2 then 1 else 0)) month (doy - (153 * mp + 2) / 5 + 1).

(** The day since the Unix epoch of a date. *)
Definition days_from_civil (c : civil) : Z :=
  let y := if cv_month c <=? 2 then cv_year c - 1 else cv_year c in
  let era := y / 400 in
  let yoe := y mod 400 in
  let mp := if 2 <? cv_month c then cv_month c - 3 else cv_month c + 9 in
  let doy := (153 * mp + 2) / 5 + cv_day c - 1 in
  era * 146097 + (yoe * 365 + yoe / 4 - yoe / 100 + doy) - 719468.

Lemma era_year doe : 0 ≤ doe < 146097 → let y := year_of_era doe in
  0 ≤ y < 400 ∧ 0 ≤ day_of_year doe ≤ 365 ∧ 365 * y + y / 4 - y / 100 + day_of_year doe = doe.
Proof.
  intros H. cbv zeta. unfold day_of_year, year_of_era.
  assert (0 ≤ centuries doe ≤ 3 ∧ 0 ≤ doe - 36524 * centuries doe ≤ 36524)
    by (unfold centuries; Z.div_mod_to_equations; lia).
  assert (0 ≤ quads doe ≤ 24 ∧ 0 ≤ doe - 36524 * centuries doe - 1461 * quads doe ≤ 1460).
  { unfold quads. set (c := centuries doe) in *. clearbody c. Z.div_mod_to_equations; lia. }
  set (c := centuries doe) in *. set (q := quads doe) in *.
  assert (0 ≤ years doe ≤ 3 ∧ 0 ≤ doe - 36524 * c - 1461 * q - 365 * years doe ≤ 365).
  { unfold years. fold c q. clearbody c q. Z.div_mod_to_equations; lia. }
  set (y := years doe) in *. clearbody c q y.
  replace ((100 * c + 4 * q + y) / 4) with (25 * c + q) by (Z.div_mod_to_equations; lia).
  replace ((100 * c + 4 * q + y) / 100) with c by (Z.div_mod_to_equations; lia). lia.
Qed.

(** The month [mp] (from March) and the day of the month. *)
Lemma month_day doy : 0 ≤ doy ≤ 365 → let mp := (5 * doy + 2) / 153 in
  0 ≤ mp ≤ 11 ∧ 1 ≤ doy - (153 * mp + 2) / 5 + 1 ≤ 31.
Proof.
  intros. cbv zeta. pose proof (Z.div_mod (5 * doy + 2) 153). pose proof (Z.mod_pos_bound (5 * doy + 2) 153).
  generalize dependent ((5 * doy + 2) / 153). intros mp. generalize dependent ((5 * doy + 2) mod 153). intros m **.
  assert (mp = 0 ∨ mp = 1 ∨ mp = 2 ∨ mp = 3 ∨ mp = 4 ∨ mp = 5 ∨ mp = 6 ∨ mp = 7 ∨ mp = 8 ∨ mp = 9 ∨ mp = 10 ∨ mp = 11)
    as Hm by lia.
  repeat (destruct Hm as [->|Hm]; [vm_compute (Z.div _ _); lia|]). subst mp. vm_compute (Z.div _ _). lia.
Qed.

Lemma civil_facts days : let c := civil_from_days days in
  1 ≤ cv_month c ≤ 12 ∧ 1 ≤ cv_day c ≤ 31 ∧ days_from_civil c = days.
Proof.
  cbv zeta. unfold civil_from_days, days_from_civil. set (z := days + 719468).
  pose proof (Z.mod_pos_bound z 146097 ltac:(lia)) as Hm. pose proof (Z.div_mod z 146097 ltac:(lia)) as Hdm.
  destruct (era_year _ Hm) as (H1 & H2 & H3). pose proof (month_day _ H2) as (H4 & H5).
  set (doe := z mod 146097) in *. set (era := z / 146097) in *. clearbody doe era.
  set (yoe := year_of_era doe) in *. set (doy := day_of_year doe) in *. clearbody yoe doy.
  set (mp := (5 * doy + 2) / 153) in *. clearbody mp. simpl.
  destruct (Z.ltb_spec mp 10).
  - destruct (Z.leb_spec (mp + 3) 2); [lia|]. destruct (Z.ltb_spec 2 (mp + 3)); [|lia].
    replace (yoe + era * 400 + 0) with (yoe + era * 400) by lia. rewrite Z.div_add, Z.mod_add, (Z.div_small yoe 400), (Z.mod_small yoe 400) by lia.
    replace (mp + 3 - 3) with mp by lia. unfold z in Hdm. lia.
  - destruct (Z.leb_spec (mp - 9) 2); [|lia]. destruct (Z.ltb_spec 2 (mp - 9)); [lia|].
    replace (yoe + era * 400 + 1 - 1) with (yoe + era * 400) by lia. rewrite Z.div_add, Z.mod_add, (Z.div_small yoe 400), (Z.mod_small yoe 400) by lia.
    replace (mp - 9 + 9) with mp by lia. unfold z in Hdm. lia.
Qed.

Example civil_leap : civil_from_days 11016 = mkCivil 2000 2 29.
Proof. reflexivity. Qed.

(** ** Numbers of a fixed width *)

Fixpoint zeros (n : nat) : string := match n with O => "" | S n => String "0" (zeros n) end.

(** [time.appendInt]: at least [width] digits. *)
Definition appendInt (x : Z) (width : nat) : string :=
  let digits := fmt_d (Z.abs x) in
  (if x <? 0 then "-" else "") +:+ zeros (width - String.length digits) +:+ digits.

Lemma dec_value_zeros n s : dec_value 0 (zeros n +:+ s) = dec_value 0 s.
Proof. induction n as [|n IH]; [done|]. simpl zeros. rewrite append_cons. cbn. exact IH. Qed.

Lemma zeros_digits n s : string_forall is_digit s = true → string_forall is_digit (zeros n +:+ s) = true.
Proof. intros Hs. induction n as [|n IH]; [done|]. simpl zeros. rewrite append_cons. cbn. exact IH. Qed.

Lemma appendInt_inj x y w w' : appendInt x w = appendInt y w' → x = y.
Proof.
  unfold appendInt. set (dx := zeros _ +:+ fmt_d (Z.abs x)). set (dy := zeros _ +:+ fmt_d (Z.abs y)).
  assert (dec_value 0 dx = Some (Z.abs x)) as Hx by (unfold dx; rewrite dec_value_zeros; apply dec_value_fmt_d; lia).
  assert (dec_value 0 dy = Some (Z.abs y)) as Hy by (unfold dy; rewrite dec_value_zeros; apply dec_value_fmt_d; lia).
  assert (string_forall is_digit dx = true) as Hdx by apply zeros_digits, fmt_d_digits.
  assert (string_forall is_digit dy = true) as Hdy by apply zeros_digits, fmt_d_digits.
  clearbody dx dy. destruct (Z.ltb_spec x 0), (Z.ltb_spec y 0); rewrite ?append_cons, ?append_nil; intros E.
  - injection E as ->. rewrite Hx in Hy. injection Hy. lia.
  - by rewrite <- E in Hdy.
  - by rewrite E in Hdx.
  - subst dy. rewrite Hx in Hy. injection Hy. lia.
Qed.

Lemma pretty_go_length w x s : (x < 10 ^ N.of_nat w)%N → (String.length (pretty_N_go x s) ≤ w + String.length s)%nat.
Proof.
  revert x s. induction w as [|w IH]; intros x s Hx.
  - change (10 ^ N.of_nat 0)%N with 1%N in Hx. assert (x = 0%N) as -> by lia. by rewrite pretty_N_go_0.
  - destruct (decide (x = 0)%N) as [->|Hx0]; [rewrite pretty_N_go_0; lia|].
    rewrite pretty_N_go_step by lia. rewrite Nat2N.inj_succ, N.pow_succ_r in Hx by lia.
    etrans; [apply IH, N.Div0.div_lt_upper_bound; lia|]. cbn. lia.
Qed.

Lemma appendInt_length x w : (0 < w)%nat → 0 ≤ x < 10 ^ Z.of_nat w → String.length (appendInt x w) = w.
Proof.
  intros Hw Hx. unfold appendInt. destruct (Z.ltb_spec x 0); [lia|]. rewrite Z.abs_eq by lia.
  rewrite append_nil, length_append.
  assert (∀ n, String.length (zeros n) = n) as -> by (induction n; simpl; congruence).
  enough (String.length (fmt_d x) ≤ w)%nat by lia.
  rewrite fmt_d_unfold. case_decide; [cbn; lia|].
  etrans; [apply (pretty_go_length w)|cbn; lia]. rewrite <- (N2Z.id (10 ^ N.of_nat w)), N2Z.inj_pow.
  rewrite nat_N_Z. change (Z.of_N 10) with 10. lia.
Qed.

(** ** [time.Time.Format] *)

(** [t.Format("2006-01-02 15:04:05.000")] of a UTC time in nanoseconds since the Unix
    epoch; the year may be negative and may have more than four digits. *)
Definition time_Format (t : Z) : string :=
  let sec := t / 1000000000 in
  let date := civil_from_days (sec / 86400) in
  let clock := sec mod 86400 in
  appendInt (cv_year date) 4 +:+ ("-" +:+ appendInt (cv_month date) 2) +:+ ("-" +:+ appendInt (cv_day date) 2) +:+
  (" " +:+ appendInt (clock / 3600) 2) +:+ (":" +:+ appendInt (clock mod 3600 / 60) 2) +:+
  (":" +:+ appendInt (clock mod 60) 2) +:+ ("." +:+ appendInt (t mod 1000000000 / 1000000) 3).

(** One separated field of fixed width. *)
Lemma field_inj (sep : string) x y w (s t : string) : (0 < w)%nat → 0 ≤ x < 10 ^ Z.of_nat w → 0 ≤ y < 10 ^ Z.of_nat w →
  (sep +:+ appendInt x w) +:+ s = (sep +:+ appendInt y w) +:+ t → x = y ∧ s = t.
Proof.
  intros Hw Hx Hy E. apply append_inj_head in E as [E ->]; [|by rewrite !length_append, !appendInt_length].
  apply append_inj_head in E as [_ E]; [|done]. by apply appendInt_inj in E.
Qed.

Lemma time_Format_fields t : let sec := t / 1000000000 in let date := civil_from_days (sec / 86400) in
  let clock := sec mod 86400 in
  0 ≤ cv_month date < 10 ^ Z.of_nat 2 ∧ 0 ≤ cv_day date < 10 ^ Z.of_nat 2 ∧ 0 ≤ clock / 3600 < 10 ^ Z.of_nat 2 ∧
  0 ≤ clock mod 3600 / 60 < 10 ^ Z.of_nat 2 ∧ 0 ≤ clock mod 60 < 10 ^ Z.of_nat 2 ∧
  0 ≤ t mod 1000000000 / 1000000 < 10 ^ Z.of_nat 3.
Proof.
  cbv zeta. pose proof (civil_facts (t / 1000000000 / 86400)) as (Hm & Hd & _).
  change (10 ^ Z.of_nat 2) with 100. change (10 ^ Z.of_nat 3) with 1000.
  pose proof (Z.mod_pos_bound (t / 1000000000) 86400). set (clock := _ mod 86400) in *. clearbody clock.
  split_and!; try lia; Z.div_mod_to_equations; lia.
Qed.

(** The text determines the time up to the millisecond. *)
Lemma time_Format_inj t t' : time_Format t = time_Format t' → t / 1000000 = t' / 1000000.
Proof.
  unfold time_Format. pose proof (time_Format_fields t) as F. pose proof (time_Format_fields t') as F'. cbv zeta in *.
  pose proof (civil_facts (t / 1000000000 / 86400)) as (_ & _ & Hc).
  pose proof (civil_facts (t' / 1000000000 / 86400)) as (_ & _ & Hc').
  set (c := civil_from_days (t / 1000000000 / 86400)) in *. set (c' := civil_from_days (t' / 1000000000 / 86400)) in *.
  clearbody c c'. destruct F as (F1 & F2 & F3 & F4 & F5 & F6), F' as (G1 & G2 & G3 & G4 & G5 & G6).
  rewrite <- (app_nil_string ("." +:+ appendInt (t mod _ / _) 3)), <- (app_nil_string ("." +:+ appendInt (t' mod _ / _) 3)).
  intros E. apply append_inj_tail in E as [Ey E]; [|rewrite !length_append, !appendInt_length by (done || lia); done].
  apply appendInt_inj in Ey.
  apply field_inj in E as [Em E]; [|lia|done..]. apply field_inj in E as [Ed E]; [|lia|done..].
  apply field_inj in E as [Eh E]; [|lia|done..]. apply field_inj in E as [Emi E]; [|lia|done..].
  apply field_inj in E as [Es E]; [|lia|done..]. apply field_inj in E as [Ems _]; [|lia|done..].
  assert (c = c') as <- by (destruct c, c'; simpl in *; congruence). rewrite Hc in Hc'.
  clear -Hc' Eh Emi Es Ems. Z.div_mod_to_equations. lia.
Qed.

(** [DtnTime.String] *)
Definition DtnTime_String (t : Z) : string := time_Format (DtnTime_Time t).

(** [CreationTimestamp.String] *)
Definition CreationTimestamp_String (ct : CreationTimestamp) : string :=
  "(" +:+ DtnTime_String (ct_time ct) +:+ ", " +:+ fmt_d (ct_seq ct) +:+ ")".

Lemma DtnTime_Time_ms t : DtnTime_Time t = unixMilliseconds t * 1000000.
Proof.
  unfold DtnTime_Time, time_Unix, milliToSec, nanoToMilli. set (m := unixMilliseconds t).
  pose proof (Z.quot_rem' m 1000). pose proof (Z.rem_bound_abs m 1000).
  rewrite wrap_i64_id; [lia|]. u64_lia.
Qed.

Lemma wrap_i64_mod z : ∃ k, wrap_i64 z = z + k * two64.
Proof.
  exists (- ((z + two63) / two64)). unfold wrap_i64. rewrite Z.mod_eq by (unfold two64; lia). lia.
Qed.

Lemma unixMilliseconds_mod t : (unixMilliseconds t - milliseconds1970To2k) mod two64 = t mod two64.
Proof.
  unfold unixMilliseconds. destruct (wrap_i64_mod t) as [k ->].
  destruct (wrap_i64_mod (t + k * two64 + milliseconds1970To2k)) as [l ->].
  rewrite <- (Z.mod_add t (k + l) two64) by (unfold two64; lia). f_equal. lia.
Qed.

(** Two times of a bundle with the same text are the same, for every [uint64]. *)
Theorem DtnTime_String_inj t t' : is_u64 t → is_u64 t' → DtnTime_String t = DtnTime_String t' → t = t'.
Proof.
  unfold DtnTime_String. intros Ht Ht' E%time_Format_inj. rewrite !DtnTime_Time_ms, !Z.div_mul in E by lia.
  apply (f_equal (λ m, (m - milliseconds1970To2k) mod two64)) in E. rewrite !unixMilliseconds_mod in E.
  rewrite !Z.mod_small in E by assumption. exact E.
Qed.

Example DtnTime_epoch : DtnTime_String 0 = "2000-01-01 00:00:00.000".
Proof. reflexivity. Qed.
Example DtnTime_leap : DtnTime_String 772156799999 = "2024-06-19 23:59:59.999".
Proof. reflexivity. Qed.
(** The largest [uint64] is one millisecond before the epoch. *)
Example DtnTime_last : DtnTime_String 18446744073709551615 = "1999-12-31 23:59:59.999".
Proof. reflexivity. Qed.

(** ** [base64.StdEncoding] *)

Definition b64_char (n : Z) : ascii :=
  ascii_of_nat (Z.to_nat (if n <? 26 then n + 65 else if n <? 52 then n + 71 else if n <? 62 then n - 4
    else if n =? 62 then 43 else 47)).

(** The value of a character of the alphabet. *)
Definition b64_value (a : ascii) : option Z :=
  let n := Z.of_nat (nat_of_ascii a) in
  if between 65 90 a then Some (n - 65) else if between 97 122 a then Some (n - 71)
  else if is_digit a then Some (n + 4) else if n =? 43 then Some 62 else if n =? 47 then Some 63 else None.

Fixpoint EncodeToString (l : bytes) : string :=
  match l with
  | [] => ""
  | [a] => let x := Z_of_byte a in
      String (b64_char (x / 4)) (String (b64_char (x mod 4 * 16)) "==")
  | [a; b] => let x := Z_of_byte a in let y := Z_of_byte b in
      String (b64_char (x / 4)) (String (b64_char (x mod 4 * 16 + y / 16)) (String (b64_char (y mod 16 * 4)) "="))
  | a :: b :: c :: l => let x := Z_of_byte a in let y := Z_of_byte b in let z := Z_of_byte c in
      String (b64_char (x / 4)) (String (b64_char (x mod 4 * 16 + y / 16))
        (String (b64_char (y mod 16 * 4 + z / 64)) (String (b64_char (z mod 64)) (EncodeToString l))))
  end.

Lemma b64_char_value n : 0 ≤ n < 64 → b64_value (b64_char n) = Some n.
Proof.
  intros Hn. assert (Forall (λ k, b64_value (b64_char k) = Some k) (seqZ 0 64)) as H.
  { apply (bool_decide_unpack _). vm_compute. exact I. }
  rewrite Forall_forall in H. apply H, elem_of_seqZ. lia.
Qed.

(** [DecodeString], which the encoding is inverted by. *)
Fixpoint DecodeString (s : string) : option bytes :=
  match s with
  | EmptyString => Some []
  | String a (String b (String c (String d rest))) =>
      x ← b64_value a; y ← b64_value b;
      match b64_value c, b64_value d with
      | Some z, Some w =>
          l ← DecodeString rest;
          Some (byte_of_Z (x * 4 + y / 16) :: byte_of_Z (y mod 16 * 16 + z / 4) :: byte_of_Z (z mod 4 * 64 + w) :: l)
      | Some z, None => Some [byte_of_Z (x * 4 + y / 16); byte_of_Z (y mod 16 * 16 + z / 4)]
      | None, _ => Some [byte_of_Z (x * 4 + y / 16)]
      end
  | _ => None
  end.

Lemma byte_sextet b z : z = Z_of_byte b → byte_of_Z z = b.
Proof. intros ->. apply byte_of_Z_of_byte. Qed.

(** Arithmetic on the values of bytes. *)
Ltac sextets :=
  repeat match goal with
  | b : Byte.byte |- _ => pose proof (Z_of_byte_range b); generalize dependent (Z_of_byte b); intros; clear b
  end; Z.div_mod_to_equations; lia.

Lemma base64_roundtrip : ∀ l, DecodeString (EncodeToString l) = Some l.
Proof.
  fix IH 1. intros [|a [|b [|c l]]]; [done| | |]; cbn [EncodeToString DecodeString].
  - rewrite !b64_char_value by sextets. cbn. by rewrite (byte_sextet a) by sextets.
  - rewrite !b64_char_value by sextets. cbn. by rewrite (byte_sextet a), (byte_sextet b) by sextets.
  - rewrite !b64_char_value by sextets. cbn [mbind option_bind]. rewrite IH. cbn [mbind option_bind].
    by rewrite (byte_sextet a), (byte_sextet b), (byte_sextet c) by sextets.
Qed.

Lemma EncodeToString_inj l l' : EncodeToString l = EncodeToString l' → l = l'.
Proof. intros E. apply (f_equal DecodeString) in E. rewrite !base64_roundtrip in E. congruence. Qed.

(** The alphabet is printable ASCII. *)
Lemma EncodeToString_ascii : ∀ l, string_forall (between 32 127) (EncodeToString l) = true.
Proof.
  assert (∀ n, 0 ≤ n < 64 → between 32 127 (b64_char n) = true) as Hc.
  { intros n Hn. assert (Forall (λ k, between 32 127 (b64_char k) = true) (seqZ 0 64)) as H.
    { apply (bool_decide_unpack _). vm_compute. exact I. }
    rewrite Forall_forall in H. apply H, elem_of_seqZ. lia. }
  fix IH 1. intros [|a [|b [|c l]]]; [done| | |]; cbn [EncodeToString string_forall].
  - rewrite !Hc by sextets. done.
  - rewrite !Hc by sextets. done.
  - rewrite !Hc by sextets. apply IH.
Qed.

Example base64_hello : EncodeToString (str_bytes "hello world") = "aGVsbG8gd29ybGQ=".
Proof. reflexivity. Qed.
