(* ===== verification/GoJson.v ===== *)
(** * JSON values and their text

    What the [MarshalJSON] methods use of [encoding/json]: the values they pass to
    [json.Marshal] as trees, and the text [json.Marshal] makes of them, with its
    escapes and without white space. *)

From stdpp Require Import base tactics list strings.
From Stdlib Require Import ZArith Lia Ascii.
From S2P Require Import Prelude GoStrings GoFormat.
Local Open Scope Z_scope.

Inductive Json :=
  | JNull
  | JNum (n : Z)
  | JStr (s : string)
  | JArr (l : list Json)
  | JObj (fields : list (string * Json)).

(** A byte slice: [null] for a [nil] slice, base64 otherwise. *)
Definition json_bytes (is_nil : bool) (b : bytes) : Json :=
  if bool_decide (b = []) && is_nil then JNull else JStr (EncodeToString b).

(** A slice of strings that [append] built up from [nil]. *)
Definition json_strings (l : list string) : Json :=
  match l with [] => JNull | _ => JArr (JStr <$> l) end.

(** ** Text *)

Definition hex_char (n : nat) : ascii := ascii_of_nat (if (n <? 10)%nat then n + 48 else n + 87).

(** The escape of a character below 128; [json.Marshal] also escapes the characters that
    are special in HTML. *)
Definition escape_char (a : ascii) : string :=
  let n := nat_of_ascii a in
  if (n =? 34)%nat || (n =? 92)%nat then String "\" (String a "")
  else if (n =? 8)%nat then "\b" else if (n =? 12)%nat then "\f" else if (n =? 10)%nat then "\n"
  else if (n =? 13)%nat then "\r" else if (n =? 9)%nat then "\t"
  else if (n <? 32)%nat || (n =? 38)%nat || (n =? 60)%nat || (n =? 62)%nat then
    "\u00" +:+ String (hex_char (n / 16)) (String (hex_char (n mod 16)) "")
  else String a "".

Definition is_ascii (a : ascii) : bool := between 0 127 a.
Definition is_cont (a : ascii) : bool := between 128 191 a.

(** The range of the second byte after the first byte of a longer UTF-8 sequence. *)
Definition second_byte (a : ascii) : ascii → bool :=
  let n := nat_of_ascii a in
  if (n =? 224)%nat then between 160 191 else if (n =? 237)%nat then between 128 159
  else if (n =? 240)%nat then between 144 191 else if (n =? 244)%nat then between 128 143 else is_cont.

(** The text between the quotes.  Bytes that are not UTF-8 become [\ufffd]; the line
    separators U+2028 and U+2029 are escaped. *)
Fixpoint escape (s : string) : string :=
  match s with
  | EmptyString => ""
  | String a s1 =>
      let invalid := "\ufffd" +:+ escape s1 in
      if is_ascii a then escape_char a +:+ escape s1 else
      match s1 with
      | String b s2 =>
          if between 194 223 a && is_cont b then String a (String b (escape s2)) else
          match s2 with
          | String c s3 =>
              if between 224 239 a && second_byte a b && is_cont c then
                (if String.eqb (String a (String b "")) (String "226" (String "128" ""))
                    && between 168 169 c
                 then "\u202" +:+ String (if between 168 168 c then "8" else "9") ""
                 else String a (String b (String c ""))) +:+ escape s3 else
              match s3 with
              | String d s4 =>
                  if between 240 244 a && second_byte a b && is_cont c && is_cont d
                  then String a (String b (String c (String d (escape s4)))) else invalid
              | EmptyString => invalid
              end
          | EmptyString => invalid
          end
      | EmptyString => invalid
      end
  end.

Definition quote : ascii := "034"%char.
Definition json_quote (s : string) : string := String quote (escape s +:+ String quote "").

(** Elements separated by commas, and the closing bracket. *)
Fixpoint rest_items (close : string) (l : list string) : string :=
  match l with [] => close | x :: l => "," +:+ x +:+ rest_items close l end.
Definition items (close : string) (l : list string) : string :=
  match l with [] => close | x :: l => x +:+ rest_items close l end.

(** [json.Marshal] *)
Fixpoint json_text (j : Json) : string :=
  match j with
  | JNull => "null"
  | JNum n => fmt_d n
  | JStr s => json_quote s
  | JArr l => "[" +:+ items "]" (map json_text l)
  | JObj fields => "{" +:+ items "}" (map (λ '(k, v), json_quote k +:+ ":" +:+ json_text v) fields)
  end.

Example json_escapes : json_text (JStr (String quote "a<b>\")) = String quote ("\" +:+ String quote ("a\u003cb\u003e\\" +:+ String quote "")).
Proof. reflexivity. Qed.
(** U+00E9, a lone continuation byte, and the line separator U+2028. *)
Example json_utf8 : escape (String "195" (String "169" (String "169" (String "226" (String "128" (String "168" "")))))) =
  String "195" (String "169" "\ufffd\u2028").
Proof. reflexivity. Qed.
Example json_object : json_text (JObj [("limit", JNum 16); ("l", JArr [JNull; JNum 0])]) =
  "{" +:+ json_quote "limit" +:+ ":16," +:+ json_quote "l" +:+ ":[null,0]}".
Proof. reflexivity. Qed.

(** ** The text determines the value *)

(** A tree whose strings are ASCII and whose numbers are unsigned. *)
Definition ascii_string (s : string) : bool := string_forall is_ascii s.

Fixpoint json_plain (j : Json) : bool :=
  match j with
  | JNull => true
  | JNum n => 0 <=? n
  | JStr s => ascii_string s
  | JArr l => forallb json_plain l
  | JObj fields => forallb (λ '(k, v), ascii_string k && json_plain v) fields
  end.

Section Json_induction.
Context (P : Json → Prop).
Hypothesis (HNull : P JNull) (HNum : ∀ n, P (JNum n)) (HStr : ∀ s, P (JStr s)).
Hypothesis (HArr : ∀ l, Forall P l → P (JArr l)) (HObj : ∀ fs, Forall (λ f, P f.2) fs → P (JObj fs)).

Fixpoint Json_induction (j : Json) : P j :=
  match j with
  | JNull => HNull
  | JNum n => HNum n
  | JStr s => HStr s
  | JArr l => HArr l (list_rect (Forall P) (List.Forall_nil P) (λ x l IH, List.Forall_cons P x l (Json_induction x) IH) l)
  | JObj fs => HObj fs (list_rect (Forall (λ f, P f.2)) (List.Forall_nil _)
      (λ f l IH, List.Forall_cons _ f l (Json_induction f.2) IH) fs)
  end.
End Json_induction.

(** Reading back one escaped character. *)
Definition hex_value (a : ascii) : nat := let n := nat_of_ascii a in if (n <? 58)%nat then n - 48 else n - 87.

Definition unescape_char (s : string) : option (ascii * string) :=
  match s with
  | EmptyString => None
  | String a s =>
      if (nat_of_ascii a =? 34)%nat then None else
      if negb (nat_of_ascii a =? 92)%nat then Some (a, s) else
      match s with
      | String b s =>
          let n := nat_of_ascii b in
          if (n =? 98)%nat then Some ("008"%char, s) else if (n =? 102)%nat then Some ("012"%char, s)
          else if (n =? 110)%nat then Some ("010"%char, s) else if (n =? 114)%nat then Some ("013"%char, s)
          else if (n =? 116)%nat then Some ("009"%char, s) else
          if (n =? 117)%nat then
            match s with
            | String _ (String _ (String h (String l s))) => Some (ascii_of_nat (16 * hex_value h + hex_value l), s)
            | _ => None
            end
          else Some (b, s)
      | EmptyString => None
      end
  end.

Lemma unescape_escape a s : is_ascii a = true → unescape_char (escape_char a +:+ s) = Some (a, s).
Proof. destruct a as [[] [] [] [] [] [] [] []]; intros Ha; try discriminate Ha; reflexivity. Qed.

Lemma escape_ascii_cons a s : is_ascii a = true → escape (String a s) = escape_char a +:+ escape s.
Proof. intros Ha. destruct s as [|b [|c [|d s]]]; cbn [escape]; by rewrite Ha. Qed.

(** The closing quote ends a string. *)
Lemma escape_prefix s s' r r' : ascii_string s = true → ascii_string s' = true →
  escape s +:+ String quote r = escape s' +:+ String quote r' → s = s' ∧ r = r'.
Proof.
  unfold ascii_string. revert s'. induction s as [|a s IH]; intros [|a' s']; cbn [string_forall]; rewrite ?andb_true_iff.
  - intros _ _ E. injection E as ->. done.
  - intros _ [Ha _] E%(f_equal unescape_char). by rewrite escape_ascii_cons, app_assoc_string, unescape_escape in E.
  - intros [Ha _] _ E%(f_equal unescape_char). by rewrite escape_ascii_cons, app_assoc_string, unescape_escape in E.
  - intros [Ha Hs] [Ha' Hs'] E%(f_equal unescape_char).
    rewrite !escape_ascii_cons, !app_assoc_string, !unescape_escape in E by done.
    injection E as -> E. destruct (IH s' Hs Hs' E) as [-> ->]. done.
Qed.

Lemma json_quote_prefix s s' r r' : ascii_string s = true → ascii_string s' = true →
  json_quote s +:+ r = json_quote s' +:+ r' → s = s' ∧ r = r'.
Proof.
  unfold json_quote. intros Hs Hs'. rewrite !append_cons, !app_assoc_string. intros E. injection E as E.
  rewrite !append_cons, !append_nil in E. by apply escape_prefix.
Qed.

(** What may follow a number: nothing or a character that is not a digit. *)
Definition ends_number (r : string) : Prop := match r with EmptyString => True | String a _ => is_digit a = false end.

Lemma digits_prefix s s' r r' : string_forall is_digit s = true → string_forall is_digit s' = true →
  ends_number r → ends_number r' → s +:+ r = s' +:+ r' → s = s' ∧ r = r'.
Proof.
  intros Hs Hs' Hr Hr'. revert s' Hs'. induction s as [|a s IH]; intros [|a' s']; simpl in *; rewrite ?andb_true_iff.
  - done.
  - intros [Ha _] E. rewrite append_nil, append_cons in E. subst r. simpl in Hr. congruence.
  - intros _ E. rewrite append_nil, append_cons in E. subst r'. apply andb_true_iff in Hs as [Hs _]. simpl in Hr'. congruence.
  - apply andb_true_iff in Hs as [Ha Hs]. intros [Ha' Hs'] E. rewrite !append_cons in E. injection E as -> E.
    destruct (IH Hs s' Hs' E) as [-> ->]. done.
Qed.

(** The first character tells the kind of a value. *)
Definition first_kind (s : string) : option nat :=
  match s with
  | EmptyString => None
  | String a _ =>
      if is_digit a then Some 1%nat else
      match nat_of_ascii a with 110 => Some 0 | 34 => Some 2 | 91 => Some 3 | 123 => Some 4 | _ => None end%nat
  end.

Definition json_kind (j : Json) : nat :=
  match j with JNull => 0 | JNum _ => 1 | JStr _ => 2 | JArr _ => 3 | JObj _ => 4 end%nat.

Lemma json_text_kind j r : first_kind (json_text j +:+ r) = Some (json_kind j).
Proof.
  destruct j as [|n|s|l|fs]; try done. cbn [json_text json_kind].
  pose proof (fmt_d_digits n) as Hd. pose proof (fmt_d_nonempty n) as Hn.
  destruct (fmt_d n) as [|a s]; [done|]. simpl in Hd. apply andb_true_iff in Hd as [Hd _].
  rewrite append_cons. cbn [first_kind]. by rewrite Hd.
Qed.

Section Items.
Context {A} (text : A → string) (plain : A → bool) (close : ascii).
Hypothesis close_kind : ∀ s, first_kind (String close s) = None.
Hypothesis close_comma : close ≠ ","%char.
Hypothesis close_digit : is_digit close = false.
Hypothesis text_kind : ∀ x r, first_kind (text x +:+ r) ≠ None.

(** The text of an element ends where the next separator begins. *)
Definition prefix_free (x : A) : Prop := ∀ y r r', plain x = true → plain y = true →
  ends_number r → ends_number r' → text x +:+ r = text y +:+ r' → x = y ∧ r = r'.

Abbreviation rest l := (rest_items (String close "") (map text l)).

Lemma rest_items_ends l r : ends_number (rest l +:+ r).
Proof. by destruct l. Qed.

Lemma rest_items_prefix l l' r r' : Forall prefix_free l → forallb plain l = true → forallb plain l' = true →
  rest l +:+ r = rest l' +:+ r' → l = l' ∧ r = r'.
Proof.
  intros Hl. revert l'. induction Hl as [|x l Hx Hl IH]; intros [|x' l']; cbn [forallb map rest_items]; rewrite ?andb_true_iff.
  - intros _ _ E. rewrite !append_cons, !append_nil in E. injection E as ->. done.
  - intros _ _ E. rewrite !append_cons in E. injection E as E _. done.
  - intros _ _ E. rewrite !append_cons in E. injection E as E _. done.
  - intros [Px Pl] [Px' Pl'] E. rewrite !append_cons, !append_nil, !app_assoc_string in E. injection E as E.
    apply Hx in E as [-> E]; [|done|done|apply rest_items_ends..]. destruct (IH l' Pl Pl' E) as [-> ->]. done.
Qed.

Lemma items_prefix l l' r r' : Forall prefix_free l → forallb plain l = true → forallb plain l' = true →
  items (String close "") (map text l) +:+ r = items (String close "") (map text l') +:+ r' → l = l' ∧ r = r'.
Proof.
  intros Hl. destruct Hl as [|x l Hx Hl], l' as [|x' l']; cbn [forallb map items]; rewrite ?andb_true_iff, ?app_assoc_string.
  - intros _ _ E. rewrite !append_cons, !append_nil in E. injection E as ->. done.
  - intros _ _ E%(f_equal first_kind). rewrite append_cons, close_kind in E. by destruct (text_kind x' _ (eq_sym E)).
  - intros _ _ E%(f_equal first_kind). rewrite append_cons, close_kind in E. by destruct (text_kind x _ E).
  - intros [Px Pl] [Px' Pl'] E.
    apply Hx in E as [-> E]; [|done|done|apply rest_items_ends..].
    apply rest_items_prefix in E as [-> ->]; done.
Qed.
End Items.

Lemma json_text_prefix j : prefix_free json_text json_plain j.
Proof.
  induction j as [|n|s|l IH|fs IH] using Json_induction; intros j' r r' Hp Hp' Hr Hr' E;
    (pose proof (f_equal first_kind E) as Hk; rewrite !json_text_kind in Hk; destruct j' as [|n'|s'|l'|fs']; try discriminate Hk; cbn [json_text json_plain] in *).
  - rewrite !append_cons, !append_nil in E. injection E as ->. done.
  - apply digits_prefix in E as [E ->]; [|apply fmt_d_digits..|done|done].
    apply (f_equal (dec_value 0)) in E. rewrite !dec_value_fmt_d in E by lia. injection E as ->. done.
  - apply json_quote_prefix in E as [-> ->]; done.
  - rewrite !app_assoc_string, !append_cons, !append_nil in E. injection E as E.
    apply items_prefix with (plain := json_plain) in E as [-> ->]; try done. intros x r0. by rewrite json_text_kind.
  - rewrite !app_assoc_string, !append_cons, !append_nil in E. injection E as E.
    apply items_prefix with (plain := λ '(k, v), ascii_string k && json_plain v) in E as [-> ->]; try done.
    + by intros [k v] r0.
    + eapply Forall_impl; [exact IH|]. clear. intros [k v] IHv [k' v'] r r' Hp Hp' Hr Hr' E. simpl in IHv.
      apply andb_true_iff in Hp as [Hk Hv], Hp' as [Hk' Hv']. rewrite !app_assoc_string in E.
      apply json_quote_prefix in E as [-> E]; [|done..]. rewrite !append_cons, !append_nil in E. injection E as E.
      apply IHv in E as [-> ->]; done.
Qed.

(** Values over ASCII strings and unsigned numbers with the same text are equal. *)
Lemma json_text_inj j j' : json_plain j = true → json_plain j' = true → json_text j = json_text j' → j = j'.
Proof.
  intros Hj Hj' E. eapply (json_text_prefix j j' "" ""); try done. by rewrite !app_nil_string.
Qed.
