(* ===== verification/Endpoint.v ===== *)
(** * Endpoint identifiers

    [pkg/bpv7/endpoint.go], [endpoint_dtn.go] and [endpoint_ipn.go]: the two
    registered schemes, the parser and printer of endpoint URIs and their CBOR
    representation.  The regular expressions are written out as the predicates
    they denote on byte strings. *)

From stdpp Require Import base tactics list strings countable pretty.
From Stdlib Require Import ZArith Lia Ascii.
From S2P Require Import Prelude Cboring GoStrings.
Local Open Scope Z_scope.

(** ** Data *)

Record DtnEndpoint := mkDtnEndpoint { NodeName : string; Demux : string; IsDtnNone : bool }.
Record IpnEndpoint := mkIpnEndpoint { Node : Z; Service : Z }.

(** The implementations of the interface [EndpointType] that
    [getEndpointManager] registers. *)
Inductive EndpointType :=
  | EDtn (e : DtnEndpoint)
  | EIpn (e : IpnEndpoint).

(** [EndpointID] wraps an [EndpointType], which may be [nil]. *)
Abbreviation EndpointID := (option EndpointType).

#[global] Instance DtnEndpoint_eq_dec : EqDecision DtnEndpoint.
Proof. solve_decision. Defined.
#[global] Instance IpnEndpoint_eq_dec : EqDecision IpnEndpoint.
Proof. solve_decision. Defined.
#[global] Instance EndpointType_eq_dec : EqDecision EndpointType.
Proof. solve_decision. Defined.
#[global] Instance EndpointType_countable : Countable EndpointType.
Proof.
  apply (inj_countable'
    (λ e, match e with
          | EDtn d => inl (NodeName d, Demux d, IsDtnNone d)
          | EIpn i => inr (Node i, Service i)
          end)
    (λ x, match x with
          | inl (n, d, b) => EDtn (mkDtnEndpoint n d b)
          | inr (n, s) => EIpn (mkIpnEndpoint n s)
          end)).
  by intros [[]|[]].
Defined.

Definition DtnEndpointSchemeName : string := "dtn".
Definition DtnEndpointSchemeNo : Z := 1.
Definition DtnEndpointDtnNone : string := "dtn:none".
Definition DtnEndpointDtnNoneSsp : string := "none".
Definition ipnEndpointSchemeName : string := "ipn".
Definition ipnEndpointSchemeNo : Z := 2.

Definition DtnNone : EndpointID := Some (EDtn (mkDtnEndpoint "" "" true)).

(** ** The dtn scheme *)

(** The character class of [DtnEndpointRegexpSsp]: word characters and the
    unreserved and sub-delimiter characters of URIs. *)
Definition is_node_char (a : ascii) : bool :=
  is_word a || existsb (λ c, bool_decide (a = c))
    ["-"; "."; "~"; "!"; "$"; "&"; "'"; "("; ")"; "*"; "+"; ","; ";"; "="]%char.

Definition node_ok (s : string) : bool := nonempty s && string_forall is_node_char s.

(** A match of [DtnEndpointRegexpSsp] that starts at the head of [s]; the
    alternative for an empty node name cannot match behind the two slashes, and the group for
    the demux may match the empty string. *)
Definition ssp_here (s : string) : bool :=
  match s with
  | String "/" (String "/" rest) =>
      match split_first "/" rest with (node, Some _) => node_ok node | _ => false end
  | _ => false
  end.

(** [regexp.MustCompile(DtnEndpointRegexpSsp).MatchString], not anchored. *)
Fixpoint ssp_match (s : string) : bool :=
  ssp_here s || match s with EmptyString => false | String _ s' => ssp_match s' end.

(** The same expression between [^] and [$]; the whole demux is then matched by [.]. *)
Definition ssp_match_full (s : string) : bool :=
  match s with
  | String "/" (String "/" rest) =>
      match split_first "/" rest with
      | (node, Some demux) => node_ok node && string_forall is_dot demux
      | _ => false
      end
  | _ => false
  end.

(** [parseDtnSsp]: node name, demux, is [dtn:none]. *)
Definition parseDtnSsp (ssp : string) : res (string * string * bool) :=
  if bool_decide (ssp = DtnEndpointDtnNoneSsp) then Ok ("", "", true) else
  if negb (ssp_match_full ssp) then Err (errorf "ssp does not match a dtn endpoint") else
  match ssp with
  | String _ (String _ rest) =>
      match split_first "/" rest with
      | (nodeName, Some demux) => Ok (nodeName, demux, false)
      | (_, None) => Panic
      end
  | _ => Panic
  end.

Definition DtnEndpoint_CheckValid (e : DtnEndpoint) : errors :=
  if IsDtnNone e then [] else
  let ssp := "//" +:+ (NodeName e +:+ ("/" +:+ Demux e)) in
  if negb (ssp_match ssp) then [errorf "malformed ssp"] else [].

(** The first error of a [CheckValid] as the [error] of the caller. *)
Definition check (errs : errors) : res () :=
  match errs with [] => Ok () | e :: _ => Err e end.

Definition NewDtnEndpoint (uri : string) : res EndpointType :=
  if negb (String.prefix "dtn:" uri) then
    Err (errorf "URI does not start with the dtn URI prefix")
  else
    '(nodeName, demux, isDtnNode) ← parseDtnSsp (String.substring 4 (String.length uri - 4) uri);
    let e := if (isDtnNode : bool) then mkDtnEndpoint "" "" true
             else mkDtnEndpoint nodeName demux false in
    check (DtnEndpoint_CheckValid e);; Ok (EDtn e).

Definition DtnEndpoint_Authority (e : DtnEndpoint) : string :=
  if IsDtnNone e then DtnEndpointDtnNoneSsp else NodeName e.
Definition DtnEndpoint_Path (e : DtnEndpoint) : string :=
  if IsDtnNone e then "/" else "/" +:+ Demux e.
Definition DtnEndpoint_IsSingleton (e : DtnEndpoint) : bool :=
  negb (String.prefix "~" (Demux e)) && negb (IsDtnNone e).
Definition DtnEndpoint_String (e : DtnEndpoint) : string :=
  if IsDtnNone e then DtnEndpointDtnNone
  else "dtn" +:+ ("://" +:+ (NodeName e +:+ ("/" +:+ Demux e))).

(** ** The ipn scheme *)

Definition IpnEndpoint_CheckValid (e : IpnEndpoint) : errors :=
  if (Node e <? 1) || (Service e <? 1) then [errorf "ipn's node and Service number must be >= 1"] else [].

(** [^ipn:(\d+)\.(\d+)$] *)
Definition ipn_match (uri : string) : option (string * string) :=
  if String.prefix "ipn:" uri then
    match split_first "." (String.substring 4 (String.length uri - 4) uri) with
    | (a, Some b) =>
        if nonempty a && string_forall is_digit a && (nonempty b && string_forall is_digit b)
        then Some (a, b) else None
    | _ => None
    end
  else None.

Definition NewIpnEndpoint (uri : string) : res EndpointType :=
  match ipn_match uri with
  | None => Err (errorf "uri does not match an ipn endpoint")
  | Some (a, b) =>
      node ← ParseUint a;
      service ← ParseUint b;
      let e := mkIpnEndpoint node service in
      check (IpnEndpoint_CheckValid e);; Ok (EIpn e)
  end.

Definition IpnEndpoint_Authority (e : IpnEndpoint) : string := fmt_d (Node e).
Definition IpnEndpoint_Path (e : IpnEndpoint) : string := fmt_d (Service e).
Definition IpnEndpoint_IsSingleton (e : IpnEndpoint) : bool := true.
Definition IpnEndpoint_String (e : IpnEndpoint) : string :=
  "ipn" +:+ (":" +:+ (fmt_d (Node e) +:+ ("." +:+ fmt_d (Service e)))).

(** ** Dispatch on the scheme *)

Definition SchemeName (et : EndpointType) : string :=
  match et with EDtn _ => DtnEndpointSchemeName | EIpn _ => ipnEndpointSchemeName end.
Definition SchemeNo (et : EndpointType) : Z :=
  match et with EDtn _ => DtnEndpointSchemeNo | EIpn _ => ipnEndpointSchemeNo end.
Definition EndpointType_Authority (et : EndpointType) : string :=
  match et with EDtn e => DtnEndpoint_Authority e | EIpn e => IpnEndpoint_Authority e end.
Definition EndpointType_CheckValid (et : EndpointType) : errors :=
  match et with EDtn e => DtnEndpoint_CheckValid e | EIpn e => IpnEndpoint_CheckValid e end.
Definition EndpointType_String (et : EndpointType) : string :=
  match et with EDtn e => DtnEndpoint_String e | EIpn e => IpnEndpoint_String e end.

(** [getEndpointManager().newMap] *)
Definition endpoint_newMap (scheme : string) : option (string → res EndpointType) :=
  if bool_decide (scheme = DtnEndpointSchemeName) then Some NewDtnEndpoint else
  if bool_decide (scheme = ipnEndpointSchemeName) then Some NewIpnEndpoint else None.

(** [NewEndpointID]; the expression is [^([[:alnum:]]+):.+$]. *)
Definition NewEndpointID (uri : string) : res EndpointID :=
  match split_first ":" uri with
  | (scheme, Some rest) =>
      if nonempty scheme && string_forall is_alnum scheme && (nonempty rest && string_forall is_dot rest) then
        match endpoint_newMap scheme with
        | None => Err (errorf "no handler registered for URI scheme")
        | Some f => et ← f uri; Ok (Some et)
        end
      else Err (errorf "given URI does not match URI regexp")
  | _ => Err (errorf "given URI does not match URI regexp")
  end.

(** [MustNewEndpointID] panics where [NewEndpointID] errs. *)
Definition MustNewEndpointID (uri : string) : res EndpointID :=
  match NewEndpointID uri with Ok e => Ok e | _ => Panic end.

Definition EndpointID_CheckValid (eid : EndpointID) : errors :=
  match eid with
  | None => [errorf "internal EndpointType is nil"]
  | Some et => EndpointType_CheckValid et
  end.

Definition EndpointID_String (eid : EndpointID) : string :=
  match eid with
  | None => DtnEndpointDtnNone
  | Some et => EndpointType_String et
  end.

(** [SameNode] *)
Definition SameNode (eid other : EndpointID) : bool :=
  if bool_decide (eid = None ∧ other = None) || bool_decide (eid = None ∧ other = DtnNone)
     || bool_decide (eid = DtnNone ∧ other = None) then true else
  match eid, other with
  | Some et1, Some et2 =>
      bool_decide (SchemeName et1 = SchemeName et2) &&
      bool_decide (EndpointType_Authority et1 = EndpointType_Authority et2)
  | _, _ => false
  end.

(** ** CBOR *)

Section Codec.
Context `{Cboring}.

Definition DtnEndpoint_ssp (e : DtnEndpoint) : string :=
  "//" +:+ (NodeName e +:+ ("/" +:+ Demux e)).

Definition DtnEndpoint_MarshalCbor (e : DtnEndpoint) : bytes :=
  if IsDtnNone e then WriteUInt 0 else WriteTextString (str_bytes (DtnEndpoint_ssp e)).

Definition DtnEndpoint_UnmarshalCbor : reader EndpointType :=
  '(m, n) ← ReadMajors;
  match m with
  | UInt => mret (EDtn (mkDtnEndpoint "" "" true))
  | TextString =>
      ssp ← ReadRawBytes n;
      '(nodeName, demux, isDtnNode) ← lift_res (parseDtnSsp (bytes_str ssp));
      if (isDtnNode : bool) then fail (errorf "DtnEndpoint: byte based SSP represents dtn:none") else
      mret (EDtn (mkDtnEndpoint nodeName demux false))
  | _ => fail (errorf "DtnEndpoint: wrong major type for unmarshalling")
  end.

Definition IpnEndpoint_MarshalCbor (e : IpnEndpoint) : bytes :=
  WriteArrayLength 2 ++ WriteUInt (Node e) ++ WriteUInt (Service e).

Definition IpnEndpoint_UnmarshalCbor : reader EndpointType :=
  n ← ReadArrayLength;
  if negb (n =? 2) then fail (errorf "ipn uri expected array of 2 elements") else
  node ← ReadUInt;
  service ← ReadUInt;
  mret (EIpn (mkIpnEndpoint node service)).

Definition EndpointType_MarshalCbor (et : EndpointType) : bytes :=
  match et with EDtn e => DtnEndpoint_MarshalCbor e | EIpn e => IpnEndpoint_MarshalCbor e end.

Definition EndpointID_MarshalCbor (eid : EndpointID) : res bytes :=
  check (EndpointID_CheckValid eid);;
  match eid with
  | None => Panic
  | Some et => Ok (WriteArrayLength 2 ++ WriteUInt (SchemeNo et) ++ EndpointType_MarshalCbor et)
  end.

(** [getEndpointManager().typeMap] selects the [UnmarshalCbor] to call. *)
Definition endpoint_typeMap (scheme : Z) : option (reader EndpointType) :=
  if scheme =? DtnEndpointSchemeNo then Some DtnEndpoint_UnmarshalCbor else
  if scheme =? ipnEndpointSchemeNo then Some IpnEndpoint_UnmarshalCbor else None.

Definition EndpointID_UnmarshalCbor : reader EndpointID :=
  l ← ReadArrayLength;
  if negb (l =? 2) then fail (errorf "EndpointID expects array of 2 elements") else
  scheme ← ReadUInt;
  match endpoint_typeMap scheme with
  | None => fail (errorf "no URI scheme registered for scheme number")
  | Some m => et ← m; mret (Some et)
  end.
End Codec.

(** ** Well-formed endpoints *)

Definition DtnEndpoint_wf (e : DtnEndpoint) : Prop :=
  if IsDtnNone e then NodeName e = "" ∧ Demux e = ""
  else node_ok (NodeName e) = true ∧ string_forall is_dot (Demux e) = true.

Definition IpnEndpoint_wf (e : IpnEndpoint) : Prop :=
  1 ≤ Node e < two64 ∧ 1 ≤ Service e < two64.

(** What the URI parser produces: see [NewEndpointID_wf]. *)
Definition EndpointType_wf (et : EndpointType) : Prop :=
  match et with EDtn e => DtnEndpoint_wf e | EIpn e => IpnEndpoint_wf e end.

Definition EndpointID_wf (eid : EndpointID) : Prop :=
  match eid with None => False | Some et => EndpointType_wf et end.

(** The text string of a dtn endpoint has a length CBOR can express. *)
Definition EndpointID_fits (eid : EndpointID) : Prop :=
  match eid with Some (EDtn e) => is_u64 (len (str_bytes (DtnEndpoint_ssp e))) | _ => True end.

#[global] Instance DtnEndpoint_wf_dec e : Decision (DtnEndpoint_wf e).
Proof. unfold DtnEndpoint_wf. destruct (IsDtnNone e); apply _. Defined.
#[global] Instance IpnEndpoint_wf_dec e : Decision (IpnEndpoint_wf e).
Proof. unfold IpnEndpoint_wf. apply _. Defined.
#[global] Instance EndpointType_wf_dec et : Decision (EndpointType_wf et).
Proof. destruct et; simpl; apply _. Defined.
#[global] Instance EndpointID_wf_dec eid : Decision (EndpointID_wf eid).
Proof. destruct eid; simpl; apply _. Defined.
#[global] Instance EndpointID_fits_dec eid : Decision (EndpointID_fits eid).
Proof. destruct eid as [[]|]; simpl; apply _. Defined.

(** ** Lemmas *)

Lemma substring_whole s : String.substring 0 (String.length s) s = s.
Proof. induction s; simpl; congruence. Qed.

Lemma substring_4 a b c d s :
  let u := String a (String b (String c (String d s))) in
  String.substring 4 (String.length u - 4) u = s.
Proof. simpl. rewrite Nat.sub_0_r. apply substring_whole. Qed.

Lemma prefix_4 a b c d s :
  String.prefix (String a (String b (String c (String d "")))) (String a (String b (String c (String d s)))) = true.
Proof. simpl. repeat (destruct (ascii_dec _ _); [|done]). by destruct s. Qed.

Lemma node_char_not_slash a : is_node_char a = true → not_char "/" a = true.
Proof.
  unfold not_char. intros H. destruct (bool_decide_reflect (a = "/"%char)) as [->|]; [|done].
  by vm_compute in H.
Qed.

Lemma node_ok_no_slash s : node_ok s = true → string_forall (not_char "/") s = true.
Proof.
  unfold node_ok. rewrite andb_true_iff. intros [_ H].
  eapply string_forall_impl, H. apply node_char_not_slash.
Qed.

Lemma ssp_match_full_build node demux : node_ok node = true → string_forall is_dot demux = true →
  ssp_match_full ("//" +:+ (node +:+ ("/" +:+ demux))) = true.
Proof.
  intros Hn Hd. change (ssp_match_full (String "/" (String "/" (node +:+ String "/" demux))) = true).
  unfold ssp_match_full. rewrite split_first_app by by apply node_ok_no_slash. by rewrite Hn, Hd.
Qed.

Lemma ssp_here_build node demux : node_ok node = true →
  ssp_here ("//" +:+ (node +:+ ("/" +:+ demux))) = true.
Proof.
  intros Hn. change (ssp_here (String "/" (String "/" (node +:+ String "/" demux))) = true).
  unfold ssp_here. by rewrite split_first_app by by apply node_ok_no_slash.
Qed.

Lemma parseDtnSsp_build node demux : node_ok node = true → string_forall is_dot demux = true →
  parseDtnSsp ("//" +:+ (node +:+ ("/" +:+ demux))) = Ok (node, demux, false).
Proof.
  intros Hn Hd. unfold parseDtnSsp. rewrite ssp_match_full_build by done.
  change ("//" +:+ (node +:+ ("/" +:+ demux))) with (String "/" (String "/" (node +:+ String "/" demux))).
  rewrite bool_decide_eq_false_2 by done. simpl negb. cbv iota.
  by rewrite split_first_app by by apply node_ok_no_slash.
Qed.

Lemma parseDtnSsp_Ok ssp node demux none : parseDtnSsp ssp = Ok (node, demux, none) →
  if none then ssp = "none" ∧ node = "" ∧ demux = ""
  else ssp = "//" +:+ (node +:+ ("/" +:+ demux)) ∧ node_ok node = true ∧ string_forall is_dot demux = true.
Proof.
  unfold parseDtnSsp. case_bool_decide; [intros; by simplify_eq|].
  destruct (ssp_match_full ssp) eqn:E; [|done]. simpl negb. cbv iota.
  destruct ssp as [|c1 [|c2 rest]]; [done..|].
  unfold ssp_match_full in E.
  destruct (decide (c1 = "/"%char)) as [->|]; [|repeat case_match; done].
  destruct (decide (c2 = "/"%char)) as [->|]; [|repeat case_match; done].
  destruct (split_first "/" rest) as [l [r|]] eqn:Es; [|done].
  intros; simplify_eq. apply andb_true_iff in E as [??].
  by apply split_first_Some in Es as [-> ?].
Qed.

Lemma ssp_match_here s : ssp_here s = true → ssp_match s = true.
Proof. destruct s; cbn [ssp_match]; by intros ->. Qed.

Lemma DtnEndpoint_wf_valid e : DtnEndpoint_wf e → DtnEndpoint_CheckValid e = [].
Proof.
  unfold DtnEndpoint_wf, DtnEndpoint_CheckValid. destruct (IsDtnNone e); [done|]. intros [Hn Hd].
  pose proof (ssp_here_build (NodeName e) (Demux e) Hn) as Hh.
  by rewrite (ssp_match_here _ Hh).
Qed.

Lemma IpnEndpoint_wf_valid e : IpnEndpoint_wf e → IpnEndpoint_CheckValid e = [].
Proof.
  intros [H1 H2]. unfold IpnEndpoint_CheckValid.
  rewrite !(proj2 (Z.ltb_ge _ _)) by lia. done.
Qed.

Lemma EndpointID_wf_valid eid : EndpointID_wf eid → EndpointID_CheckValid eid = [].
Proof. destruct eid as [[e|e]|]; simpl; [apply DtnEndpoint_wf_valid|apply IpnEndpoint_wf_valid|done]. Qed.

Section CodecLemmas.
Context `{Cboring} `{!CboringLaws _}.

Lemma EndpointID_Marshal_wf eid : EndpointID_wf eid →
  ∃ et, eid = Some et ∧ EndpointID_MarshalCbor eid =
    Ok (WriteArrayLength 2 ++ WriteUInt (SchemeNo et) ++ EndpointType_MarshalCbor et).
Proof.
  intros Hwf. unfold EndpointID_MarshalCbor. rewrite EndpointID_wf_valid by done.
  destruct eid as [et|]; [|done]. by exists et.
Qed.

Lemma DtnEndpoint_rt e r : DtnEndpoint_wf e → is_u64 (len (str_bytes (DtnEndpoint_ssp e))) →
  DtnEndpoint_UnmarshalCbor (DtnEndpoint_MarshalCbor e ++ r) = (Ok (EDtn e), r).
Proof.
  unfold DtnEndpoint_wf, DtnEndpoint_UnmarshalCbor, DtnEndpoint_MarshalCbor.
  destruct (IsDtnNone e) eqn:En.
  - intros [E1 E2] _. mstep by (apply majors_uint; u64_lia). destruct e; simpl in *. by subst.
  - intros [Hn Hd] Hl. mstep by (by apply majors_text).
    mstep by apply raw_rt. rewrite bytes_str_bytes. unfold DtnEndpoint_ssp.
    mstep by (unfold lift_res; by rewrite parseDtnSsp_build). destruct e; simpl in *. by subst.
Qed.

Lemma IpnEndpoint_rt e r : is_u64 (Node e) → is_u64 (Service e) →
  IpnEndpoint_UnmarshalCbor (IpnEndpoint_MarshalCbor e ++ r) = (Ok (EIpn e), r).
Proof.
  intros H1 H2. unfold IpnEndpoint_UnmarshalCbor, IpnEndpoint_MarshalCbor. rewrite <- !app_assoc.
  mstep by (apply array_rt; u64_lia). mif.
  mstep by by apply uint_rt. mstep by by apply uint_rt. by destruct e.
Qed.

Lemma EndpointID_rt eid bs r : EndpointID_wf eid → EndpointID_fits eid →
  EndpointID_MarshalCbor eid = Ok bs → EndpointID_UnmarshalCbor (bs ++ r) = (Ok eid, r).
Proof.
  intros Hwf Hfit Hm. destruct (EndpointID_Marshal_wf eid Hwf) as (et & -> & E).
  rewrite E in Hm. apply Ok_inj in Hm as <-. unfold EndpointID_UnmarshalCbor.
  rewrite <- !app_assoc. mstep by (apply array_rt; u64_lia). mif.
  destruct et as [e|e]; simpl SchemeNo; unfold DtnEndpointSchemeNo, ipnEndpointSchemeNo.
  - mstep by (apply uint_rt; u64_lia). change (endpoint_typeMap 1) with (Some DtnEndpoint_UnmarshalCbor); cbv iota.
    by mstep by by apply DtnEndpoint_rt.
  - mstep by (apply uint_rt; u64_lia). change (endpoint_typeMap 2) with (Some IpnEndpoint_UnmarshalCbor); cbv iota.
    destruct Hwf. by mstep by (apply IpnEndpoint_rt; u64_lia).
Qed.
End CodecLemmas.

(** ** Parsing and printing URIs *)

Lemma node_ok_dots s : node_ok s = true → string_forall is_dot s = true.
Proof.
  unfold node_ok. rewrite andb_true_iff. intros [_ H]. eapply string_forall_impl, H.
  intros a Ha. unfold is_dot. destruct (bool_decide_reflect (a = "010"%char)) as [->|]; [|done].
  by vm_compute in Ha.
Qed.

Lemma digits_dots s : string_forall is_digit s = true → string_forall is_dot s = true.
Proof.
  apply string_forall_impl. intros a Ha. unfold is_dot.
  destruct (bool_decide_reflect (a = "010"%char)) as [->|]; [|done]. by vm_compute in Ha.
Qed.

Lemma NewDtnEndpoint_build node demux : node_ok node = true → string_forall is_dot demux = true →
  NewDtnEndpoint ("dtn" +:+ ("://" +:+ (node +:+ ("/" +:+ demux)))) = Ok (EDtn (mkDtnEndpoint node demux false)).
Proof.
  intros Hn Hd. unfold NewDtnEndpoint.
  set (ssp := "//" +:+ (node +:+ ("/" +:+ demux))).
  change ("dtn" +:+ ("://" +:+ (node +:+ ("/" +:+ demux))))
    with (String "d" (String "t" (String "n" (String ":" ssp)))).
  rewrite prefix_4, substring_4. simpl negb. cbv iota.
  unfold ssp. rewrite parseDtnSsp_build by done. cbn [mbind res_bind].
  by rewrite DtnEndpoint_wf_valid.
Qed.

Lemma NewIpnEndpoint_build e : IpnEndpoint_wf e → NewIpnEndpoint (IpnEndpoint_String e) = Ok (EIpn e).
Proof.
  intros Hwf. pose proof Hwf as [H1 H2]. unfold NewIpnEndpoint, ipn_match, IpnEndpoint_String.
  set (rest := fmt_d (Node e) +:+ ("." +:+ fmt_d (Service e))).
  change ("ipn" +:+ (":" +:+ rest)) with (String "i" (String "p" (String "n" (String ":" rest)))).
  rewrite prefix_4, substring_4.
  unfold rest. change ("." +:+ fmt_d (Service e)) with (String "." (fmt_d (Service e))).
  rewrite split_first_app by by apply fmt_d_not_char.
  rewrite !fmt_d_nonempty, !fmt_d_digits. simpl.
  rewrite !ParseUint_fmt_d by u64_lia. simpl. destruct e. by rewrite IpnEndpoint_wf_valid.
Qed.

Lemma NewEndpointID_scheme scheme rest f :
  nonempty scheme = true → string_forall is_alnum scheme = true →
  string_forall (not_char ":") scheme = true →
  nonempty rest = true → string_forall is_dot rest = true →
  endpoint_newMap scheme = Some f →
  NewEndpointID (scheme +:+ String ":" rest) = (et ← f (scheme +:+ String ":" rest); Ok (Some et)).
Proof.
  intros H1 H2 H3 H4 H5 H6. unfold NewEndpointID.
  rewrite split_first_app by done. by rewrite H1, H2, H4, H5, H6.
Qed.

Lemma NewEndpointID_String et : EndpointType_wf et → NewEndpointID (EndpointType_String et) = Ok (Some et).
Proof.
  destruct et as [e|e]; simpl; intros Hwf.
  - unfold DtnEndpoint_String. unfold DtnEndpoint_wf in Hwf. destruct (IsDtnNone e) eqn:En.
    + destruct e, Hwf; simpl in *. by subst.
    + destruct Hwf as [Hn Hd].
      change ("dtn" +:+ ("://" +:+ (NodeName e +:+ ("/" +:+ Demux e))))
        with ("dtn" +:+ String ":" ("//" +:+ (NodeName e +:+ ("/" +:+ Demux e)))) at 1.
      rewrite (NewEndpointID_scheme "dtn" _ NewDtnEndpoint); [|done..| |done].
      * change ("dtn" +:+ String ":" ("//" +:+ (NodeName e +:+ ("/" +:+ Demux e))))
          with ("dtn" +:+ ("://" +:+ (NodeName e +:+ ("/" +:+ Demux e)))).
        rewrite NewDtnEndpoint_build by done. destruct e; simpl in *. by subst.
      * change (string_forall is_dot (NodeName e +:+ String "/" (Demux e)) = true).
        rewrite string_forall_app, node_ok_dots by done. done.
  - change (IpnEndpoint_String e)
      with ("ipn" +:+ String ":" (fmt_d (Node e) +:+ ("." +:+ fmt_d (Service e)))) at 1.
    rewrite (NewEndpointID_scheme "ipn" _ NewIpnEndpoint); [|done..| | |done].
    + change ("ipn" +:+ String ":" (fmt_d (Node e) +:+ ("." +:+ fmt_d (Service e))))
        with (IpnEndpoint_String e). by rewrite NewIpnEndpoint_build.
    + pose proof (fmt_d_nonempty (Node e)). by destruct (fmt_d (Node e)).
    + rewrite string_forall_app.
      change (string_forall is_dot (fmt_d (Node e)) && string_forall is_dot (fmt_d (Service e)) = true).
      by rewrite !digits_dots by apply fmt_d_digits.
Qed.

(** The schemes' parsers return well-formed endpoints, and the dtn parser one
    that prints as the URI it was given. *)
Lemma prefix_app p s : String.prefix p s = true → ∃ t, s = p +:+ t.
Proof.
  revert s. induction p as [|a p IH]; intros s; [by exists s|].
  destruct s as [|b s]; simpl; [done|]. destruct (ascii_dec a b) as [->|]; [|done].
  intros [t ->]%IH. by exists t.
Qed.

Lemma NewDtnEndpoint_Ok uri et : NewDtnEndpoint uri = Ok et →
  EndpointType_wf et ∧ EndpointType_String et = uri.
Proof.
  unfold NewDtnEndpoint. destruct (String.prefix "dtn:" uri) eqn:Hp; [|done].
  apply prefix_app in Hp as [ssp ->]. simpl negb. cbv iota.
  change ("dtn:" +:+ ssp) with (String "d" (String "t" (String "n" (String ":" ssp)))).
  rewrite substring_4.
  destruct (parseDtnSsp ssp) as [[[node demux] none]| |] eqn:E; [|done..].
  apply parseDtnSsp_Ok in E. cbn [mbind res_bind]. destruct none.
  - destruct E as (-> & -> & ->). by intros <-%Ok_inj.
  - destruct E as (-> & Hn & Hd). rewrite DtnEndpoint_wf_valid by done. by intros <-%Ok_inj.
Qed.

Lemma NewIpnEndpoint_Ok uri et : NewIpnEndpoint uri = Ok et → ∃ e, et = EIpn e ∧ IpnEndpoint_wf e.
Proof.
  unfold NewIpnEndpoint. destruct (ipn_match uri) as [[a b]|]; [|done].
  destruct (ParseUint a) as [n| |] eqn:En; [|done..]. cbn [mbind res_bind].
  destruct (ParseUint b) as [m| |] eqn:Em; [|done..]. cbn [mbind res_bind].
  apply ParseUint_u64 in En, Em. unfold IpnEndpoint_CheckValid. simpl.
  destruct (Z.ltb_spec n 1), (Z.ltb_spec m 1); simpl; [done..|]. intros <-%Ok_inj.
  eexists. by repeat split; simpl.
Qed.

Lemma NewEndpointID_Ok uri eid : NewEndpointID uri = Ok eid →
  EndpointID_wf eid ∧ (∀ e, eid = Some (EDtn e) → EndpointID_String eid = uri).
Proof.
  unfold NewEndpointID. destruct (split_first ":" uri) as [scheme [rest|]]; [|done].
  case_match; [|done]. unfold endpoint_newMap.
  case_bool_decide; [|case_bool_decide; [|done]].
  - destruct (NewDtnEndpoint uri) as [et| |] eqn:E; [|done..]. intros <-%Ok_inj.
    apply NewDtnEndpoint_Ok in E as [??]. by split.
  - destruct (NewIpnEndpoint uri) as [et| |] eqn:E; [|done..]. intros <-%Ok_inj.
    apply NewIpnEndpoint_Ok in E as (e & -> & ?). by split.
Qed.

(** Whatever the bytes, a dtn endpoint that the CBOR decoder accepts is well
    formed. *)
Lemma EndpointID_Unmarshal_dtn `{Cboring} inp r e :
  EndpointID_UnmarshalCbor inp = (Ok (Some (EDtn e)), r) → DtnEndpoint_wf e.
Proof.
  unfold EndpointID_UnmarshalCbor, mbind, M_bind, mret, M_ret, fail, endpoint_typeMap.
  destruct (ReadArrayLength inp) as [[l| |] i1]; [|done..].
  destruct (negb (l =? 2)); [done|].
  destruct (ReadUInt i1) as [[scheme| |] i2]; [|done..].
  destruct (scheme =? DtnEndpointSchemeNo); [|destruct (scheme =? ipnEndpointSchemeNo); [|done]].
  - destruct (DtnEndpoint_UnmarshalCbor i2) as [[et| |] i3] eqn:E; [|done..].
    intros H'. simplify_eq/=. unfold DtnEndpoint_UnmarshalCbor, mbind, M_bind, mret, M_ret, fail in E.
    destruct (ReadMajors i2) as [[[m n]| |] i4]; [|done..].
    destruct m; simplify_eq/=; [done|].
    destruct (ReadRawBytes n i4) as [[ssp| |] i5]; [|done..].
    unfold lift_res in E. destruct (parseDtnSsp _) as [[[node demux] none]| |] eqn:Ep; [|done..].
    apply parseDtnSsp_Ok in Ep. destruct none; simplify_eq/=. by destruct Ep as (_ & ? & ?).
  - destruct (IpnEndpoint_UnmarshalCbor i2) as [[et| |] i3] eqn:E; [|done..].
    intros H'. simplify_eq/=. exfalso. unfold IpnEndpoint_UnmarshalCbor, mbind, M_bind, mret, M_ret, fail in E.
    destruct (ReadArrayLength i2) as [[l'| |] i4]; [|done..]. destruct (negb (l' =? 2)); [done|].
    destruct (ReadUInt i4) as [[a| |] i5]; [|done..]. by destruct (ReadUInt i5) as [[b| |] i6].
Qed.

Lemma fmt_d_inj m n : is_u64 m → is_u64 n → fmt_d m = fmt_d n → m = n.
Proof.
  intros Hm Hn E. apply (f_equal ParseUint) in E. rewrite !ParseUint_fmt_d in E by done. by simplify_eq.
Qed.

(** ** Properties *)

(** C40: printing a well-formed endpoint and parsing the URI gives it back. *)
Theorem endpoint_uri_roundtrip et : EndpointType_wf et →
  NewEndpointID (EndpointID_String (Some et)) = Ok (Some et).
Proof. apply NewEndpointID_String. Qed.

Lemma endpoint_uri_roundtrip_witness :
  NewEndpointID "dtn://rec.broker/~" = Ok (Some (EDtn (mkDtnEndpoint "rec.broker" "~" false))).
Proof.
  exact (endpoint_uri_roundtrip (EDtn (mkDtnEndpoint "rec.broker" "~" false))
    ltac:(vm_compute; split; reflexivity)).
Defined.

(** Every URI that [NewEndpointID] accepts yields a well-formed (hence valid,
    never [nil]) endpoint, and a dtn URI is reproduced exactly by [String]. *)
Theorem endpoint_parse_sound uri eid : NewEndpointID uri = Ok eid →
  EndpointID_wf eid ∧ EndpointID_CheckValid eid = [] ∧
  (∀ e, eid = Some (EDtn e) → EndpointID_String eid = uri).
Proof. intros [Hwf Hs]%NewEndpointID_Ok. auto using EndpointID_wf_valid. Qed.

Lemma endpoint_parse_sound_witness :
  EndpointID_wf (Some (EIpn (mkIpnEndpoint 23 42))) ∧ NewEndpointID "ipn:023.42" = Ok (Some (EIpn (mkIpnEndpoint 23 42))).
Proof.
  split; [|reflexivity].
  exact (proj1 (endpoint_parse_sound "ipn:023.42" (Some (EIpn (mkIpnEndpoint 23 42))) eq_refl)).
Defined.

(** A well-formed endpoint can be marshalled, and unmarshalling the bytes,
    whatever follows them, returns the endpoint and leaves what follows unread. *)
Theorem endpoint_cbor_roundtrip `{Cboring} `{!CboringLaws _} eid r :
  EndpointID_wf eid → EndpointID_fits eid →
  ∃ bs, EndpointID_MarshalCbor eid = Ok bs ∧ EndpointID_UnmarshalCbor (bs ++ r) = (Ok eid, r).
Proof.
  intros Hwf Hf. destruct (EndpointID_Marshal_wf eid Hwf) as (et & _ & E).
  eexists. split; [exact E|]. by eapply EndpointID_rt.
Qed.

Lemma endpoint_cbor_roundtrip_witness :
  ∃ bs, EndpointID_MarshalCbor (Some (EDtn (mkDtnEndpoint "seven" "in" false))) = Ok bs ∧
        EndpointID_UnmarshalCbor (bs ++ [Byte.xff]) = (Ok (Some (EDtn (mkDtnEndpoint "seven" "in" false))), [Byte.xff]).
Proof.
  apply (endpoint_cbor_roundtrip (Some (EDtn (mkDtnEndpoint "seven" "in" false))) [Byte.xff]);
    vm_compute; repeat split; discriminate.
Defined.

(** [CheckValid] of a dtn endpoint searches the expression anywhere in the
    text, so it accepts an endpoint with an empty node name whose own encoding
    the decoder rejects. *)
Theorem DtnEndpoint_CheckValid_lax :
  let e := Some (EDtn (mkDtnEndpoint "" "//a/" false)) in
  EndpointID_CheckValid e = [] ∧
  ∃ bs, EndpointID_MarshalCbor e = Ok bs ∧
        EndpointID_UnmarshalCbor bs = (Err (errorf "ssp does not match a dtn endpoint"), []).
Proof. split; [reflexivity|]. eexists. split; reflexivity. Qed.

(** The node an endpoint belongs to. *)
Definition node_of (et : EndpointType) : string + Z :=
  match et with EDtn e => inl (NodeName e) | EIpn e => inr (Node e) end.

(** On well-formed endpoints other than dtn:none, [SameNode] holds exactly
    when both have the same scheme and the same node name or number. *)
Theorem SameNode_spec et1 et2 :
  EndpointType_wf et1 → EndpointType_wf et2 → Some et1 ≠ DtnNone → Some et2 ≠ DtnNone →
  SameNode (Some et1) (Some et2) = true ↔ node_of et1 = node_of et2.
Proof.
  intros H1 H2 N1 N2. unfold SameNode. rewrite !bool_decide_eq_false_2 by (by intros []). simpl orb. cbv iota.
  rewrite andb_true_iff, !bool_decide_eq_true.
  assert (∀ e, DtnEndpoint_wf e → Some (EDtn e) ≠ DtnNone → IsDtnNone e = false) as Hnone.
  { intros [? ? []] He Hn; [|done]. destruct He; simpl in *. by subst. }
  destruct et1 as [e1|e1], et2 as [e2|e2]; simpl; [|split; [by intros []|done]..|].
  - unfold DtnEndpoint_Authority. rewrite !Hnone by done.
    split; [by intros [_ ->] | by intros [= ->]].
  - unfold IpnEndpoint_Authority. destruct H1, H2. split; [|by intros [= ->]].
    intros [_ E]. f_equal. apply fmt_d_inj; [u64_lia..|done].
Qed.

Lemma SameNode_spec_witness :
  SameNode (Some (EDtn (mkDtnEndpoint "a" "x" false))) (Some (EDtn (mkDtnEndpoint "a" "y" false))) = true.
Proof.
  apply (SameNode_spec (EDtn (mkDtnEndpoint "a" "x" false)) (EDtn (mkDtnEndpoint "a" "y" false)));
    [vm_compute; split; reflexivity | vm_compute; split; reflexivity | discriminate | discriminate | reflexivity].
Defined.

(** [SameNode] takes the null endpoint dtn:none and the ordinary node
    dtn://none/ for the same node, and is therefore not transitive: a [nil]
    endpoint is the same node as dtn:none but not as dtn://none/. *)
Theorem SameNode_confuses_none demux :
  let named := Some (EDtn (mkDtnEndpoint "none" demux false)) in
  SameNode DtnNone named = true ∧ SameNode None DtnNone = true ∧ SameNode None named = false.
Proof. repeat split. Qed.
