(* ===== verification/BundleId.v ===== *)
(** * Bundle identifiers

    [pkg/bpv7/bundle_id.go]: the identifier of a bundle, its text form (used as
    the store's database key and by the application agents) and its CBOR form
    (used inside status reports). *)

From stdpp Require Import base tactics list strings countable.
From Stdlib Require Import ZArith Lia Ascii.
From S2P Require Import Prelude Cboring GoStrings DtnTime Endpoint.
Local Open Scope Z_scope.

Record BundleID := mkBundleID {
  bid_SourceNode : EndpointID;
  bid_Timestamp : CreationTimestamp;
  bid_IsFragment : bool;
  bid_FragmentOffset : Z;
  bid_TotalDataLength : Z;
}.

#[global] Instance BundleID_eq_dec : EqDecision BundleID.
Proof. solve_decision. Defined.
#[global] Instance BundleID_countable : Countable BundleID.
Proof.
  apply (inj_countable'
    (λ b, (bid_SourceNode b, bid_Timestamp b, bid_IsFragment b, bid_FragmentOffset b, bid_TotalDataLength b))
    (λ '(s, t, f, o, l), mkBundleID s t f o l)).
  by intros [].
Defined.

(** [NewBundleID]: parse the text form. *)
Definition NewBundleID (uri : string) : res BundleID :=
  let parts := split_all "-" uri in
  match parts with
  | [p0; p1; p2] =>
      eid ← NewEndpointID p0;
      t0 ← ParseUint p1;
      t1 ← ParseUint p2;
      Ok (mkBundleID eid (mkTimestamp t0 t1) false 0 0)
  | [p0; p1; p2; p3; p4] =>
      eid ← NewEndpointID p0;
      t0 ← ParseUint p1;
      t1 ← ParseUint p2;
      offset ← ParseUint p3;
      length ← ParseUint p4;
      Ok (mkBundleID eid (mkTimestamp t0 t1) true offset length)
  | _ => Err (errorf "is not a valid BundleID")
  end.

Definition BundleID_String (bid : BundleID) : string :=
  EndpointID_String (bid_SourceNode bid) +:+ ("-" +:+ (fmt_d (ct_time (bid_Timestamp bid)) +:+
    ("-" +:+ (fmt_d (ct_seq (bid_Timestamp bid)) +:+
      (if bid_IsFragment bid
       then "-" +:+ (fmt_d (bid_FragmentOffset bid) +:+ ("-" +:+ fmt_d (bid_TotalDataLength bid)))
       else ""))))).

Definition BundleID_Len (bid : BundleID) : Z := if bid_IsFragment bid then 4 else 2.

Definition Scrub (bid : BundleID) : BundleID :=
  mkBundleID (bid_SourceNode bid) (bid_Timestamp bid) false 0 0.

Definition set_bid_SourceNode (e : EndpointID) (b : BundleID) : BundleID :=
  mkBundleID e (bid_Timestamp b) (bid_IsFragment b) (bid_FragmentOffset b) (bid_TotalDataLength b).
Definition set_bid_Timestamp (t : CreationTimestamp) (b : BundleID) : BundleID :=
  mkBundleID (bid_SourceNode b) t (bid_IsFragment b) (bid_FragmentOffset b) (bid_TotalDataLength b).
Definition set_bid_IsFragment (f : bool) (b : BundleID) : BundleID :=
  mkBundleID (bid_SourceNode b) (bid_Timestamp b) f (bid_FragmentOffset b) (bid_TotalDataLength b).
Definition set_bid_FragmentOffset (o : Z) (b : BundleID) : BundleID :=
  mkBundleID (bid_SourceNode b) (bid_Timestamp b) (bid_IsFragment b) o (bid_TotalDataLength b).
Definition set_bid_TotalDataLength (l : Z) (b : BundleID) : BundleID :=
  mkBundleID (bid_SourceNode b) (bid_Timestamp b) (bid_IsFragment b) (bid_FragmentOffset b) l.

Section Codec.
Context `{Cboring}.

Definition BundleID_MarshalCbor (bid : BundleID) : res bytes :=
  src ← EndpointID_MarshalCbor (bid_SourceNode bid);
  Ok (src ++ CreationTimestamp_MarshalCbor (bid_Timestamp bid) ++
      (if bid_IsFragment bid then
         WriteUInt (bid_FragmentOffset bid) ++ WriteUInt (bid_TotalDataLength bid)
       else [])).

(** [IsFragment] of the receiver must be set beforehand. *)
Definition BundleID_UnmarshalCbor : M (BundleID * bytes) () :=
  src ← on_input EndpointID_UnmarshalCbor;
  on_self (set_bid_SourceNode src);;
  on_field bid_Timestamp set_bid_Timestamp CreationTimestamp_UnmarshalCbor;;
  bid ← self;
  if bid_IsFragment bid then
    n ← on_input ReadUInt;
    on_self (set_bid_FragmentOffset n);;
    n ← on_input ReadUInt;
    on_self (set_bid_TotalDataLength n)
  else mret ().
End Codec.

(** The fragment fields are in use exactly for fragments. *)
Definition BundleID_wf (bid : BundleID) : Prop :=
  EndpointID_wf (bid_SourceNode bid) ∧ CreationTimestamp_wf (bid_Timestamp bid) ∧
  is_u64 (bid_FragmentOffset bid) ∧ is_u64 (bid_TotalDataLength bid) ∧
  (bid_IsFragment bid = false → bid_FragmentOffset bid = 0 ∧ bid_TotalDataLength bid = 0).

Definition dash_free (eid : EndpointID) : Prop :=
  string_forall (not_char "-") (EndpointID_String eid) = true.

(** ** Properties *)

(** The text form of a well-formed bundle id whose source has no dash in
    its URI is parsed back to the same id, fragment or not. *)
Theorem BundleID_string_roundtrip bid :
  BundleID_wf bid → dash_free (bid_SourceNode bid) → NewBundleID (BundleID_String bid) = Ok bid.
Proof.
  intros (Hs & [Ht0 Ht1] & Ho & Hl & Hf) Hd. unfold NewBundleID, BundleID_String.
  destruct (bid_SourceNode bid) as [et|] eqn:Es; [|done].
  change ("-" +:+ ?x) with (String "-" x).
  rewrite split_all_app by exact Hd.
  repeat change ("-" +:+ ?x) with (String "-" x).
  rewrite split_all_app by by apply fmt_d_not_char.
  destruct (bid_IsFragment bid) eqn:Ef.
  - repeat change ("-" +:+ ?x) with (String "-" x).
    rewrite split_all_app by by apply fmt_d_not_char.
    rewrite split_all_app by by apply fmt_d_not_char.
    rewrite split_all_none by by apply fmt_d_not_char.
    simpl EndpointID_String. rewrite NewEndpointID_String by done. simpl.
    rewrite !ParseUint_fmt_d by done. destruct bid as [? [] ? ? ?]; simpl in *. by subst.
  - replace (fmt_d (ct_seq (bid_Timestamp bid)) +:+ "") with (fmt_d (ct_seq (bid_Timestamp bid)))
      by (by induction (fmt_d _) as [|a s IH]; [|change (String a s +:+ "") with (String a (s +:+ "")); rewrite <- IH]).
    rewrite split_all_none by by apply fmt_d_not_char.
    simpl EndpointID_String. rewrite NewEndpointID_String by done. simpl.
    rewrite !ParseUint_fmt_d by done. destruct (Hf eq_refl).
    destruct bid as [? [] ? ? ?]; simpl in *. by subst.
Qed.

Lemma BundleID_string_roundtrip_witness :
  NewBundleID "dtn://src/-23-42-7-100" =
    Ok (mkBundleID (Some (EDtn (mkDtnEndpoint "src" "" false))) (mkTimestamp 23 42) true 7 100).
Proof.
  apply (BundleID_string_roundtrip
    (mkBundleID (Some (EDtn (mkDtnEndpoint "src" "" false))) (mkTimestamp 23 42) true 7 100)).
  - vm_compute. repeat split; discriminate.
  - reflexivity.
Defined.

(** A dash in the source breaks the text form: the id of a bundle from
    dtn://my-node/ is not parsed back, and two different ids (a bundle from
    dtn://a/b-1-2 and a fragment from dtn://a/b) have the same text, which is the
    key under which the store keeps them. *)
Theorem BundleID_string_ambiguous :
  (let bid := mkBundleID (Some (EDtn (mkDtnEndpoint "my-node" "" false))) (mkTimestamp 1 2) false 0 0 in
   BundleID_wf bid ∧ is_ok (NewBundleID (BundleID_String bid)) = false) ∧
  (let b1 := mkBundleID (Some (EDtn (mkDtnEndpoint "a" "b-1-2" false))) (mkTimestamp 3 4) false 0 0 in
   let b2 := mkBundleID (Some (EDtn (mkDtnEndpoint "a" "b" false))) (mkTimestamp 1 2) true 3 4 in
   BundleID_wf b1 ∧ BundleID_wf b2 ∧ b1 ≠ b2 ∧ BundleID_String b1 = BundleID_String b2).
Proof.
  split; [split|split; [|split; [|split]]]; try reflexivity; try discriminate;
    vm_compute; repeat split; discriminate.
Qed.

Section CodecLemmas.
Context `{Cboring} `{!CboringLaws _}.

Lemma BundleID_rt bid bid0 bs r :
  BundleID_wf bid → EndpointID_fits (bid_SourceNode bid) → BundleID_MarshalCbor bid = Ok bs →
  bid_IsFragment bid0 = bid_IsFragment bid →
  (bid_IsFragment bid = false → bid_FragmentOffset bid0 = 0 ∧ bid_TotalDataLength bid0 = 0) →
  BundleID_UnmarshalCbor (bid0, bs ++ r) = (Ok (), (bid, r)).
Proof.
  intros (Hs & Ht & Ho & Hl & Hf) Hfit Hm H0 Hz. unfold BundleID_MarshalCbor in Hm.
  destruct (EndpointID_MarshalCbor _) as [src| |] eqn:Es; [|done..]. apply Ok_inj in Hm as <-.
  unfold BundleID_UnmarshalCbor. rewrite <- !app_assoc.
  mstep by (apply on_input_ok; by eapply EndpointID_rt).
  mstep by done. mstep by (by apply on_field_ok, CreationTimestamp_rt).
  mstep by done. simpl. rewrite H0. destruct (bid_IsFragment bid) eqn:Ef.
  - rewrite <- !app_assoc. mstep by (by apply on_input_ok, uint_rt). mstep by done.
    mstep by (by apply on_input_ok, uint_rt). destruct bid, bid0; simpl in *. by subst.
  - destruct (Hf eq_refl), (Hz eq_refl), bid, bid0; simpl in *. by subst.
Qed.
End CodecLemmas.
