(* ===== verification/ExtensionBlocks.v ===== *)
(** * Extension blocks and their registry

    The block-type specific data of canonical blocks
    ([pkg/bpv7/payload_block.go], [extension_block_*.go]) and the
    [ExtensionBlockManager] of [extension_block.go], which selects the decoder
    for a block type code. *)

From stdpp Require Import base tactics list strings gmap.
From Stdlib Require Import ZArith Lia.
From S2P Require Import Prelude Cboring DtnTime Endpoint.
Local Open Scope Z_scope.

(** ** Block type codes ([canonical_block.go]) *)

Definition BlockTypePayloadBlock : Z := 1.
Definition BlockTypePreviousNodeBlock : Z := 6.
Definition BlockTypeBundleAgeBlock : Z := 7.
Definition BlockTypeHopCountBlock : Z := 10.
Definition BlockTypeBinarySprayBlock : Z := 192.
Definition BlockTypeDTLSRBlock : Z := 193.
Definition BlockTypeProphetBlock : Z := 194.
Definition BlockTypeSignatureBlock : Z := 195.
Definition BlockTypeRECBundleType : Z := 1000.

(** ** Data *)

(** [DTLSRPeerData]; a Go map is a finite map. *)
Record DTLSRPeerData := mkPeerData {
  pd_ID : EndpointID;
  pd_Timestamp : Z;
  pd_Peers : gmap EndpointID Z;
}.

(** The implementations of the interface [ExtensionBlock].  A [float64] of a
    Prophet block is its IEEE bit pattern. *)
Inductive ExtensionBlock :=
  | PayloadBlock (data : bytes)
  | PreviousNodeBlock (prev : EndpointID)
  | BundleAgeBlock (ms : Z)
  | HopCountBlock (limit count : Z)
  | BinarySprayBlock (copies : Z)
  | DTLSRBlock (data : DTLSRPeerData)
  | ProphetBlock (predictability : gmap EndpointID Z)
  | SignatureBlock (publicKey signature : bytes)
  | RECBundleTypeBlock (btype : Z)
  | GenericExtensionBlock (data : bytes) (typeCode : Z).

#[global] Instance DTLSRPeerData_eq_dec : EqDecision DTLSRPeerData.
Proof. solve_decision. Defined.
#[global] Instance ExtensionBlock_eq_dec : EqDecision ExtensionBlock.
Proof. solve_decision. Defined.

(** [BlockTypeCode] *)
Definition BlockTypeCode (b : ExtensionBlock) : Z :=
  match b with
  | PayloadBlock _ => BlockTypePayloadBlock
  | PreviousNodeBlock _ => BlockTypePreviousNodeBlock
  | BundleAgeBlock _ => BlockTypeBundleAgeBlock
  | HopCountBlock _ _ => BlockTypeHopCountBlock
  | BinarySprayBlock _ => BlockTypeBinarySprayBlock
  | DTLSRBlock _ => BlockTypeDTLSRBlock
  | ProphetBlock _ => BlockTypeProphetBlock
  | SignatureBlock _ _ => BlockTypeSignatureBlock
  | RECBundleTypeBlock _ => BlockTypeRECBundleType
  | GenericExtensionBlock _ typeCode => typeCode
  end.

(** [BlockTypeName] *)
Definition BlockTypeName (b : ExtensionBlock) : string :=
  match b with
  | PayloadBlock _ => "Payload Block"
  | PreviousNodeBlock _ => "Previous Node Block"
  | BundleAgeBlock _ => "Bundle Age Block"
  | HopCountBlock _ _ => "Hop Count Block"
  | BinarySprayBlock _ => "Binary Spray Routing Block"
  | DTLSRBlock _ => "DTLSR Block"
  | ProphetBlock _ => "Prophet Routing Block"
  | SignatureBlock _ _ => "Signature Block"
  | RECBundleTypeBlock _ => "REC Block Type"
  | GenericExtensionBlock _ _ => "N/A"
  end.

(** ** Operations on single blocks *)

(** [HopCountBlock.IsExceeded], [Increment] and [Decrement]; the counter is a
    [uint8] and wraps. *)
Definition HopCount_IsExceeded (limit count : Z) : bool := limit <? count.
Definition HopCount_Increment (limit count : Z) : Z * bool :=
  let count := wrap_u8 (count + 1) in (count, HopCount_IsExceeded limit count).
Definition HopCount_Decrement (count : Z) : Z := wrap_u8 (count - 1).
Definition NewHopCountBlock (limit : Z) : ExtensionBlock := HopCountBlock limit 0.

(** [BundleAgeBlock.Increment] *)
Definition BundleAge_Increment (ms offset : Z) : Z := wrap_u64 (ms + offset).

(** [DTLSRPeerData.ShouldReplace] *)
Definition ShouldReplace (pd other : DTLSRPeerData) : bool := pd_Timestamp other <? pd_Timestamp pd.

(** [CheckValid] of the block types. *)
Definition PublicKeySize : Z := 32.
Definition SignatureSize : Z := 64.

Definition HopCountBlock_CheckValid (limit count : Z) : errors :=
  if HopCount_IsExceeded limit count then [errorf "HopCountBlock is exceeded"] else [].

Definition SignatureBlock_CheckValid (publicKey signature : bytes) : errors :=
  (if negb (len publicKey =? PublicKeySize) then [errorf "SignatureBlock: public key's length"] else []) ++
  (if negb (len signature =? SignatureSize) then [errorf "SignatureBlock: signature's length"] else []).

Definition ExtensionBlock_CheckValid (b : ExtensionBlock) : errors :=
  match b with
  | PreviousNodeBlock prev => EndpointID_CheckValid prev
  | HopCountBlock limit count => HopCountBlock_CheckValid limit count
  | SignatureBlock pk sig => SignatureBlock_CheckValid pk sig
  | _ => []
  end.

(** Iteration over a Go map visits the entries in an order the program cannot
    rely on. *)
Class GoMapRange := {
  range_map : gmap EndpointID Z → list (EndpointID * Z);
  range_map_perm m : range_map m ≡ₚ map_to_list m;
}.

#[export] Instance sorted_range : GoMapRange := {|
  range_map := map_to_list;
  range_map_perm m := Permutation_refl _;
|}.

(** ** The registry *)

(** [reflect.Type] of an [ExtensionBlock]. *)
Inductive BlockKind :=
  | KPayload | KPreviousNode | KBundleAge | KHopCount | KBinarySpray
  | KDTLSR | KProphet | KSignature | KREC | KGeneric.

Definition kind_of (b : ExtensionBlock) : BlockKind :=
  match b with
  | PayloadBlock _ => KPayload
  | PreviousNodeBlock _ => KPreviousNode
  | BundleAgeBlock _ => KBundleAge
  | HopCountBlock _ _ => KHopCount
  | BinarySprayBlock _ => KBinarySpray
  | DTLSRBlock _ => KDTLSR
  | ProphetBlock _ => KProphet
  | SignatureBlock _ _ => KSignature
  | RECBundleTypeBlock _ => KREC
  | GenericExtensionBlock _ _ => KGeneric
  end.

Definition is_generic (k : BlockKind) : bool := match k with KGeneric => true | _ => false end.

(** [ExtensionBlockManager.data] *)
Abbreviation ExtensionBlockManager := (gmap Z BlockKind).

Definition NewExtensionBlockManager : ExtensionBlockManager := ∅.

Definition EBM_Register (ebm : ExtensionBlockManager) (eb : ExtensionBlock) : res ExtensionBlockManager :=
  let extCode := BlockTypeCode eb in
  let extType := kind_of eb in
  if is_generic extType then Err (errorf "not allowed to register a GenericExtensionBlock") else
  match ebm !! extCode with
  | Some _ => Err (errorf "block type code is already registered")
  | None => Ok (<[extCode := extType]> ebm)
  end.

Definition EBM_Unregister (ebm : ExtensionBlockManager) (eb : ExtensionBlock) : ExtensionBlockManager :=
  delete (BlockTypeCode eb) ebm.

Definition EBM_IsKnown (ebm : ExtensionBlockManager) (typeCode : Z) : bool :=
  bool_decide (is_Some (ebm !! typeCode)).

(** Errors of [Register] are discarded, [_ = ...Register(...)]. *)
Definition EBM_Register_ (ebm : ExtensionBlockManager) (eb : ExtensionBlock) : ExtensionBlockManager :=
  match EBM_Register ebm eb with Ok ebm' => ebm' | _ => ebm end.

(** [GetExtensionBlockManager]: the singleton as it is first created. *)
Definition GetExtensionBlockManager : ExtensionBlockManager :=
  foldl EBM_Register_ NewExtensionBlockManager
    [PayloadBlock []; PreviousNodeBlock DtnNone; BundleAgeBlock 0; NewHopCountBlock 0; RECBundleTypeBlock 0].

(** [createBlock]: the type to decode into. *)
Definition createBlock (ebm : ExtensionBlockManager) (typeCode : Z) : BlockKind :=
  default KGeneric (ebm !! typeCode).

(** ** Encoders *)

Section Codec.
Context `{Cboring} `{GoMapRange}.

Definition PreviousNodeBlock_MarshalCbor (prev : EndpointID) : res bytes :=
  EndpointID_MarshalCbor prev.
Definition BundleAgeBlock_MarshalCbor (ms : Z) : res bytes := Ok (WriteUInt ms).
Definition HopCountBlock_MarshalCbor (limit count : Z) : res bytes :=
  Ok (WriteArrayLength 2 ++ WriteUInt limit ++ WriteUInt count).
Definition BinarySprayBlock_MarshalCbor (copies : Z) : res bytes := Ok (WriteUInt copies).
Definition RECBundleTypeBlock_MarshalCbor (btype : Z) : res bytes :=
  Ok (WriteArrayLength 1 ++ WriteUInt btype).
Definition SignatureBlock_MarshalCbor (pk sig : bytes) : res bytes :=
  Ok (WriteArrayLength 2 ++ WriteByteString pk ++ WriteByteString sig).

(** The loop over a peer map; [write] encodes the value. *)
Fixpoint marshal_pairs (write : Z → bytes) (l : list (EndpointID * Z)) : res bytes :=
  match l with
  | [] => Ok []
  | (peerID, v) :: l =>
      k ← EndpointID_MarshalCbor peerID;
      rest ← marshal_pairs write l;
      Ok (k ++ write v ++ rest)
  end.

Definition DTLSRBlock_MarshalCbor (d : DTLSRPeerData) : res bytes :=
  id ← EndpointID_MarshalCbor (pd_ID d);
  pairs ← marshal_pairs WriteUInt (range_map (pd_Peers d));
  Ok (WriteArrayLength 3 ++ id ++ WriteUInt (pd_Timestamp d) ++
      WriteMapPairLength (Z.of_nat (size (pd_Peers d))) ++ pairs).

Definition ProphetBlock_MarshalCbor (p : gmap EndpointID Z) : res bytes :=
  pairs ← marshal_pairs WriteFloat64 (range_map p);
  Ok (WriteMapPairLength (Z.of_nat (size p)) ++ pairs).

(** The block's data before it is wrapped in a byte string: [MarshalBinary] or
    [MarshalCbor], whichever the type implements. *)
Definition block_data (b : ExtensionBlock) : res bytes :=
  match b with
  | PayloadBlock data | GenericExtensionBlock data _ => Ok data
  | PreviousNodeBlock prev => PreviousNodeBlock_MarshalCbor prev
  | BundleAgeBlock ms => BundleAgeBlock_MarshalCbor ms
  | HopCountBlock limit count => HopCountBlock_MarshalCbor limit count
  | BinarySprayBlock copies => BinarySprayBlock_MarshalCbor copies
  | DTLSRBlock d => DTLSRBlock_MarshalCbor d
  | ProphetBlock p => ProphetBlock_MarshalCbor p
  | SignatureBlock pk sig => SignatureBlock_MarshalCbor pk sig
  | RECBundleTypeBlock t => RECBundleTypeBlock_MarshalCbor t
  end.

(** [ExtensionBlockManager.WriteBlock] *)
Definition WriteBlock (b : ExtensionBlock) : res bytes :=
  match block_data b with
  | Ok data => Ok (WriteByteString data)
  | Err _ => Err (errorf "marshalling for Block erred")
  | Panic => Panic
  end.

(** ** Decoders *)

Definition PreviousNodeBlock_UnmarshalCbor : reader ExtensionBlock :=
  e ← EndpointID_UnmarshalCbor; mret (PreviousNodeBlock e).
Definition BundleAgeBlock_UnmarshalCbor : reader ExtensionBlock :=
  us ← ReadUInt; mret (BundleAgeBlock us).
Definition BinarySprayBlock_UnmarshalCbor : reader ExtensionBlock :=
  us ← ReadUInt; mret (BinarySprayBlock us).

Definition read_hop_field : reader Z :=
  x ← ReadUInt;
  if 255 <? x then fail (errorf "Hop Count fields must be within a range to 255") else mret x.

Definition HopCountBlock_UnmarshalCbor : reader ExtensionBlock :=
  l ← ReadArrayLength;
  if negb (l =? 2) then fail (errorf "expected array with length 2") else
  limit ← read_hop_field;
  count ← read_hop_field;
  mret (HopCountBlock limit count).

Definition RECBundleTypeBlock_UnmarshalCbor : reader ExtensionBlock :=
  l ← ReadArrayLength;
  if negb (l =? 1) then fail (errorf "expected 1 field") else
  btype ← ReadUInt;
  mret (RECBundleTypeBlock btype).

Definition SignatureBlock_UnmarshalCbor : reader ExtensionBlock :=
  n ← ReadArrayLength;
  if negb (n =? 2) then fail (errorf "SignatureBlock: array has wrong number of elements") else
  pk ← ReadByteString;
  sig ← ReadByteString;
  mret (SignatureBlock pk sig).

Fixpoint unmarshal_pairs (read : reader Z) (n : nat) (peers : gmap EndpointID Z) :
    reader (gmap EndpointID Z) :=
  match n with
  | O => mret peers
  | S n =>
      peerID ← EndpointID_UnmarshalCbor;
      v ← read;
      unmarshal_pairs read n (<[peerID := v]> peers)
  end.

Definition DTLSRBlock_UnmarshalCbor : reader ExtensionBlock :=
  l ← ReadArrayLength;
  if negb (l =? 3) then fail (errorf "expected 3 fields") else
  id ← EndpointID_UnmarshalCbor;
  timestamp ← ReadUInt;
  lenData ← ReadMapPairLength;
  peers ← unmarshal_pairs ReadUInt (Z.to_nat lenData) ∅;
  mret (DTLSRBlock (mkPeerData id timestamp peers)).

Definition ProphetBlock_UnmarshalCbor : reader ExtensionBlock :=
  lenData ← ReadMapPairLength;
  predictability ← unmarshal_pairs ReadFloat64 (Z.to_nat lenData) ∅;
  mret (ProphetBlock predictability).

(** ** Selection of the decoder *)

(** [UnmarshalBinary] or [UnmarshalCbor] of a fresh block of the given type. *)
Definition unmarshal_block (k : BlockKind) (typeCode : Z) : reader ExtensionBlock :=
  match k with
  | KPayload => λ data, (Ok (PayloadBlock data), [])
  | KGeneric => λ data, (Ok (GenericExtensionBlock data typeCode), [])
  | KPreviousNode => PreviousNodeBlock_UnmarshalCbor
  | KBundleAge => BundleAgeBlock_UnmarshalCbor
  | KHopCount => HopCountBlock_UnmarshalCbor
  | KBinarySpray => BinarySprayBlock_UnmarshalCbor
  | KDTLSR => DTLSRBlock_UnmarshalCbor
  | KProphet => ProphetBlock_UnmarshalCbor
  | KSignature => SignatureBlock_UnmarshalCbor
  | KREC => RECBundleTypeBlock_UnmarshalCbor
  end.

(** [ExtensionBlockManager.ReadBlock]: bytes of the byte string that the block's
    decoder leaves unread are dropped with the buffer. *)
Definition ReadBlock (ebm : ExtensionBlockManager) (typeCode : Z) : reader ExtensionBlock :=
  data ← ReadByteString;
  lift_res (unmarshal_block (createBlock ebm typeCode) typeCode data).1.
End Codec.

(** ** Well-formed block data *)

Definition pair_wf (p : EndpointID * Z) : Prop :=
  EndpointID_wf p.1 ∧ EndpointID_fits p.1 ∧ is_u64 p.2.

Definition peers_wf (m : gmap EndpointID Z) : Prop :=
  Forall pair_wf (map_to_list m) ∧ is_u64 (Z.of_nat (size m)).

Definition ExtensionBlock_wf (b : ExtensionBlock) : Prop :=
  match b with
  | PayloadBlock _ => True
  | GenericExtensionBlock _ typeCode => is_u64 typeCode
  | PreviousNodeBlock prev => EndpointID_wf prev ∧ EndpointID_fits prev
  | BundleAgeBlock n | BinarySprayBlock n | RECBundleTypeBlock n => is_u64 n
  | HopCountBlock limit count => is_u8 limit ∧ is_u8 count
  | DTLSRBlock d =>
      EndpointID_wf (pd_ID d) ∧ EndpointID_fits (pd_ID d) ∧ is_u64 (pd_Timestamp d) ∧ peers_wf (pd_Peers d)
  | ProphetBlock p => peers_wf p
  | SignatureBlock pk sig => is_u64 (len pk) ∧ is_u64 (len sig)
  end.

#[global] Instance pair_wf_dec p : Decision (pair_wf p).
Proof. unfold pair_wf. apply _. Defined.
#[global] Instance peers_wf_dec m : Decision (peers_wf m).
Proof. unfold peers_wf. apply _. Defined.
#[global] Instance ExtensionBlock_wf_dec b : Decision (ExtensionBlock_wf b).
Proof. destruct b; simpl; apply _. Defined.

(** The decoder selected for the block's code is the decoder of its type. *)
Definition registered (ebm : ExtensionBlockManager) (b : ExtensionBlock) : Prop :=
  createBlock ebm (BlockTypeCode b) = kind_of b.

(** ** Lemmas *)

Definition insert_pair (m : gmap EndpointID Z) (p : EndpointID * Z) : gmap EndpointID Z := <[p.1 := p.2]> m.

Lemma insert_pairs_list l : foldl insert_pair ∅ l = list_to_map (reverse l).
Proof.
  induction l as [|p l IH] using rev_ind; [done|].
  rewrite foldl_app, reverse_app. simpl. by rewrite IH.
Qed.

Lemma insert_pairs_map l m : l ≡ₚ map_to_list m → foldl insert_pair ∅ l = m.
Proof.
  intros Hl. rewrite insert_pairs_list, <- (list_to_map_to_list m).
  apply list_to_map_proper.
  - rewrite (reverse_Permutation l), Hl. apply NoDup_fst_map_to_list.
  - by rewrite (reverse_Permutation l).
Qed.

Lemma EndpointID_wf_Marshal `{Cboring} e : EndpointID_wf e → ∃ bs, EndpointID_MarshalCbor e = Ok bs.
Proof. intros He. destruct (EndpointID_Marshal_wf e He) as (? & _ & ->). eauto. Qed.

Section CodecLemmas.
Context `{Cboring} `{!CboringLaws _} `{GoMapRange}.

Section Pairs.
Context (write : Z → bytes) (read : reader Z).
Hypothesis read_write : ∀ v r, is_u64 v → read (write v ++ r) = (Ok v, r).

Lemma marshal_pairs_wf l : Forall pair_wf l → ∃ bs, marshal_pairs write l = Ok bs.
Proof.
  induction 1 as [|[e v] l (He & _ & _) _ [bs IH]]; simpl; [by eexists|].
  destruct (EndpointID_wf_Marshal e He) as [k ->]. simpl. rewrite IH. by eexists.
Qed.

Lemma pairs_rt l m bs r : Forall pair_wf l → marshal_pairs write l = Ok bs →
  unmarshal_pairs read (length l) m (bs ++ r) = (Ok (foldl insert_pair m l), r).
Proof.
  intros Hl. revert m bs. induction Hl as [|[e v] l (He & Hf & Hv) Hl IH]; intros m bs; simpl.
  - by intros <-%Ok_inj.
  - destruct (EndpointID_MarshalCbor e) as [k| |] eqn:Ek; [|done..]. simpl.
    destruct (marshal_pairs write l) as [rest| |]; [|done..]. intros <-%Ok_inj.
    rewrite <- !app_assoc. mstep by (by eapply EndpointID_rt).
    mstep by (by apply read_write). by rewrite IH.
Qed.

Lemma map_pairs_wf m : peers_wf m → Forall pair_wf (range_map m).
Proof. intros [Hm _]. by rewrite range_map_perm. Qed.

Lemma map_pairs_rt m bs r : peers_wf m → marshal_pairs write (range_map m) = Ok bs →
  unmarshal_pairs read (size m) ∅ (bs ++ r) = (Ok m, r).
Proof.
  intros Hm Hb. pose proof (pairs_rt _ ∅ _ r (map_pairs_wf m Hm) Hb) as E.
  rewrite (insert_pairs_map _ m) in E by apply range_map_perm.
  by rewrite range_map_perm, length_map_to_list in E.
Qed.
End Pairs.

Lemma block_data_wf b : ExtensionBlock_wf b → ∃ d, block_data b = Ok d.
Proof.
  destruct b; simpl; intros Hwf; try (by eexists).
  - by apply EndpointID_wf_Marshal, Hwf.
  - destruct Hwf as (He & _ & _ & Hp). unfold DTLSRBlock_MarshalCbor.
    destruct (EndpointID_wf_Marshal _ He) as [k ->].
    destruct (marshal_pairs_wf WriteUInt _ (map_pairs_wf _ Hp)) as [bs E]. simpl. rewrite E. by eexists.
  - unfold ProphetBlock_MarshalCbor.
    destruct (marshal_pairs_wf WriteFloat64 _ (map_pairs_wf _ Hwf)) as [bs ->]. by eexists.
Qed.

Lemma read_hop_field_rt n r : is_u8 n → read_hop_field (WriteUInt n ++ r) = (Ok n, r).
Proof.
  intros. unfold read_hop_field. mstep by (apply uint_rt; u64_lia).
  by rewrite (proj2 (Z.ltb_ge _ _)) by u64_lia.
Qed.

(** A block's decoder undoes its encoder. *)
Lemma unmarshal_block_rt b d : ExtensionBlock_wf b → block_data b = Ok d →
  (unmarshal_block (kind_of b) (BlockTypeCode b) d).1 = Ok b.
Proof.
  intros Hwf Hd. rewrite <- (app_nil_r d).
  destruct b; simpl in *; try (by apply Ok_inj in Hd as <-; rewrite app_nil_r).
  - destruct Hwf. unfold PreviousNodeBlock_UnmarshalCbor. by mstep by (by eapply EndpointID_rt).
  - apply Ok_inj in Hd as <-. unfold BundleAgeBlock_UnmarshalCbor. by mstep by by apply uint_rt.
  - apply Ok_inj in Hd as <-. destruct Hwf. unfold HopCountBlock_UnmarshalCbor. rewrite <- !app_assoc.
    mstep by (apply array_rt; u64_lia). mif. mstep by by apply read_hop_field_rt.
    by mstep by by apply read_hop_field_rt.
  - apply Ok_inj in Hd as <-. unfold BinarySprayBlock_UnmarshalCbor. by mstep by by apply uint_rt.
  - destruct Hwf as (He & Hf & Ht & Hp). unfold DTLSRBlock_MarshalCbor in Hd.
    destruct (EndpointID_MarshalCbor _) as [k| |] eqn:Ek; [|done..]. simpl in Hd.
    destruct (marshal_pairs _ _) as [ps| |] eqn:Ep; [|done..]. apply Ok_inj in Hd as <-.
    unfold DTLSRBlock_UnmarshalCbor. rewrite <- !app_assoc.
    mstep by (apply array_rt; u64_lia). mif. mstep by (by eapply EndpointID_rt).
    mstep by by apply uint_rt. mstep by (apply map_rt, Hp). rewrite Nat2Z.id.
    mstep by (by eapply map_pairs_rt; [apply uint_rt|..]). by destruct data.
  - unfold ProphetBlock_MarshalCbor in Hd.
    destruct (marshal_pairs _ _) as [ps| |] eqn:Ep; [|done..]. apply Ok_inj in Hd as <-.
    unfold ProphetBlock_UnmarshalCbor. rewrite <- !app_assoc.
    mstep by (apply map_rt, Hwf). rewrite Nat2Z.id.
    by mstep by (by eapply map_pairs_rt; [apply float_rt|..]).
  - apply Ok_inj in Hd as <-. destruct Hwf. unfold SignatureBlock_UnmarshalCbor. rewrite <- !app_assoc.
    mstep by (apply array_rt; u64_lia). mif. mstep by by apply bstr_rt. by mstep by by apply bstr_rt.
  - apply Ok_inj in Hd as <-. unfold RECBundleTypeBlock_UnmarshalCbor. rewrite <- !app_assoc.
    mstep by (apply array_rt; u64_lia). mif. by mstep by by apply uint_rt.
Qed.

(** The data of a block fits a CBOR byte string. *)
Definition block_fits (b : ExtensionBlock) : Prop :=
  match block_data b with Ok d => is_u64 (len d) | _ => False end.

Lemma WriteBlock_wf b : ExtensionBlock_wf b → ∃ bs, WriteBlock b = Ok bs.
Proof. intros Hwf. unfold WriteBlock. destruct (block_data_wf b Hwf) as [d ->]. by eexists. Qed.

Lemma ReadBlock_rt ebm b bs r :
  ExtensionBlock_wf b → block_fits b → registered ebm b → WriteBlock b = Ok bs →
  ReadBlock ebm (BlockTypeCode b) (bs ++ r) = (Ok b, r).
Proof.
  unfold WriteBlock, block_fits, registered. intros Hwf Hf Hreg.
  destruct (block_data b) as [d| |] eqn:Ed; [|done..]. intros <-%Ok_inj.
  unfold ReadBlock. mstep by by apply bstr_rt. rewrite Hreg.
  unfold lift_res. by rewrite (unmarshal_block_rt b d).
Qed.
End CodecLemmas.
