(* ===== verification/Blocks.v ===== *)
(** * Primary and canonical blocks

    [pkg/bpv7/primary_block.go] and [pkg/bpv7/canonical_block.go]: the blocks of a
    bundle, their CBOR representation with the CRC field, and their validity
    checks. *)

From stdpp Require Import base tactics list strings gmap.
From Stdlib Require Import ZArith Lia Bool.
From S2P Require Import Prelude Cboring Flags Crc DtnTime Endpoint ExtensionBlocks.
Local Open Scope Z_scope.

(** ** Data *)

Definition dtnVersion : Z := 7.

Record PrimaryBlock := mkPrimary {
  pb_Version : Z;
  pb_BundleControlFlags : Z;
  pb_CRCType : Z;
  pb_Destination : EndpointID;
  pb_SourceNode : EndpointID;
  pb_ReportTo : EndpointID;
  pb_CreationTimestamp : CreationTimestamp;
  pb_Lifetime : Z;
  pb_FragmentOffset : Z;
  pb_TotalDataLength : Z;
  pb_CRC : bytes;
}.

(** [Value] is an interface and is [nil] in a zero block; a [nil] and an empty
    byte slice are the same. *)
Record CanonicalBlock := mkCanonical {
  cb_BlockNumber : Z;
  cb_BlockControlFlags : Z;
  cb_CRCType : Z;
  cb_CRC : bytes;
  cb_Value : option ExtensionBlock;
}.

#[global] Instance PrimaryBlock_eq_dec : EqDecision PrimaryBlock.
Proof. solve_decision. Defined.
#[global] Instance CanonicalBlock_eq_dec : EqDecision CanonicalBlock.
Proof. solve_decision. Defined.

(** The zero values of the two structs. *)
Definition zero_primary : PrimaryBlock :=
  mkPrimary 0 0 0 None None None (mkTimestamp 0 0) 0 0 0 [].
Definition zero_canonical : CanonicalBlock := mkCanonical 0 0 0 [] None.

Definition set_pb_Version v p := mkPrimary v (pb_BundleControlFlags p) (pb_CRCType p) (pb_Destination p)
  (pb_SourceNode p) (pb_ReportTo p) (pb_CreationTimestamp p) (pb_Lifetime p) (pb_FragmentOffset p)
  (pb_TotalDataLength p) (pb_CRC p).
Definition set_pb_BundleControlFlags v p := mkPrimary (pb_Version p) v (pb_CRCType p) (pb_Destination p)
  (pb_SourceNode p) (pb_ReportTo p) (pb_CreationTimestamp p) (pb_Lifetime p) (pb_FragmentOffset p)
  (pb_TotalDataLength p) (pb_CRC p).
Definition set_pb_CRCType v p := mkPrimary (pb_Version p) (pb_BundleControlFlags p) v (pb_Destination p)
  (pb_SourceNode p) (pb_ReportTo p) (pb_CreationTimestamp p) (pb_Lifetime p) (pb_FragmentOffset p)
  (pb_TotalDataLength p) (pb_CRC p).
Definition set_pb_Destination v p := mkPrimary (pb_Version p) (pb_BundleControlFlags p) (pb_CRCType p) v
  (pb_SourceNode p) (pb_ReportTo p) (pb_CreationTimestamp p) (pb_Lifetime p) (pb_FragmentOffset p)
  (pb_TotalDataLength p) (pb_CRC p).
Definition set_pb_SourceNode v p := mkPrimary (pb_Version p) (pb_BundleControlFlags p) (pb_CRCType p)
  (pb_Destination p) v (pb_ReportTo p) (pb_CreationTimestamp p) (pb_Lifetime p) (pb_FragmentOffset p)
  (pb_TotalDataLength p) (pb_CRC p).
Definition set_pb_ReportTo v p := mkPrimary (pb_Version p) (pb_BundleControlFlags p) (pb_CRCType p)
  (pb_Destination p) (pb_SourceNode p) v (pb_CreationTimestamp p) (pb_Lifetime p) (pb_FragmentOffset p)
  (pb_TotalDataLength p) (pb_CRC p).
Definition set_pb_CreationTimestamp v p := mkPrimary (pb_Version p) (pb_BundleControlFlags p) (pb_CRCType p)
  (pb_Destination p) (pb_SourceNode p) (pb_ReportTo p) v (pb_Lifetime p) (pb_FragmentOffset p)
  (pb_TotalDataLength p) (pb_CRC p).
Definition set_pb_Lifetime v p := mkPrimary (pb_Version p) (pb_BundleControlFlags p) (pb_CRCType p)
  (pb_Destination p) (pb_SourceNode p) (pb_ReportTo p) (pb_CreationTimestamp p) v (pb_FragmentOffset p)
  (pb_TotalDataLength p) (pb_CRC p).
Definition set_pb_FragmentOffset v p := mkPrimary (pb_Version p) (pb_BundleControlFlags p) (pb_CRCType p)
  (pb_Destination p) (pb_SourceNode p) (pb_ReportTo p) (pb_CreationTimestamp p) (pb_Lifetime p) v
  (pb_TotalDataLength p) (pb_CRC p).
Definition set_pb_TotalDataLength v p := mkPrimary (pb_Version p) (pb_BundleControlFlags p) (pb_CRCType p)
  (pb_Destination p) (pb_SourceNode p) (pb_ReportTo p) (pb_CreationTimestamp p) (pb_Lifetime p)
  (pb_FragmentOffset p) v (pb_CRC p).
Definition set_pb_CRC v p := mkPrimary (pb_Version p) (pb_BundleControlFlags p) (pb_CRCType p)
  (pb_Destination p) (pb_SourceNode p) (pb_ReportTo p) (pb_CreationTimestamp p) (pb_Lifetime p)
  (pb_FragmentOffset p) (pb_TotalDataLength p) v.

Definition set_cb_BlockNumber v c := mkCanonical v (cb_BlockControlFlags c) (cb_CRCType c) (cb_CRC c) (cb_Value c).
Definition set_cb_CRC v c := mkCanonical (cb_BlockNumber c) (cb_BlockControlFlags c) (cb_CRCType c) v (cb_Value c).

(** [CanonicalBlock.SetCRCType] *)
Definition CanonicalBlock_SetCRCType (crcType : Z) (c : CanonicalBlock) : CanonicalBlock :=
  mkCanonical (cb_BlockNumber c) (cb_BlockControlFlags c) crcType (cb_CRC c) (cb_Value c).

(** ** Primary block *)

Definition HasFragmentation (pb : PrimaryBlock) : bool := Has (pb_BundleControlFlags pb) IsFragment.
Definition PrimaryBlock_HasCRC (pb : PrimaryBlock) : bool := negb (pb_CRCType pb =? CRCNo).

Definition primary_blockLen (pb : PrimaryBlock) : Z :=
  match HasFragmentation pb, PrimaryBlock_HasCRC pb with
  | false, false => 8
  | false, true => 9
  | true, false => 10
  | true, true => 11
  end.

Definition PrimaryBlock_CheckValid (pb : PrimaryBlock) : errors :=
  (if negb (pb_Version pb =? dtnVersion) then [errorf "PrimaryBlock: Wrong Version"] else []) ++
  BundleControlFlags_CheckValid (pb_BundleControlFlags pb) ++
  EndpointID_CheckValid (pb_Destination pb) ++
  EndpointID_CheckValid (pb_SourceNode pb) ++
  EndpointID_CheckValid (pb_ReportTo pb) ++
  (let bcf := pb_BundleControlFlags pb in
   let bpcfImpl :=
     negb (bool_decide (pb_SourceNode pb = DtnNone)) ||
     (Has bcf MustNotFragmented &&
      negb (Has bcf StatusRequestReception) &&
      negb (Has bcf StatusRequestForward) &&
      negb (Has bcf StatusRequestDelivery) &&
      negb (Has bcf StatusRequestDeletion)) in
   if negb bpcfImpl then
     [errorf "PrimaryBlock: Source Node is dtn:none, but Bundle could be fragmented or status report flags are not zero"]
   else []).

(** ** Canonical block *)

Definition NewCanonicalBlock (no bcf : Z) (value : ExtensionBlock) : CanonicalBlock :=
  mkCanonical no bcf CRCNo [] (Some value).

(** [TypeCode] calls a method of [Value] and panics if that is [nil]. *)
Definition TypeCode (cb : CanonicalBlock) : res Z :=
  match cb_Value cb with Some v => Ok (BlockTypeCode v) | None => Panic end.

Definition CanonicalBlock_HasCRC (cb : CanonicalBlock) : bool := negb (cb_CRCType cb =? CRCNo).

Definition CanonicalBlock_CheckValid (cb : CanonicalBlock) : res errors :=
  match cb_Value cb with
  | None => Panic
  | Some v =>
      Ok (BlockControlFlags_CheckValid (cb_BlockControlFlags cb) ++
          ExtensionBlock_CheckValid v ++
          (if (BlockTypeCode v =? BlockTypePayloadBlock) && negb (cb_BlockNumber cb =? 1)
           then [errorf "CanonicalBlock is a PayloadBlock with a block number != 1"] else []))
  end.

Section Codec.
Context `{Cboring} `{Crc16} `{GoMapRange}.

(** What a primary block writes before its CRC field. *)
Definition primary_body (pb : PrimaryBlock) : res bytes :=
  let endpoint eid :=
    match EndpointID_MarshalCbor eid with Err _ => Err (errorf "EndpointID failed") | x => x end in
  dst ← endpoint (pb_Destination pb);
  src ← endpoint (pb_SourceNode pb);
  rpt ← endpoint (pb_ReportTo pb);
  Ok (WriteArrayLength (primary_blockLen pb) ++
      WriteUInt dtnVersion ++ WriteUInt (pb_BundleControlFlags pb) ++ WriteUInt (pb_CRCType pb) ++
      dst ++ src ++ rpt ++
      CreationTimestamp_MarshalCbor (pb_CreationTimestamp pb) ++
      WriteUInt (pb_Lifetime pb) ++
      (if HasFragmentation pb then WriteUInt (pb_FragmentOffset pb) ++ WriteUInt (pb_TotalDataLength pb)
       else [])).

(** [PrimaryBlock.MarshalCbor]: the bytes written, and the receiver with the CRC
    that was computed on the way. *)
Definition PrimaryBlock_MarshalCbor (pb : PrimaryBlock) : res (bytes * PrimaryBlock) :=
  body ← primary_body pb;
  if PrimaryBlock_HasCRC pb then
    crcVal ← calculateCRCBuff body (pb_CRCType pb);
    Ok (body ++ WriteByteString crcVal, set_pb_CRC crcVal pb)
  else Ok (body, pb).

(** [calculateCRC] with its error discarded, as every caller does. *)
Definition calculateCRC (pb : PrimaryBlock) : PrimaryBlock :=
  let pb := set_pb_CRC [] pb in
  match PrimaryBlock_MarshalCbor pb with Ok (_, pb') => pb' | _ => pb end.

Definition NewPrimaryBlock (flags : Z) (destination sourceNode : EndpointID)
    (creationTimestamp : CreationTimestamp) (lifetime : Z) : PrimaryBlock :=
  calculateCRC (mkPrimary dtnVersion flags CRC32 destination sourceNode sourceNode creationTimestamp lifetime 0 0 []).

Definition PrimaryBlock_SetCRCType (crcType : Z) (pb : PrimaryBlock) : PrimaryBlock :=
  calculateCRC (set_pb_CRCType (if crcType =? CRCNo then CRC32 else crcType) pb).

(** The fields of a primary block up to its CRC; returns the array length. *)
Definition primary_fields : M (PrimaryBlock * bytes) Z :=
  bl ← on_input ReadArrayLength;
  if negb ((8 <=? bl) && (bl <=? 11)) then fail (errorf "expected array with 8 to 11 elements") else
  version ← on_input ReadUInt;
  if negb (version =? dtnVersion) then fail (errorf "expected version 7") else
  on_self (set_pb_Version dtnVersion);;
  bcf ← on_input ReadUInt;
  on_self (set_pb_BundleControlFlags bcf);;
  crcT ← on_input ReadUInt;
  on_self (set_pb_CRCType crcT);;
  eid ← on_input (wrap_err "EndpointID failed" EndpointID_UnmarshalCbor);
  on_self (set_pb_Destination eid);;
  eid ← on_input (wrap_err "EndpointID failed" EndpointID_UnmarshalCbor);
  on_self (set_pb_SourceNode eid);;
  eid ← on_input (wrap_err "EndpointID failed" EndpointID_UnmarshalCbor);
  on_self (set_pb_ReportTo eid);;
  wrap_err "CreationTimestamp failed"
    (on_field pb_CreationTimestamp set_pb_CreationTimestamp CreationTimestamp_UnmarshalCbor);;
  lt ← on_input ReadUInt;
  on_self (set_pb_Lifetime lt);;
  (if (bl =? 10) || (bl =? 11) then
     x ← on_input ReadUInt;
     on_self (set_pb_FragmentOffset x);;
     x ← on_input ReadUInt;
     on_self (set_pb_TotalDataLength x)
   else mret ());;
  mret bl.

(** [PrimaryBlock.UnmarshalCbor] *)
Definition PrimaryBlock_UnmarshalCbor : M (PrimaryBlock * bytes) () :=
  '(blockLen, crcBuff) ← tee_self primary_fields;
  if (blockLen =? 9) || (blockLen =? 11) then
    pb ← self;
    crcCalc ← lift_res (calculateCRCBuff crcBuff (pb_CRCType pb));
    crcVal ← on_input ReadByteString;
    if bool_decide (crcCalc = crcVal) then on_self (set_pb_CRC crcVal)
    else fail (errorf "invalid CRC value")
  else mret ().

(** What a canonical block writes before its CRC field. *)
Definition canonical_body (cb : CanonicalBlock) : res bytes :=
  tc ← TypeCode cb;
  data ← match cb_Value cb with
         | None => Panic
         | Some v => match WriteBlock v with Err _ => Err (errorf "marshalling value failed") | x => x end
         end;
  Ok (WriteArrayLength (if CanonicalBlock_HasCRC cb then 6 else 5) ++
      WriteUInt tc ++ WriteUInt (cb_BlockNumber cb) ++
      WriteUInt (cb_BlockControlFlags cb) ++ WriteUInt (cb_CRCType cb) ++ data).

(** [CanonicalBlock.MarshalCbor] *)
Definition CanonicalBlock_MarshalCbor (cb : CanonicalBlock) : res (bytes * CanonicalBlock) :=
  body ← canonical_body cb;
  if CanonicalBlock_HasCRC cb then
    crcVal ← calculateCRCBuff body (cb_CRCType cb);
    Ok (body ++ WriteByteString crcVal, set_cb_CRC crcVal cb)
  else Ok (body, cb).

(** The fields of a canonical block behind the array head, up to its CRC. *)
Definition canonical_fields (ebm : ExtensionBlockManager) : reader CanonicalBlock :=
  blockType ← ReadUInt;
  bn ← ReadUInt;
  bcf ← ReadUInt;
  crcT ← ReadUInt;
  b ← wrap_err "unmarshalling block failed" (ReadBlock ebm blockType);
  mret (mkCanonical bn bcf crcT [] (Some b)).

(** [CanonicalBlock.UnmarshalCbor] of a fresh block, which is dropped when an
    error is returned.  For a block with a CRC the array head is replayed into
    the CRC buffer. *)
Definition CanonicalBlock_UnmarshalCbor (ebm : ExtensionBlockManager) : reader CanonicalBlock :=
  blockLen ← ReadArrayLength;
  if negb (blockLen =? 5) && negb (blockLen =? 6) then fail (errorf "expected array with length 5 or 6") else
  '(cb, teed) ← tee (canonical_fields ebm);
  if blockLen =? 6 then
    crcCalc ← lift_res (calculateCRCBuff (WriteArrayLength blockLen ++ teed) (cb_CRCType cb));
    crcVal ← ReadByteString;
    if bool_decide (crcCalc = crcVal) then mret (set_cb_CRC crcVal cb)
    else fail (errorf "invalid CRC value")
  else mret cb.
End Codec.

(** ** Well-formed blocks *)

(** Field widths, known CRC type, well-formed endpoints; fields that are not on
    the wire are unset. *)
Definition PrimaryBlock_wf (pb : PrimaryBlock) : Prop :=
  pb_Version pb = dtnVersion ∧ is_u64 (pb_BundleControlFlags pb) ∧ crc_known (pb_CRCType pb) ∧
  EndpointID_wf (pb_Destination pb) ∧ EndpointID_fits (pb_Destination pb) ∧
  EndpointID_wf (pb_SourceNode pb) ∧ EndpointID_fits (pb_SourceNode pb) ∧
  EndpointID_wf (pb_ReportTo pb) ∧ EndpointID_fits (pb_ReportTo pb) ∧
  CreationTimestamp_wf (pb_CreationTimestamp pb) ∧ is_u64 (pb_Lifetime pb) ∧
  is_u64 (pb_FragmentOffset pb) ∧ is_u64 (pb_TotalDataLength pb) ∧
  (HasFragmentation pb = false → pb_FragmentOffset pb = 0 ∧ pb_TotalDataLength pb = 0) ∧
  (PrimaryBlock_HasCRC pb = false → pb_CRC pb = []).

#[global] Instance crc_known_dec t : Decision (crc_known t).
Proof. unfold crc_known. apply _. Defined.
#[global] Instance CreationTimestamp_wf_dec t : Decision (CreationTimestamp_wf t).
Proof. unfold CreationTimestamp_wf. apply _. Defined.
#[global] Instance PrimaryBlock_wf_dec pb : Decision (PrimaryBlock_wf pb).
Proof. unfold PrimaryBlock_wf. apply _. Defined.

Section CodecLemmas.
Context `{Cboring} `{Crc16} `{GoMapRange}.

Definition CanonicalBlock_wf (ebm : ExtensionBlockManager) (cb : CanonicalBlock) : Prop :=
  is_u64 (cb_BlockNumber cb) ∧ is_u64 (cb_BlockControlFlags cb) ∧ crc_known (cb_CRCType cb) ∧
  (CanonicalBlock_HasCRC cb = false → cb_CRC cb = []) ∧
  match cb_Value cb with
  | None => False
  | Some v => is_u64 (BlockTypeCode v) ∧ ExtensionBlock_wf v ∧ block_fits v ∧ registered ebm v
  end.

Lemma crc_known_u64 t : crc_known t → is_u64 t.
Proof. intros [->|[->| ->]]; unfold CRCNo, CRC16, CRC32; u64_lia. Qed.

Lemma primary_body_wf pb : PrimaryBlock_wf pb → ∃ body, primary_body pb = Ok body.
Proof.
  intros (_ & _ & _ & Hd & _ & Hs & _ & Hr & _). unfold primary_body.
  destruct (EndpointID_wf_Marshal _ Hd) as [d ->], (EndpointID_wf_Marshal _ Hs) as [s ->],
    (EndpointID_wf_Marshal _ Hr) as [r ->]. by eexists.
Qed.

(** Marshalling a well-formed primary block succeeds and only sets its CRC. *)
Lemma PrimaryBlock_Marshal_wf pb : PrimaryBlock_wf pb →
  ∃ bs crc, PrimaryBlock_MarshalCbor pb = Ok (bs, set_pb_CRC crc pb) ∧
    length crc = if PrimaryBlock_HasCRC pb then crc_size (pb_CRCType pb) else 0%nat.
Proof.
  intros Hwf. unfold PrimaryBlock_MarshalCbor. destruct (primary_body_wf pb Hwf) as [body ->]. simpl.
  destruct Hwf as (_ & _ & Hcrc & _ & _ & _ & _ & _ & _ & _ & _ & _ & _ & _ & Hnil).
  destruct (PrimaryBlock_HasCRC pb).
  - destruct (calculateCRCBuff_known body _ Hcrc) as (v & -> & Hl). simpl. by eexists _, _.
  - exists body, []. split; [|done]. destruct pb; simpl in *. by rewrite Hnil.
Qed.

Lemma canonical_body_wf ebm cb : CanonicalBlock_wf ebm cb → ∃ body, canonical_body cb = Ok body.
Proof.
  intros (_ & _ & _ & _ & Hv). unfold canonical_body, TypeCode.
  destruct (cb_Value cb) as [v|]; [|done]. destruct Hv as (_ & Hwf & _).
  simpl. destruct (WriteBlock_wf v Hwf) as [bs ->]. by eexists.
Qed.

Lemma CanonicalBlock_Marshal_wf ebm cb : CanonicalBlock_wf ebm cb →
  ∃ bs crc, CanonicalBlock_MarshalCbor cb = Ok (bs, set_cb_CRC crc cb).
Proof.
  intros Hwf. unfold CanonicalBlock_MarshalCbor. destruct (canonical_body_wf ebm cb Hwf) as [body ->]. simpl.
  destruct Hwf as (_ & _ & Hcrc & Hnil & _).
  destruct (CanonicalBlock_HasCRC cb).
  - destruct (calculateCRCBuff_known body _ Hcrc) as (v & -> & _). simpl. by eexists _, _.
  - exists body, []. destruct cb; simpl in *. by rewrite Hnil.
Qed.

Context `{!CboringLaws _}.

Lemma crc_u64 buff t v : calculateCRCBuff buff t = Ok v → is_u64 (len v).
Proof.
  intros [_ Hl]%calculateCRCBuff_Ok. unfold len. rewrite Hl. unfold crc_size.
  repeat case_match; u64_lia.
Qed.

(** The fields before the CRC are read back into a zero receiver. *)
Lemma primary_fields_rt pb body r : PrimaryBlock_wf pb → primary_body pb = Ok body →
  primary_fields (zero_primary, body ++ r) = (Ok (primary_blockLen pb), (set_pb_CRC [] pb, r)).
Proof.
  intros (Hv & Hbcf & Hcrc & Hd & Hd' & Hs & Hs' & Hr & Hr' & Ht & Hlt & Hfo & Htd & Hfrag & _) Hb.
  unfold primary_body in Hb.
  destruct (EndpointID_MarshalCbor (pb_Destination pb)) as [d| |] eqn:Ed; [|done..].
  destruct (EndpointID_MarshalCbor (pb_SourceNode pb)) as [s| |] eqn:Es; [|done..].
  destruct (EndpointID_MarshalCbor (pb_ReportTo pb)) as [rp| |] eqn:Er; [|done..].
  apply (Ok_inj (A := bytes)) in Hb as <-. apply crc_known_u64 in Hcrc.
  unfold primary_fields. rewrite <- !app_assoc.
  assert (is_u64 (primary_blockLen pb) ∧ (8 <=? primary_blockLen pb) && (primary_blockLen pb <=? 11) = true)
    as [Hbl Hbl'] by (unfold primary_blockLen; repeat case_match; split; [u64_lia|done|u64_lia|done|u64_lia|done|u64_lia|done]).
  mstep by (by apply on_input_ok, array_rt). rewrite Hbl'. mif.
  mstep by (apply on_input_ok, uint_rt; unfold dtnVersion; u64_lia). mif. mstep by done.
  mstep by (by apply on_input_ok, uint_rt). mstep by done.
  mstep by (by apply on_input_ok, uint_rt). mstep by done.
  mstep by (apply on_input_ok, wrap_err_ok; eapply EndpointID_rt; [| |exact Ed]; done). mstep by done.
  mstep by (apply on_input_ok, wrap_err_ok; eapply EndpointID_rt; [| |exact Es]; done). mstep by done.
  mstep by (apply on_input_ok, wrap_err_ok; eapply EndpointID_rt; [| |exact Er]; done). mstep by done.
  mstep by (by apply wrap_err_ok, on_field_ok, CreationTimestamp_rt).
  mstep by (by apply on_input_ok, uint_rt). mstep by done.
  destruct (HasFragmentation pb) eqn:Ef.
  - assert ((primary_blockLen pb =? 10) || (primary_blockLen pb =? 11) = true) as ->
      by (unfold primary_blockLen; rewrite Ef; by case_match).
    rewrite <- !app_assoc.
    mstep by (mstep by (by apply on_input_ok, uint_rt); mstep by done;
              mstep by (by apply on_input_ok, uint_rt); reflexivity).
    destruct pb; simpl in *; by subst.
  - assert ((primary_blockLen pb =? 10) || (primary_blockLen pb =? 11) = false) as ->
      by (unfold primary_blockLen; rewrite Ef; by case_match).
    mstep by reflexivity. destruct (Hfrag eq_refl), pb; simpl in *; by subst.
Qed.

(** Unmarshalling what a well-formed block wrote gives the block with its CRC. *)
Lemma PrimaryBlock_rt pb bs pb' r : PrimaryBlock_wf pb → PrimaryBlock_MarshalCbor pb = Ok (bs, pb') →
  PrimaryBlock_UnmarshalCbor (zero_primary, bs ++ r) = (Ok (), (pb', r)).
Proof.
  intros Hwf. unfold PrimaryBlock_MarshalCbor, PrimaryBlock_UnmarshalCbor.
  destruct (primary_body pb) as [body| |] eqn:Eb; [|done..]. simpl.
  assert (PrimaryBlock_HasCRC pb = (primary_blockLen pb =? 9) || (primary_blockLen pb =? 11)) as Hlen
    by (unfold primary_blockLen; by destruct (HasFragmentation pb), (PrimaryBlock_HasCRC pb)).
  destruct (PrimaryBlock_HasCRC pb) eqn:Ec.
  - destruct (calculateCRCBuff body (pb_CRCType pb)) as [crc| |] eqn:E; [|done..].
    intros [= <- <-]. rewrite <- app_assoc.
    mstep by (apply tee_self_ok; by apply primary_fields_rt). rewrite <- Hlen.
    mstep by reflexivity. simpl. mstep by (unfold lift_res; by rewrite E).
    mstep by (apply on_input_ok, bstr_rt; by eapply crc_u64).
    rewrite bool_decide_eq_true_2 by done. by destruct pb.
  - intros [= <- <-]. mstep by (apply tee_self_ok; by apply primary_fields_rt). rewrite <- Hlen.
    destruct Hwf as (_ & _ & _ & _ & _ & _ & _ & _ & _ & _ & _ & _ & _ & _ & Hnil).
    destruct pb; simpl in *. by rewrite Hnil.
Qed.

Lemma canonical_fields_rt ebm cb tc data r v :
  CanonicalBlock_wf ebm cb → cb_Value cb = Some v → TypeCode cb = Ok tc → WriteBlock v = Ok data →
  canonical_fields ebm (WriteUInt tc ++ WriteUInt (cb_BlockNumber cb) ++
      WriteUInt (cb_BlockControlFlags cb) ++ WriteUInt (cb_CRCType cb) ++ data ++ r) =
    (Ok (set_cb_CRC [] cb), r).
Proof.
  intros (Hn & Hbcf & Hcrc & _ & Hv) Ev Etc Ed. rewrite Ev in Hv. destruct Hv as (Hc & Hwf & Hfit & Hreg).
  unfold TypeCode in Etc. rewrite Ev in Etc. apply Ok_inj in Etc as <-.
  apply crc_known_u64 in Hcrc. unfold canonical_fields.
  mstep by by apply uint_rt. mstep by by apply uint_rt. mstep by by apply uint_rt. mstep by by apply uint_rt.
  mstep by (apply wrap_err_ok; by apply ReadBlock_rt). destruct cb; simpl in *. by subst.
Qed.

Lemma CanonicalBlock_rt ebm cb bs cb' r : CanonicalBlock_wf ebm cb →
  CanonicalBlock_MarshalCbor cb = Ok (bs, cb') →
  CanonicalBlock_UnmarshalCbor ebm (bs ++ r) = (Ok cb', r).
Proof.
  intros Hwf. unfold CanonicalBlock_MarshalCbor, CanonicalBlock_UnmarshalCbor, canonical_body.
  destruct (TypeCode cb) as [tc| |] eqn:Etc; [|done..].
  destruct (cb_Value cb) as [v|] eqn:Ev; [|done]. simpl.
  destruct (WriteBlock v) as [data| |] eqn:Ed; [|done..]. simpl.
  pose proof (λ r, canonical_fields_rt ebm cb tc data r v Hwf Ev Etc Ed) as Hf.
  set (fields := WriteUInt tc ++ _) in *.
  assert (∀ r, canonical_fields ebm (fields ++ r) = (Ok (set_cb_CRC [] cb), r)) as Hf'.
  { intros r'. unfold fields. rewrite <- !app_assoc. apply Hf. }
  destruct (CanonicalBlock_HasCRC cb) eqn:Ec.
  - destruct (calculateCRCBuff _ _) as [crc| |] eqn:E; [|done..].
    intros [= <- <-]. rewrite <- !app_assoc.
    mstep by (apply array_rt; u64_lia). mif.
    mstep by (apply tee_ok, Hf'). mif. simpl cb_CRCType.
    mstep by (unfold lift_res; by rewrite E).
    mstep by (apply bstr_rt; by eapply crc_u64).
    rewrite bool_decide_eq_true_2 by done. by destruct cb.
  - intros [= <- <-]. rewrite <- !app_assoc.
    mstep by (apply array_rt; u64_lia). mif.
    mstep by (apply tee_ok, Hf'). mif.
    destruct Hwf as (_ & _ & _ & Hnil & _). destruct cb; simpl in *. by rewrite Hnil.
Qed.
End CodecLemmas.
