(* ===== verification/Bundle.v ===== *)
(** * Bundles

    [pkg/bpv7/bundle.go], [canonical_block_sort.go] and the signature check of
    [extension_block_signature.go]: construction, block lookup and modification,
    validity, and the CBOR representation of whole bundles. *)

From stdpp Require Import base tactics list strings gmap sorting.
From Stdlib Require Import ZArith Lia Bool.
From S2P Require Import Prelude Cboring GoSort Flags Crc DtnTime Endpoint BundleId ExtensionBlocks Blocks.
Local Open Scope Z_scope.

(** ** Data *)

Record Bundle := mkBundle {
  b_PrimaryBlock : PrimaryBlock;
  b_ExtensionBlocks : list CanonicalBlock;
  b_PayloadBlock : CanonicalBlock;
}.

#[global] Instance Bundle_eq_dec : EqDecision Bundle.
Proof. solve_decision. Defined.

Definition zero_bundle : Bundle := mkBundle zero_primary [] zero_canonical.

Definition set_b_PrimaryBlock p b := mkBundle p (b_ExtensionBlocks b) (b_PayloadBlock b).
Definition set_b_ExtensionBlocks l b := mkBundle (b_PrimaryBlock b) l (b_PayloadBlock b).
Definition set_b_PayloadBlock c b := mkBundle (b_PrimaryBlock b) (b_ExtensionBlocks b) c.

(** ** Order of the extension blocks ([canonical_block_sort.go]) *)

(** [canonicalBlockNumberSort.Less]; the constant is the payload block's number. *)
Definition canonicalBlockNumberSort_Less (i j : CanonicalBlock) : bool :=
  if cb_BlockNumber i =? BlockTypePayloadBlock then false else
  if cb_BlockNumber j =? BlockTypePayloadBlock then true else
  cb_BlockNumber i <? cb_BlockNumber j.

Definition sortExtensionBlocks (b : Bundle) : Bundle :=
  set_b_ExtensionBlocks (go_sort canonicalBlockNumberSort_Less (b_ExtensionBlocks b)) b.

Definition MustNewBundle (primary : PrimaryBlock) (extensions : list CanonicalBlock) (payload : CanonicalBlock) : Bundle :=
  sortExtensionBlocks (mkBundle primary extensions payload).

(** ** Looking up extension blocks

    A pointer to an extension block is its position in the slice. *)

Fixpoint blocks_of_type (blockType : Z) (i : nat) (l : list CanonicalBlock) : res (list (nat * CanonicalBlock)) :=
  match l with
  | [] => Ok []
  | cb :: l =>
      tc ← TypeCode cb;
      cbs ← blocks_of_type blockType (S i) l;
      Ok (if tc =? blockType then (i, cb) :: cbs else cbs)
  end.

Definition ExtensionBlocksByType (b : Bundle) (blockType : Z) : res (list (nat * CanonicalBlock)) :=
  cbs ← blocks_of_type blockType 0 (b_ExtensionBlocks b);
  match cbs with
  | [] => Err (errorf "no CanonicalBlock with block type was found in Bundle")
  | _ => Ok cbs
  end.

Definition ExtensionBlockByType (b : Bundle) (blockType : Z) : res (nat * CanonicalBlock) :=
  cbs ← ExtensionBlocksByType b blockType;
  match cbs with
  | [cb] => Ok cb
  | _ => Err (errorf "there are several Extension Blocks for type code")
  end.

Definition HasExtensionBlock (b : Bundle) (blockType : Z) : res bool :=
  match ExtensionBlocksByType b blockType with Ok _ => Ok true | Err _ => Ok false | Panic => Panic end.

Fixpoint find_block_number (blockNumber : Z) (l : list CanonicalBlock) : res CanonicalBlock :=
  match l with
  | [] => Err (errorf "block with number not found")
  | cb :: l => if cb_BlockNumber cb =? blockNumber then Ok cb else find_block_number blockNumber l
  end.

Definition GetExtensionBlockByBlockNumber (b : Bundle) (blockNumber : Z) : res CanonicalBlock :=
  find_block_number blockNumber (b_ExtensionBlocks b).

(** ** Changing extension blocks *)

(** The search loop of [AddExtensionBlock]: the first number from [n] on that no
    block has.  [fuel] is the number of blocks, see [next_number_fresh]. *)
Fixpoint next_number (fuel : nat) (n : Z) (blockNumbers : list Z) : Z :=
  match fuel with
  | O => n
  | S fuel => if bool_decide (n ∈ blockNumbers) then next_number fuel (n + 1) blockNumbers else n
  end.

Definition AddExtensionBlock (b : Bundle) (block : CanonicalBlock) : res Bundle :=
  let blockNumbers := cb_BlockNumber <$> b_ExtensionBlocks b in
  match cb_Value block with
  | None => Panic
  | Some v =>
      let start := if BlockTypeCode v =? BlockTypePayloadBlock then 1 else 2 in
      let blockNumber := next_number (length blockNumbers) start blockNumbers in
      Ok (sortExtensionBlocks
            (set_b_ExtensionBlocks (b_ExtensionBlocks b ++ [set_cb_BlockNumber blockNumber block]) b))
  end.

Fixpoint remove_block_number (blockNumber : Z) (l : list CanonicalBlock) : list CanonicalBlock :=
  match l with
  | [] => []
  | cb :: l => if cb_BlockNumber cb =? blockNumber then l else cb :: remove_block_number blockNumber l
  end.

Definition RemoveExtensionBlockByBlockNumber (b : Bundle) (blockNumber : Z) : Bundle :=
  set_b_ExtensionBlocks (remove_block_number blockNumber (b_ExtensionBlocks b)) b.

(** ** Identity and flags *)

Definition Bundle_ID (b : Bundle) : BundleID :=
  let p := b_PrimaryBlock b in
  mkBundleID (pb_SourceNode p) (pb_CreationTimestamp p) (Has (pb_BundleControlFlags p) IsFragment)
    (pb_FragmentOffset p) (pb_TotalDataLength p).

Definition IsAdministrativeRecord (b : Bundle) : bool :=
  Has (pb_BundleControlFlags (b_PrimaryBlock b)) AdministrativeRecordPayload.

(** [Ed25519.Verify(publicKey, message, sig)] and [Sign] of Go's [crypto/ed25519]. *)
Class Ed25519 := {
  ed25519_Public : bytes → bytes;
  ed25519_Sign : bytes → bytes → bytes;
  ed25519_Verify : bytes → bytes → bytes → bool;
}.

Definition PrivateKeySize : Z := 64.

(** The documented behaviour of the package: the sizes of keys and signatures,
    and that a signature verifies under the signer's public key. *)
Class Ed25519Laws (E : Ed25519) : Prop := {
  ed25519_public_len priv : len priv = PrivateKeySize → len (ed25519_Public priv) = PublicKeySize;
  ed25519_sign_len priv data : len priv = PrivateKeySize → len (ed25519_Sign priv data) = SignatureSize;
  ed25519_verify_sign priv data : len priv = PrivateKeySize →
    ed25519_Verify (ed25519_Public priv) data (ed25519_Sign priv data) = true;
}.

(** ** Validity *)

(** [IsLifetimeExceeded] at the instant [now]; the type assertion on the age
    block's value panics if a block of that code has another type. *)
Definition IsLifetimeExceeded (now : Z) (b : Bundle) : res bool :=
  let p := b_PrimaryBlock b in
  if IsZeroTime (pb_CreationTimestamp p) then
    match ExtensionBlockByType b BlockTypeBundleAgeBlock with
    | Panic => Panic
    | Err _ => Ok true
    | Ok (_, bab) =>
        match cb_Value bab with
        | Some (BundleAgeBlock age) => Ok (pb_Lifetime p <? age)
        | _ => Panic
        end
    end
  else
    let maxTimestamp :=
      DtnTime_Time (CreationTimestamp_DtnTime (pb_CreationTimestamp p)) + Duration_ms (pb_Lifetime p) in
    Ok (maxTimestamp <? now).

Section Bundle.
Context `{Cboring} `{Crc16} `{GoMapRange} `{Ed25519}.

(** [SetCRCType] for every block. *)
Definition Bundle_SetCRCType (crcType : Z) (b : Bundle) : Bundle :=
  mkBundle (PrimaryBlock_SetCRCType crcType (b_PrimaryBlock b))
    (CanonicalBlock_SetCRCType crcType <$> b_ExtensionBlocks b)
    (CanonicalBlock_SetCRCType crcType (b_PayloadBlock b)).

(** [signatureBundleData]; it also refreshes the CRC fields of the two blocks,
    which no check reads. *)
Definition signatureBundleData (b : Bundle) : res bytes :=
  p ← PrimaryBlock_MarshalCbor (b_PrimaryBlock b);
  c ← CanonicalBlock_MarshalCbor (b_PayloadBlock b);
  Ok (p.1 ++ c.1).

(** [SignatureBlock.Verify]; a panic of [ed25519.Verify] is recovered, one of the
    marshalling is not. *)
Definition SignatureBlock_Verify (pk sig : bytes) (b : Bundle) : res bool :=
  match SignatureBlock_CheckValid pk sig with
  | _ :: _ => Ok false
  | [] =>
      if Has (pb_BundleControlFlags (b_PrimaryBlock b)) IsFragment then Ok false else
      match signatureBundleData b with
      | Ok data => Ok (ed25519_Verify pk data sig)
      | Err _ => Ok false
      | Panic => Panic
      end
  end.

(** [NewSignatureBlock]; the panic of [ed25519.Sign] on a key of the wrong size is
    recovered into an error. *)
Definition NewSignatureBlock (b : Bundle) (priv : bytes) : res ExtensionBlock :=
  if Has (pb_BundleControlFlags (b_PrimaryBlock b)) IsFragment then
    Err (errorf "fragmented Bundles cannot be signed")
  else
    data ← signatureBundleData b;
    if negb (len priv =? PrivateKeySize) then Err (errorf "recovered from bad private key length") else
    Ok (SignatureBlock (ed25519_Public priv) (ed25519_Sign priv data)).

(** [CheckContextValid] of the block at position [i].  The pointer comparison of
    the unique-block checks is a comparison of positions. *)
Definition unique_block (b : Bundle) (i : nat) (blockType : Z) : res errors :=
  match ExtensionBlockByType b blockType with
  | Panic => Panic
  | Err e => Ok [e]
  | Ok (j, _) => Ok (if (i =? j)%nat then [] else [errorf "pointer differs"])
  end.

Definition CheckContextValid (b : Bundle) (i : nat) (v : ExtensionBlock) : res errors :=
  match v with
  | PreviousNodeBlock _ => unique_block b i BlockTypePreviousNodeBlock
  | BundleAgeBlock _ => unique_block b i BlockTypeBundleAgeBlock
  | HopCountBlock _ _ => unique_block b i BlockTypeHopCountBlock
  | SignatureBlock pk sig =>
      if Has (pb_BundleControlFlags (b_PrimaryBlock b)) IsFragment then Ok [] else
      ok ← SignatureBlock_Verify pk sig b;
      Ok (if (ok : bool) then [] else [errorf "block verification failed"])
  | _ => Ok []
  end.

(** The loop over the extension blocks in [Bundle.CheckValid]. *)
Fixpoint check_blocks (b : Bundle) (i : nat) (seen : list Z) (l : list CanonicalBlock) : res errors :=
  match l with
  | [] => Ok []
  | cb :: l =>
      let dup := if bool_decide (cb_BlockNumber cb ∈ seen)
                 then [errorf "bundle: block number occurred multiple times"] else [] in
      match cb_Value cb with
      | None => Panic
      | Some v =>
          ctx ← CheckContextValid b i v;
          rest ← check_blocks b (S i) (cb_BlockNumber cb :: seen) l;
          Ok (dup ++ ctx ++ rest)
      end
  end.

Fixpoint check_each (l : list CanonicalBlock) : res errors :=
  match l with
  | [] => Ok []
  | cb :: l => e ← CanonicalBlock_CheckValid cb; rest ← check_each l; Ok (e ++ rest)
  end.

Definition Bundle_CheckValid (now : Z) (b : Bundle) : res errors :=
  exts ← check_each (b_ExtensionBlocks b);
  payload ← CanonicalBlock_CheckValid (b_PayloadBlock b);
  blocks ← check_blocks b 0 [] (b_ExtensionBlocks b);
  age ← (if IsZeroTime (pb_CreationTimestamp (b_PrimaryBlock b)) then
           has ← HasExtensionBlock b BlockTypeBundleAgeBlock;
           Ok (if (has : bool) then [] else [errorf "Bundle: Creation Timestamp is zero, but no Bundle Age block exists"])
         else Ok []);
  exceeded ← IsLifetimeExceeded now b;
  Ok (PrimaryBlock_CheckValid (b_PrimaryBlock b) ++ exts ++ payload ++
      (if Has (cb_BlockControlFlags (b_PayloadBlock b)) StatusReportBlock
       then [errorf "bundle: status report flag was set in a canonical block"] else []) ++
      blocks ++ age ++
      (if (exceeded : bool) then [errorf "Bundle: Lifetime is exceeded"] else [])).

(** The result of [CheckValid] as the caller's error. *)
Definition check_bundle (now : Z) (b : Bundle) : res () :=
  errs ← Bundle_CheckValid now b; check errs.

(** [NewBundle] returns the bundle also when the check fails. *)
Definition NewBundle (now : Z) (primary : PrimaryBlock) (extensions : list CanonicalBlock) (payload : CanonicalBlock) : res () * Bundle :=
  let b := MustNewBundle primary extensions payload in
  (check_bundle now b, b).

(** ** CBOR *)

Fixpoint marshal_blocks (l : list CanonicalBlock) : res (bytes * list CanonicalBlock) :=
  match l with
  | [] => Ok ([], [])
  | cb :: l =>
      match CanonicalBlock_MarshalCbor cb with
      | Ok (bs, cb') => '(rest, l') ← marshal_blocks l; Ok (bs ++ rest, cb' :: l')
      | Err _ => Err (errorf "ExtensionBlock failed")
      | Panic => Panic
      end
  end.

(** [Bundle.MarshalCbor]: the bytes, and the bundle with the CRCs of its blocks
    filled in. *)
Definition Bundle_MarshalCbor (b : Bundle) : res (bytes * Bundle) :=
  '(pbs, p) ← match PrimaryBlock_MarshalCbor (b_PrimaryBlock b) with
              | Err _ => Err (errorf "PrimaryBlock failed") | x => x end;
  '(ebs, l) ← marshal_blocks (b_ExtensionBlocks b);
  '(cbs, c) ← match CanonicalBlock_MarshalCbor (b_PayloadBlock b) with
              | Err _ => Err (errorf "PayloadBlock failed") | x => x end;
  Ok (IndefiniteArray :: pbs ++ ebs ++ cbs ++ [BreakCode], mkBundle p l c).

(** The loop of [Bundle.UnmarshalCbor]: canonical blocks until the break code.
    Each block takes input, so the input's length bounds the rounds, see
    [read_blocks_fuel]. *)
Fixpoint read_blocks (ebm : ExtensionBlockManager) (fuel : nat) : M (Bundle * bytes) () :=
  match fuel with
  | O => fail (errorf "out of fuel")
  | S fuel => λ '(b, inp),
      match CanonicalBlock_UnmarshalCbor ebm inp with
      | (Err FlagBreakCode, inp') => (Ok (), (b, inp'))
      | (Err _, inp') => (Err (errorf "CanonicalBlock failed"), (b, inp'))
      | (Panic, inp') => (Panic, (b, inp'))
      | (Ok cb, inp') =>
          match TypeCode cb with
          | Ok tc =>
              let b' := if tc =? BlockTypePayloadBlock then set_b_PayloadBlock cb b
                        else set_b_ExtensionBlocks (b_ExtensionBlocks b ++ [cb]) b in
              read_blocks ebm fuel (b', inp')
          | _ => (Panic, (b, inp'))
          end
      end
  end.

Definition Bundle_UnmarshalCbor (ebm : ExtensionBlockManager) (now : Z) : M (Bundle * bytes) () :=
  on_input (ReadExpect IndefiniteArray);;
  wrap_err "PrimaryBlock failed" (on_field b_PrimaryBlock set_b_PrimaryBlock PrimaryBlock_UnmarshalCbor);;
  (λ '(b, inp), read_blocks ebm (S (length inp)) (b, inp));;
  b ← self;
  lift_res (check_bundle now b).

(** [ParseBundle] returns the bundle also when it returns an error. *)
Definition ParseBundle (ebm : ExtensionBlockManager) (now : Z) (inp : bytes) : res () * Bundle :=
  let '(r, (b, _)) := Bundle_UnmarshalCbor ebm now (zero_bundle, inp) in (r, b).
End Bundle.

(** ** Lemmas: block numbers and order *)

Lemma Less_asym x y : canonicalBlockNumberSort_Less x y = true → canonicalBlockNumberSort_Less y x = false.
Proof.
  unfold canonicalBlockNumberSort_Less. repeat case_match; try done.
  rewrite Z.ltb_lt, Z.ltb_ge. lia.
Qed.

Lemma Less_trans x y z :
  not_less canonicalBlockNumberSort_Less x y → not_less canonicalBlockNumberSort_Less y z →
  not_less canonicalBlockNumberSort_Less x z.
Proof.
  unfold not_less, canonicalBlockNumberSort_Less. repeat case_match; try done.
  rewrite !Z.ltb_ge. lia.
Qed.

Lemma Less_tie x y :
  not_less canonicalBlockNumberSort_Less x y → not_less canonicalBlockNumberSort_Less y x →
  cb_BlockNumber x = cb_BlockNumber y.
Proof.
  unfold not_less, canonicalBlockNumberSort_Less.
  destruct (Z.eqb_spec (cb_BlockNumber x) BlockTypePayloadBlock),
    (Z.eqb_spec (cb_BlockNumber y) BlockTypePayloadBlock); try done; [congruence|].
  rewrite !Z.ltb_ge. lia.
Qed.

Abbreviation block_numbers l := (cb_BlockNumber <$> (l : list CanonicalBlock)).
Abbreviation blocks_sorted := (StronglySorted (not_less canonicalBlockNumberSort_Less)).

(** With distinct block numbers the sorted slice is unique, so it does not depend
    on the sorting algorithm. *)
Lemma sort_blocks_unique l l' : NoDup (block_numbers l) → l' ≡ₚ l → blocks_sorted l' →
  l' = go_sort canonicalBlockNumberSort_Less l.
Proof.
  intros Hnd. apply go_sort_unique; [apply Less_asym|apply Less_trans|].
  intros x y Hx Hy Hxy Hyx.
  pose proof (Less_tie x y Hxy Hyx) as Heq.
  apply list_elem_of_lookup in Hx as [i Hi], Hy as [j Hj].
  assert (i = j) as ->; [|congruence].
  apply (NoDup_lookup _ i j (cb_BlockNumber x) Hnd); rewrite list_lookup_fmap, ?Hi, ?Hj; simpl; congruence.
Qed.

Lemma next_number_cases fuel n l :
  n ≤ next_number fuel n l ∧ (∀ m, n ≤ m < next_number fuel n l → m ∈ l) ∧
  (next_number fuel n l ∉ l ∨ next_number fuel n l = n + Z.of_nat fuel).
Proof.
  revert n. induction fuel as [|fuel IH]; intros n; simpl; [split; [lia|]; split; [lia|right; lia]|].
  case_bool_decide as Hn; [|split; [lia|]; split; [lia|by left]].
  destruct (IH (n + 1)) as (H1 & H2 & H3). split; [lia|]. split.
  - intros m Hm. destruct (decide (m = n)) as [->|]; [done|]. apply H2. lia.
  - destruct H3; [by left|right; lia].
Qed.

Lemma next_number_bound fuel n l : next_number fuel n l ≤ n + Z.of_nat fuel.
Proof. revert n. induction fuel as [|fuel IH]; intros n; simpl; [lia|]. case_bool_decide; [specialize (IH (n + 1))|]; lia. Qed.

(** The search ends with a number no block has, and it is the least one. *)
Lemma next_number_fresh fuel n l : (length l ≤ fuel)%nat → next_number fuel n l ∉ l.
Proof.
  intros Hf. destruct (next_number_cases fuel n l) as (H1 & H2 & [H3|H3]); [done|].
  intros Hin. assert (seqZ n (Z.of_nat (S fuel)) ⊆+ l) as Hsub.
  { apply NoDup_submseteq; [apply NoDup_seqZ|]. intros m Hm%elem_of_seqZ.
    destruct (decide (m = next_number fuel n l)) as [->|]; [done|]. apply H2. lia. }
  apply submseteq_length in Hsub. rewrite length_seqZ in Hsub. lia.
Qed.

Lemma sort_blocks_perm b : b_ExtensionBlocks (sortExtensionBlocks b) ≡ₚ b_ExtensionBlocks b.
Proof. apply go_sort_perm. Qed.

Lemma sort_blocks_sorted b : blocks_sorted (b_ExtensionBlocks (sortExtensionBlocks b)).
Proof. apply go_sort_sorted; [apply Less_asym|apply Less_trans]. Qed.

Lemma remove_block_number_perm n l : n ∈ block_numbers l →
  ∃ cb, cb_BlockNumber cb = n ∧ l ≡ₚ cb :: remove_block_number n l.
Proof.
  induction l as [|c l IH]; simpl; intros Hin; [by apply not_elem_of_nil in Hin|].
  destruct (Z.eqb_spec (cb_BlockNumber c) n) as [E|E]; [by exists c|].
  apply elem_of_cons in Hin as [Hin|Hin]; [congruence|].
  destruct (IH Hin) as (cb & Hn & Hp). exists cb. split; [done|]. by rewrite Hp at 1; apply Permutation_swap.
Qed.

Lemma remove_block_number_id n l : n ∉ block_numbers l → remove_block_number n l = l.
Proof.
  induction l as [|c l IH]; simpl; [done|]. intros [Hne Hnin]%not_elem_of_cons.
  destruct (Z.eqb_spec (cb_BlockNumber c) n); [congruence|]. by rewrite IH.
Qed.

(** ** Lemmas: lookup by type *)

Definition has_type (t : Z) (cb : CanonicalBlock) : bool :=
  match cb_Value cb with Some v => BlockTypeCode v =? t | None => false end.

Definition all_valued (l : list CanonicalBlock) : Prop := Forall (λ cb, is_Some (cb_Value cb)) l.

Lemma blocks_of_type_Ok t i l cbs : blocks_of_type t i l = Ok cbs →
  all_valued l ∧ cbs.*2 = filter (λ cb, has_type t cb = true) l ∧
  (∀ j cb, (j, cb) ∈ cbs ↔ (i ≤ j)%nat ∧ l !! (j - i)%nat = Some cb ∧ has_type t cb = true).
Proof.
  revert i cbs. induction l as [|c l IH]; intros i cbs; simpl.
  { intros <-%Ok_inj. split; [constructor|]. split; [done|]. intros j cb. rewrite elem_of_nil. simpl.
    split; [done|]. by intros (_ & ? & _). }
  unfold TypeCode. destruct (cb_Value c) as [v|] eqn:Ev; [|done]. simpl.
  destruct (blocks_of_type t (S i) l) as [cbs'| |] eqn:E; [|done..].
  destruct (IH _ _ E) as (Hv & Hf & Hin). simpl. intros <-%Ok_inj.
  assert (has_type t c = (BlockTypeCode v =? t)) as Hc by (unfold has_type; by rewrite Ev).
  split; [constructor; [by eexists|done]|]. split.
  - rewrite filter_cons, Hc. case_decide as Ht; [rewrite Ht, fmap_cons; by f_equal|].
    apply not_true_iff_false in Ht. by rewrite Ht.
  - intros j cb. assert ((j, cb) ∈ cbs' ↔ (S i ≤ j)%nat ∧ (c :: l) !! (j - i)%nat = Some cb ∧ has_type t cb = true) as Hin'.
    { rewrite Hin. split; intros (Hle & Hl & Ht); (split; [done|split; [|done]]).
      - replace (j - i)%nat with (S (j - S i)) by lia. done.
      - replace (j - i)%nat with (S (j - S i)) in Hl by lia. done. }
    destruct (BlockTypeCode v =? t) eqn:Et.
    + rewrite elem_of_cons, Hin'. split.
      * intros [[= -> ->]|(? & ? & ?)]; [|split; [lia|done]].
        rewrite Nat.sub_diag. split; [lia|]. split; [done|]. congruence.
      * intros (Hle & Hl & Ht). destruct (decide (j = i)) as [->|]; [|right; split; [lia|done]].
        rewrite Nat.sub_diag in Hl. simpl in Hl. left. congruence.
    + rewrite Hin'. split; [intros (? & ? & ?); split; [lia|done]|].
      intros (Hle & Hl & Ht). split; [|done]. destruct (decide (j = i)) as [->|]; [|lia].
      rewrite Nat.sub_diag in Hl. simpl in Hl. congruence.
Qed.

Lemma blocks_of_type_total t i l : all_valued l → ∃ cbs, blocks_of_type t i l = Ok cbs.
Proof.
  intros Hl. revert i. induction Hl as [|c l [v Hv] Hl IH]; intros i; simpl; [by eexists|].
  unfold TypeCode. rewrite Hv. simpl. destruct (IH (S i)) as [cbs ->]. by eexists.
Qed.

(** [ExtensionBlockByType] succeeds exactly on a type that occurs once. *)
Lemma ExtensionBlockByType_Ok b t j cb : ExtensionBlockByType b t = Ok (j, cb) ↔
  all_valued (b_ExtensionBlocks b) ∧ b_ExtensionBlocks b !! j = Some cb ∧
  filter (λ cb, has_type t cb = true) (b_ExtensionBlocks b) = [cb].
Proof.
  unfold ExtensionBlockByType, ExtensionBlocksByType. split.
  - destruct (blocks_of_type t 0 _) as [cbs| |] eqn:E; [|done..].
    destruct (blocks_of_type_Ok _ _ _ _ E) as (Hv & Hf & Hin). simpl.
    destruct cbs as [|[j' cb'] [|]]; simpl; intros; simplify_eq.
    split; [done|]. split; [|done].
    destruct (proj1 (Hin j cb) ltac:(by apply list_elem_of_here)) as (_ & Hl & _).
    by rewrite Nat.sub_0_r in Hl.
  - intros (Hv & Hj & Hf). destruct (blocks_of_type_total t 0 _ Hv) as [cbs E]. rewrite E.
    destruct (blocks_of_type_Ok _ _ _ _ E) as (_ & Hf' & Hin). rewrite Hf in Hf'. simpl.
    assert ((j, cb) ∈ cbs) as Hjc.
    { apply Hin. rewrite Nat.sub_0_r. split; [lia|]. split; [done|].
      assert (cb ∈ filter (λ cb, has_type t cb = true) (b_ExtensionBlocks b)) as Hcb
        by (rewrite Hf; by apply list_elem_of_singleton).
      by apply list_elem_of_filter in Hcb as [? _]. }
    destruct cbs as [|[j' cb'] [|]]; simplify_eq/=. apply list_elem_of_singleton in Hjc. by simplify_eq.
Qed.

(** ** Lemmas: the CRC fields do not matter to the checks *)

Definition erase_crc (b : Bundle) : Bundle :=
  mkBundle (set_pb_CRC [] (b_PrimaryBlock b)) (set_cb_CRC [] <$> b_ExtensionBlocks b)
    (set_cb_CRC [] (b_PayloadBlock b)).

Lemma blocks_of_type_erase t i l :
  blocks_of_type t i (set_cb_CRC [] <$> l) = map (prod_map id (set_cb_CRC [])) <$> blocks_of_type t i l.
Proof.
  revert i. induction l as [|c l IH]; intros i; simpl; [done|].
  unfold TypeCode. simpl. destruct (cb_Value c) as [v|]; [|done]. simpl. rewrite IH.
  destruct (blocks_of_type t (S i) l); simpl; [|done..]. by case_match.
Qed.

Lemma ExtensionBlocksByType_erase b t :
  ExtensionBlocksByType (erase_crc b) t = map (prod_map id (set_cb_CRC [])) <$> ExtensionBlocksByType b t.
Proof.
  unfold ExtensionBlocksByType. simpl. rewrite blocks_of_type_erase.
  by destruct (blocks_of_type _ _ _) as [[|]| |].
Qed.

Lemma ExtensionBlockByType_erase b t :
  ExtensionBlockByType (erase_crc b) t = prod_map id (set_cb_CRC []) <$> ExtensionBlockByType b t.
Proof.
  unfold ExtensionBlockByType. rewrite ExtensionBlocksByType_erase.
  by destruct (ExtensionBlocksByType _ _) as [[|? []]| |].
Qed.

Lemma IsLifetimeExceeded_erase now b : IsLifetimeExceeded now (erase_crc b) = IsLifetimeExceeded now b.
Proof.
  unfold IsLifetimeExceeded. simpl. rewrite ExtensionBlockByType_erase.
  destruct (IsZeroTime _); [|done]. by destruct (ExtensionBlockByType _ _) as [[]| |].
Qed.

Section Erase.
Context `{Cboring} `{Crc16} `{GoMapRange} `{Ed25519}.

Lemma signatureBundleData_erase b : signatureBundleData (erase_crc b) = signatureBundleData b.
Proof.
  unfold signatureBundleData, PrimaryBlock_MarshalCbor, CanonicalBlock_MarshalCbor. simpl.
  change (primary_body (set_pb_CRC [] _)) with (primary_body (b_PrimaryBlock b)).
  change (canonical_body (set_cb_CRC [] _)) with (canonical_body (b_PayloadBlock b)).
  change (PrimaryBlock_HasCRC (set_pb_CRC [] _)) with (PrimaryBlock_HasCRC (b_PrimaryBlock b)).
  change (CanonicalBlock_HasCRC (set_cb_CRC [] _)) with (CanonicalBlock_HasCRC (b_PayloadBlock b)).
  destruct (primary_body _); simpl; [|done..].
  destruct (PrimaryBlock_HasCRC _); [destruct (calculateCRCBuff _ (pb_CRCType _)); simpl; [|done..]|simpl];
    (destruct (canonical_body _); simpl; [|done..]);
    (destruct (CanonicalBlock_HasCRC _); [|done]); by destruct (calculateCRCBuff _ (cb_CRCType _)).
Qed.

Lemma SignatureBlock_Verify_erase pk sig b :
  SignatureBlock_Verify pk sig (erase_crc b) = SignatureBlock_Verify pk sig b.
Proof. unfold SignatureBlock_Verify. by rewrite signatureBundleData_erase. Qed.

Lemma CheckContextValid_erase b i v : CheckContextValid (erase_crc b) i v = CheckContextValid b i v.
Proof.
  assert (∀ t, unique_block (erase_crc b) i t = unique_block b i t) as Hu.
  { intros t. unfold unique_block. rewrite ExtensionBlockByType_erase.
    by destruct (ExtensionBlockByType _ _) as [[]| |]. }
  destruct v; simpl; try apply Hu; [done..| |done|done]. by rewrite SignatureBlock_Verify_erase.
Qed.

Lemma check_each_erase l : check_each (set_cb_CRC [] <$> l) = check_each l.
Proof. induction l as [|c l IH]; [done|]. rewrite fmap_cons. simpl. by rewrite IH. Qed.

Lemma check_blocks_erase b i seen l :
  check_blocks (erase_crc b) i seen (set_cb_CRC [] <$> l) = check_blocks b i seen l.
Proof.
  revert i seen. induction l as [|c l IH]; intros i seen; [done|]. rewrite fmap_cons. simpl.
  destruct (cb_Value c); [|done]. by rewrite CheckContextValid_erase, IH.
Qed.

(** [CheckValid] gives the same answer whatever the CRC fields hold. *)
Lemma Bundle_CheckValid_erase now b : Bundle_CheckValid now (erase_crc b) = Bundle_CheckValid now b.
Proof.
  unfold Bundle_CheckValid, HasExtensionBlock. rewrite IsLifetimeExceeded_erase, ExtensionBlocksByType_erase.
  change (b_ExtensionBlocks (erase_crc b)) with (set_cb_CRC [] <$> b_ExtensionBlocks b).
  rewrite check_blocks_erase, check_each_erase.
  by destruct (ExtensionBlocksByType _ _).
Qed.
End Erase.
