(* ===== verification/Samples.v ===== *)
(** * Concrete instances and sample bundles

    Instances of the parameters that stand for packages outside the repository,
    and bundles, for the examples of the other files. *)

From stdpp Require Import base tactics list strings gmap.
From Stdlib Require Import ZArith Lia.
From S2P Require Import Prelude Cboring GoSort Flags Crc DtnTime Endpoint BundleId ExtensionBlocks Blocks.
From S2P Require Import Bundle.
Local Open Scope Z_scope.

(** A signature scheme with the sizes of Ed25519; the second half of a private
    key is the public key.  It meets the interface and is of course not secure. *)
Definition toy_sign (pk data : bytes) : bytes := take 32 (pk ++ replicate 32 Byte.x00) ++ be_bytes 32 (crc32_Checksum data).

#[export] Instance toy_ed25519 : Ed25519 := {|
  ed25519_Public := drop 32;
  ed25519_Sign := λ priv data, toy_sign (drop 32 priv) data;
  ed25519_Verify := λ pk data sig, bool_decide (sig = toy_sign pk data);
|}.

#[export] Instance toy_ed25519_laws : Ed25519Laws toy_ed25519.
Proof.
  constructor; simpl; unfold PrivateKeySize, len; intros.
  - unfold PublicKeySize. rewrite length_drop. lia.
  - unfold SignatureSize, toy_sign. rewrite length_app, length_take, length_app, length_replicate, be_bytes_length. lia.
  - by rewrite bool_decide_eq_true_2.
Qed.

(** ** Bundles *)

Definition dtn (node demux : string) : EndpointID := Some (EDtn (mkDtnEndpoint node demux false)).

Definition age_block (n ms : Z) : CanonicalBlock := mkCanonical n 0 CRCNo [] (Some (BundleAgeBlock ms)).
Definition hop_block (n limit count : Z) : CanonicalBlock := mkCanonical n 0 CRC16 [] (Some (HopCountBlock limit count)).
Definition payload_block (data : string) : CanonicalBlock :=
  mkCanonical 1 0 CRC32 [] (Some (PayloadBlock (str_bytes data))).

Definition sample_primary (flags : Z) : PrimaryBlock :=
  mkPrimary 7 flags CRC32 (dtn "dst" "in") (dtn "src" "") (dtn "src" "") (mkTimestamp 0 1) 60000 0 0 [].

Definition sample_bundle : Bundle :=
  mkBundle (sample_primary 0) [hop_block 2 16 3; age_block 3 1500] (payload_block "hello world").

Definition sample_key : bytes := replicate 32 Byte.x01 ++ replicate 32 Byte.x02.

Definition signed_bundle : Bundle :=
  match NewSignatureBlock sample_bundle sample_key with
  | Ok sb => match AddExtensionBlock sample_bundle (NewCanonicalBlock 0 0 sb) with Ok b => b | _ => sample_bundle end
  | _ => sample_bundle
  end.
