(* ===== verification/BundleValid.v ===== *)
(** * What the bundle operations guarantee

    Theorems about [pkg/bpv7/bundle.go]: adding and removing extension blocks,
    the facts a successful [CheckValid] establishes, the life time test with its
    64-bit arithmetic, and signatures. *)

From stdpp Require Import base tactics list strings gmap sorting.
From Stdlib Require Import ZArith Lia Bool.
From S2P Require Import Prelude Cboring GoSort Flags Crc DtnTime Endpoint BundleId ExtensionBlocks Blocks.
From S2P Require Import Bundle Samples.
Local Open Scope Z_scope.

(** ** Adding and removing extension blocks *)

(** The number [AddExtensionBlock] starts its search with. *)
Definition first_number (v : ExtensionBlock) : Z :=
  if BlockTypeCode v =? BlockTypePayloadBlock then 1 else 2.

Lemma block_numbers_perm l l' : l ≡ₚ l' → block_numbers l ≡ₚ block_numbers l'.
Proof. by intros ->. Qed.

Lemma blocks_sorted_remove n l : blocks_sorted l → blocks_sorted (remove_block_number n l).
Proof.
  induction 1 as [|c l Hl IH Hc]; simpl; [constructor|]. case_match; [done|]. constructor; [done|].
  eapply Forall_forall. intros x Hx. eapply Forall_forall in Hc; [exact Hc|].
  destruct (decide (n ∈ block_numbers l)) as [Hn|Hn].
  - destruct (remove_block_number_perm n l Hn) as (cb & _ & ->). by right.
  - by rewrite remove_block_number_id in Hx.
Qed.

(** The blocks after [AddExtensionBlock], and the number it chose. *)
Lemma AddExtensionBlock_Ok b block v : cb_Value block = Some v →
  let nums := block_numbers (b_ExtensionBlocks b) in
  let n := next_number (length nums) (first_number v) nums in
  ∃ b', AddExtensionBlock b block = Ok b' ∧
    b_PrimaryBlock b' = b_PrimaryBlock b ∧ b_PayloadBlock b' = b_PayloadBlock b ∧
    b_ExtensionBlocks b' ≡ₚ (set_cb_BlockNumber n block :: b_ExtensionBlocks b) ∧
    blocks_sorted (b_ExtensionBlocks b') ∧ n ∉ nums.
Proof.
  intros Hv nums n. unfold AddExtensionBlock. rewrite Hv. fold (first_number v). fold nums. fold n.
  eexists. split; [reflexivity|]. split; [done|]. split; [done|]. split; [|split].
  - rewrite sort_blocks_perm. symmetry. apply Permutation_cons_append.
  - apply sort_blocks_sorted.
  - by apply next_number_fresh.
Qed.

Lemma NoDup_numbers_cons l l' c : l' ≡ₚ c :: l → cb_BlockNumber c ∉ block_numbers l →
  NoDup (block_numbers l) → NoDup (block_numbers l').
Proof. intros Hp Hc Hl. rewrite (block_numbers_perm _ _ Hp). by constructor. Qed.

(** Adding an extension block to a bundle with distinct block numbers keeps
    every block, gives the new block the least free number from 2 on (1 for a
    payload block), and leaves the blocks ordered with distinct numbers. *)
Theorem AddExtensionBlock_spec b block v :
  NoDup (block_numbers (b_ExtensionBlocks b)) → cb_Value block = Some v →
  ∃ b' n, AddExtensionBlock b block = Ok b' ∧
    b_PrimaryBlock b' = b_PrimaryBlock b ∧ b_PayloadBlock b' = b_PayloadBlock b ∧
    b_ExtensionBlocks b' ≡ₚ (set_cb_BlockNumber n block :: b_ExtensionBlocks b) ∧
    blocks_sorted (b_ExtensionBlocks b') ∧ NoDup (block_numbers (b_ExtensionBlocks b')) ∧
    first_number v ≤ n ∧ (n ∉ block_numbers (b_ExtensionBlocks b)) ∧
    (∀ m, first_number v ≤ m < n → m ∈ block_numbers (b_ExtensionBlocks b)).
Proof.
  intros Hnd Hv. destruct (AddExtensionBlock_Ok b block v Hv) as (b' & Hadd & Hp & Hl & Hperm & Hs & Hfresh).
  set (nums := block_numbers (b_ExtensionBlocks b)) in *.
  destruct (next_number_cases (length nums) (first_number v) nums) as (Hle & Hleast & _).
  eexists b', _. do 5 (split; [done|]). split; [|done].
  by eapply NoDup_numbers_cons; [exact Hperm|..].
Qed.

Lemma AddExtensionBlock_spec_witness :
  ∃ b', AddExtensionBlock (mkBundle zero_primary [age_block 2 7; age_block 4 8] zero_canonical) (hop_block 0 5 0) = Ok b' ∧
    NoDup (block_numbers (b_ExtensionBlocks b')).
Proof.
  edestruct (AddExtensionBlock_spec (mkBundle zero_primary [age_block 2 7; age_block 4 8] zero_canonical)
    (hop_block 0 5 0) (HopCountBlock 5 0)) as (b' & n & H1 & _ & _ & _ & _ & H2 & _).
  - apply (bool_decide_unpack _). vm_compute. exact I.
  - reflexivity.
  - exists b'. split; [exact H1|exact H2].
Defined.

Example AddExtensionBlock_fills_gap :
  AddExtensionBlock (mkBundle zero_primary [age_block 2 7; age_block 4 8] zero_canonical) (hop_block 0 5 0) =
  Ok (mkBundle zero_primary [age_block 2 7; hop_block 3 5 0; age_block 4 8] zero_canonical).
Proof. vm_compute. reflexivity. Qed.

Lemma remove_block_number_cancel l l' c :
  NoDup (block_numbers l) → l ≡ₚ c :: l' → remove_block_number (cb_BlockNumber c) l ≡ₚ l'.
Proof.
  intros Hnd Hp. assert (cb_BlockNumber c ∈ block_numbers l) as Hin.
  { apply list_elem_of_fmap_2. rewrite Hp. by left. }
  destruct (remove_block_number_perm _ _ Hin) as (c' & Hc' & Hp').
  assert (c' = c) as ->.
  { assert (c' ∈ c :: l') as Hc by (rewrite <- Hp, Hp'; by left).
    apply elem_of_cons in Hc as [->|Hc]; [done|]. exfalso.
    apply block_numbers_perm in Hp. rewrite Hp in Hnd. apply NoDup_cons in Hnd as [Hno _]. apply Hno.
    rewrite <- Hc'. by apply list_elem_of_fmap_2. }
  apply (Permutation_cons_inv (a := c)). by rewrite <- Hp'.
Qed.

(** Removing the block just added gives back the bundle, for a bundle whose
    extension blocks are ordered and have distinct numbers. *)
Theorem Remove_Add b block b' n :
  NoDup (block_numbers (b_ExtensionBlocks b)) → blocks_sorted (b_ExtensionBlocks b) →
  AddExtensionBlock b block = Ok b' →
  n ∈ block_numbers (b_ExtensionBlocks b') → n ∉ block_numbers (b_ExtensionBlocks b) →
  RemoveExtensionBlockByBlockNumber b' n = b.
Proof.
  intros Hnd Hs Hadd Hin Hnin.
  destruct (cb_Value block) as [v|] eqn:Ev; [|by unfold AddExtensionBlock in Hadd; rewrite Ev in Hadd].
  destruct (AddExtensionBlock_Ok b block v Ev) as (b2 & Hadd2 & Hp & Hl & Hperm & Hs' & Hfresh).
  set (n2 := next_number _ _ _) in *. assert (b2 = b') as -> by congruence.
  assert (n = n2) as ->.
  { rewrite (block_numbers_perm _ _ Hperm) in Hin. by apply elem_of_cons in Hin as [?|?]. }
  assert (NoDup (block_numbers (b_ExtensionBlocks b'))) as Hnd' by (by eapply NoDup_numbers_cons).
  pose proof (remove_block_number_cancel _ _ (set_cb_BlockNumber n2 block) Hnd' Hperm) as Hr. simpl in Hr.
  assert (remove_block_number n2 (b_ExtensionBlocks b') = b_ExtensionBlocks b) as He.
  { rewrite (sort_blocks_unique _ (b_ExtensionBlocks b) Hnd) by done.
    apply sort_blocks_unique; [done|done|by apply blocks_sorted_remove]. }
  unfold RemoveExtensionBlockByBlockNumber, set_b_ExtensionBlocks. rewrite He, Hp, Hl. by destruct b.
Qed.

Lemma Remove_Add_witness :
  RemoveExtensionBlockByBlockNumber
    (mkBundle zero_primary [age_block 2 7; hop_block 3 5 0; age_block 4 8] zero_canonical) 3 =
  mkBundle zero_primary [age_block 2 7; age_block 4 8] zero_canonical.
Proof.
  apply (Remove_Add (mkBundle zero_primary [age_block 2 7; age_block 4 8] zero_canonical) (hop_block 0 5 0)).
  - apply (bool_decide_unpack _). vm_compute. exact I.
  - repeat constructor.
  - vm_compute. reflexivity.
  - apply (bool_decide_unpack _). vm_compute. exact I.
  - apply (bool_decide_unpack _). vm_compute. exact I.
Defined.

(** ** What [CheckValid] establishes *)

Section Valid.
Context `{Cboring} `{Crc16} `{GoMapRange} `{Ed25519}.

Lemma app_nil {A} (l k : list A) : l ++ k = [] → l = [] ∧ k = [].
Proof. apply app_eq_nil. Qed.

Lemma Bundle_CheckValid_nil now b : Bundle_CheckValid now b = Ok [] →
  PrimaryBlock_CheckValid (b_PrimaryBlock b) = [] ∧
  check_each (b_ExtensionBlocks b) = Ok [] ∧
  CanonicalBlock_CheckValid (b_PayloadBlock b) = Ok [] ∧
  Has (cb_BlockControlFlags (b_PayloadBlock b)) StatusReportBlock = false ∧
  check_blocks b 0 [] (b_ExtensionBlocks b) = Ok [] ∧
  IsLifetimeExceeded now b = Ok false.
Proof.
  unfold Bundle_CheckValid.
  destruct (check_each _) as [exts| |]; [|done..]. destruct (CanonicalBlock_CheckValid _) as [pl| |]; [|done..].
  simpl. destruct (check_blocks _ _ _ _) as [bl| |]; [|done..]. simpl.
  intros E.
  destruct (if IsZeroTime _ then _ else _) as [age| |] eqn:Ea in E; [|done..]. simpl in E.
  destruct (IsLifetimeExceeded now b) as [ex| |]; [|done..]. simpl in E. apply Ok_inj in E.
  apply app_nil in E as [-> E]. apply app_nil in E as [-> E]. apply app_nil in E as [-> E].
  destruct (Has _ _); [done|]. apply app_nil in E as [_ E]. apply app_nil in E as [-> E].
  apply app_nil in E as [_ E]. by destruct ex.
Qed.

Lemma check_each_nil l : check_each l = Ok [] ↔ Forall (λ cb, CanonicalBlock_CheckValid cb = Ok []) l.
Proof.
  split.
  - induction l as [|c l IH]; simpl; [constructor|].
    destruct (CanonicalBlock_CheckValid c) as [e| |] eqn:E; [|done..]. simpl.
    destruct (check_each l) as [r| |]; [|done..]. simpl. intros Hr%Ok_inj.
    apply app_nil in Hr as [-> ->]. constructor; [done|]. by apply IH.
  - induction 1 as [|c l Hc Hl IH]; simpl; [done|]. by rewrite Hc, IH.
Qed.

Lemma check_blocks_nil b i seen l : check_blocks b i seen l = Ok [] →
  NoDup (block_numbers l) ∧ (∀ n, n ∈ block_numbers l → n ∉ seen) ∧
  (∀ j cb, l !! j = Some cb → ∃ v, cb_Value cb = Some v ∧ CheckContextValid b (i + j) v = Ok []).
Proof.
  revert i seen. induction l as [|c l IH]; intros i seen; simpl.
  { intros _. split; [constructor|]. split; [intros n Hn; by apply not_elem_of_nil in Hn|done]. }
  destruct (cb_Value c) as [v|] eqn:Ev; [|done].
  destruct (CheckContextValid b i v) as [ctx| |] eqn:Ec; [|done..]. simpl.
  destruct (check_blocks b (S i) _ l) as [rest| |] eqn:Er; [|done..]. simpl. intros Hr%Ok_inj.
  apply app_nil in Hr as [Hd Hr]. apply app_nil in Hr as [-> ->].
  case_bool_decide as Hin; [done|]. destruct (IH _ _ Er) as (Hnd & Hseen & Hctx). split; [|split].
  - constructor; [|done]. intros Hc. apply (Hseen _ Hc). by left.
  - intros n [->|Hn]%elem_of_cons; [done|]. intros Hs. apply (Hseen n Hn). by right.
  - intros [|j] cb Hj; simpl in Hj; [|by rewrite Nat.add_succ_r; apply Hctx].
    simplify_eq. rewrite Nat.add_0_r. eauto.
Qed.

Lemma unique_block_nil b i t : unique_block b i t = Ok [] →
  ∃ cb, b_ExtensionBlocks b !! i = Some cb ∧ filter (λ cb, has_type t cb = true) (b_ExtensionBlocks b) = [cb].
Proof.
  unfold unique_block. destruct (ExtensionBlockByType b t) as [[j cb]| |] eqn:E; [|done..].
  apply ExtensionBlockByType_Ok in E as (_ & Hj & Hf).
  destruct (Nat.eqb_spec i j) as [->|]; [|done]. eauto.
Qed.

(** The block types [CheckValid] wants at most once. *)
Definition singleton_kind (k : BlockKind) : bool :=
  match k with KPreviousNode | KBundleAge | KHopCount => true | _ => false end.

Lemma CheckContextValid_unique b i v : singleton_kind (kind_of v) = true → CheckContextValid b i v = Ok [] →
  ∃ cb, b_ExtensionBlocks b !! i = Some cb ∧
    filter (λ cb, has_type (BlockTypeCode v) cb = true) (b_ExtensionBlocks b) = [cb].
Proof. destruct v; try done; intros _; apply unique_block_nil. Qed.

(** C9: a bundle that passes [CheckValid] at the instant [now] has a valid
    primary block, a payload numbered 1 if it is a payload block, distinct block
    numbers, at most one previous-node, age and hop-count block each, no
    exceeded hop count, signatures that verify unless it is a fragment, and its
    life time has not ended. *)
Theorem CheckValid_sound now b : Bundle_CheckValid now b = Ok [] →
  PrimaryBlock_CheckValid (b_PrimaryBlock b) = [] ∧
  (∃ pv, cb_Value (b_PayloadBlock b) = Some pv ∧
     (BlockTypeCode pv = BlockTypePayloadBlock → cb_BlockNumber (b_PayloadBlock b) = 1)) ∧
  NoDup (block_numbers (b_ExtensionBlocks b)) ∧
  (∀ i cb v, b_ExtensionBlocks b !! i = Some cb → cb_Value cb = Some v →
     ExtensionBlock_CheckValid v = [] ∧
     (singleton_kind (kind_of v) = true →
        filter (λ cb, has_type (BlockTypeCode v) cb = true) (b_ExtensionBlocks b) = [cb]) ∧
     (∀ limit count, v = HopCountBlock limit count → count ≤ limit) ∧
     (∀ pk sig, v = SignatureBlock pk sig → HasFragmentation (b_PrimaryBlock b) = false →
        SignatureBlock_Verify pk sig b = Ok true)) ∧
  IsLifetimeExceeded now b = Ok false.
Proof.
  intros (Hp & He & Hpl & _ & Hb & Hlt)%Bundle_CheckValid_nil.
  destruct (check_blocks_nil _ _ _ _ Hb) as (Hnd & _ & Hctx). rewrite check_each_nil in He.
  split; [done|]. split; [|split; [done|split; [|done]]].
  - unfold CanonicalBlock_CheckValid in Hpl. destruct (cb_Value (b_PayloadBlock b)) as [pv|]; [|done].
    exists pv. split; [done|]. intros Ht. apply Ok_inj in Hpl.
    apply app_nil in Hpl as [_ Hpl]. apply app_nil in Hpl as [_ Hpl]. rewrite Ht in Hpl.
    destruct (Z.eqb_spec (cb_BlockNumber (b_PayloadBlock b)) 1); done.
  - intros i cb v Hi Hv. destruct (Hctx i cb Hi) as (v' & Hv' & Hc). assert (v' = v) as -> by congruence.
    assert (ExtensionBlock_CheckValid v = []) as Hev.
    { eapply Forall_lookup_1 in He; [|exact Hi]. unfold CanonicalBlock_CheckValid in He. rewrite Hv in He.
      apply Ok_inj in He. apply app_nil in He as [_ He]. by apply app_nil in He as [? _]. }
    split; [done|]. split; [|split].
    + intros Hk. destruct (CheckContextValid_unique b i v Hk Hc) as (cb' & Hi' & ->). congruence.
    + intros limit count ->. simpl in Hev. unfold HopCountBlock_CheckValid, HopCount_IsExceeded in Hev.
      destruct (Z.ltb_spec limit count); [done|lia].
    + intros pk sig -> Hf. simpl in Hc. unfold HasFragmentation in Hf. rewrite Hf in Hc.
      destruct (SignatureBlock_Verify pk sig b) as [[]| |]; done.
Qed.
End Valid.

Lemma CheckValid_sound_witness :
  Bundle_CheckValid 0 signed_bundle = Ok [] ∧ IsLifetimeExceeded 0 signed_bundle = Ok false.
Proof.
  split; [vm_compute; reflexivity|].
  apply (CheckValid_sound 0 signed_bundle). vm_compute. reflexivity.
Defined.

(** ** Signatures *)

(** A signature made by [NewSignatureBlock] verifies, whatever extension
    blocks the bundle carries besides. *)
Theorem signature_verifies `{Cboring} `{Crc16} `{GoMapRange} `{Ed25519} `{!Ed25519Laws _} b priv sb :
  NewSignatureBlock b priv = Ok sb →
  ∃ pk sig, sb = SignatureBlock pk sig ∧
    ∀ exts, SignatureBlock_Verify pk sig (set_b_ExtensionBlocks exts b) = Ok true.
Proof.
  unfold NewSignatureBlock. destruct (Has _ IsFragment) eqn:Ef; [done|].
  destruct (signatureBundleData b) as [data| |] eqn:Ed; [|done..]. simpl.
  destruct (Z.eqb_spec (len priv) PrivateKeySize) as [Hl|]; [|done]. simpl. intros <-%Ok_inj.
  eexists _, _. split; [done|]. intros exts. unfold SignatureBlock_Verify, SignatureBlock_CheckValid.
  rewrite ed25519_public_len, ed25519_sign_len by done. simpl. rewrite Ef.
  change (signatureBundleData (set_b_ExtensionBlocks exts b)) with (signatureBundleData b).
  rewrite Ed. by rewrite ed25519_verify_sign.
Qed.

Lemma signature_verifies_witness :
  ∃ pk sig, NewSignatureBlock sample_bundle sample_key = Ok (SignatureBlock pk sig) ∧
    SignatureBlock_Verify pk sig (set_b_ExtensionBlocks [hop_block 2 16 4] sample_bundle) = Ok true.
Proof.
  destruct (NewSignatureBlock sample_bundle sample_key) as [sb| |] eqn:E; [|vm_compute in E; discriminate E..].
  destruct (signature_verifies sample_bundle sample_key sb E) as (pk & sig & -> & Hv).
  exists pk, sig. split; [reflexivity|apply Hv].
Defined.

Example signature_detects_change :
  (∃ e, Bundle_CheckValid 0 (set_b_PayloadBlock (payload_block "hello w0rld") signed_bundle) = Ok [e]) ∧
  Bundle_CheckValid 0 signed_bundle = Ok [].
Proof. split; [eexists|]; vm_compute; reflexivity. Qed.

(** ** Life time *)

(** Instant of a DTN time in nanoseconds since the Unix epoch. *)
Definition dtn_ns (ms : Z) : Z := (ms + milliseconds1970To2k) * nanoToMilli.

Lemma Duration_ms_exact ms : 0 ≤ ms ≤ 9223372036854 → Duration_ms ms = ms * nanoToMilli.
Proof.
  intros Hms. unfold Duration_ms, nanoToMilli. rewrite (wrap_i64_id ms) by u64_lia. apply wrap_i64_id. u64_lia.
Qed.

(** With a non-zero creation time and a life time of at most 9223372036854 ms
    (292 years), [IsLifetimeExceeded] holds exactly after creation time plus life
    time; with a zero creation time it holds exactly when the one bundle age
    block is older than the life time, and when there is no such block. *)
Theorem IsLifetimeExceeded_exact now b :
  0 ≤ ct_time (pb_CreationTimestamp (b_PrimaryBlock b)) < 2 ^ 62 →
  0 ≤ pb_Lifetime (b_PrimaryBlock b) ≤ 9223372036854 →
  all_valued (b_ExtensionBlocks b) →
  let t := ct_time (pb_CreationTimestamp (b_PrimaryBlock b)) in
  let lifetime := pb_Lifetime (b_PrimaryBlock b) in
  (t ≠ 0 → IsLifetimeExceeded now b = Ok (dtn_ns (t + lifetime) <? now)) ∧
  (t = 0 → ∀ cb age,
     filter (λ cb, has_type BlockTypeBundleAgeBlock cb = true) (b_ExtensionBlocks b) = [cb] →
     cb_Value cb = Some (BundleAgeBlock age) → IsLifetimeExceeded now b = Ok (lifetime <? age)) ∧
  (t = 0 → filter (λ cb, has_type BlockTypeBundleAgeBlock cb = true) (b_ExtensionBlocks b) = [] →
     IsLifetimeExceeded now b = Ok true).
Proof.
  intros Ht Hl Hv t lifetime. unfold IsLifetimeExceeded, IsZeroTime, CreationTimestamp_DtnTime, DtnTimeEpoch.
  fold t. fold lifetime. split; [|split].
  - intros Hne. rewrite (proj2 (Z.eqb_neq t 0) Hne). rewrite DtnTime_Time_exact by done.
    rewrite Duration_ms_exact by lia. do 2 f_equal. unfold dtn_ns. lia.
  - intros -> cb age Hf Hcb. simpl.
    assert (cb ∈ b_ExtensionBlocks b) as Hin.
    { assert (cb ∈ filter (λ cb, has_type BlockTypeBundleAgeBlock cb = true) (b_ExtensionBlocks b)) as Hc
        by (rewrite Hf; by left). by apply list_elem_of_filter in Hc as [_ ?]. }
    apply list_elem_of_lookup in Hin as [j Hj].
    rewrite (proj2 (ExtensionBlockByType_Ok b BlockTypeBundleAgeBlock j cb)) by done. by rewrite Hcb.
  - intros -> Hf. simpl. unfold ExtensionBlockByType, ExtensionBlocksByType.
    destruct (blocks_of_type_total BlockTypeBundleAgeBlock 0 _ Hv) as [cbs E]. rewrite E.
    destruct (blocks_of_type_Ok _ _ _ _ E) as (_ & Hf' & _). rewrite Hf in Hf'. by destruct cbs.
Qed.

Lemma IsLifetimeExceeded_exact_witness :
  IsLifetimeExceeded 0 sample_bundle = Ok false ∧
  IsLifetimeExceeded (dtn_ns 800000000000) (mkBundle (set_pb_CreationTimestamp (mkTimestamp 700000000000 0) (sample_primary 0)) [] zero_canonical) = Ok true.
Proof.
  split.
  - apply (proj1 (proj2 (IsLifetimeExceeded_exact 0 sample_bundle ltac:(vm_compute; split; [discriminate|reflexivity])
      ltac:(vm_compute; split; discriminate) ltac:(repeat constructor; eexists; reflexivity)))
      eq_refl (age_block 3 1500) 1500 eq_refl eq_refl).
  - refine (proj1 (IsLifetimeExceeded_exact (dtn_ns 800000000000)
      (mkBundle (set_pb_CreationTimestamp (mkTimestamp 700000000000 0) (sample_primary 0)) [] zero_canonical)
      ltac:(vm_compute; split; [discriminate|reflexivity]) ltac:(vm_compute; split; discriminate)
      ltac:(constructor)) _). discriminate.
Defined.

(** A life time between 9223372036855 and 18446744073709 ms (292 to 584
    years) overflows the 64-bit duration to a negative one: such a bundle counts
    as expired at the very instant it is created. *)
Theorem lifetime_overflow b :
  0 < ct_time (pb_CreationTimestamp (b_PrimaryBlock b)) < 2 ^ 62 →
  9223372036855 ≤ pb_Lifetime (b_PrimaryBlock b) ≤ 18446744073709 →
  IsLifetimeExceeded (dtn_ns (ct_time (pb_CreationTimestamp (b_PrimaryBlock b)))) b = Ok true.
Proof.
  intros Ht Hl. unfold IsLifetimeExceeded, IsZeroTime, CreationTimestamp_DtnTime, DtnTimeEpoch.
  rewrite (proj2 (Z.eqb_neq _ 0)) by lia. rewrite DtnTime_Time_exact by lia. f_equal. apply Z.ltb_lt.
  unfold dtn_ns, Duration_ms, wrap_i64, nanoToMilli, two63, two64.
  set (l := pb_Lifetime _) in *. rewrite (Z.mod_small (l + _)) by lia.
  replace ((l + 9223372036854775808 - 9223372036854775808) * 1000000 + 9223372036854775808)
    with ((l * 1000000 - 9223372036854775808) + 1 * 18446744073709551616) by lia.
  rewrite Z.mod_add, Z.mod_small by lia. lia.
Qed.

Lemma lifetime_overflow_witness :
  let b := mkBundle (set_pb_Lifetime 10000000000000 (set_pb_CreationTimestamp (mkTimestamp 800000000000 0) (sample_primary 0)))
             [] (payload_block "x") in
  IsLifetimeExceeded (dtn_ns 800000000000) b = Ok true.
Proof. intros b. apply (lifetime_overflow b); vm_compute; split; first [reflexivity|discriminate]. Defined.

(** ** Bundles without a payload block *)

(** [CheckValid] dereferences the payload block's value without a test, so a
    bundle whose payload block was never set makes it panic whenever the
    extension blocks have values. *)
Theorem CheckValid_no_payload_panics `{Cboring} `{Crc16} `{GoMapRange} `{Ed25519} now b :
  cb_Value (b_PayloadBlock b) = None → all_valued (b_ExtensionBlocks b) → Bundle_CheckValid now b = Panic.
Proof.
  intros Hp Hv. unfold Bundle_CheckValid.
  assert (∃ errs, check_each (b_ExtensionBlocks b) = Ok errs) as [errs ->].
  { induction Hv as [|c l [v Hc] Hl [errs IH]]; simpl; [by eexists|].
    unfold CanonicalBlock_CheckValid. rewrite Hc. simpl. rewrite IH. by eexists. }
  simpl. unfold CanonicalBlock_CheckValid. by rewrite Hp.
Qed.

Lemma CheckValid_no_payload_panics_witness :
  Bundle_CheckValid 0 (set_b_PayloadBlock zero_canonical sample_bundle) = Panic.
Proof.
  apply (CheckValid_no_payload_panics 0 (set_b_PayloadBlock zero_canonical sample_bundle));
    [reflexivity|repeat constructor; eexists; reflexivity].
Defined.
