(* ===== verification/BundleCodec.v ===== *)
(** * Bundles on the wire

    [Bundle.MarshalCbor] and [Bundle.UnmarshalCbor] of [pkg/bpv7/bundle.go]: the
    round trip, termination of the block loop, and what the loop takes for the
    end of a bundle. *)

From stdpp Require Import base tactics list strings gmap.
From Stdlib Require Import ZArith Lia Bool.
From S2P Require Import Prelude Cboring GoSort Flags Crc DtnTime Endpoint BundleId ExtensionBlocks Blocks.
From S2P Require Import Bundle Samples.
Local Open Scope Z_scope.

(** ** Readers never give input back *)

Definition mono {A} (m : reader A) : Prop := ∀ inp, (length (m inp).2 ≤ length inp)%nat.

Lemma mono_bind {A B} (m : reader A) (k : A → reader B) : mono m → (∀ a, mono (k a)) → mono (m ≫= k).
Proof.
  intros Hm Hk inp. unfold mbind, M_bind. specialize (Hm inp).
  destruct (m inp) as [[a|e|] r]; simpl in *; [|done..]. specialize (Hk a r). lia.
Qed.
Lemma mono_ret {A} (a : A) : mono (mret a).
Proof. by intros inp. Qed.
Lemma mono_lift {A} (r : res A) : mono (lift_res r).
Proof. by intros inp. Qed.
Lemma mono_fail {A} e : mono (fail e : reader A).
Proof. by intros inp. Qed.
Lemma mono_wrap {A} msg (m : reader A) : mono m → mono (wrap_err msg m).
Proof. intros Hm inp. specialize (Hm inp). unfold wrap_err. by destruct (m inp) as [[]]. Qed.
Lemma mono_tee {A} (m : reader A) : mono m → mono (tee m).
Proof. intros Hm inp. specialize (Hm inp). unfold tee. by destruct (m inp) as [[]]. Qed.

Create HintDb readers.
#[export] Hint Resolve mono_bind mono_ret mono_lift mono_fail mono_wrap mono_tee : readers.

Section Codec.
Context `{Cboring} `{Crc16} `{GoMapRange} `{Ed25519} `{!CboringLaws _}.

Lemma mono_ReadUInt : mono ReadUInt.
Proof. exact uint_mono. Qed.
Lemma mono_ReadByteString : mono ReadByteString.
Proof. exact bstr_mono. Qed.
Hint Resolve mono_ReadUInt mono_ReadByteString : readers.

Lemma canonical_fields_mono ebm : mono (canonical_fields ebm).
Proof. unfold canonical_fields, ReadBlock. eauto 12 with readers. Qed.
Hint Resolve canonical_fields_mono : readers.

(** A canonical block that was read took at least one byte. *)
Lemma CanonicalBlock_progress ebm inp cb r :
  CanonicalBlock_UnmarshalCbor ebm inp = (Ok cb, r) → (length r < length inp)%nat.
Proof.
  unfold CanonicalBlock_UnmarshalCbor. unfold mbind at 1, M_bind at 1.
  destruct (ReadArrayLength inp) as [[n|e|] r'] eqn:E; [|done..]. apply array_progress in E.
  match goal with |- ?m r' = _ → _ => assert (mono m) as Hm end.
  { case_match; [auto with readers|]. apply mono_bind; [auto with readers|]. intros [cb' teed].
    case_match; [|auto with readers]. apply mono_bind; [auto with readers|]. intros crc.
    apply mono_bind; [auto with readers|]. intros v. case_match; auto with readers. }
  intros Hr. specialize (Hm r'). rewrite Hr in Hm. simpl in Hm. lia.
Qed.

(** With more rounds than bytes of input the loop does not run out of rounds. *)
Lemma read_blocks_rounds ebm n m b inp : (length inp < n)%nat → (length inp < m)%nat →
  read_blocks ebm n (b, inp) = read_blocks ebm m (b, inp).
Proof.
  revert m b inp. induction n as [|n IH]; intros [|m] b inp Hn Hm; [lia..|]. simpl.
  destruct (CanonicalBlock_UnmarshalCbor ebm inp) as [[cb|e|] r] eqn:E; [|done..].
  apply CanonicalBlock_progress in E. destruct (TypeCode cb); [|done..]. apply IH; lia.
Qed.

(** C21: the block loop of [UnmarshalCbor] terminates: with any bound above the
    number of input bytes on its rounds it gives the same result, which is never
    the exhaustion of the bound. *)
Theorem read_blocks_terminates ebm n b inp : (length inp < n)%nat →
  read_blocks ebm n (b, inp) = read_blocks ebm (S (length inp)) (b, inp) ∧
  (read_blocks ebm n (b, inp)).1 ≠ Err (errorf "out of fuel").
Proof.
  intros Hn. split; [apply read_blocks_rounds; lia|].
  revert b inp Hn. induction n as [|n IH]; intros b inp Hn; [lia|]. simpl.
  destruct (CanonicalBlock_UnmarshalCbor ebm inp) as [[cb|[]|] r] eqn:E; [|done..].
  apply CanonicalBlock_progress in E. destruct (TypeCode cb); [|done..]. apply IH; lia.
Qed.

(** ** Round trip *)

Definition Bundle_wf (ebm : ExtensionBlockManager) (b : Bundle) : Prop :=
  PrimaryBlock_wf (b_PrimaryBlock b) ∧
  Forall (λ cb, CanonicalBlock_wf ebm cb ∧ has_type BlockTypePayloadBlock cb = false) (b_ExtensionBlocks b) ∧
  CanonicalBlock_wf ebm (b_PayloadBlock b) ∧ has_type BlockTypePayloadBlock (b_PayloadBlock b) = true.

Lemma wf_TypeCode ebm cb : CanonicalBlock_wf ebm cb →
  ∃ tc, TypeCode cb = Ok tc ∧ has_type BlockTypePayloadBlock cb = (tc =? BlockTypePayloadBlock).
Proof.
  intros (_ & _ & _ & _ & Hv). unfold TypeCode, has_type.
  destruct (cb_Value cb) as [v|]; [|done]. by eexists.
Qed.

Lemma read_blocks_step ebm fuel b cb bs cb' r : CanonicalBlock_wf ebm cb →
  CanonicalBlock_MarshalCbor cb = Ok (bs, cb') →
  read_blocks ebm (S fuel) (b, bs ++ r) =
    read_blocks ebm fuel (if has_type BlockTypePayloadBlock cb then set_b_PayloadBlock cb' b
                          else set_b_ExtensionBlocks (b_ExtensionBlocks b ++ [cb']) b, r).
Proof.
  intros Hwf Hm. simpl. rewrite (CanonicalBlock_rt ebm cb bs cb' r Hwf Hm).
  destruct (CanonicalBlock_Marshal_wf ebm cb Hwf) as (bs2 & crc & E).
  assert (cb' = set_cb_CRC crc cb) as -> by congruence.
  destruct (wf_TypeCode ebm cb Hwf) as (tc & Htc & ->).
  change (TypeCode (set_cb_CRC crc cb)) with (TypeCode cb). by rewrite Htc.
Qed.

Lemma marshal_blocks_wf ebm l : Forall (λ cb, CanonicalBlock_wf ebm cb ∧ has_type BlockTypePayloadBlock cb = false) l →
  ∃ bs l', marshal_blocks l = Ok (bs, l') ∧ set_cb_CRC [] <$> l' = set_cb_CRC [] <$> l ∧
    ∀ fuel b r, read_blocks ebm (length l + fuel) (b, bs ++ r) =
      read_blocks ebm fuel (set_b_ExtensionBlocks (b_ExtensionBlocks b ++ l') b, r).
Proof.
  induction 1 as [|c l [Hc Ht] Hl (bs & l' & E & Her & IH)].
  { exists [], []. split; [done|]. split; [done|]. intros fuel b r. simpl. rewrite app_nil_r. by destruct b. }
  destruct (CanonicalBlock_Marshal_wf ebm c Hc) as (cbs & crc & Ec).
  exists (cbs ++ bs), (set_cb_CRC crc c :: l'). split; [|split].
  - simpl. by rewrite Ec, E.
  - rewrite !fmap_cons. by rewrite Her.
  - intros fuel b r. rewrite <- app_assoc. cbn [length Nat.add].
    rewrite (read_blocks_step _ _ _ _ _ _ _ Hc Ec), Ht, IH. simpl. by rewrite <- app_assoc.
Qed.

(** What [MarshalCbor] writes for a well-formed bundle, and how it is read: the
    bundle ends where reading a block reports the break code. *)
Lemma Bundle_Marshal_wf ebm b : Bundle_wf ebm b →
  ∃ body b', Bundle_MarshalCbor b = Ok (body ++ [BreakCode], b') ∧ erase_crc b' = erase_crc b ∧
    ∀ now tail r, CanonicalBlock_UnmarshalCbor ebm tail = (Err FlagBreakCode, r) →
      Bundle_UnmarshalCbor ebm now (zero_bundle, body ++ tail) = (check_bundle now b', (b', r)).
Proof.
  intros (Hp & Hl & Hc & Ht). unfold Bundle_MarshalCbor.
  destruct (PrimaryBlock_Marshal_wf _ Hp) as (pbs & pcrc & Ep & _).
  destruct (marshal_blocks_wf ebm _ Hl) as (ebs & l' & El & Her & Hread).
  destruct (CanonicalBlock_Marshal_wf ebm _ Hc) as (cbs & ccrc & Ec).
  rewrite Ep. simpl. rewrite El. simpl. rewrite Ec. simpl.
  eexists (IndefiniteArray :: pbs ++ ebs ++ cbs), _. split; [simpl; by rewrite <- !app_assoc|].
  split; [unfold erase_crc; simpl; by rewrite Her|].
  intros now tail r Hbreak. unfold Bundle_UnmarshalCbor. simpl app. rewrite <- !app_assoc.
  mstep by (apply on_input_ok, expect_rt).
  mstep by (apply wrap_err_ok, on_field_ok; eapply PrimaryBlock_rt; [exact Hp|exact Ep]).
  set (inp := ebs ++ _).
  assert (∀ b0, read_blocks ebm (S (length inp)) (b0, inp) =
    (Ok (), (mkBundle (b_PrimaryBlock b0) (b_ExtensionBlocks b0 ++ l') (set_cb_CRC ccrc (b_PayloadBlock b)), r))) as Hr.
  { intros b0. rewrite (read_blocks_rounds _ _ (length (b_ExtensionBlocks b) + S (S (length inp)))) by lia.
    unfold inp at 2. rewrite Hread, (read_blocks_step _ _ _ _ _ _ _ Hc Ec), Ht. simpl. by rewrite Hbreak. }
  by mstep by apply Hr.
Qed.

Lemma CanonicalBlock_break ebm r : CanonicalBlock_UnmarshalCbor ebm (BreakCode :: r) = (Err FlagBreakCode, r).
Proof. unfold CanonicalBlock_UnmarshalCbor. by erewrite bind_err by apply array_break. Qed.

Lemma check_bundle_erase now b b' : erase_crc b' = erase_crc b → Bundle_CheckValid now b = Ok [] →
  check_bundle now b' = Ok ().
Proof.
  intros He Hv. unfold check_bundle. by rewrite <- Bundle_CheckValid_erase, He, Bundle_CheckValid_erase, Hv.
Qed.

(** C3: marshalling a well-formed bundle that passes [CheckValid] succeeds, and
    parsing the bytes gives back the bundle with the CRC values filled in. *)
Theorem bundle_cbor_roundtrip ebm now b : Bundle_wf ebm b → Bundle_CheckValid now b = Ok [] →
  ∃ bs b', Bundle_MarshalCbor b = Ok (bs, b') ∧ erase_crc b' = erase_crc b ∧
    ParseBundle ebm now bs = (Ok (), b').
Proof.
  intros Hwf Hv. destruct (Bundle_Marshal_wf ebm b Hwf) as (body & b' & Hm & He & Hu).
  eexists _, b'. split; [exact Hm|]. split; [done|]. unfold ParseBundle.
  rewrite (Hu now _ [] (CanonicalBlock_break ebm [])). by erewrite check_bundle_erase.
Qed.

(** The parser takes the break code for the end of the bundle also in the
    middle of a block: where the library reports it for the first number of a
    block, the bytes of a valid bundle with the head of a further block put
    before the final break code are accepted as the same bundle. *)
Theorem truncated_block_accepted ebm now b :
  (∀ r, ReadUInt (BreakCode :: r) = (Err FlagBreakCode, r)) →
  Bundle_wf ebm b → Bundle_CheckValid now b = Ok [] →
  ∃ body b', Bundle_MarshalCbor b = Ok (body ++ [BreakCode], b') ∧
    ParseBundle ebm now (body ++ WriteArrayLength 5 ++ [BreakCode]) = (Ok (), b').
Proof.
  intros Hb Hwf Hv. destruct (Bundle_Marshal_wf ebm b Hwf) as (body & b' & Hm & He & Hu).
  exists body, b'. split; [exact Hm|]. unfold ParseBundle. rewrite (Hu now _ []).
  - by erewrite check_bundle_erase.
  - unfold CanonicalBlock_UnmarshalCbor. mstep by (apply array_rt; u64_lia). mif.
    erewrite bind_err; [reflexivity|]. unfold tee, canonical_fields. by erewrite bind_err by apply Hb.
Qed.
End Codec.

Lemma read_blocks_terminates_witness :
  (read_blocks GetExtensionBlockManager 9 (zero_bundle, [Byte.x85; Byte.x01; Byte.x01])).1 ≠ Err (errorf "out of fuel").
Proof. apply (read_blocks_terminates GetExtensionBlockManager 9 zero_bundle [Byte.x85; Byte.x01; Byte.x01]). simpl. lia. Defined.

Lemma sample_bundle_wf : Bundle_wf GetExtensionBlockManager sample_bundle.
Proof. repeat constructor; vm_compute; repeat split; auto; discriminate. Qed.

Lemma bundle_cbor_roundtrip_witness :
  ∃ bs b', Bundle_MarshalCbor sample_bundle = Ok (bs, b') ∧ erase_crc b' = erase_crc sample_bundle ∧
    ParseBundle GetExtensionBlockManager 0 bs = (Ok (), b').
Proof.
  apply (bundle_cbor_roundtrip GetExtensionBlockManager 0 sample_bundle sample_bundle_wf). vm_compute. reflexivity.
Defined.

Lemma truncated_block_accepted_witness :
  ∃ body b', Bundle_MarshalCbor sample_bundle = Ok (body ++ [BreakCode], b') ∧
    ParseBundle GetExtensionBlockManager 0 (body ++ WriteArrayLength 5 ++ [BreakCode]) = (Ok (), b').
Proof.
  apply (truncated_block_accepted GetExtensionBlockManager 0 sample_bundle); [|exact sample_bundle_wf|vm_compute; reflexivity].
  intros r. reflexivity.
Defined.
