(* ===== verification/BundleJson.v ===== *)
(** * The JSON representation of bundles

    The [MarshalJSON] methods of [pkg/bpv7]: control flags, timestamps, endpoints,
    primary and canonical blocks and bundles.  The theorem says what of a bundle can be
    read back from its JSON text, and what cannot. *)

From stdpp Require Import base tactics list strings gmap.
From Stdlib Require Import ZArith Lia Ascii Bool.
From S2P Require Import Prelude Cboring GoStrings GoFormat GoJson Flags Crc DtnTime Endpoint BundleId ExtensionBlocks.
From S2P Require Import Blocks Bundle BundleCodec Samples.
Local Open Scope Z_scope.

(** ** Flags, timestamps and endpoints *)

Definition BundleControlFlags_MarshalJSON (bcf : Z) : Json := json_strings (BundleControlFlags_Strings bcf).
Definition BlockControlFlags_MarshalJSON (bcf : Z) : Json := json_strings (BlockControlFlags_Strings bcf).

Definition CreationTimestamp_MarshalJSON (ct : CreationTimestamp) : Json :=
  JObj [("date", JStr (DtnTime_String (CreationTimestamp_DtnTime ct))); ("sequenceNo", JNum (SequenceNumber ct))].

Definition EndpointID_MarshalJSON (eid : EndpointID) : Json := JStr (EndpointID_String eid).

(** ** Blocks *)

Definition PrimaryBlock_MarshalJSON (pb : PrimaryBlock) : Json :=
  JObj [("bundleControlFlags", BundleControlFlags_MarshalJSON (pb_BundleControlFlags pb));
        ("destination", JStr (EndpointID_String (pb_Destination pb)));
        ("source", JStr (EndpointID_String (pb_SourceNode pb)));
        ("reportTo", JStr (EndpointID_String (pb_ReportTo pb)));
        ("creationTimestamp", CreationTimestamp_MarshalJSON (pb_CreationTimestamp pb));
        ("lifetime", JNum (pb_Lifetime pb))].

Definition BundleAgeBlock_MarshalJSON (ms : Z) : Json := JStr (fmt_d ms +:+ " ms").
Definition HopCountBlock_MarshalJSON (limit count : Z) : Json := JObj [("limit", JNum limit); ("count", JNum count)].
Definition PreviousNodeBlock_MarshalJSON (prev : EndpointID) : Json := EndpointID_MarshalJSON prev.
Definition PayloadBlock_MarshalJSON (is_nil : bool) (data : bytes) : Json := json_bytes is_nil data.

(** The block types that implement [json.Marshaler]. *)
Definition json_Marshaler (is_nil : bool) (v : ExtensionBlock) : option Json :=
  match v with
  | PayloadBlock data => Some (PayloadBlock_MarshalJSON is_nil data)
  | PreviousNodeBlock prev => Some (PreviousNodeBlock_MarshalJSON prev)
  | BundleAgeBlock ms => Some (BundleAgeBlock_MarshalJSON ms)
  | HopCountBlock limit count => Some (HopCountBlock_MarshalJSON limit count)
  | _ => None
  end.

Section Marshal.
Context `{Cboring} `{GoMapRange}.
(** Whether an empty byte slice of the block is [nil]. *)
Context (is_nil : CanonicalBlock → bool).

(** [WriteBlock] reports an error for a [nil] value. *)
Definition json_data (cb : CanonicalBlock) : res Json :=
  match cb_Value cb with
  | None => Err (errorf "ExtensionBlockByType does not implement any expected types")
  | Some v =>
      match json_Marshaler (is_nil cb) v with
      | Some dataField => Ok dataField
      | None => buff ← WriteBlock v; Ok (json_bytes (is_nil cb) buff)
      end
  end.

Definition CanonicalBlock_MarshalJSON (cb : CanonicalBlock) : res Json :=
  dataField ← json_data cb;
  match cb_Value cb with
  | None => Panic
  | Some v =>
      Ok (JObj [("blockNumber", JNum (cb_BlockNumber cb)); ("blockTypeCode", JNum (BlockTypeCode v));
                ("blockType", JStr (BlockTypeName v));
                ("blockControlFlags", BlockControlFlags_MarshalJSON (cb_BlockControlFlags cb)); ("data", dataField)])
  end.

(** [json.Marshal] wraps the error of a nested [MarshalJSON]. *)
Definition nested_json (r : res Json) : res Json :=
  match r with Err _ => Err (errorf "json: error calling MarshalJSON") | _ => r end.

Fixpoint json_blocks (l : list CanonicalBlock) : res (list Json) :=
  match l with
  | [] => Ok []
  | cb :: l => j ← nested_json (CanonicalBlock_MarshalJSON cb); js ← json_blocks l; Ok (j :: js)
  end.

Definition Bundle_json (b : Bundle) : res Json :=
  extensions ← json_blocks (b_ExtensionBlocks b);
  payload ← nested_json (CanonicalBlock_MarshalJSON (b_PayloadBlock b));
  Ok (JObj [("primaryBlock", PrimaryBlock_MarshalJSON (b_PrimaryBlock b)); ("canonicalBlocks", JArr extensions);
            ("payloadBlock", payload)]).

(** [Bundle.MarshalJSON] *)
Definition Bundle_MarshalJSON (b : Bundle) : res string := j ← Bundle_json b; Ok (json_text j).
End Marshal.

(** ** What the text shows of a bundle *)

Definition block_view (cb : CanonicalBlock) : Z * list string * option ExtensionBlock :=
  (cb_BlockNumber cb, BlockControlFlags_Strings (cb_BlockControlFlags cb), cb_Value cb).

Definition primary_view (pb : PrimaryBlock) :=
  (BundleControlFlags_Strings (pb_BundleControlFlags pb),
   (pb_Destination pb, pb_SourceNode pb, pb_ReportTo pb), pb_CreationTimestamp pb, pb_Lifetime pb).

Definition json_view (b : Bundle) :=
  (primary_view (b_PrimaryBlock b), block_view <$> b_ExtensionBlocks b, block_view (b_PayloadBlock b)).

(** The endpoints that occur in the text. *)
Definition value_ascii (v : ExtensionBlock) : bool :=
  match v with PreviousNodeBlock prev => ascii_string (EndpointID_String prev) | _ => true end.
Definition block_ascii (cb : CanonicalBlock) : bool :=
  match cb_Value cb with Some v => value_ascii v | None => true end.
Definition endpoints_ascii (b : Bundle) : bool :=
  ascii_string (EndpointID_String (pb_Destination (b_PrimaryBlock b))) &&
  ascii_string (EndpointID_String (pb_SourceNode (b_PrimaryBlock b))) &&
  ascii_string (EndpointID_String (pb_ReportTo (b_PrimaryBlock b))) &&
  forallb block_ascii (b_ExtensionBlocks b) && block_ascii (b_PayloadBlock b).

(** ** Everything written is plain *)

Lemma digits_ascii s : string_forall is_digit s = true → ascii_string s = true.
Proof.
  apply string_forall_impl. intros a. unfold is_digit, is_ascii, between. rewrite !andb_true_iff, !Z.leb_le. lia.
Qed.

Lemma ascii_app s t : ascii_string (s +:+ t) = ascii_string s && ascii_string t.
Proof. apply string_forall_app. Qed.

Lemma appendInt_ascii x w : ascii_string (appendInt x w) = true.
Proof.
  unfold appendInt. rewrite ascii_app. apply andb_true_iff. split; [by destruct (x <? 0)|].
  apply digits_ascii, zeros_digits, fmt_d_digits.
Qed.

Lemma DtnTime_String_ascii t : ascii_string (DtnTime_String t) = true.
Proof. unfold DtnTime_String, time_Format. by rewrite !ascii_app, !appendInt_ascii. Qed.

Lemma EncodeToString_plain l : ascii_string (EncodeToString l) = true.
Proof.
  eapply string_forall_impl, EncodeToString_ascii. intros a. unfold is_ascii, between.
  rewrite !andb_true_iff, !Z.leb_le. lia.
Qed.

Lemma json_bytes_plain n l : json_plain (json_bytes n l) = true.
Proof. unfold json_bytes. case_match; [done|apply EncodeToString_plain]. Qed.

Lemma json_bytes_inj n n' l l' : json_bytes n l = json_bytes n' l' → l = l'.
Proof.
  unfold json_bytes. case_match eqn:E; case_match eqn:E'; try done.
  - rewrite !andb_true_iff, !bool_decide_eq_true in *. naive_solver.
  - intros [= Hl]. by apply EncodeToString_inj.
Qed.

Lemma json_strings_inj l l' : json_strings l = json_strings l' → l = l'.
Proof. destruct l, l'; simpl; try done. intros [= -> E]. f_equal. revert E. apply list_fmap_eq_inj. by intros ?? [=]. Qed.

Lemma json_strings_plain l : Forall (λ s, ascii_string s = true) l → json_plain (json_strings l) = true.
Proof.
  intros Hl. destruct Hl as [|s l Hs Hl]; [done|]. simpl. rewrite Hs. simpl.
  induction Hl as [|t l Ht Hl IH]; [done|]. simpl. by rewrite Ht.
Qed.

Lemma flag_names_ascii (checks : list (Z * string)) bcf : Forall (λ c, ascii_string c.2 = true) checks →
  Forall (λ s, ascii_string s = true) (omap (λ '(field, text), if Has bcf field then Some text else None) checks).
Proof.
  induction 1 as [|[f t] l Ht Hl IH]; [constructor|]. cbn. destruct (Has bcf f); [by constructor|done].
Qed.

Lemma bundle_flags_plain bcf : json_plain (BundleControlFlags_MarshalJSON bcf) = true.
Proof. apply json_strings_plain, flag_names_ascii. repeat constructor. Qed.
Lemma block_flags_plain bcf : json_plain (BlockControlFlags_MarshalJSON bcf) = true.
Proof. apply json_strings_plain, flag_names_ascii. repeat constructor. Qed.

Lemma endpoint_string_inj e e' : EndpointID_wf e → EndpointID_wf e' → EndpointID_String e = EndpointID_String e' → e = e'.
Proof.
  destruct e as [et|], e' as [et'|]; try done. simpl. intros Hw Hw' E.
  pose proof (NewEndpointID_String _ Hw) as N. rewrite E, (NewEndpointID_String _ Hw') in N. congruence.
Qed.

(** Splits the equations between the fields of two objects. *)
Ltac fields E := injection E; clear E; intros; simplify_eq.

Lemma primary_json_inj pb pb' : PrimaryBlock_wf pb → PrimaryBlock_wf pb' →
  PrimaryBlock_MarshalJSON pb = PrimaryBlock_MarshalJSON pb' → primary_view pb = primary_view pb'.
Proof.
  intros (_ & _ & _ & Hd & _ & Hs & _ & Hr & _ & [Ht Hq] & _) (_ & _ & _ & Hd' & _ & Hs' & _ & Hr' & _ & [Ht' Hq'] & _) E.
  unfold PrimaryBlock_MarshalJSON, CreationTimestamp_MarshalJSON, CreationTimestamp_DtnTime, SequenceNumber in E.
  injection E as Ef Ed Es Er Et Eq El. unfold primary_view.
  apply json_strings_inj in Ef. apply endpoint_string_inj in Ed, Es, Er; [|done..].
  apply DtnTime_String_inj in Et; [|done..].
  destruct (pb_CreationTimestamp pb), (pb_CreationTimestamp pb'); simpl in *. congruence.
Qed.

Lemma primary_json_plain pb : PrimaryBlock_wf pb → ascii_string (EndpointID_String (pb_Destination pb)) = true →
  ascii_string (EndpointID_String (pb_SourceNode pb)) = true → ascii_string (EndpointID_String (pb_ReportTo pb)) = true →
  json_plain (PrimaryBlock_MarshalJSON pb) = true.
Proof.
  intros (_ & _ & _ & _ & _ & _ & _ & _ & _ & [_ Hq] & Hl & _) Hd Hs Hr. unfold PrimaryBlock_MarshalJSON, CreationTimestamp_MarshalJSON.
  cbn [json_plain forallb]. rewrite bundle_flags_plain, Hd, Hs, Hr, DtnTime_String_ascii. unfold SequenceNumber.
  rewrite (proj2 (Z.leb_le 0 (ct_seq _))), (proj2 (Z.leb_le 0 (pb_Lifetime _))) by u64_lia. done.
Qed.

Lemma age_text_inj m n : 0 ≤ m → 0 ≤ n → fmt_d m +:+ " ms" = fmt_d n +:+ " ms" → m = n.
Proof.
  intros Hm Hn [E _]%append_inj_tail; [|done]. apply (f_equal (dec_value 0)) in E. rewrite !dec_value_fmt_d in E by done. congruence.
Qed.

Section Inj.
Context `{Cboring} `{!CboringLaws _} `{GoMapRange}.

Lemma WriteBlock_inj ebm v v' bs : ExtensionBlock_wf v → block_fits v → registered ebm v →
  ExtensionBlock_wf v' → block_fits v' → registered ebm v' → BlockTypeCode v = BlockTypeCode v' →
  WriteBlock v = Ok bs → WriteBlock v' = Ok bs → v = v'.
Proof.
  intros Hw Hf Hr Hw' Hf' Hr' Hc E E'. pose proof (ReadBlock_rt ebm v bs [] Hw Hf Hr E) as R.
  rewrite Hc, (ReadBlock_rt ebm v' bs [] Hw' Hf' Hr' E') in R. congruence.
Qed.

Context (ebm : ExtensionBlockManager).

Lemma Marshaler_inj n n' v v' j : ExtensionBlock_wf v → ExtensionBlock_wf v' → kind_of v = kind_of v' →
  json_Marshaler n v = Some j → json_Marshaler n' v' = Some j → v = v'.
Proof.
  intros Hw Hw' Hk E E'. destruct v, v'; try discriminate Hk; try discriminate E; simpl in *; rewrite <- E' in E.
  - injection E as E. f_equal. by eapply json_bytes_inj.
  - injection E as E. f_equal. apply endpoint_string_inj; [apply Hw|apply Hw'|done].
  - injection E as E. f_equal. apply age_text_inj in E; u64_lia.
  - injection E as -> ->. done.
Qed.

Lemma Marshaler_kind n n' v v' : kind_of v = kind_of v' →
  (is_Some (json_Marshaler n v) ↔ is_Some (json_Marshaler n' v')).
Proof. destruct v, v'; intros Hk; try discriminate Hk; simpl; unfold is_Some; naive_solver. Qed.

Lemma json_data_inj n n' cb cb' j v v' : CanonicalBlock_wf ebm cb → CanonicalBlock_wf ebm cb' →
  cb_Value cb = Some v → cb_Value cb' = Some v' → BlockTypeCode v = BlockTypeCode v' →
  json_data n cb = Ok j → json_data n' cb' = Ok j → v = v'.
Proof.
  intros (_ & _ & _ & _ & Hv) (_ & _ & _ & _ & Hv') Ev Ev' Hc. rewrite Ev in Hv. rewrite Ev' in Hv'. unfold json_data. rewrite Ev, Ev'.
  destruct Hv as (_ & Hw & Hf & Hr), Hv' as (_ & Hw' & Hf' & Hr').
  assert (kind_of v = kind_of v') as Hk by (unfold registered in *; congruence).
  pose proof (Marshaler_kind (n cb) (n' cb') v v' Hk) as Hm. pose proof (Marshaler_inj (n cb) (n' cb') v v') as Hi.
  destruct (json_Marshaler (n cb) v) as [d|], (json_Marshaler (n' cb') v') as [d'|].
  - intros [= ->] [= ->]. by eapply Hi.
  - by destruct (proj1 Hm ltac:(eauto)).
  - by destruct (proj2 Hm ltac:(eauto)).
  - destruct (WriteBlock v) as [bs| |] eqn:Ew; [|done..]. destruct (WriteBlock v') as [bs'| |] eqn:Ew'; [|done..].
    simpl. intros <-%Ok_inj E%Ok_inj. apply json_bytes_inj in E as ->. by eapply WriteBlock_inj.
Qed.

Lemma json_data_plain n cb j : CanonicalBlock_wf ebm cb → block_ascii cb = true → json_data n cb = Ok j → json_plain j = true.
Proof.
  intros (_ & _ & _ & _ & Hv). unfold json_data, block_ascii. destruct (cb_Value cb) as [v|]; [|done].
  destruct Hv as (_ & Hw & _). destruct (json_Marshaler (n cb) v) as [d|] eqn:Em.
  - intros Ha [= <-]. destruct v; simplify_eq/=; try done.
    + apply json_bytes_plain.
    + rewrite ascii_app. by rewrite digits_ascii by apply fmt_d_digits.
    + destruct Hw. rewrite !(proj2 (Z.leb_le 0 _)) by u64_lia. done.
  - intros _. destruct (WriteBlock v); [|done..]. simpl. intros <-%Ok_inj. apply json_bytes_plain.
Qed.

Lemma canonical_json_spec n cb j : CanonicalBlock_MarshalJSON n cb = Ok j ↔ ∃ v d,
  cb_Value cb = Some v ∧ json_data n cb = Ok d ∧
  j = JObj [("blockNumber", JNum (cb_BlockNumber cb)); ("blockTypeCode", JNum (BlockTypeCode v));
            ("blockType", JStr (BlockTypeName v));
            ("blockControlFlags", BlockControlFlags_MarshalJSON (cb_BlockControlFlags cb)); ("data", d)].
Proof.
  unfold CanonicalBlock_MarshalJSON. split.
  - destruct (json_data n cb) as [d| |]; [|done..]. simpl. destruct (cb_Value cb) as [v|]; [|done]. intros <-%Ok_inj. eauto.
  - intros (v & d & Ev & -> & ->). simpl. by rewrite Ev.
Qed.

Lemma canonical_json_inj n n' cb cb' j : CanonicalBlock_wf ebm cb → CanonicalBlock_wf ebm cb' →
  CanonicalBlock_MarshalJSON n cb = Ok j → CanonicalBlock_MarshalJSON n' cb' = Ok j → block_view cb = block_view cb'.
Proof.
  intros Hw Hw' (v & d & Ev & Ed & ->)%canonical_json_spec (v' & d' & Ev' & Ed' & E)%canonical_json_spec.
  injection E as En Et _ Ef ->. unfold block_view. apply json_strings_inj in Ef.
  rewrite Ev, Ev', En, Ef. do 2 f_equal. by apply (json_data_inj n n' cb cb' d').
Qed.

Lemma canonical_json_plain n cb j : CanonicalBlock_wf ebm cb → block_ascii cb = true →
  CanonicalBlock_MarshalJSON n cb = Ok j → json_plain j = true.
Proof.
  intros Hw Ha (v & d & Ev & Ed & ->)%canonical_json_spec. pose proof (json_data_plain n cb d Hw Ha Ed) as Hd.
  destruct Hw as (Hn & _ & _ & _ & Hv). rewrite Ev in Hv. destruct Hv as [Hc _].
  cbn [json_plain forallb]. rewrite block_flags_plain, Hd, !(proj2 (Z.leb_le 0 _)) by u64_lia.
  rewrite !andb_true_r. by destruct v.
Qed.

Lemma nested_Ok r j : nested_json r = Ok j → r = Ok j.
Proof. by destruct r. Qed.

Lemma json_blocks_Forall2 n l js : json_blocks n l = Ok js → Forall2 (λ cb j, CanonicalBlock_MarshalJSON n cb = Ok j) l js.
Proof.
  revert js. induction l as [|cb l IH]; intros js; simpl; [intros <-%Ok_inj; constructor|].
  destruct (nested_json _) as [j| |] eqn:Ej; [|done..]. simpl. destruct (json_blocks n l) as [js'| |]; [|done..]. simpl.
  intros <-%Ok_inj. constructor; [by apply nested_Ok|by apply IH].
Qed.
End Inj.

Section WholeBundle.
Context `{Cboring} `{!CboringLaws _} `{Crc16} `{GoMapRange}.
Context (ebm : ExtensionBlockManager).

Lemma canonical_json_total n cb : CanonicalBlock_wf ebm cb → ∃ j, CanonicalBlock_MarshalJSON n cb = Ok j.
Proof.
  intros (_ & _ & _ & _ & Hv). unfold CanonicalBlock_MarshalJSON, json_data. destruct (cb_Value cb) as [v|]; [|done].
  destruct Hv as (_ & Hw & _). destruct (json_Marshaler (n cb) v); [by eexists|].
  destruct (WriteBlock_wf v Hw) as [bs ->]. by eexists.
Qed.

Lemma json_blocks_total n l : Forall (CanonicalBlock_wf ebm) l → ∃ js, json_blocks n l = Ok js.
Proof.
  induction 1 as [|cb l Hcb Hl [js IH]]; simpl; [by eexists|].
  destruct (canonical_json_total n cb Hcb) as [j ->]. simpl. rewrite IH. by eexists.
Qed.

Lemma blocks_json_inj n n' l l' js : Forall (CanonicalBlock_wf ebm) l → Forall (CanonicalBlock_wf ebm) l' →
  json_blocks n l = Ok js → json_blocks n' l' = Ok js → block_view <$> l = block_view <$> l'.
Proof.
  intros Hl Hl' F%json_blocks_Forall2 F'%json_blocks_Forall2. revert l' Hl' F'.
  induction F as [|cb j l js Hj F IH]; intros l' Hl' F'; inversion F'; subst; [done|].
  apply Forall_cons in Hl as [Hcb Hl]. apply Forall_cons in Hl' as [Hcb' Hl']. csimpl. f_equal.
  - by eapply canonical_json_inj.
  - by apply IH.
Qed.

Lemma blocks_json_plain n l js : Forall (CanonicalBlock_wf ebm) l → forallb block_ascii l = true →
  json_blocks n l = Ok js → forallb json_plain js = true.
Proof.
  intros Hl Ha F%json_blocks_Forall2. induction F as [|cb j l js Hj F IH]; [done|]. simpl in *.
  apply Forall_cons in Hl as [Hcb Hl]. apply andb_true_iff in Ha as [Ha Hal]. rewrite IH by done.
  by rewrite (canonical_json_plain ebm n cb j).
Qed.

Lemma Bundle_wf_blocks b : Bundle_wf ebm b → Forall (CanonicalBlock_wf ebm) (b_ExtensionBlocks b).
Proof. intros (_ & Hb & _). eapply Forall_impl; [exact Hb|]. by intros ? []. Qed.

Lemma Bundle_json_plain n b j : Bundle_wf ebm b → endpoints_ascii b = true → Bundle_json n b = Ok j → json_plain j = true.
Proof.
  intros Hw. pose proof (Bundle_wf_blocks b Hw) as Hl. destruct Hw as (Hp & _ & Hpl & _). unfold endpoints_ascii, Bundle_json.
  rewrite !andb_true_iff. intros ((((Hd & Hs) & Hr) & Hb) & Hpb).
  destruct (json_blocks n _) as [js| |] eqn:Ejs; [|done..]. simpl. destruct (nested_json _) as [p| |] eqn:Ep; [|done..].
  intros <-%Ok_inj. apply nested_Ok in Ep. cbn [json_plain forallb].
  rewrite primary_json_plain, (blocks_json_plain n _ js Hl Hb Ejs), (canonical_json_plain ebm n _ p Hpl Hpb Ep) by done. done.
Qed.

Lemma object3_inj k1 k2 k3 a1 a2 a3 b1 b2 b3 :
  JObj [(k1, a1); (k2, a2); (k3, a3)] = JObj [(k1, b1); (k2, b2); (k3, b3)] → a1 = b1 ∧ a2 = b2 ∧ a3 = b3.
Proof. by intros [= -> -> ->]. Qed.

Lemma Bundle_json_inj n n' b b' j : Bundle_wf ebm b → Bundle_wf ebm b' →
  Bundle_json n b = Ok j → Bundle_json n' b' = Ok j → json_view b = json_view b'.
Proof.
  intros Hw Hw'. pose proof (Bundle_wf_blocks b Hw) as Hl. pose proof (Bundle_wf_blocks b' Hw') as Hl'.
  destruct Hw as (Hp & _ & Hpl & _), Hw' as (Hp' & _ & Hpl' & _). unfold Bundle_json.
  destruct (json_blocks n _) as [js| |] eqn:Ejs; [|done..]. simpl. destruct (nested_json _) as [p| |] eqn:Ep; [|done..].
  destruct (json_blocks n' _) as [js'| |] eqn:Ejs'; [|done..]. simpl. destruct (nested_json (_ n' _)) as [p'| |] eqn:Ep'; [|done..].
  simpl. intros <-%Ok_inj E%Ok_inj. apply nested_Ok in Ep, Ep'. apply object3_inj in E as (E1 & [= ->] & ->). unfold json_view. f_equal; [f_equal|].
  - symmetry. by apply primary_json_inj.
  - by eapply blocks_json_inj.
  - by eapply canonical_json_inj.
Qed.

Lemma Bundle_json_total n b : Bundle_wf ebm b → ∃ j, Bundle_json n b = Ok j.
Proof.
  intros Hw. pose proof (Bundle_wf_blocks b Hw) as Hl. destruct Hw as (_ & _ & Hpl & _). unfold Bundle_json.
  destruct (json_blocks_total n _ Hl) as [js ->]. simpl.
  destruct (canonical_json_total n _ Hpl) as [p ->]. by eexists.
Qed.

(** C32: [MarshalJSON] of a well-formed bundle succeeds, and its text tells the bundle apart
    from every well-formed bundle that differs in an endpoint, the creation timestamp, the
    lifetime, a named control flag, or the number or value of a block: two bundles with
    ASCII endpoints and the same text agree in all of these. *)
Theorem bundle_json_identifies n b : Bundle_wf ebm b → endpoints_ascii b = true →
  ∃ text, Bundle_MarshalJSON n b = Ok text ∧
    ∀ n' b', Bundle_wf ebm b' → endpoints_ascii b' = true → Bundle_MarshalJSON n' b' = Ok text → json_view b' = json_view b.
Proof.
  intros Hw Ha. destruct (Bundle_json_total n b Hw) as [j Ej]. unfold Bundle_MarshalJSON. rewrite Ej. simpl.
  eexists; split; [done|]. intros n' b' Hw' Ha'. destruct (Bundle_json n' b') as [j'| |] eqn:Ej'; [|done..]. simpl.
  intros E%Ok_inj. apply json_text_inj in E;
    [|exact (Bundle_json_plain n' b' j' Hw' Ha' Ej')|exact (Bundle_json_plain n b j Hw Ha Ej)]. subst j'. by eapply Bundle_json_inj.
Qed.
End WholeBundle.

Lemma bundle_json_identifies_witness : ∃ text, Bundle_MarshalJSON (λ _, false) sample_bundle = Ok text ∧
  ∀ n' b', Bundle_wf GetExtensionBlockManager b' → endpoints_ascii b' = true → Bundle_MarshalJSON n' b' = Ok text →
    json_view b' = json_view sample_bundle.
Proof.
  exact (bundle_json_identifies GetExtensionBlockManager (λ _, false) sample_bundle sample_bundle_wf eq_refl).
Defined.

(** The position of a fragment is not part of the text. *)
Theorem json_omits_fragment `{Cboring} `{GoMapRange} n b offset total :
  Bundle_MarshalJSON n (set_b_PrimaryBlock (set_pb_TotalDataLength total (set_pb_FragmentOffset offset (b_PrimaryBlock b))) b) =
  Bundle_MarshalJSON n b.
Proof. reflexivity. Qed.

(** Without a flag the array of flags is [null]. *)
Example no_flags_null : json_text (BundleControlFlags_MarshalJSON 0) = "null".
Proof. reflexivity. Qed.
