(* ===== verification/Streams.v ===== *)
(** * Reading bundles from a stream

    A reader never gives input back, also when it fails: for the readers of a whole
    bundle, which take their input from a connection. *)

From stdpp Require Import base tactics list strings gmap.
From Stdlib Require Import ZArith Lia Bool.
From S2P Require Import Prelude Cboring Flags Crc DtnTime Endpoint BundleId ExtensionBlocks Blocks.
From S2P Require Import Bundle Samples BundleCodec.
Local Open Scope Z_scope.

(** ** Readers with a receiver *)

Definition smono {σ A} (m : M (σ * bytes) A) : Prop := ∀ s inp, (length (m (s, inp)).2.2 ≤ length inp)%nat.

Section Receiver.
Context {σ : Type}.

Lemma smono_bind {A B} (m : M (σ * bytes) A) (k : A → M (σ * bytes) B) : smono m → (∀ a, smono (k a)) → smono (m ≫= k).
Proof.
  intros Hm Hk s inp. unfold mbind, M_bind. specialize (Hm s inp).
  destruct (m (s, inp)) as [[a| |] [s' inp']]; simpl in *; [|lia..]. specialize (Hk a s' inp'). lia.
Qed.

Lemma smono_ret {A} (a : A) : smono (mret a : M (σ * bytes) A).
Proof. intros s inp. simpl. lia. Qed.

Lemma smono_fail {A} e : smono (fail e : M (σ * bytes) A).
Proof. intros s inp. simpl. lia. Qed.

Lemma smono_res {A} (r : res A) : smono (lift_res r : M (σ * bytes) A).
Proof. intros s inp. simpl. lia. Qed.

Lemma smono_self : smono (self : M (σ * bytes) σ).
Proof. intros s inp. simpl. lia. Qed.

Lemma smono_on_self (f : σ → σ) : smono (on_self f).
Proof. intros s inp. simpl. lia. Qed.

Lemma smono_on_input {A} (m : reader A) : mono m → smono (on_input m : M (σ * bytes) A).
Proof. intros Hm s inp. unfold on_input. specialize (Hm inp). by destruct (m inp). Qed.

Lemma smono_on_field {F A} (get : σ → F) set (m : M (F * bytes) A) : smono m → smono (on_field get set m).
Proof. intros Hm s inp. unfold on_field. specialize (Hm (get s) inp). by destruct (m (get s, inp)) as [? []]. Qed.

Lemma smono_wrap {A} msg (m : M (σ * bytes) A) : smono m → smono (wrap_err msg m).
Proof. intros Hm s inp. unfold wrap_err. specialize (Hm s inp). by destruct (m (s, inp)) as [[] []]. Qed.

Lemma smono_tee {A} (m : M (σ * bytes) A) : smono m → smono (tee_self m).
Proof. intros Hm s inp. unfold tee_self. specialize (Hm s inp). by destruct (m (s, inp)) as [[] []]. Qed.
End Receiver.

(** Take a reader apart. *)
Ltac solve_mono :=
  repeat match goal with
  | |- ∀ _, _ => intro
  | |- smono (mbind _ _) => apply smono_bind
  | |- smono (mret _) => apply smono_ret
  | |- smono (fail _) => apply smono_fail
  | |- smono (lift_res _) => apply smono_res
  | |- smono self => apply smono_self
  | |- smono (on_self _) => apply smono_on_self
  | |- smono (on_input _) => apply smono_on_input
  | |- smono (on_field _ _ _) => apply smono_on_field
  | |- smono (wrap_err _ _) => apply smono_wrap
  | |- smono (tee_self _) => apply smono_tee
  | |- mono (mbind _ _) => apply mono_bind
  | |- mono (mret _) => apply mono_ret
  | |- mono (fail _) => apply mono_fail
  | |- mono (lift_res _) => apply mono_lift
  | |- mono (wrap_err _ _) => apply mono_wrap
  | |- mono (tee _) => apply mono_tee
  | |- mono (@ReadUInt _) => exact (@uint_mono _ _)
  | |- mono (@ReadByteString _) => exact (@bstr_mono _ _)
  | |- mono (@ReadByteStringLen _) => exact (@bslen_mono _ _)
  | |- mono (@ReadArrayLength _) => exact (@array_mono _ _)
  | |- mono (@ReadMajors _) => exact (@majors_mono _ _)
  | |- mono (@ReadRawBytes _ _) => exact (@raw_mono _ _ _)
  | |- mono (@ReadExpect _ _) => exact (@expect_mono _ _ _)
  | |- smono (let '(_, _) := ?x in _) => destruct x
  | |- mono (let '(_, _) := ?x in _) => destruct x
  | |- smono (if ?c then _ else _) => destruct c
  | |- mono (if ?c then _ else _) => destruct c
  | |- mono (match (if ?c then _ else _) with _ => _ end) => destruct c
  | |- mono (match ?x with _ => _ end) => destruct x
  | |- _ => progress cbv beta zeta
  end.

Section Bundles.
Context `{Cboring} `{Crc16} `{GoMapRange} `{Ed25519} `{!CboringLaws _}.

Lemma EndpointID_mono : mono EndpointID_UnmarshalCbor.
Proof.
  unfold EndpointID_UnmarshalCbor, endpoint_typeMap, DtnEndpoint_UnmarshalCbor, IpnEndpoint_UnmarshalCbor. solve_mono.
Qed.

Lemma CreationTimestamp_smono : smono CreationTimestamp_UnmarshalCbor.
Proof. unfold CreationTimestamp_UnmarshalCbor. solve_mono. Qed.

Lemma PrimaryBlock_smono : smono PrimaryBlock_UnmarshalCbor.
Proof.
  unfold PrimaryBlock_UnmarshalCbor, primary_fields. pose proof EndpointID_mono. pose proof CreationTimestamp_smono.
  solve_mono; done.
Qed.

Lemma CanonicalBlock_mono ebm : mono (CanonicalBlock_UnmarshalCbor ebm).
Proof. unfold CanonicalBlock_UnmarshalCbor. pose proof (canonical_fields_mono ebm). solve_mono; done. Qed.

Lemma read_blocks_smono ebm fuel : smono (read_blocks ebm fuel).
Proof.
  induction fuel as [|fuel IH]; [apply smono_fail|]. intros b inp. simpl. pose proof (CanonicalBlock_mono ebm inp) as Hc.
  destruct (CanonicalBlock_UnmarshalCbor ebm inp) as [[cb|[]|] r]; simpl in *; try done.
  destruct (TypeCode cb) as [tc| |]; try done. etrans; [apply IH|done].
Qed.

(** Reading a bundle does not give input back. *)
Lemma Bundle_smono ebm now : smono (Bundle_UnmarshalCbor ebm now).
Proof.
  unfold Bundle_UnmarshalCbor. pose proof PrimaryBlock_smono. solve_mono; try done.
  intros b inp. apply read_blocks_smono.
Qed.
End Bundles.
