(* ===== verification/Received.v ===== *)
(** * Bundles that were received

    What the decoders of [pkg/bpv7] guarantee of the values they return, for any input:
    every number has its width, every endpoint and block is well formed.  A bundle that
    was parsed can therefore be written again. *)

From stdpp Require Import base tactics list strings gmap.
From Stdlib Require Import ZArith Lia Bool.
From S2P Require Import Prelude Cboring Flags Crc DtnTime Endpoint BundleId ExtensionBlocks Blocks.
From S2P Require Import Bundle Samples BundleValid BundleCodec.
Local Open Scope Z_scope.

(** ** Calls that succeeded *)

Section Inversion.
Context {σ : Type}.

Lemma bind_inv {A B} (m : M σ A) (k : A → M σ B) s b s' : (m ≫= k) s = (Ok b, s') →
  ∃ a s1, m s = (Ok a, s1) ∧ k a s1 = (Ok b, s').
Proof. unfold mbind, M_bind. destruct (m s) as [[a| |] s1]; [|done..]. eauto. Qed.

Lemma wrap_err_inv {A} msg (m : M σ A) s a s' : wrap_err msg m s = (Ok a, s') → m s = (Ok a, s').
Proof. unfold wrap_err. by destruct (m s) as [[| |] s1]. Qed.

Lemma lift_res_inv {A} (r : res A) (s : σ) a s' : lift_res r s = (Ok a, s') → r = Ok a ∧ s' = s.
Proof. by intros [= -> ->]. Qed.

Lemma on_input_inv {A} (m : reader A) (s : σ) inp a s' : on_input m (s, inp) = (Ok a, s') →
  ∃ r, s' = (s, r) ∧ m inp = (Ok a, r).
Proof. unfold on_input. destruct (m inp) as [o r]. intros [= -> <-]. eauto. Qed.

Lemma on_self_inv f (s : σ) inp a s' : on_self f (s, inp) = (Ok a, s') → s' = (f s, inp).
Proof. by intros [= _ <-]. Qed.

Lemma on_field_inv {F A} (get : σ → F) set (m : M (F * bytes) A) s inp a s' : on_field get set m (s, inp) = (Ok a, s') →
  ∃ f r, s' = (set f s, r) ∧ m (get s, inp) = (Ok a, (f, r)).
Proof. unfold on_field. destruct (m _) as [o [f r]]. intros [= -> <-]. eauto. Qed.

Lemma tee_self_inv {A} (m : M (σ * bytes) A) s inp a w s' : tee_self m (s, inp) = (Ok (a, w), s') → m (s, inp) = (Ok a, s').
Proof. unfold tee_self. destruct (m _) as [[| |] []]; [|done..]. by intros [= -> _ <-]. Qed.
End Inversion.

Lemma tee_inv {A} (m : reader A) inp a w r : tee m inp = (Ok (a, w), r) → m inp = (Ok a, r).
Proof. unfold tee. destruct (m inp) as [[| |] i]; [|done..]. by intros [= -> _ ->]. Qed.

(** Take a successful run of a program apart into its calls. *)
Ltac run_step :=
  match goal with
  | H : (_ ≫= _) _ = (Ok _, _) |- _ => apply bind_inv in H as (? & ? & ? & ?)
  | H : wrap_err _ _ _ = (Ok _, _) |- _ => apply wrap_err_inv in H
  | H : lift_res _ _ = (Ok _, _) |- _ => apply lift_res_inv in H as [? ?]; simplify_eq
  | H : on_input _ (_, _) = (Ok _, _) |- _ => apply on_input_inv in H as (? & ? & ?); simplify_eq
  | H : on_field _ _ _ (_, _) = (Ok _, _) |- _ => apply on_field_inv in H as (? & ? & ? & ?); simplify_eq
  | H : tee_self _ (_, _) = (Ok (_, _), _) |- _ => apply tee_self_inv in H
  | H : tee _ _ = (Ok (_, _), _) |- _ => apply tee_inv in H
  | H : on_self _ (_, _) = (Ok _, _) |- _ => apply on_self_inv in H; simplify_eq
  | H : self (_, _) = (Ok _, _) |- _ => injection H; clear H; intros; subst
  | H : mret _ _ = (Ok _, _) |- _ => injection H; clear H; intros; subst
  | H : fail _ _ = (Ok _, _) |- _ => discriminate H
  | H : (match ?x with _ => _ end) = (Ok _, _) |- _ => is_var x; destruct x
  | H : (match ?x with _ => _ end) _ = (Ok _, _) |- _ => first [is_var x; destruct x | destruct x eqn:?]
  | H : tee_self _ (_, _) = (Ok ?p, _) |- _ => is_var p; destruct p
  | s : (_ * bytes)%type |- _ => destruct s
  | H : tee _ _ = (Ok ?p, _) |- _ => is_var p; destruct p
  end.
Ltac run := repeat (run_step; cbv beta iota in * ).

Section Received.
Context `{Cboring} `{Crc16} `{GoMapRange} `{Ed25519} `{!CboringLaws _}.

#[local] Arguments DtnEndpoint_ssp : simpl never.
#[local] Arguments len : simpl never.

(** Lengths in Go are [int]s. *)
Context (N : nat).
Hypothesis N_int : Z.of_nat N < 9223372036854775808.

(** Replace reads of the library by what they guarantee. *)
Ltac reads := repeat
  match goal with
  | E : ReadUInt ?i = (Ok _, _) |- _ =>
      pose proof (uint_u64 _ _ _ E); let M := fresh "M" in pose proof (uint_mono i) as M; rewrite E in M; cbn [snd] in M; clear E
  | E : ReadArrayLength ?i = (Ok _, _) |- _ =>
      let M := fresh "M" in pose proof (array_mono i) as M; rewrite E in M; cbn [snd] in M; clear E
  | E : ReadByteString ?i = (Ok _, _) |- _ => pose proof (bstr_u64 _ _ _ E); apply bstr_within in E
  | E : ReadMajors ?i = (Ok _, _) |- _ =>
      pose proof (majors_u64 _ _ _ _ E); let M := fresh "M" in pose proof (majors_mono i) as M; rewrite E in M; cbn [snd] in M; clear E
  | E : ReadRawBytes ?n ?i = (Ok _, _), Hn : is_u64 ?n |- _ => pose proof (raw_length _ _ _ _ Hn E); apply raw_within in E
  end.

(** ** Endpoints *)

Definition endpoint_read (e : EndpointID) : Prop :=
  match e with
  | None => False
  | Some (EDtn d) => DtnEndpoint_wf d ∧ (IsDtnNone d = false → len (str_bytes (DtnEndpoint_ssp d)) ≤ Z.of_nat N)
  | Some (EIpn i) => is_u64 (Node i) ∧ is_u64 (Service i)
  end.

Lemma EndpointID_read inp e r : (length inp ≤ N)%nat → EndpointID_UnmarshalCbor inp = (Ok e, r) →
  endpoint_read e ∧ (length r ≤ length inp)%nat.
Proof.
  intros Hin E. unfold EndpointID_UnmarshalCbor in E. run. unfold endpoint_typeMap in *.
  repeat case_match; simplify_eq; unfold DtnEndpoint_UnmarshalCbor, IpnEndpoint_UnmarshalCbor in *; run; reads.
  - split; [by repeat split|lia].
  - match goal with E : parseDtnSsp _ = _ |- _ => apply parseDtnSsp_Ok in E as (Hs & ? & ?) end.
    split; [|lia]. split; [done|]. intros _. unfold DtnEndpoint_ssp. cbn [NodeName Demux]. rewrite <- Hs, str_bytes_str. unfold len in *. lia.
  - split; [done|lia].
Qed.

(** What was read and passes the check is well formed. *)
Lemma endpoint_read_wf e : endpoint_read e → EndpointID_CheckValid e = [] → EndpointID_wf e ∧ EndpointID_fits e.
Proof.
  destruct e as [[d|i]|]; simpl; [|unfold IpnEndpoint_CheckValid, IpnEndpoint_wf, is_u64|done].
  - intros [Hwf Hl] _. split; [done|]. destruct (IsDtnNone d) eqn:En.
    + unfold DtnEndpoint_wf in Hwf. rewrite En in Hwf. unfold DtnEndpoint_ssp. destruct Hwf as [-> ->]. by vm_compute.
    + specialize (Hl eq_refl). pose proof (len_nonneg (str_bytes (DtnEndpoint_ssp d))). u64_lia.
  - destruct (Z.ltb_spec (Node i) 1), (Z.ltb_spec (Service i) 1); simpl; try done. lia.
Qed.

(** An endpoint that was read takes little more than its text. *)
Lemma endpoint_read_len e bs : endpoint_read e → EndpointID_CheckValid e = [] → EndpointID_MarshalCbor e = Ok bs → is_u64 (len bs).
Proof.
  intros He Hv. destruct (endpoint_read_wf e He Hv) as [Hwf Hf]. unfold EndpointID_MarshalCbor. rewrite Hv. simpl.
  destruct e as [[d|i]|]; [..|done]; intros <-%Ok_inj; rewrite !len_app, array_len, uint_len by (by vm_compute);
    unfold EndpointType_MarshalCbor, DtnEndpoint_MarshalCbor, IpnEndpoint_MarshalCbor; simpl in He, Hf, Hwf.
  - destruct He as [_ Hl]. destruct (IsDtnNone d).
    + rewrite uint_len by u64_lia. by vm_compute.
    + rewrite text_len by done. specialize (Hl eq_refl). pose proof (head_len_pos (len (str_bytes (DtnEndpoint_ssp d)))).
      change (head_len 2) with 1. change (head_len (SchemeNo (EDtn d))) with 1. pose proof (len_nonneg (str_bytes (DtnEndpoint_ssp d))). u64_lia.
  - destruct He as [Hn Hs]. rewrite !len_app, array_len, !uint_len by first [done|u64_lia].
    pose proof (head_len_pos (Node i)). pose proof (head_len_pos (Service i)). change (head_len 2) with 1.
    change (head_len (SchemeNo (EIpn i))) with 1. u64_lia.
Qed.

(** ** Extension blocks *)

(** The type code of a type that may be registered. *)
Definition code_of (k : BlockKind) : option Z :=
  match k with
  | KPayload => Some BlockTypePayloadBlock
  | KPreviousNode => Some BlockTypePreviousNodeBlock
  | KBundleAge => Some BlockTypeBundleAgeBlock
  | KHopCount => Some BlockTypeHopCountBlock
  | KBinarySpray => Some BlockTypeBinarySprayBlock
  | KSignature => Some BlockTypeSignatureBlock
  | KREC => Some BlockTypeRECBundleType
  | KDTLSR | KProphet | KGeneric => None
  end.

(** Every entry of the registry is under the code of its type, and none is of a type with
    a map of peers, whose endpoints no check looks at. *)
Definition registry_ok (ebm : ExtensionBlockManager) : Prop := map_Forall (λ code k, code_of k = Some code) ebm.

Definition block_read (v : ExtensionBlock) : Prop :=
  match v with
  | PayloadBlock d => is_u64 (len d)
  | GenericExtensionBlock d code => is_u64 (len d) ∧ is_u64 code
  | PreviousNodeBlock e => endpoint_read e
  | BundleAgeBlock n | BinarySprayBlock n | RECBundleTypeBlock n => is_u64 n
  | HopCountBlock limit count => is_u8 limit ∧ is_u8 count
  | SignatureBlock _ _ => True
  | DTLSRBlock _ | ProphetBlock _ => False
  end.

Lemma read_hop_field_read inp n r : read_hop_field inp = (Ok n, r) → is_u8 n ∧ (length r ≤ length inp)%nat.
Proof.
  unfold read_hop_field. intros E. run. reads. split; [|lia].
  match goal with E : (255 <? _) = false |- _ => apply Z.ltb_ge in E end. u64_lia.
Qed.

(** The decoder of a type returns a block of this type. *)
Lemma unmarshal_block_read ebm code data v r : registry_ok ebm → is_u64 code → is_u64 (len data) → (length data ≤ N)%nat →
  unmarshal_block (createBlock ebm code) code data = (Ok v, r) →
  block_read v ∧ BlockTypeCode v = code ∧ registered ebm v.
Proof.
  intros Hreg Hc Hd Hn E. unfold registered.
  cut (block_read v ∧ BlockTypeCode v = code ∧ kind_of v = createBlock ebm code).
  { by intros (? & -> & ->). }
  unfold createBlock in *. destruct (ebm !! code) as [k|] eqn:Ek; simpl in *; [|by simplify_eq/=].
  specialize (Hreg _ _ Ek). simpl in Hreg.
  destruct k; try done; injection Hreg as <-; simpl in E;
    unfold PreviousNodeBlock_UnmarshalCbor, BundleAgeBlock_UnmarshalCbor, HopCountBlock_UnmarshalCbor,
      BinarySprayBlock_UnmarshalCbor, SignatureBlock_UnmarshalCbor, RECBundleTypeBlock_UnmarshalCbor in E; run; reads;
    repeat match goal with E : read_hop_field _ = _ |- _ => apply read_hop_field_read in E as [? ?] end; simplify_eq/=; try done.
  split; [|done]. by eapply EndpointID_read.
Qed.

Lemma block_read_wf v : block_read v → ExtensionBlock_CheckValid v = [] → ExtensionBlock_wf v ∧ block_fits v.
Proof.
  unfold block_fits. destruct v; simpl; intros Hr Hv; try done; try (split; [done|]; rewrite ?len_app, ?array_len, ?uint_len by first [done|u64_lia];
    repeat match goal with |- context[head_len ?x] => pose proof (head_len_pos x); generalize dependent (head_len x); intros end; u64_lia).
  - destruct (endpoint_read_wf _ Hr Hv) as [Hwf Hf]. split; [done|]. unfold PreviousNodeBlock_MarshalCbor.
    destruct (EndpointID_wf_Marshal _ Hwf) as [bs E]. rewrite E. by eapply endpoint_read_len.
  - unfold SignatureBlock_CheckValid, PublicKeySize, SignatureSize in Hv. apply app_nil in Hv as [Hk Hs].
    destruct (Z.eqb_spec (len publicKey) 32) as [Ek|]; [|done]. destruct (Z.eqb_spec (len signature) 64) as [Es|]; [|done].
    split; [u64_lia|]. rewrite !len_app, !bstr_split, !len_app, array_len, !bslen_len, Ek, Es by u64_lia. by vm_compute.
  - by destruct Hr.
Qed.

(** ** Canonical blocks *)

Definition canonical_read (ebm : ExtensionBlockManager) (cb : CanonicalBlock) : Prop :=
  is_u64 (cb_BlockNumber cb) ∧ is_u64 (cb_BlockControlFlags cb) ∧ (CanonicalBlock_HasCRC cb = false → cb_CRC cb = []) ∧
  match cb_Value cb with
  | None => False
  | Some v => is_u64 (BlockTypeCode v) ∧ block_read v ∧ registered ebm v
  end.

Lemma canonical_fields_read ebm inp cb r : registry_ok ebm → (length inp ≤ N)%nat → canonical_fields ebm inp = (Ok cb, r) →
  canonical_read ebm cb ∧ cb_CRC cb = [] ∧ (length r ≤ length inp)%nat.
Proof.
  intros Hreg Hn E. unfold canonical_fields, ReadBlock in E. run. reads.
  match goal with E : (unmarshal_block ?k ?c ?d).1 = _ |- _ =>
    destruct (unmarshal_block k c d) as [o i] eqn:Eu; simpl in E; subst o;
    apply unmarshal_block_read in Eu as (Hv & Hc & Hk); [|first [done|lia]..] end.
  split; [|split; [done|lia]]. unfold canonical_read; simpl. by rewrite Hc.
Qed.

Lemma CRCNo_empty buff t v : calculateCRCBuff buff t = Ok v → negb (t =? CRCNo) = false → v = [].
Proof.
  intros [_ Hl]%calculateCRCBuff_Ok Ht. apply negb_false_iff in Ht. unfold crc_size in Hl. rewrite Ht in Hl. by apply nil_length_inv.
Qed.

Lemma CanonicalBlock_read ebm inp cb r : registry_ok ebm → (length inp ≤ N)%nat →
  CanonicalBlock_UnmarshalCbor ebm inp = (Ok cb, r) → canonical_read ebm cb ∧ (length r ≤ length inp)%nat.
Proof.
  intros Hreg Hn E. unfold CanonicalBlock_UnmarshalCbor in E. run; reads;
    match goal with E : canonical_fields _ _ = _ |- _ => apply canonical_fields_read in E as (Hcb & Hnil & Hl); [|first [done|lia]..] end;
    (split; [|lia]); [|done].
  match goal with E : bool_decide _ = true |- _ => apply bool_decide_eq_true in E as <- end.
  destruct Hcb as (? & ? & _ & ?). split; [done|]. split; [done|]. split; [|done].
  intros Ht. by eapply CRCNo_empty; [|done].
Qed.

(** What was read, passes the check and has a known CRC type is well formed. *)
Lemma canonical_read_wf ebm cb : canonical_read ebm cb → crc_known (cb_CRCType cb) → CanonicalBlock_CheckValid cb = Ok [] →
  CanonicalBlock_wf ebm cb.
Proof.
  intros (Hn & Hf & Hc & Hv) Hk. unfold CanonicalBlock_wf, CanonicalBlock_CheckValid.
  destruct (cb_Value cb) as [v|]; [|done]. destruct Hv as (Ht & Hr & Hreg). intros Hok%Ok_inj.
  apply app_nil in Hok as [_ Hok]. apply app_nil in Hok as [Hok _]. by destruct (block_read_wf v Hr Hok).
Qed.

(** ** The primary block *)

Definition primary_read (pb : PrimaryBlock) : Prop :=
  pb_Version pb = dtnVersion ∧ is_u64 (pb_BundleControlFlags pb) ∧
  endpoint_read (pb_Destination pb) ∧ endpoint_read (pb_SourceNode pb) ∧ endpoint_read (pb_ReportTo pb) ∧
  CreationTimestamp_wf (pb_CreationTimestamp pb) ∧ is_u64 (pb_Lifetime pb) ∧
  is_u64 (pb_FragmentOffset pb) ∧ is_u64 (pb_TotalDataLength pb) ∧ (PrimaryBlock_HasCRC pb = false → pb_CRC pb = []).

Lemma CreationTimestamp_read t inp t' r : CreationTimestamp_UnmarshalCbor (t, inp) = (Ok (), (t', r)) →
  CreationTimestamp_wf t' ∧ (length r ≤ length inp)%nat.
Proof.
  unfold CreationTimestamp_UnmarshalCbor. intros E. run. simplify_eq. reads. split; [done|lia].
Qed.

Lemma primary_fields_read inp bl pb r : (length inp ≤ N)%nat → primary_fields (zero_primary, inp) = (Ok bl, (pb, r)) →
  primary_read pb ∧ pb_CRC pb = [] ∧ (length r ≤ length inp)%nat.
Proof.
  intros Hn E. unfold primary_fields in E. run; simplify_eq; reads.
  all: repeat match goal with E : EndpointID_UnmarshalCbor _ = _ |- _ => apply EndpointID_read in E as [? ?]; [|lia] end.
  all: match goal with u : (), E : CreationTimestamp_UnmarshalCbor _ = (Ok ?v, _) |- _ => destruct v; apply CreationTimestamp_read in E as [? ?] end.
  all: (split; [|split; [done|lia]]); unfold primary_read; simpl; repeat (split; [done|]); done.
Qed.

Lemma PrimaryBlock_read inp pb r : (length inp ≤ N)%nat → PrimaryBlock_UnmarshalCbor (zero_primary, inp) = (Ok (), (pb, r)) →
  primary_read pb ∧ (length r ≤ length inp)%nat.
Proof.
  intros Hn E. unfold PrimaryBlock_UnmarshalCbor in E. run; simplify_eq; reads.
  all: match goal with E : primary_fields _ = _ |- _ => apply primary_fields_read in E as (Hp & Hnil & ?); [|done] end.
  - split; [|lia]. match goal with E : bool_decide _ = true |- _ => apply bool_decide_eq_true in E as <- end.
    destruct Hp as (? & ? & ? & ? & ? & ? & ? & ? & ? & _). unfold primary_read; simpl. repeat (split; [done|]).
    intros Ht. by eapply CRCNo_empty; [|done].
  - split; [done|lia].
Qed.

Lemma primary_read_wf pb : primary_read pb → crc_known (pb_CRCType pb) → PrimaryBlock_CheckValid pb = [] →
  (HasFragmentation pb = false → pb_FragmentOffset pb = 0 ∧ pb_TotalDataLength pb = 0) → PrimaryBlock_wf pb.
Proof.
  intros (? & ? & Hd & Hs & Hr & ? & ? & ? & ? & ?) Hk Hv Hfrag. unfold PrimaryBlock_CheckValid in Hv.
  apply app_nil in Hv as [_ Hv]. apply app_nil in Hv as [_ Hv]. apply app_nil in Hv as [Hvd Hv].
  apply app_nil in Hv as [Hvs Hv]. apply app_nil in Hv as [Hvr _].
  destruct (endpoint_read_wf _ Hd Hvd), (endpoint_read_wf _ Hs Hvs), (endpoint_read_wf _ Hr Hvr).
  unfold PrimaryBlock_wf. by repeat (split; [done|]).
Qed.

(** ** Bundles *)

Definition bundle_read (ebm : ExtensionBlockManager) (b : Bundle) : Prop :=
  primary_read (b_PrimaryBlock b) ∧
  Forall (λ cb, canonical_read ebm cb ∧ has_type BlockTypePayloadBlock cb = false) (b_ExtensionBlocks b) ∧
  (b_PayloadBlock b = zero_canonical ∨ canonical_read ebm (b_PayloadBlock b) ∧ has_type BlockTypePayloadBlock (b_PayloadBlock b) = true).

Lemma read_blocks_read ebm fuel b inp b' r : registry_ok ebm → (length inp ≤ N)%nat → bundle_read ebm b →
  read_blocks ebm fuel (b, inp) = (Ok (), (b', r)) → bundle_read ebm b'.
Proof.
  intros Hreg. revert b inp. induction fuel as [|fuel IH]; intros b inp Hn Hb; [done|]. simpl.
  destruct (CanonicalBlock_UnmarshalCbor ebm inp) as [[cb|[]|] i] eqn:E; try done; [|by intros [= <- <-]].
  apply CanonicalBlock_read in E as [Hcb Hl]; [|done..]. unfold TypeCode. destruct (cb_Value cb) as [v|] eqn:Ev; [|done].
  apply IH; [lia|]. destruct Hb as (Hp & He & Hpl).
  assert (has_type BlockTypePayloadBlock cb = (BlockTypeCode v =? BlockTypePayloadBlock)) as Ht by (unfold has_type; by rewrite Ev).
  destruct (BlockTypeCode v =? BlockTypePayloadBlock); [split; [done|]; split; [done|by right]|].
  split; [done|]. split; [|done]. apply Forall_app. split; [done|]. by constructor.
Qed.

(** The CRC types are known, and a bundle that is no fragment has no fragment fields. *)
Definition consistent (b : Bundle) : Prop :=
  Forall crc_known (pb_CRCType (b_PrimaryBlock b) :: cb_CRCType (b_PayloadBlock b) :: (cb_CRCType <$> b_ExtensionBlocks b)) ∧
  (HasFragmentation (b_PrimaryBlock b) = false →
     pb_FragmentOffset (b_PrimaryBlock b) = 0 ∧ pb_TotalDataLength (b_PrimaryBlock b) = 0).

Lemma bundle_read_wf ebm now b : bundle_read ebm b → consistent b → Bundle_CheckValid now b = Ok [] → Bundle_wf ebm b.
Proof.
  intros (Hp & He & Hpl) [Hk Hf] (Hvp & Hve & Hvpl & _)%Bundle_CheckValid_nil.
  apply Forall_cons in Hk as [Hkp Hk]. apply Forall_cons in Hk as [Hkpl Hke]. rewrite Forall_fmap in Hke.
  rewrite check_each_nil in Hve. destruct Hpl as [Hz|[Hpl Ht]]; [by rewrite Hz in Hvpl|].
  split; [by apply primary_read_wf|]. split; [|split; [by apply canonical_read_wf|done]].
  rewrite Forall_forall in *. intros cb Hin. split; [|by apply He]. apply canonical_read_wf; [by apply He|by apply Hke|by apply Hve].
Qed.

Lemma ParseBundle_read ebm now inp b : registry_ok ebm → (length inp ≤ N)%nat → ParseBundle ebm now inp = (Ok (), b) →
  bundle_read ebm b ∧ Bundle_CheckValid now b = Ok [].
Proof.
  intros Hreg Hn. unfold ParseBundle. destruct (Bundle_UnmarshalCbor _ _ _) as [o [b' r]] eqn:E. intros [= -> ->].
  unfold Bundle_UnmarshalCbor in E. run.
  repeat match goal with u : () |- _ => destruct u end. pose proof (expect_mono IndefiniteArray inp) as Hm.
  match goal with E : ReadExpect _ _ = _ |- _ => rewrite E in Hm; cbn [snd] in Hm end.
  match goal with E : PrimaryBlock_UnmarshalCbor _ = _ |- _ => apply PrimaryBlock_read in E as [Hp Hl]; [|lia] end.
  split.
  - eapply read_blocks_read; [done| | |eassumption]; [lia|]. split; [done|]. split; [constructor|by left].
  - match goal with E : check_bundle _ _ = _ |- _ => unfold check_bundle in E; destruct (Bundle_CheckValid _ _) as [[]| |]; done end.
Qed.
End Received.

(** C10: type soundness of the parser: whatever bytes arrive, a bundle that [ParseBundle]
    accepts has all its numbers in range and its endpoints and blocks well formed, each
    block of the type registered for its code - provided its CRC types are known and its
    fragment fields are used by fragments only, which no check of the code ensures.  So it
    can be written for the next hop, and the next hop reads the same bundle. *)
Theorem received_wf `{Cboring} `{Crc16} `{GoMapRange} `{Ed25519} `{!CboringLaws _} ebm now inp b :
  registry_ok ebm → len inp < two63 → ParseBundle ebm now inp = (Ok (), b) → consistent b →
  Bundle_wf ebm b ∧
  ∃ bs b', Bundle_MarshalCbor b = Ok (bs, b') ∧ erase_crc b' = erase_crc b ∧ ParseBundle ebm now bs = (Ok (), b').
Proof.
  intros Hreg Hlen Hp Hc. destruct (ParseBundle_read (length inp) ebm now inp b Hreg ltac:(done) Hp) as [Hr Hv].
  pose proof (bundle_read_wf (length inp) Hlen ebm now b Hr Hc Hv) as Hwf. split; [done|].
  destruct (Bundle_Marshal_wf ebm b Hwf) as (body & b' & Hm & He & Hu). eexists _, b'. split; [exact Hm|]. split; [done|].
  unfold ParseBundle. rewrite (Hu now _ [] (CanonicalBlock_break ebm [])). by erewrite check_bundle_erase.
Qed.

Lemma default_registry_ok : registry_ok GetExtensionBlockManager.
Proof. apply (bool_decide_unpack _). vm_compute. exact I. Qed.

(** The bytes of a bundle whose payload block names a CRC type and has no CRC field. *)
Definition odd_crc_bytes (crcType : Byte.byte) : bytes :=
  match PrimaryBlock_MarshalCbor (set_pb_CreationTimestamp (mkTimestamp 1000 0) (b_PrimaryBlock sample_bundle)) with
  | Ok (bs, _) => IndefiniteArray :: bs ++ [Byte.x85; Byte.x01; Byte.x01; Byte.x00; crcType; Byte.x41; Byte.x2a; BreakCode]
  | _ => []
  end.

Lemma received_wf_witness :
  ∃ b, ParseBundle GetExtensionBlockManager 0 (odd_crc_bytes Byte.x00) = (Ok (), b) ∧ Bundle_wf GetExtensionBlockManager b.
Proof.
  eexists. split; [vm_compute; reflexivity|].
  refine (proj1 (received_wf GetExtensionBlockManager 0 (odd_crc_bytes Byte.x00) _ default_registry_ok _ _ _)).
  - vm_compute. reflexivity.
  - vm_compute. reflexivity.
  - split; [|intros _; by vm_compute]. repeat (apply Forall_cons; split; [vm_compute; auto|]). apply Forall_nil. exact I.
Defined.

(** A CRC type that the code does not know is not noticed in a block without a CRC field:
    the bundle is accepted, and cannot be sent on. *)
Theorem unknown_crc_accepted : ∃ b, ParseBundle GetExtensionBlockManager 0 (odd_crc_bytes Byte.x07) = (Ok (), b) ∧
  Bundle_MarshalCbor b = Err (errorf "PayloadBlock failed").
Proof. eexists. split; [vm_compute; reflexivity|]. vm_compute. reflexivity. Qed.

(** ** The fuzzing entry *)

Section Fuzz.
Context `{Cboring} `{Crc16} `{GoMapRange} `{Ed25519}.
Context (ebm : ExtensionBlockManager) (now : Z).

(** [Fuzz] of [bundle_parse_fuzz.go]: it panics if a bundle that was parsed can not be
    written. *)
Definition Fuzz (data : bytes) : res Z :=
  match data with
  | b :: _ => if negb (bool_decide (b = Byte.x9f)) then Ok (-1) else
      match ParseBundle ebm now data with
      | (Panic, _) => Panic
      | (Err _, _) => Ok 0
      | (Ok _, b) => match Bundle_MarshalCbor b with Ok _ => Ok 1 | _ => Panic end
      end
  | [] =>
      match ParseBundle ebm now data with
      | (Panic, _) => Panic
      | (Err _, _) => Ok 0
      | (Ok _, b) => match Bundle_MarshalCbor b with Ok _ => Ok 1 | _ => Panic end
      end
  end.

(** What can make the fuzzer stop: a panic of the parser, or a bundle with a CRC type that
    is not known or with fragment fields although it is no fragment. *)
Theorem fuzz_panic `{!CboringLaws _} data : registry_ok ebm → len data < two63 → Fuzz data = Panic →
  (ParseBundle ebm now data).1 = Panic ∨ ∃ b, ParseBundle ebm now data = (Ok (), b) ∧ ¬ consistent b.
Proof.
  intros Hreg Hlen Hf.
  assert (match ParseBundle ebm now data with
          | (Panic, _) => Panic | (Err _, _) => Ok 0
          | (Ok _, b) => match Bundle_MarshalCbor b with Ok _ => Ok 1 | _ => Panic end end = (Panic : res Z)) as Hp.
  { unfold Fuzz in Hf. destruct data as [|c data]; [done|]. by destruct (negb _). }
  destruct (ParseBundle ebm now data) as [[[]|e|] b] eqn:E; [|done|by left]. right. exists b. split; [done|]. intros Hc.
  destruct (ParseBundle_read (length data) ebm now data b Hreg ltac:(done) E) as [Hr Hv].
  pose proof (bundle_read_wf (length data) Hlen ebm now b Hr Hc Hv) as Hwf.
  destruct (Bundle_Marshal_wf ebm b Hwf) as (body & b' & Hm & _). by rewrite Hm in Hp.
Qed.
End Fuzz.

Lemma fuzz_panic_witness : Fuzz GetExtensionBlockManager 0 (odd_crc_bytes Byte.x07) = Panic ∧
  ∃ b, ParseBundle GetExtensionBlockManager 0 (odd_crc_bytes Byte.x07) = (Ok (), b) ∧ ¬ consistent b.
Proof.
  split; [vm_compute; reflexivity|].
  destruct (fuzz_panic GetExtensionBlockManager 0 (odd_crc_bytes Byte.x07) default_registry_ok) as [Hp|Hb].
  - vm_compute. reflexivity.
  - vm_compute. reflexivity.
  - vm_compute in Hp. discriminate Hp.
  - exact Hb.
Defined.
