(* ===== verification/Partial.v ===== *)
(** * Partially loaded bundles

    [ParsePartialBundle] and [PartialBundle] of [pkg/bpv7/bundle.go] and
    [UnmarshalWantedBlock] of [canonical_block.go]: the primary block and the first
    extension block of each wanted type are read, the data of the other blocks is skipped
    by seeking where the reader allows it. *)

From stdpp Require Import base tactics list strings gmap.
From Stdlib Require Import ZArith Lia Bool.
From S2P Require Import Prelude Cboring Flags Crc DtnTime Endpoint BundleId ExtensionBlocks Blocks.
From S2P Require Import Bundle Samples BundleValid BundleCodec Streams.
Local Open Scope Z_scope.

(** ** Readers with a position *)

(** A file, or any other reader, with the position of the next byte; [src_seeker] tells
    whether it is an [io.Seeker].  A position may lie behind the end. *)
Record Source := mkSource { src_data : bytes; src_pos : nat; src_seeker : bool }.

Definition src_rest (s : Source) : bytes := drop (src_pos s) (src_data s).
Definition set_src_pos n s := mkSource (src_data s) n (src_seeker s).

(** A reader that takes its input from a source. *)
Definition on_source {A} (m : reader A) : M Source A := λ s,
  let '(r, rest) := m (src_rest s) in (r, set_src_pos (src_pos s + (length (src_rest s) - length rest)) s).

(** [Seek(offset, io.SeekCurrent)] of a seeker, [io.CopyN(io.Discard, old, offset)] of any
    other reader; the latter copies nothing for a negative number. *)
Definition skip (offset : Z) : M Source () := λ s,
  if src_seeker s then
    let pos := Z.of_nat (src_pos s) + offset in
    if (pos <? 0) || (two63 <=? pos) then (Err (errorf "invalid argument"), s) else (Ok (), set_src_pos (Z.to_nat pos) s)
  else if offset <? 0 then (Ok (), s)
  else if len (src_rest s) <? offset then (Err (errorf "EOF"), set_src_pos (length (src_data s)) s)
  else (Ok (), set_src_pos (src_pos s + Z.to_nat offset) s).

#[global] Instance BlockKind_eq_dec : EqDecision BlockKind.
Proof. solve_decision. Defined.

(** ** One block *)

Definition set_cb_Value v c := mkCanonical (cb_BlockNumber c) (cb_BlockControlFlags c) (cb_CRCType c) (cb_CRC c) (Some v).

(** The receiver and the source it is read from. *)
Abbreviation Reading := (CanonicalBlock * Source)%type.

Definition reading {A} (m : M Source A) : M Reading A := λ '(cb, s), let '(r, s) := m s in (r, (cb, s)).
Definition on_block (f : CanonicalBlock → CanonicalBlock) : M Reading () := λ '(cb, s), (Ok (), (f cb, s)).

Section Partial.
Context `{Cboring} `{Crc16} `{GoMapRange}.

(** The numbers before a block's data: its type, number, flags and CRC type. *)
Definition block_head : reader (Z * (Z * Z * Z)) :=
  blockType ← ReadUInt;
  bn ← ReadUInt;
  bcf ← ReadUInt;
  crcT ← ReadUInt;
  mret (blockType, (bn, bcf, crcT)).

(** [UnmarshalWantedBlock]; a value is set only where the code sets it. *)
Definition UnmarshalWantedBlock (ebm : ExtensionBlockManager) (wantedBlocks : list Z) : M Reading bool :=
  blockLen ← reading (on_source ReadArrayLength);
  if negb (blockLen =? 5) && negb (blockLen =? 6) then fail (errorf "expected array with length 5 or 6") else
  '(blockType, (bn, bcf, crcT), head) ← reading (on_source (tee block_head));
  on_block (λ cb, mkCanonical bn bcf crcT (cb_CRC cb) (cb_Value cb));;
  if negb (bool_decide (blockType ∈ wantedBlocks)) then
    length ← reading (on_source ReadByteStringLen);
    reading (skip (wrap_i64 length));;
    on_block (set_cb_Value (GenericExtensionBlock [] blockType));;
    (if blockLen =? 6 then _ ← reading (on_source ReadByteString); mret () else mret ());;
    mret false
  else
    '(b, data) ← wrap_err "unmarshalling block type failed" (reading (on_source (tee (ReadBlock ebm blockType))));
    on_block (set_cb_Value b);;
    if blockLen =? 6 then
      crcCalc ← lift_res (calculateCRCBuff (WriteArrayLength blockLen ++ head ++ data) crcT);
      crcVal ← reading (on_source ReadByteString);
      if bool_decide (crcCalc = crcVal) then on_block (set_cb_CRC crcVal);; mret true
      else fail (errorf "invalid CRC value")
    else mret true.

(** ** The bundle *)

(** [slices.Delete] at the index of the first occurrence. *)
Fixpoint remove_first (t : Z) (l : list Z) : list Z :=
  match l with
  | [] => []
  | u :: l => if u =? t then l else u :: remove_first t l
  end.

(** The loop of [ParsePartialBundle].  Unless the error is the break code the block's type
    code is asked for also when there is an error, and that panics when no value was set.
    See [partial_terminates] for the rounds it takes. *)
Fixpoint partial_blocks (ebm : ExtensionBlockManager) (fuel : nat) (wanted : list Z) (extensionBlocks : list CanonicalBlock) :
    M Source (list CanonicalBlock) := λ s,
  match fuel with
  | O => (Err (errorf "out of fuel"), s)
  | S fuel =>
      let '(r, (cb, s)) := UnmarshalWantedBlock ebm wanted (zero_canonical, s) in
      match r with
      | Panic => (Panic, s)
      | Err FlagBreakCode => (Ok extensionBlocks, s)
      | _ =>
          match TypeCode cb with
          | Ok tc =>
              if tc =? BlockTypePayloadBlock then (Ok extensionBlocks, s) else
              match r with
              | Ok false => partial_blocks ebm fuel wanted extensionBlocks s
              | Ok true =>
                  if bool_decide (tc ∈ wanted) then
                    let wanted := remove_first tc wanted in
                    let extensionBlocks := extensionBlocks ++ [cb] in
                    if bool_decide (wanted = []) then (Ok extensionBlocks, s) else partial_blocks ebm fuel wanted extensionBlocks s
                  else partial_blocks ebm fuel wanted extensionBlocks s
              | _ => (Err (errorf "CanonicalBlock failed"), s)
              end
          | _ => (Panic, s)
          end
      end
  end.

Record PartialBundle := mkPartialBundle { pa_PrimaryBlock : PrimaryBlock; pa_ExtensionBlocks : list CanonicalBlock }.

(** The validity checks at the end stop at the first block with an error. *)
Fixpoint check_partial (l : list CanonicalBlock) : res () :=
  match l with
  | [] => Ok ()
  | cb :: l => errs ← CanonicalBlock_CheckValid cb; check errs;; check_partial l
  end.

Definition read_primary : reader PrimaryBlock := λ inp,
  let '(r, (pb, inp)) := wrap_err "PrimaryBlock failed" PrimaryBlock_UnmarshalCbor (zero_primary, inp) in
  (match r with Ok _ => Ok pb | Err e => Err e | Panic => Panic end, inp).

Definition ParsePartialBundle (ebm : ExtensionBlockManager) (wantedExtensionBlocks : list Z) : M Source PartialBundle :=
  on_source (ReadExpect IndefiniteArray);;
  primary ← on_source read_primary;
  extensionBlocks ← (λ s, partial_blocks ebm (S (length (src_data s))) wantedExtensionBlocks [] s);
  lift_res (check (PrimaryBlock_CheckValid primary));;
  lift_res (check_partial extensionBlocks);;
  mret (mkPartialBundle primary extensionBlocks).

(** ** Looking up blocks *)

Fixpoint find_type (blockType : Z) (l : list CanonicalBlock) : res CanonicalBlock :=
  match l with
  | [] => Err (errorf "no CanonicalBlock with block type was found in PartialBundle")
  | cb :: l => tc ← TypeCode cb; if tc =? blockType then Ok cb else find_type blockType l
  end.

Definition PartialBundle_ExtensionBlockByType (b : PartialBundle) (blockType : Z) : res CanonicalBlock :=
  find_type blockType (pa_ExtensionBlocks b).

(** [FindExtensionBlock[T]], where [T] has the type code [blockType] and the type [kind]:
    a block of that code with a value of another type is passed over. *)
Fixpoint find_kind (blockType : Z) (kind : BlockKind) (l : list CanonicalBlock) : res ExtensionBlock :=
  match l with
  | [] => Err (errorf "could not find block")
  | cb :: l =>
      match cb_Value cb with
      | None => Panic
      | Some v => if (BlockTypeCode v =? blockType) && bool_decide (kind_of v = kind) then Ok v else find_kind blockType kind l
      end
  end.

Definition FindExtensionBlock (b : PartialBundle) (blockType : Z) (kind : BlockKind) : res ExtensionBlock :=
  find_kind blockType kind (pa_ExtensionBlocks b).
End Partial.
