(* ===== verification/PartialProps.v ===== *)
(** * Properties of partially loaded bundles *)

From stdpp Require Import base tactics list strings gmap.
From Stdlib Require Import ZArith Lia Bool.
From S2P Require Import Prelude Cboring Flags Crc DtnTime Endpoint BundleId ExtensionBlocks Blocks.
From S2P Require Import Bundle Samples BundleValid BundleCodec Streams Partial.
Local Open Scope Z_scope.

(** A source that has been read up to [rest]. *)
Definition src_at (seeker : bool) (pre rest : bytes) : Source := mkSource (pre ++ rest) (length pre) seeker.

Lemma src_rest_at sk pre rest : src_rest (src_at sk pre rest) = rest.
Proof. unfold src_rest, src_at. simpl. by rewrite drop_app_length. Qed.

Lemma src_at_app sk pre w rest : set_src_pos (length pre + length w) (src_at sk pre (w ++ rest)) = src_at sk (pre ++ w) rest.
Proof. unfold src_at, set_src_pos. simpl. by rewrite (assoc_L (++)), length_app. Qed.

Lemma on_source_ok {A} (m : reader A) sk pre w rest a : m (w ++ rest) = (Ok a, rest) →
  on_source m (src_at sk pre (w ++ rest)) = (Ok a, src_at sk (pre ++ w) rest).
Proof.
  intros Hm. unfold on_source. rewrite src_rest_at, Hm, length_app, <- src_at_app. simpl. do 3 f_equal. lia.
Qed.

Lemma skip_ok sk pre w rest : len (pre ++ w ++ rest) < two63 →
  skip (len w) (src_at sk pre (w ++ rest)) = (Ok (), src_at sk (pre ++ w) rest).
Proof.
  intros Hl. unfold skip. rewrite src_rest_at. unfold len in *. rewrite !length_app in *. destruct sk; simpl.
  - destruct (Z.ltb_spec (Z.of_nat (length pre) + Z.of_nat (length w)) 0); [lia|].
    destruct (Z.leb_spec two63 (Z.of_nat (length pre) + Z.of_nat (length w))); [lia|]. simpl.
    by rewrite <- Nat2Z.inj_add, Nat2Z.id, src_at_app.
  - destruct (Z.ltb_spec (Z.of_nat (length w)) 0); [lia|].
    destruct (Z.ltb_spec (Z.of_nat (length w + length rest)) (Z.of_nat (length w))); [lia|]. by rewrite Nat2Z.id, src_at_app.
Qed.

Lemma reading_ok {A} (m : M Source A) cb s a s' : m s = (Ok a, s') → reading m (cb, s) = (Ok a, (cb, s')).
Proof. unfold reading. by intros ->. Qed.

Section Props.
Context `{Cboring} `{Crc16} `{GoMapRange} `{Ed25519} `{!CboringLaws _}.

(** ** A well-formed block *)

(** The parts of what a block writes. *)
Definition head_bytes (tc : Z) (cb : CanonicalBlock) : bytes :=
  WriteUInt tc ++ WriteUInt (cb_BlockNumber cb) ++ WriteUInt (cb_BlockControlFlags cb) ++ WriteUInt (cb_CRCType cb).

Lemma Marshal_parts ebm cb bs cb' : CanonicalBlock_wf ebm cb → CanonicalBlock_MarshalCbor cb = Ok (bs, cb') →
  ∃ v d, cb_Value cb = Some v ∧ WriteBlock v = Ok (WriteByteString d) ∧ is_u64 (len d) ∧
    let blockLen := if CanonicalBlock_HasCRC cb then 6 else 5 in
    let head := head_bytes (BlockTypeCode v) cb in
    if CanonicalBlock_HasCRC cb then
      ∃ crc, calculateCRCBuff (WriteArrayLength blockLen ++ head ++ WriteByteString d) (cb_CRCType cb) = Ok crc ∧
        cb' = set_cb_CRC crc cb ∧ bs = WriteArrayLength blockLen ++ head ++ WriteByteString d ++ WriteByteString crc
    else cb' = cb ∧ bs = WriteArrayLength blockLen ++ head ++ WriteByteString d.
Proof.
  intros (_ & _ & _ & _ & Hv). unfold CanonicalBlock_MarshalCbor, canonical_body, TypeCode.
  destruct (cb_Value cb) as [v|]; [|done]. destruct Hv as (_ & _ & Hf & _). simpl.
  unfold block_fits in Hf. unfold WriteBlock. destruct (block_data v) as [d| |] eqn:Ed; [|done..].
  intros Hm. exists v, d. split; [done|]. rewrite Ed. do 2 (split; [done|]). cbv zeta. unfold head_bytes.
  simpl in Hm. destruct (CanonicalBlock_HasCRC cb).
  - rewrite <- !(assoc_L (++)) in *. destruct (calculateCRCBuff _ _) as [crc| |] eqn:E; [|done..].
    injection Hm as <- <-. exists crc. split; [reflexivity|]. split; [done|]. by rewrite <- !(assoc_L (++)).
  - injection Hm as <- <-. split; [done|]. by rewrite <- !(assoc_L (++)).
Qed.
Lemma block_head_rt ebm cb v r : CanonicalBlock_wf ebm cb → cb_Value cb = Some v →
  block_head (head_bytes (BlockTypeCode v) cb ++ r) = (Ok (BlockTypeCode v, (cb_BlockNumber cb, cb_BlockControlFlags cb, cb_CRCType cb)), r).
Proof.
  intros (Hn & Hbcf & Hcrc & _ & Hv) Ev. rewrite Ev in Hv. destruct Hv as (Hc & _). apply crc_known_u64 in Hcrc.
  unfold block_head, head_bytes. rewrite <- !(assoc_L (++)).
  mstep by by apply uint_rt. mstep by by apply uint_rt. mstep by by apply uint_rt. by mstep by by apply uint_rt.
Qed.

Definition type_of (cb : CanonicalBlock) : Z := match cb_Value cb with Some v => BlockTypeCode v | None => 0 end.

(** A wanted block is read as [UnmarshalCbor] reads it. *)
Lemma wanted_step ebm wanted cb bs cb' sk pre r : CanonicalBlock_wf ebm cb → CanonicalBlock_MarshalCbor cb = Ok (bs, cb') →
  type_of cb ∈ wanted →
  UnmarshalWantedBlock ebm wanted (zero_canonical, src_at sk pre (bs ++ r)) = (Ok true, (cb', src_at sk (pre ++ bs) r)).
Proof.
  intros Hwf Hm Hin. destruct (Marshal_parts ebm cb bs cb' Hwf Hm) as (v & d & Ev & Ew & Hd & Hp). cbv zeta in Hp.
  pose proof (λ r, block_head_rt ebm cb v r Hwf Ev) as Hh. unfold type_of in Hin. rewrite Ev in Hin.
  destruct Hwf as (_ & _ & _ & Hnil & Hv). rewrite Ev in Hv. destruct Hv as (_ & Hbw & Hfit & Hreg).
  assert (∀ r, ReadBlock ebm (BlockTypeCode v) (WriteByteString d ++ r) = (Ok v, r)) as Hb by (intros; by apply ReadBlock_rt).
  unfold UnmarshalWantedBlock. destruct (CanonicalBlock_HasCRC cb); [destruct Hp as (crc & Hcrc & -> & ->)|destruct Hp as (-> & ->)];
    rewrite <- !(assoc_L (++)); mstep by (apply reading_ok, on_source_ok, array_rt; u64_lia); mif;
    (mstep by (apply reading_ok, on_source_ok, tee_ok, Hh)); (mstep by done); (rewrite bool_decide_eq_true_2 by done); cbn [negb];
    (mstep by (apply wrap_err_ok, reading_ok, on_source_ok, tee_ok, Hb)); (mstep by done); mif.
  - mstep by (unfold lift_res; by rewrite Hcrc). mstep by (apply reading_ok, on_source_ok, bstr_rt; by eapply crc_u64).
    rewrite bool_decide_eq_true_2 by done. mstep by done. destruct cb; simpl in *; subst. by rewrite <- !(assoc_L (++)).
  - destruct cb; simpl in *; subst. rewrite Hnil by done. by rewrite <- !(assoc_L (++)).
Qed.

(** The data of any other block is skipped; the receiver gets its type. *)
Lemma unwanted_step ebm wanted cb bs cb' sk pre r : CanonicalBlock_wf ebm cb → CanonicalBlock_MarshalCbor cb = Ok (bs, cb') →
  type_of cb ∉ wanted → len (pre ++ bs ++ r) < two63 →
  ∃ cb0, UnmarshalWantedBlock ebm wanted (zero_canonical, src_at sk pre (bs ++ r)) = (Ok false, (cb0, src_at sk (pre ++ bs) r)) ∧
    TypeCode cb0 = Ok (type_of cb).
Proof.
  intros Hwf Hm Hin Hlen. destruct (Marshal_parts ebm cb bs cb' Hwf Hm) as (v & d & Ev & Ew & Hd & Hp). cbv zeta in Hp.
  pose proof (λ r, block_head_rt ebm cb v r Hwf Ev) as Hh. unfold type_of in *. rewrite Ev in *.
  exists (set_cb_Value (GenericExtensionBlock [] (BlockTypeCode v)) (mkCanonical (cb_BlockNumber cb) (cb_BlockControlFlags cb) (cb_CRCType cb) [] None)).
  split; [|done]. unfold UnmarshalWantedBlock. rewrite bstr_split in Hp.
  destruct (CanonicalBlock_HasCRC cb); [destruct Hp as (crc & Hcrc & -> & ->)|destruct Hp as (-> & ->)];
    rewrite <- !(assoc_L (++)) in *; (assert (wrap_i64 (len d) = len d) as Hw by (apply wrap_i64_id; unfold len in *; rewrite !length_app in Hlen; u64_lia));
    mstep by (apply reading_ok, on_source_ok, array_rt; u64_lia); mif;
    (mstep by (apply reading_ok, on_source_ok, tee_ok, Hh)); (mstep by done); (rewrite bool_decide_eq_false_2 by done); cbn [negb];
    (mstep by (by apply reading_ok, on_source_ok, bslen_rt)); rewrite Hw; (mstep by (apply reading_ok, skip_ok; by rewrite <- !(assoc_L (++))));
    mstep by done; mif.
  - mstep by (mstep by (apply reading_ok, on_source_ok, bstr_rt; by eapply crc_u64); done). by rewrite <- !(assoc_L (++)).
  - mstep by done. by rewrite <- !(assoc_L (++)).
Qed.

(** ** The loop *)

(** The reference: the first block of every wanted type, in the order of the bundle. *)
Fixpoint firsts (wanted : list Z) (l : list CanonicalBlock) : list CanonicalBlock :=
  match l with
  | [] => []
  | cb :: l => if bool_decide (type_of cb ∈ wanted) then cb :: firsts (remove_first (type_of cb) wanted) l else firsts wanted l
  end.

Lemma firsts_nil l : firsts [] l = [].
Proof. by induction l. Qed.

Lemma partial_step ebm fuel wanted acc cb bs cb' sk pre r : CanonicalBlock_wf ebm cb → CanonicalBlock_MarshalCbor cb = Ok (bs, cb') →
  len (pre ++ bs ++ r) < two63 → has_type BlockTypePayloadBlock cb = false →
  partial_blocks ebm (S fuel) wanted acc (src_at sk pre (bs ++ r)) =
    let s := src_at sk (pre ++ bs) r in
    if bool_decide (type_of cb ∈ wanted) then
      let wanted := remove_first (type_of cb) wanted in
      if bool_decide (wanted = []) then (Ok (acc ++ [cb']), s) else partial_blocks ebm fuel wanted (acc ++ [cb']) s
    else partial_blocks ebm fuel wanted acc s.
Proof.
  intros Hwf Hm Hlen Ht. cbn [partial_blocks].
  assert (∃ v, cb_Value cb = Some v ∧ (BlockTypeCode v =? BlockTypePayloadBlock) = false) as (v & Ev & Hp).
  { destruct Hwf as (_ & _ & _ & _ & Hv). unfold has_type in Ht. destruct (cb_Value cb) as [v|]; [by exists v|done]. }
  assert (type_of cb = BlockTypeCode v) as Et by (unfold type_of; by rewrite Ev).
  case_bool_decide as Hin.
  - rewrite (wanted_step ebm wanted cb bs cb' sk pre r Hwf Hm Hin).
    destruct (CanonicalBlock_Marshal_wf ebm cb Hwf) as (bs2 & crc & E). assert (cb' = set_cb_CRC crc cb) as -> by congruence.
    unfold TypeCode. cbn [cb_Value set_cb_CRC]. rewrite Ev, Hp, Et in *. by rewrite bool_decide_eq_true_2.
  - destruct (unwanted_step ebm wanted cb bs cb' sk pre r Hwf Hm Hin Hlen) as (cb0 & -> & Htc). rewrite Htc, Et, Hp. done.
Qed.

(** The payload block ends the loop, wanted or not. *)
Lemma partial_payload ebm fuel wanted acc cb bs cb' sk pre r : CanonicalBlock_wf ebm cb → CanonicalBlock_MarshalCbor cb = Ok (bs, cb') →
  len (pre ++ bs ++ r) < two63 → has_type BlockTypePayloadBlock cb = true →
  (partial_blocks ebm (S fuel) wanted acc (src_at sk pre (bs ++ r))).1 = Ok acc.
Proof.
  intros Hwf Hm Hlen Ht. cbn [partial_blocks].
  assert (∃ v, cb_Value cb = Some v ∧ (BlockTypeCode v =? BlockTypePayloadBlock) = true) as (v & Ev & Hp).
  { destruct Hwf as (_ & _ & _ & _ & Hv). unfold has_type in Ht. destruct (cb_Value cb) as [v|]; [by exists v|done]. }
  assert (type_of cb = BlockTypeCode v) as Et by (unfold type_of; by rewrite Ev).
  destruct (decide (type_of cb ∈ wanted)) as [Hin|Hin].
  - rewrite (wanted_step ebm wanted cb bs cb' sk pre r Hwf Hm Hin).
    destruct (CanonicalBlock_Marshal_wf ebm cb Hwf) as (bs2 & crc & E). assert (cb' = set_cb_CRC crc cb) as -> by congruence.
    unfold TypeCode. cbn [cb_Value set_cb_CRC]. by rewrite Ev, Hp.
  - destruct (unwanted_step ebm wanted cb bs cb' sk pre r Hwf Hm Hin Hlen) as (cb0 & -> & Htc). by rewrite Htc, Et, Hp.
Qed.

Lemma Marshal_nonempty ebm cb bs cb' : CanonicalBlock_wf ebm cb → CanonicalBlock_MarshalCbor cb = Ok (bs, cb') → (1 ≤ length bs)%nat.
Proof.
  intros Hwf Hm. destruct (Marshal_parts ebm cb bs cb' Hwf Hm) as (v & d & _ & _ & _ & Hp). cbv zeta in Hp.
  assert (∀ n, n = 5 ∨ n = 6 → (1 ≤ length (WriteArrayLength n))%nat) as Hl.
  { intros n Hn. pose proof (head_len_pos n). assert (is_u64 n) as Hu by (destruct Hn; subst; u64_lia).
    pose proof (array_len n Hu). unfold len in *. lia. }
  destruct (CanonicalBlock_HasCRC cb); [destruct Hp as (crc & _ & _ & ->); specialize (Hl 6)|destruct Hp as (_ & ->); specialize (Hl 5)];
    rewrite length_app; specialize (Hl ltac:(auto)); lia.
Qed.

(** Over the blocks of a bundle the loop collects the first of each wanted type. *)
Lemma partial_loop ebm l bs l' c cbs c' sk r : Forall (λ cb, CanonicalBlock_wf ebm cb ∧ has_type BlockTypePayloadBlock cb = false) l →
  marshal_blocks l = Ok (bs, l') → CanonicalBlock_wf ebm c → has_type BlockTypePayloadBlock c = true →
  CanonicalBlock_MarshalCbor c = Ok (cbs, c') →
  ∀ fuel wanted acc pre, (length bs < fuel)%nat → len (pre ++ bs ++ cbs ++ r) < two63 →
    (partial_blocks ebm fuel wanted acc (src_at sk pre (bs ++ cbs ++ r))).1 = Ok (acc ++ firsts wanted l').
Proof.
  intros Hl Hm Hc Ht Hmc. revert bs l' Hm. induction Hl as [|cb l [Hcb Htb] Hl IH]; intros bs l' Hm fuel wanted acc pre Hfuel Hlen.
  { injection Hm as <- <-. simpl. rewrite app_nil_r. destruct fuel; [simpl in *; lia|]. by eapply partial_payload. }
  destruct (CanonicalBlock_Marshal_wf ebm cb Hcb) as (b1 & crc & E1). simpl in Hm. rewrite E1 in Hm.
  destruct (marshal_blocks l) as [[b2 l2]| |] eqn:E2; [|done..]. injection Hm as <- <-.
  pose proof (Marshal_nonempty ebm cb b1 _ Hcb E1) as Hne. rewrite length_app in Hfuel. destruct fuel as [|fuel]; [lia|].
  rewrite <- !(assoc_L (++)) in *. rewrite (partial_step ebm fuel wanted acc cb b1 (set_cb_CRC crc cb)) by done.
  assert (len ((pre ++ b1) ++ b2 ++ cbs ++ r) < two63) as Hlen' by (by rewrite <- !(assoc_L (++))).
  cbv zeta. cbn [firsts]. change (type_of (set_cb_CRC crc cb)) with (type_of cb).
  case_bool_decide as Hin; [|apply (IH b2 l2 eq_refl); [lia|done]].
  case_bool_decide as Hnil; [by rewrite Hnil, firsts_nil|]. rewrite (IH b2 l2 eq_refl) by (done || lia). by rewrite <- (assoc_L (++)).
Qed.

(** ** Looking up *)

Lemma elem_of_remove_first t u wanted : t ≠ u → t ∈ wanted → t ∈ remove_first u wanted.
Proof.
  intros Hne. induction wanted as [|w wanted IH]; [done|]. simpl. destruct (Z.eqb_spec w u) as [->|_].
  - by intros [->|?]%elem_of_cons.
  - intros [->|?]%elem_of_cons; [left|right; auto].
Qed.

Lemma find_type_firsts t wanted l : all_valued l → t ∈ wanted → find_type t (firsts wanted l) = find_type t l.
Proof.
  intros Hl. revert wanted. induction Hl as [|cb l [v Hv] Hl IH]; intros wanted Hin; [done|]. simpl.
  assert (TypeCode cb = Ok (type_of cb)) as Ht by (unfold TypeCode, type_of; by rewrite Hv). rewrite Ht. simpl.
  destruct (Z.eqb_spec (type_of cb) t) as [E|E].
  - rewrite bool_decide_eq_true_2 by (by rewrite E). simpl. rewrite Ht, E. simpl. by rewrite Z.eqb_refl.
  - case_bool_decide; [|by apply IH]. simpl. rewrite Ht. simpl. destruct (Z.eqb_spec (type_of cb) t); [done|].
    apply IH. apply elem_of_remove_first; auto.
Qed.

Lemma find_type_unique b t i cb : ExtensionBlockByType b t = Ok (i, cb) → find_type t (b_ExtensionBlocks b) = Ok cb.
Proof.
  unfold ExtensionBlockByType, ExtensionBlocksByType. generalize 0%nat as k. induction (b_ExtensionBlocks b) as [|c l IH]; intros k; [done|].
  simpl. destruct (TypeCode c) as [tc| |]; [|done..]. simpl. specialize (IH (S k)).
  destruct (blocks_of_type t (S k) l) as [cbs| |]; [|done..]. simpl in *. destruct (tc =? t); [|exact IH].
  by destruct cbs; [intros [= <- <-]|].
Qed.

Lemma elem_of_firsts cb wanted l : cb ∈ firsts wanted l → cb ∈ l.
Proof.
  revert wanted. induction l as [|c l IH]; intros wanted; simpl; [done|].
  case_bool_decide; [intros [->|Hin]%elem_of_cons; [left|]|intros Hin]; right; eauto.
Qed.

Lemma check_partial_ok l : Forall (λ cb, CanonicalBlock_CheckValid cb = Ok []) l → check_partial l = Ok ().
Proof. induction 1 as [|cb l Hc _ IH]; [done|]. simpl. by rewrite Hc. Qed.

Lemma read_primary_ok pb bs pb' r : PrimaryBlock_wf pb → PrimaryBlock_MarshalCbor pb = Ok (bs, pb') →
  read_primary (bs ++ r) = (Ok pb', r).
Proof. intros Hwf Hm. unfold read_primary, wrap_err. by rewrite (PrimaryBlock_rt pb bs pb' r Hwf Hm). Qed.

Lemma bind_fst {σ A B} (m : M σ A) (k : A → M σ B) s a : (m s).1 = Ok a → ((x ← m; k x) s).1 = (k a (m s).2).1.
Proof. unfold mbind, M_bind. destruct (m s) as [r s']. simpl. by intros ->. Qed.

Lemma partial_exec ebm now sk wanted b bs b' : Bundle_wf ebm b → Bundle_MarshalCbor b = Ok (bs, b') →
  Bundle_CheckValid now b' = Ok [] → len bs < two63 →
  (ParsePartialBundle ebm wanted (mkSource bs 0 sk)).1 = Ok (mkPartialBundle (b_PrimaryBlock b') (firsts wanted (b_ExtensionBlocks b'))).
Proof.
  intros (Hp & Hl & Hc & Ht) Hm Hv Hlen. unfold Bundle_MarshalCbor in Hm.
  destruct (PrimaryBlock_MarshalCbor (b_PrimaryBlock b)) as [[pbs p']| |] eqn:Ep; [|done..]. simpl in Hm.
  destruct (marshal_blocks (b_ExtensionBlocks b)) as [[ebs l']| |] eqn:El; [|done..]. simpl in Hm.
  destruct (CanonicalBlock_MarshalCbor (b_PayloadBlock b)) as [[cbs c']| |] eqn:Ec; [|done..]. simpl in Hm. injection Hm as <- <-.
  destruct (Bundle_CheckValid_nil now _ Hv) as (Hvp & Hve%check_each_nil & _). simpl in Hvp, Hve. cbn [b_PrimaryBlock b_ExtensionBlocks].
  change (mkSource _ 0 sk) with (src_at sk [] ([IndefiniteArray] ++ pbs ++ ebs ++ cbs ++ [BreakCode])).
  unfold ParsePartialBundle. mstep by (apply on_source_ok, expect_rt). mstep by (apply on_source_ok; by apply (read_primary_ok (b_PrimaryBlock b))).
  erewrite bind_fst.
  2:{ apply (partial_loop ebm _ _ _ _ _ _ sk _ Hl El Hc Ht Ec); [simpl; rewrite !length_app; lia|]. by rewrite <- !(assoc_L (++)). }
  generalize (partial_blocks ebm). intros pb.
  erewrite bind_fst by (unfold lift_res; simpl; by rewrite Hvp). erewrite bind_fst; [done|]. unfold lift_res. simpl.
  apply check_partial_ok. rewrite Forall_forall in *. intros cb Hcb. by eapply Hve, elem_of_firsts.
Qed.

Lemma partial_agrees ebm now sk wanted b : Bundle_wf ebm b → Bundle_CheckValid now b = Ok [] →
  ∃ bs b', Bundle_MarshalCbor b = Ok (bs, b') ∧ ParseBundle ebm now bs = (Ok (), b') ∧
    (len bs < two63 → ∃ p, (ParsePartialBundle ebm wanted (mkSource bs 0 sk)).1 = Ok p ∧
      pa_PrimaryBlock p = b_PrimaryBlock b' ∧ pa_ExtensionBlocks p = firsts wanted (b_ExtensionBlocks b') ∧
      (∀ t, t ∈ wanted → PartialBundle_ExtensionBlockByType p t = find_type t (b_ExtensionBlocks b')) ∧
      ∀ t i cb, t ∈ wanted → ExtensionBlockByType b' t = Ok (i, cb) → PartialBundle_ExtensionBlockByType p t = Ok cb).
Proof.
  intros Hwf Hv. destruct (Bundle_Marshal_wf ebm b Hwf) as (body & b' & Hm & He & Hu). exists (body ++ [BreakCode]), b'.
  split; [exact Hm|]. split; [unfold ParseBundle; rewrite (Hu now _ [] (CanonicalBlock_break ebm [])); by erewrite check_bundle_erase|].
  assert (Bundle_CheckValid now b' = Ok []) as Hv' by (by rewrite <- Bundle_CheckValid_erase, He, Bundle_CheckValid_erase).
  intros Hlen. eexists. split; [by eapply partial_exec|]. split; [done|]. split; [done|].
  assert (∀ t, t ∈ wanted → find_type t (firsts wanted (b_ExtensionBlocks b')) = find_type t (b_ExtensionBlocks b')) as Hf.
  { intros t Hin. apply find_type_firsts; [|done]. destruct (Bundle_CheckValid_nil now _ Hv') as (_ & Hve%check_each_nil & _).
    unfold all_valued. rewrite Forall_forall in *. intros cb Hcb. specialize (Hve cb Hcb). unfold CanonicalBlock_CheckValid in Hve.
    destruct (cb_Value cb) as [v|]; [by exists v|done]. }
  split; [exact Hf|]. intros t i cb Hin Hu'. unfold PartialBundle_ExtensionBlockByType. simpl. rewrite Hf by done. by eapply find_type_unique.
Qed.

(** C13: reading a part of a serialised bundle agrees with reading the whole: the primary
    block is the same, the extension blocks are the first ones of the wanted types in the
    bundle's order, and looking up a wanted type finds the block that the whole bundle
    has, whether the reader is a seeker or not. *)
Theorem partial_parse ebm now sk wanted b : Bundle_wf ebm b → Bundle_CheckValid now b = Ok [] →
  ∃ bs b', Bundle_MarshalCbor b = Ok (bs, b') ∧ ParseBundle ebm now bs = (Ok (), b') ∧
    (len bs < two63 → ∃ p, (ParsePartialBundle ebm wanted (mkSource bs 0 sk)).1 = Ok p ∧
      pa_PrimaryBlock p = b_PrimaryBlock b' ∧ pa_ExtensionBlocks p = firsts wanted (b_ExtensionBlocks b') ∧
      (∀ t, t ∈ wanted → PartialBundle_ExtensionBlockByType p t = find_type t (b_ExtensionBlocks b')) ∧
      ∀ t i cb, t ∈ wanted → ExtensionBlockByType b' t = Ok (i, cb) → PartialBundle_ExtensionBlockByType p t = Ok cb).
Proof. exact (partial_agrees ebm now sk wanted b). Qed.

(** ** Termination *)

(** A step on a source that cannot seek: it keeps being one, and never gives input back. *)
Definition forward {σ A} (src : σ → Source) (m : M σ A) : Prop := ∀ s, src_seeker (src s) = false →
  src_seeker (src (m s).2) = false ∧ (length (src_rest (src (m s).2)) ≤ length (src_rest (src s)))%nat.

Lemma forward_bind {σ A B} (src : σ → Source) (m : M σ A) (k : A → M σ B) :
  forward src m → (∀ a, forward src (k a)) → forward src (m ≫= k).
Proof.
  intros Hm Hk s Hs. destruct (Hm s Hs) as [Hx1 Hx2]. unfold mbind, M_bind. destruct (m s) as [[a| |] s']; simpl in *; [|done..].
  destruct (Hk a s' Hx1) as [Hx3 Hx4]. split; [done|]. lia.
Qed.

Lemma forward_source {A} (m : reader A) : mono m → forward id (on_source m).
Proof.
  intros Hm s Hs. unfold on_source. specialize (Hm (src_rest s)). destruct (m (src_rest s)) as [r rest]. simpl in *.
  split; [done|]. unfold src_rest in *. simpl. rewrite !length_drop in *. lia.
Qed.

Lemma forward_skip n : forward id (skip n).
Proof.
  intros s Hs. unfold skip. simpl in *. rewrite Hs. repeat case_match; simpl; split; try done; unfold src_rest; simpl; rewrite !length_drop; lia.
Qed.

Lemma forward_reading {A} (m : M Source A) : forward id m → forward snd (reading m).
Proof. intros Hm [cb s] Hs. destruct (Hm s Hs) as [Hx1 Hx2]. unfold reading. by destruct (m s). Qed.

Lemma forward_simple {A} (r : res A) (f : CanonicalBlock → CanonicalBlock) : forward snd (λ '(cb, s), (r, (f cb, s)) : res A * Reading).
Proof. by intros [cb s] Hs. Qed.

Lemma forward_wrap {A} msg (m : M Reading A) : forward snd m → forward snd (wrap_err msg m).
Proof. intros Hm s Hs. destruct (Hm s Hs) as [Hx1 Hx2]. unfold wrap_err. by destruct (m s) as [[]]. Qed.

Ltac solve_forward :=
  repeat match goal with
  | |- ∀ _, _ => intro
  | |- forward snd (mbind _ _) => apply forward_bind
  | |- forward snd (reading (skip _)) => apply forward_reading, forward_skip
  | |- forward snd (reading (on_source _)) => apply forward_reading, forward_source
  | |- forward snd (wrap_err _ _) => apply forward_wrap
  | |- forward snd (on_block ?f) => exact (forward_simple (Ok ()) f)
  | |- forward snd (mret ?a) => by intros ? ?
  | |- forward snd (fail _) => by intros ? ?
  | |- forward snd (lift_res _) => by intros ? ?
  | |- forward snd (if ?c then _ else _) => destruct c
  | |- forward snd (let '(_, _) := ?x in _) => destruct x
  | |- mono _ => progress (unfold block_head, ReadBlock; solve_mono)
  end.

(** A block that was read takes at least one byte. *)
Lemma wanted_progress ebm wanted cb s b cb' s' : src_seeker s = false →
  UnmarshalWantedBlock ebm wanted (cb, s) = (Ok b, (cb', s')) →
  src_seeker s' = false ∧ (length (src_rest s') < length (src_rest s))%nat.
Proof.
  intros Hs. unfold UnmarshalWantedBlock. unfold mbind at 1, M_bind at 1. unfold reading at 1, on_source at 1.
  destruct (ReadArrayLength (src_rest s)) as [[n|e|] rest] eqn:E; [|done..]. apply array_progress in E.
  match goal with |- ?m (cb, ?s1) = _ → _ => assert (forward snd m) as Hf; [|set (s1' := s1)] end.
  { solve_forward. }
  intros Hr. destruct (Hf (cb, s1') Hs) as [Hx1 Hx2]. rewrite Hr in Hx1, Hx2. simpl in Hx1, Hx2. split; [done|].
  assert (length (src_rest s1') < length (src_rest s))%nat; [|lia]. unfold s1', src_rest in *. simpl. rewrite !length_drop in *. lia.
Qed.

(** Reading a part of a bundle from a reader that cannot seek terminates: with more
    rounds than bytes are left the loop gives the same result, which is never the
    exhaustion of the rounds. *)
Theorem partial_terminates ebm n wanted acc s : src_seeker s = false → (length (src_rest s) < n)%nat →
  partial_blocks ebm n wanted acc s = partial_blocks ebm (S (length (src_rest s))) wanted acc s ∧
  (partial_blocks ebm n wanted acc s).1 ≠ Err (errorf "out of fuel").
Proof.
  enough (∀ n m wanted acc s, src_seeker s = false → (length (src_rest s) < n)%nat → (length (src_rest s) < m)%nat →
    partial_blocks ebm n wanted acc s = partial_blocks ebm m wanted acc s ∧
    (partial_blocks ebm n wanted acc s).1 ≠ Err (errorf "out of fuel")) as Hgen by (intros; apply Hgen; (done || lia)).
  clear n wanted acc s. induction n as [|n IH]; intros [|m] wanted acc s Hs Hn Hm; [lia..|]. cbn [partial_blocks].
  destruct (UnmarshalWantedBlock ebm wanted (zero_canonical, s)) as [r [cb s']] eqn:E.
  destruct r as [w|[]|]; [|done| |done]; (destruct (TypeCode cb) as [tc| |]; [|done..]); (destruct (tc =? BlockTypePayloadBlock); [done|]); [|done].
  destruct (wanted_progress _ _ _ _ _ _ _ Hs E) as [Hs' Hl].
  destruct w; [case_bool_decide; [case_bool_decide; [done|]|]|]; apply IH; (done || lia).
Qed.
(** A file that ends behind the primary block makes the parser panic, where the library
    reports the end of the input: the error is overtaken by the question for the type of a
    block that has none. *)
Theorem partial_truncated_panics ebm sk wanted pb bs pb' e : PrimaryBlock_wf pb → PrimaryBlock_MarshalCbor pb = Ok (bs, pb') →
  ReadArrayLength [] = (Err e, []) → e ≠ FlagBreakCode →
  (ParsePartialBundle ebm wanted (mkSource (IndefiniteArray :: bs) 0 sk)).1 = Panic.
Proof.
  intros Hwf Hm He Hne. change (mkSource _ 0 sk) with (src_at sk [] ([IndefiniteArray] ++ bs)). rewrite <- (app_nil_r bs).
  unfold ParsePartialBundle. mstep by (apply on_source_ok, expect_rt). mstep by (apply on_source_ok; by apply (read_primary_ok pb)).
  unfold mbind, M_bind. cbn [partial_blocks].
  unfold UnmarshalWantedBlock. unfold mbind, M_bind. unfold reading at 1, on_source at 1. rewrite src_rest_at, He. by destruct e.
Qed.
End Props.

(** ** Examples *)

Lemma partial_parse_witness :
  ∃ bs b' p, Bundle_MarshalCbor sample_bundle = Ok (bs, b') ∧
    (ParsePartialBundle GetExtensionBlockManager [BlockTypeBundleAgeBlock] (mkSource bs 0 true)).1 = Ok p ∧
    pa_ExtensionBlocks p = firsts [BlockTypeBundleAgeBlock] (b_ExtensionBlocks b').
Proof.
  destruct (partial_parse GetExtensionBlockManager 0 true [BlockTypeBundleAgeBlock] sample_bundle sample_bundle_wf) as (bs & b' & Hm & _ & Hp).
  - vm_compute. reflexivity.
  - destruct Hp as (p & Hp & _ & He & _).
    + vm_compute in Hm. injection Hm as <- <-. vm_compute. reflexivity.
    + exists bs, b', p. split; [exact Hm|]. split; [exact Hp|exact He].
Defined.

Lemma partial_terminates_witness :
  (partial_blocks GetExtensionBlockManager 9 [6] [] (mkSource [Byte.x85; Byte.x07; Byte.x02] 0 false)).1 ≠ Err (errorf "out of fuel").
Proof. apply (partial_terminates GetExtensionBlockManager 9 [6] [] (mkSource [Byte.x85; Byte.x07; Byte.x02] 0 false)); [reflexivity|simpl; lia]. Defined.

(** A block that claims 2^64 - 14 bytes of data: as an [int64] the length is -14, and a
    seeker goes back to the block's start.  The loop never ends. *)
Definition looping_block : bytes := [Byte.x85; Byte.x09; Byte.x02; Byte.x00; Byte.x00] ++ Byte.x5b :: be_bytes 8 (two64 - 14).

Theorem partial_seek_loops fuel :
  (partial_blocks GetExtensionBlockManager fuel [BlockTypeHopCountBlock] [] (mkSource looping_block 0 true)).1 = Err (errorf "out of fuel").
Proof.
  induction fuel as [|fuel IH]; [done|]. cbn [partial_blocks].
  assert (UnmarshalWantedBlock GetExtensionBlockManager [BlockTypeHopCountBlock] (zero_canonical, mkSource looping_block 0 true) =
    (Ok false, (mkCanonical 2 0 0 [] (Some (GenericExtensionBlock [] 9)), mkSource looping_block 0 true))) as -> by (vm_compute; reflexivity).
  exact IH.
Qed.
