(* ===== verification/Fragmentation.v ===== *)
(** * Fragmentation and reassembly

    [pkg/bpv7/fragmentation.go].  A Go [int] is a 64-bit signed integer.  The
    [math.Min] over [float64] in [Fragment] is exact for lengths below 2^53 and
    is modelled as the minimum.  One instant [now] stands for the clock readings
    of a call. *)

From stdpp Require Import base tactics list strings gmap sorting.
From Stdlib Require Import ZArith Lia Bool.
From S2P Require Import Prelude Cboring GoSort Flags Crc DtnTime Endpoint BundleId ExtensionBlocks Blocks.
From S2P Require Import Bundle Samples.
Local Open Scope Z_scope.

(** The data of a payload block; the type assertion on its value panics for
    another type. *)
Definition payload_data (cb : CanonicalBlock) : res bytes :=
  match cb_Value cb with Some (PayloadBlock d) => Ok d | _ => Panic end.

(** [data[lo:hi]] *)
Definition slice (lo hi : Z) (data : bytes) : res bytes :=
  if (0 <=? lo) && (lo <=? hi) && (hi <=? len data)
  then Ok (take (Z.to_nat (hi - lo)) (drop (Z.to_nat lo) data)) else Panic.

Section Fragmentation.
Context `{Cboring} `{Crc16} `{GoMapRange} `{Ed25519}.

(** ** Fragment *)

Definition frag_primary (pb : PrimaryBlock) (fragmentOffset totalDataLength : Z) : PrimaryBlock :=
  mkPrimary (pb_Version pb) (Z.lor (pb_BundleControlFlags pb) IsFragment) (pb_CRCType pb)
    (pb_Destination pb) (pb_SourceNode pb) (pb_ReportTo pb) (pb_CreationTimestamp pb) (pb_Lifetime pb)
    (wrap_u64 fragmentOffset) (wrap_u64 totalDataLength) [].

Definition fragmentPrimaryBlock (pb : PrimaryBlock) (fragmentOffset totalDataLength : Z) : res (PrimaryBlock * Z) :=
  '(buff, fragPb) ← PrimaryBlock_MarshalCbor (frag_primary pb fragmentOffset totalDataLength);
  Ok (fragPb, len buff).

(** The loop of [fragmentExtensionBlocksLen] over the extension blocks. *)
Fixpoint ext_lens (mtu : Z) (l : list CanonicalBlock) (first others : Z) : res (Z * Z) :=
  match l with
  | [] => Ok (first, others)
  | eb :: l =>
      tc ← TypeCode eb;
      let eb := if tc =? BlockTypePayloadBlock
                then mkCanonical (cb_BlockNumber eb) (cb_BlockControlFlags eb) 0 [] (Some (PayloadBlock []))
                else eb in
      let eb := CanonicalBlock_SetCRCType CRC32 eb in
      '(buff, eb) ← CanonicalBlock_MarshalCbor eb;
      let cbLen := len buff in
      let first := first + cbLen in
      let others := if Has (cb_BlockControlFlags eb) ReplicateBlock then others + cbLen else others in
      tc ← TypeCode eb;
      if tc =? BlockTypePayloadBlock then
        let field := len (WriteByteStringLen (wrap_u64 mtu)) in
        ext_lens mtu l (first + (field - 1)) (others + (cbLen + field - 1))
      else ext_lens mtu l first others
  end.

Definition fragmentExtensionBlocksLen (b : Bundle) (mtu : Z) : res (Z * Z) :=
  '(first, others) ← ext_lens mtu (b_ExtensionBlocks b) 0 0;
  let eb := mkCanonical 1 (cb_BlockControlFlags (b_PayloadBlock b)) CRC32 [] (Some (PayloadBlock [])) in
  '(buff, _) ← CanonicalBlock_MarshalCbor eb;
  let cbLen := len buff in
  let field := len (WriteByteStringLen (wrap_u64 mtu)) in
  Ok (first + cbLen + (field - 1), others + (cbLen + field - 1)).

(** The extension blocks a fragment at offset [i] gets. *)
Fixpoint add_blocks (i : Z) (fragBundle : Bundle) (l : list CanonicalBlock) : res Bundle :=
  match l with
  | [] => Ok fragBundle
  | cb :: l =>
      if (0 <? i) && negb (Has (cb_BlockControlFlags cb) ReplicateBlock) then add_blocks i fragBundle l else
      fragBundle ← AddExtensionBlock fragBundle cb;
      add_blocks i fragBundle l
  end.

(** One round of the loop in [Fragment]: the fragment at offset [i], and the room
    for payload in it. *)
Definition make_fragment (now : Z) (b : Bundle) (mtu extFirstOverhead extOtherOverhead i : Z) : res (Bundle * Z) :=
  data ← payload_data (b_PayloadBlock b);
  '(fragPrimaryBlock, primaryOverhead) ← fragmentPrimaryBlock (b_PrimaryBlock b) i (len data);
  let overhead := 2 + primaryOverhead + (if i =? 0 then extFirstOverhead else extOtherOverhead) in
  if mtu <=? overhead then Err (errorf "bundle overhead of fragment exceeds MTU") else
  fragBundle ← add_blocks i (MustNewBundle fragPrimaryBlock [] zero_canonical) (b_ExtensionBlocks b);
  let fragPayloadBlockLen := mtu - overhead in
  let offset := Z.min (i + fragPayloadBlockLen) (len data) in
  chunk ← slice i offset data;
  let fragBundle := set_b_PayloadBlock
    (mkCanonical 1 (cb_BlockControlFlags (b_PayloadBlock b)) (cb_CRCType (b_PayloadBlock b)) [] (Some (PayloadBlock chunk)))
    fragBundle in
  check_bundle now fragBundle;;
  Ok (fragBundle, fragPayloadBlockLen).

(** The loop; every round advances [i], so the payload's length bounds the
    rounds, see [fragment_loop_rounds]. *)
Fixpoint fragment_loop (now : Z) (b : Bundle) (mtu extFirstOverhead extOtherOverhead payloadBlockLen : Z)
    (fuel : nat) (i : Z) : res (list Bundle) :=
  if i <? payloadBlockLen then
    match fuel with
    | O => Err (errorf "out of fuel")
    | S fuel =>
        '(fragBundle, n) ← make_fragment now b mtu extFirstOverhead extOtherOverhead i;
        bs ← fragment_loop now b mtu extFirstOverhead extOtherOverhead payloadBlockLen fuel (i + n);
        Ok (fragBundle :: bs)
    end
  else Ok [].

(** [Bundle.Fragment]; fragments made before an error are not kept. *)
Definition Fragment (now : Z) (b : Bundle) (mtu : Z) : res (list Bundle) :=
  if Has (pb_BundleControlFlags (b_PrimaryBlock b)) MustNotFragmented then
    Err (errorf "bundle control flags forbids bundle fragmentation")
  else
    data ← payload_data (b_PayloadBlock b);
    '(extFirstOverhead, extOtherOverhead) ← fragmentExtensionBlocksLen b mtu;
    bs ← fragment_loop now b mtu extFirstOverhead extOtherOverhead (len data) (length data) 0;
    Ok (match bs with [_] => [b] | _ => bs end).

(** ** Reassembly *)

Definition offset_less (x y : Bundle) : bool :=
  pb_FragmentOffset (b_PrimaryBlock x) <? pb_FragmentOffset (b_PrimaryBlock y).

(** The loop of [prepareReassembly] over the sorted fragments; the [uint64] end of
    the last one. *)
Fixpoint check_gaps (lastIndex : Z) (bs : list Bundle) : res Z :=
  match bs with
  | [] => Ok lastIndex
  | b :: bs =>
      if negb (Has (pb_BundleControlFlags (b_PrimaryBlock b)) IsFragment) then Err (errorf "bundle is not a fragment") else
      let fragOff := pb_FragmentOffset (b_PrimaryBlock b) in
      if lastIndex <? fragOff then Err (errorf "next fragment starts at offset, gap") else
      data ← payload_data (b_PayloadBlock b);
      check_gaps (wrap_u64 (fragOff + len data)) bs
  end.

(** [prepareReassembly] sorts its argument in place: the result, and the sorted
    slice. *)
Definition prepareReassembly (bs : list Bundle) : res () * list Bundle :=
  match bs with
  | [] => (Err (errorf "slice of fragments is empty"), bs)
  | _ =>
      let bs := go_sort offset_less bs in
      (lastIndex ← check_gaps 0 bs;
       match bs with
       | b0 :: _ => if pb_TotalDataLength (b_PrimaryBlock b0) =? lastIndex then Ok ()
                    else Err (errorf "last index does not match total length")
       | [] => Panic
       end, bs)
  end.

Definition IsBundleReassemblable (bs : list Bundle) : res bool :=
  match (prepareReassembly bs).1 with Ok _ => Ok true | Err _ => Ok false | Panic => Panic end.

Fixpoint merge_payloads (lastIndex : Z) (data : bytes) (bs : list Bundle) : res bytes :=
  match bs with
  | [] => Ok data
  | b :: bs =>
      let fragStartIndex := wrap_i64 (pb_FragmentOffset (b_PrimaryBlock b)) in
      fragPayloadData ← payload_data (b_PayloadBlock b);
      rest ← slice (wrap_i64 (lastIndex - fragStartIndex)) (len fragPayloadData) fragPayloadData;
      merge_payloads (wrap_i64 (fragStartIndex + len fragPayloadData)) (data ++ rest) bs
  end.

Definition mergeFragmentPayload (bs : list Bundle) : res bytes := merge_payloads 0 [] bs.

(** The primary block of the reassembled bundle. *)
Definition reassembled_primary (p : PrimaryBlock) : PrimaryBlock :=
  mkPrimary (pb_Version p) (Z.ldiff (pb_BundleControlFlags p) IsFragment) (pb_CRCType p) (pb_Destination p)
    (pb_SourceNode p) (pb_ReportTo p) (pb_CreationTimestamp p) (pb_Lifetime p) 0 0 [].

(** [ReassembleFragments]; the half-built bundle it returns with an error is not
    kept. *)
Definition ReassembleFragments (now : Z) (bs : list Bundle) : res Bundle :=
  let '(r, bs) := prepareReassembly bs in
  r;;
  match bs with
  | [] => Panic
  | b0 :: _ =>
      b ← add_blocks 0 (set_b_PrimaryBlock (reassembled_primary (b_PrimaryBlock b0)) zero_bundle) (b_ExtensionBlocks b0);
      payload ← mergeFragmentPayload bs;
      let pb0 := b_PayloadBlock b0 in
      let cb := CanonicalBlock_SetCRCType (cb_CRCType pb0)
                  (NewCanonicalBlock 1 (cb_BlockControlFlags pb0) (PayloadBlock payload)) in
      let b := set_b_PayloadBlock cb b in
      check_bundle now b;;
      Ok b
  end.
End Fragmentation.

(** ** Lemmas: extension blocks of fragments *)

(** Blocks numbered [n], [n+1], ... in their order. *)
Fixpoint renumber (n : Z) (l : list CanonicalBlock) : list CanonicalBlock :=
  match l with
  | [] => []
  | cb :: l => set_cb_BlockNumber n cb :: renumber (n + 1) l
  end.

(** The blocks of [l] that the fragment at offset [i] carries. *)
Definition copied (i : Z) (l : list CanonicalBlock) : list CanonicalBlock :=
  filter (λ cb, (0 <? i) && negb (Has (cb_BlockControlFlags cb) ReplicateBlock) = false) l.

Definition extension_only (l : list CanonicalBlock) : Prop :=
  Forall (λ cb, ∃ v, cb_Value cb = Some v ∧ BlockTypeCode v ≠ BlockTypePayloadBlock) l.

Lemma length_renumber n l : length (renumber n l) = length l.
Proof. revert n. induction l; intros; simpl; auto. Qed.

Lemma renumber_app n l k : renumber n (l ++ k) = renumber n l ++ renumber (n + len l) k.
Proof.
  revert n. induction l as [|c l IH]; intros n; simpl.
  - unfold len. simpl. by rewrite Z.add_0_r.
  - rewrite IH. do 3 f_equal. unfold len. simpl. lia.
Qed.

Lemma numbers_renumber n l : block_numbers (renumber n l) = seqZ n (len l).
Proof.
  revert n. induction l as [|c l IH]; intros n; [done|]. unfold len in *. cbn [renumber length].
  rewrite fmap_cons, IH. rewrite (seqZ_cons n) by lia. simpl. do 2 f_equal; lia.
Qed.

Lemma renumber_twice n m l : renumber n (renumber m l) = renumber n l.
Proof. revert n m. induction l as [|c l IH]; intros n m; simpl; [done|]. by rewrite IH. Qed.

Lemma renumber_sorted n l : 2 ≤ n → blocks_sorted (renumber n l).
Proof.
  revert n. induction l as [|c l IH]; intros n Hn; simpl; constructor; [apply IH; lia|].
  apply Forall_forall. intros x Hx. apply (list_elem_of_fmap_2 cb_BlockNumber) in Hx.
  rewrite numbers_renumber in Hx. apply elem_of_seqZ in Hx.
  unfold not_less, canonicalBlockNumberSort_Less. simpl. unfold BlockTypePayloadBlock.
  rewrite (proj2 (Z.eqb_neq _ 1)) by lia. rewrite (proj2 (Z.eqb_neq n 1)) by lia. apply Z.ltb_ge. lia.
Qed.

Lemma next_number_seqZ fuel n k : (Z.to_nat k ≤ fuel)%nat → 0 ≤ k → next_number fuel n (seqZ n k) = n + k.
Proof.
  intros Hf Hk. destruct (next_number_cases fuel n (seqZ n k)) as (H1 & H2 & _).
  pose proof (next_number_fresh fuel n (seqZ n k) ltac:(rewrite length_seqZ; done)) as H3.
  rewrite elem_of_seqZ in H3.
  destruct (decide (n + k < next_number fuel n (seqZ n k))) as [Hlt|]; [|lia].
  specialize (H2 (n + k) ltac:(lia)). apply elem_of_seqZ in H2. lia.
Qed.

(** Blocks that are added one after the other to a bundle without extension
    blocks are numbered from 2 on and keep their order. *)
Lemma AddExtensionBlock_renumber fb k cb v :
  b_ExtensionBlocks fb = renumber 2 k → cb_Value cb = Some v → BlockTypeCode v ≠ BlockTypePayloadBlock →
  AddExtensionBlock fb cb = Ok (set_b_ExtensionBlocks (renumber 2 (k ++ [cb])) fb).
Proof.
  intros Hk Hv Ht. unfold AddExtensionBlock. rewrite Hv, Hk, (proj2 (Z.eqb_neq _ _) Ht), numbers_renumber.
  rewrite next_number_seqZ by (rewrite ?length_seqZ; unfold len; lia).
  unfold sortExtensionBlocks. cbn [b_ExtensionBlocks set_b_ExtensionBlocks].
  change ([set_cb_BlockNumber (2 + len k) cb]) with (renumber (2 + len k) [cb]).
  rewrite <- renumber_app, go_sort_id by (apply renumber_sorted; lia). done.
Qed.

Lemma add_blocks_renumber i fb k l : b_ExtensionBlocks fb = renumber 2 k → extension_only l →
  add_blocks i fb l = Ok (set_b_ExtensionBlocks (renumber 2 (k ++ copied i l)) fb).
Proof.
  intros Hk Hl. revert fb k Hk. induction Hl as [|c l (v & Hv & Ht) Hl IH]; intros fb k Hk; simpl.
  - unfold copied. rewrite filter_nil, app_nil_r, <- Hk. by destruct fb.
  - unfold copied. rewrite filter_cons. destruct (_ && _) eqn:E.
    + rewrite decide_False by done. by apply IH.
    + rewrite decide_True by done. rewrite (AddExtensionBlock_renumber _ _ _ _ Hk Hv Ht). simpl.
      rewrite (IH _ (k ++ [c])) by done. by rewrite <- app_assoc.
Qed.

Lemma extension_only_renumber n l : extension_only l → extension_only (renumber n l).
Proof. intros Hl. revert n. induction Hl; intros n; simpl; constructor; auto. apply IHHl. Qed.

Lemma copied_0 l : copied 0 l = l.
Proof. unfold copied. induction l as [|c l IH]; [done|]. rewrite filter_cons_True by done. by rewrite IH. Qed.

(** ** Lemmas: the loop of [Fragment] *)

Section Loop.
Context `{Cboring} `{Crc16} `{GoMapRange} `{Ed25519}.

Lemma check_bundle_Ok now b : check_bundle now b = Ok () ↔ Bundle_CheckValid now b = Ok [].
Proof.
  unfold check_bundle. destruct (Bundle_CheckValid now b) as [[|]| |]; simpl; split; done.
Qed.

(** The payload block of a fragment of [b]. *)
Definition frag_payload (b : Bundle) (chunk : bytes) : CanonicalBlock :=
  mkCanonical 1 (cb_BlockControlFlags (b_PayloadBlock b)) (cb_CRCType (b_PayloadBlock b)) [] (Some (PayloadBlock chunk)).

Definition chunk_at (data : bytes) (i n : Z) : bytes := take (Z.to_nat n) (drop (Z.to_nat i) data).

Lemma slice_chunk data i n : 0 ≤ i ≤ len data → 0 < n →
  slice i (Z.min (i + n) (len data)) data = Ok (chunk_at data i n).
Proof.
  intros Hi Hn. unfold slice, chunk_at.
  rewrite (proj2 (Z.leb_le 0 i)), (proj2 (Z.leb_le i (Z.min _ _))), (proj2 (Z.leb_le (Z.min _ _) _)) by lia.
  simpl. f_equal. destruct (Z.min_spec (i + n) (len data)) as [[_ ->]|[Hle ->]]; [do 2 f_equal; lia|].
  unfold len in *. rewrite !take_ge; [done|rewrite length_drop; lia..].
Qed.

Section Bundle.
Context (now mtu f o : Z) (b : Bundle) (data : bytes).
Hypothesis Hext : extension_only (b_ExtensionBlocks b).
Hypothesis Hdata : payload_data (b_PayloadBlock b) = Ok data.

Lemma make_fragment_inv i fb n : 0 ≤ i < len data → make_fragment now b mtu f o i = Ok (fb, n) →
  ∃ pbs fp, PrimaryBlock_MarshalCbor (frag_primary (b_PrimaryBlock b) i (len data)) = Ok (pbs, fp) ∧
    n = mtu - (2 + len pbs + (if i =? 0 then f else o)) ∧ 0 < n ∧
    fb = mkBundle fp (renumber 2 (copied i (b_ExtensionBlocks b))) (frag_payload b (chunk_at data i n)) ∧
    Bundle_CheckValid now fb = Ok [].
Proof.
  intros Hi. unfold make_fragment, fragmentPrimaryBlock. rewrite Hdata. simpl.
  destruct (PrimaryBlock_MarshalCbor _) as [[pbs fp]| |]; [|done..]. simpl.
  destruct (Z.leb_spec mtu (2 + len pbs + (if i =? 0 then f else o))) as [|Hlt]; [done|].
  rewrite (add_blocks_renumber i _ []) by done. simpl.
  rewrite slice_chunk by lia. simpl.
  destruct (check_bundle now _) as [[]| |] eqn:Ec; [|done..]. simpl. intros [= <- <-].
  apply check_bundle_Ok in Ec. eexists _, _. split; [done|]. split; [done|]. split; [lia|]. done.
Qed.

(** Fragments that follow each other from offset [i] to the end of the payload. *)
Fixpoint chain (i : Z) (bs : list Bundle) : Prop :=
  match bs with
  | [] => len data ≤ i
  | fb :: bs => i < len data ∧ ∃ n, make_fragment now b mtu f o i = Ok (fb, n) ∧ chain (i + n) bs
  end.

Lemma fragment_loop_chain fuel i bs :
  fragment_loop now b mtu f o (len data) fuel i = Ok bs → chain i bs.
Proof.
  revert i bs. induction fuel as [|fuel IH]; intros i bs; simpl; destruct (Z.ltb_spec i (len data)); try done;
    try (intros <-%Ok_inj; simpl; lia).
  destruct (make_fragment now b mtu f o i) as [[fb n]| |] eqn:E; [|done..]. simpl.
  destruct (fragment_loop _ _ _ _ _ _ fuel _) as [bs'| |] eqn:El; [|done..]. simpl. intros <-%Ok_inj.
  simpl. eauto.
Qed.

(** Every round advances, so as many rounds as bytes are left are enough. *)
Lemma fragment_loop_rounds n m i : 0 ≤ i → (len data ≤ i + Z.of_nat n) → (len data ≤ i + Z.of_nat m) →
  fragment_loop now b mtu f o (len data) n i = fragment_loop now b mtu f o (len data) m i.
Proof.
  revert m i. induction n as [|n IH]; intros [|m] i Hi Hn Hm; simpl;
    destruct (Z.ltb_spec i (len data)); try done; try lia.
  destruct (make_fragment now b mtu f o i) as [[fb k]| |] eqn:E; [|done..]. simpl.
  destruct (make_fragment_inv i fb k ltac:(lia) E) as (_ & _ & _ & _ & Hk & _).
  by rewrite (IH m) by lia.
Qed.
End Bundle.
End Loop.

(** ** Lemmas: reassembly *)

Section Reassembly.
Context `{Cboring} `{Crc16} `{GoMapRange} `{Ed25519}.

Lemma PrimaryBlock_Marshal_crc p bs p' : PrimaryBlock_MarshalCbor p = Ok (bs, p') → ∃ crc, p' = set_pb_CRC crc p.
Proof.
  unfold PrimaryBlock_MarshalCbor. destruct (primary_body p); [|done..]. simpl.
  destruct (PrimaryBlock_HasCRC p); [|intros [= <- <-]; exists (pb_CRC p); by destruct p].
  destruct (calculateCRCBuff _ _); [|done..]. intros [= <- <-]. eauto.
Qed.

Section Bundle.
Context (now mtu f o : Z) (b : Bundle) (data : bytes).
Hypothesis Hext : extension_only (b_ExtensionBlocks b).
Hypothesis Hdata : payload_data (b_PayloadBlock b) = Ok data.
Hypothesis Hlen : len data < two63.

(** What reassembly looks at in a fragment. *)
Lemma make_fragment_fields i fb n : 0 ≤ i < len data → make_fragment now b mtu f o i = Ok (fb, n) →
  0 < n ∧ Has (pb_BundleControlFlags (b_PrimaryBlock fb)) IsFragment = true ∧
  pb_FragmentOffset (b_PrimaryBlock fb) = i ∧ pb_TotalDataLength (b_PrimaryBlock fb) = len data ∧
  payload_data (b_PayloadBlock fb) = Ok (chunk_at data i n) ∧
  i + len (chunk_at data i n) = Z.min (i + n) (len data).
Proof.
  intros Hi E. destruct (make_fragment_inv now mtu f o b data Hext Hdata i fb n Hi E)
    as (pbs & fp & Ep & _ & Hn & -> & _).
  destruct (PrimaryBlock_Marshal_crc _ _ _ Ep) as [crc ->]. simpl.
  split; [done|]. split; [apply Has_lor_IsFragment|].
  rewrite !wrap_u64_id by u64_lia. split; [done|]. split; [done|]. split; [done|].
  unfold chunk_at, len in *. rewrite length_take, length_drop. lia.
Qed.

Abbreviation the_chain := (chain now mtu f o b data).

Lemma chain_gaps i bs : 0 ≤ i ≤ len data → the_chain i bs → check_gaps i bs = Ok (len data).
Proof.
  revert i. induction bs as [|fb bs IH]; intros i Hi; simpl; [intros; f_equal; lia|].
  intros (Hlt & n & E & Hc). destruct (make_fragment_fields i fb n ltac:(lia) E) as (Hn & -> & -> & _ & -> & Hend).
  simpl. rewrite Z.ltb_irrefl, Hend, wrap_u64_id by u64_lia.
  destruct (Z.le_gt_cases (len data) (i + n)).
  - rewrite Z.min_r by lia. destruct bs as [|fb' bs]; [done|]. simpl in Hc. lia.
  - rewrite Z.min_l by lia. apply IH; [lia|done].
Qed.

Lemma take_chunk i n : 0 ≤ i → 0 < n →
  take (Z.to_nat i) data ++ chunk_at data i n = take (Z.to_nat (i + n)) data.
Proof.
  intros Hi Hn. unfold chunk_at. rewrite Z2Nat.inj_add by lia. by rewrite take_take_drop.
Qed.

Lemma slice_all d : slice 0 (len d) d = Ok d.
Proof.
  unfold slice. rewrite (proj2 (Z.leb_le 0 (len d))), Z.leb_refl by apply len_nonneg.
  simpl. rewrite Z.sub_0_r. change (drop (Z.to_nat 0) d) with d. unfold len. by rewrite Z.leb_refl, Nat2Z.id, firstn_all.
Qed.

Lemma chain_merge i bs : 0 ≤ i ≤ len data → the_chain i bs →
  merge_payloads i (take (Z.to_nat i) data) bs = Ok data.
Proof.
  revert i. induction bs as [|fb bs IH]; intros i Hi; simpl.
  - intros. unfold len in *. by rewrite take_ge by lia.
  - intros (Hlt & n & E & Hc). destruct (make_fragment_fields i fb n ltac:(lia) E) as (Hn & _ & -> & _ & -> & Hend).
    simpl. rewrite (wrap_i64_id i) by u64_lia. rewrite Z.sub_diag, slice_all. simpl.
    rewrite Hend, take_chunk, wrap_i64_id by u64_lia.
    destruct (Z.le_gt_cases (len data) (i + n)).
    + rewrite Z.min_r by lia. destruct bs as [|fb' bs]; [|simpl in Hc; lia]. simpl.
      unfold len in *. by rewrite take_ge by lia.
    + rewrite Z.min_l by lia. apply IH; [lia|done].
Qed.

Lemma chain_sorted i bs : 0 ≤ i → the_chain i bs →
  StronglySorted (not_less offset_less) bs ∧
  Forall (λ x, i ≤ pb_FragmentOffset (b_PrimaryBlock x)) bs ∧
  NoDup ((λ x, pb_FragmentOffset (b_PrimaryBlock x)) <$> bs).
Proof.
  revert i. induction bs as [|fb bs IH]; intros i Hi; simpl; [repeat constructor|].
  intros (Hlt & n & E & Hc). destruct (make_fragment_fields i fb n ltac:(lia) E) as (Hn & _ & Ho & _ & _ & _).
  destruct (IH (i + n) ltac:(lia) Hc) as (Hs & Hf & Hnd). rewrite Forall_forall in Hf. split; [|split].
  - constructor; [done|]. apply Forall_forall. intros x Hx. specialize (Hf x Hx).
    unfold not_less, offset_less. apply Z.ltb_ge. rewrite Ho. simpl in Hf. lia.
  - constructor; [lia|]. apply Forall_forall. intros x Hx. specialize (Hf x Hx). simpl in Hf. lia.
  - rewrite Ho. constructor; [|done]. intros (x & Hxo & Hx)%list_elem_of_fmap.
    specialize (Hf x Hx). simpl in Hf. lia.
Qed.

(** Sorting any arrangement of the fragments puts them in their order. *)
Lemma chain_sort bs bs' : the_chain 0 bs → bs' ≡ₚ bs → go_sort offset_less bs' = bs.
Proof.
  intros Hc Hp. destruct (chain_sorted 0 bs ltac:(lia) Hc) as (Hs & _ & Hnd). symmetry. apply go_sort_unique; [..|done|done].
  - intros x y Hxy%Z.ltb_lt. apply Z.ltb_ge. lia.
  - intros x y z Hxy%Z.ltb_ge Hyz%Z.ltb_ge. apply Z.ltb_ge. lia.
  - intros x y Hx Hy Hxy%Z.ltb_ge Hyx%Z.ltb_ge. rewrite Hp in Hx, Hy.
    apply list_elem_of_lookup in Hx as [i Hi], Hy as [j Hj].
    assert (i = j) as ->; [|congruence].
    apply (NoDup_lookup _ i j (pb_FragmentOffset (b_PrimaryBlock x)) Hnd);
      rewrite list_lookup_fmap, ?Hi, ?Hj; simpl; [done|]. f_equal. lia.
Qed.
End Bundle.
End Reassembly.

(** ** Round trip *)

Section Roundtrip.
Context `{Cboring} `{Crc16} `{GoMapRange} `{Ed25519}.

Lemma Fragment_inv now b mtu bs data : payload_data (b_PayloadBlock b) = Ok data → Fragment now b mtu = Ok bs →
  Has (pb_BundleControlFlags (b_PrimaryBlock b)) MustNotFragmented = false ∧
  ∃ f o bs', fragmentExtensionBlocksLen b mtu = Ok (f, o) ∧ chain now mtu f o b data 0 bs' ∧
    bs = match bs' with [_] => [b] | _ => bs' end.
Proof.
  intros Hd. unfold Fragment. destruct (Has _ MustNotFragmented); [done|]. rewrite Hd. simpl.
  destruct (fragmentExtensionBlocksLen b mtu) as [[f o]| |]; [|done..]. simpl.
  destruct (fragment_loop _ _ _ _ _ _ _ _) as [bs'| |] eqn:El; [|done..]. simpl. intros <-%Ok_inj.
  apply fragment_loop_chain in El. eauto 10.
Qed.

Lemma add_blocks_all b l : b_ExtensionBlocks b = [] → extension_only l →
  add_blocks 0 b (renumber 2 l) = Ok (set_b_ExtensionBlocks (renumber 2 l) b).
Proof.
  intros Hb Hl. rewrite (add_blocks_renumber 0 b [] (renumber 2 l)) by auto using extension_only_renumber.
  by rewrite copied_0, app_nil_l, renumber_twice.
Qed.

Lemma reassembled_frag_primary p i total crc : HasFragmentation p = false →
  pb_FragmentOffset p = 0 → pb_TotalDataLength p = 0 →
  reassembled_primary (set_pb_CRC crc (frag_primary p i total)) = set_pb_CRC [] p.
Proof.
  intros Hf Ho Ht. unfold reassembled_primary, frag_primary, set_pb_CRC. simpl. rewrite Ho, Ht.
  unfold IsFragment. change 0x000001 with (2 ^ 0). rewrite ldiff_lor_bit; [done|lia|done].
Qed.

(** Reassembling fragments that follow each other. *)
Lemma Reassemble_chain now now' mtu f o b data bs bs' :
  extension_only (b_ExtensionBlocks b) → payload_data (b_PayloadBlock b) = Ok data → len data < two63 →
  HasFragmentation (b_PrimaryBlock b) = false →
  pb_FragmentOffset (b_PrimaryBlock b) = 0 → pb_TotalDataLength (b_PrimaryBlock b) = 0 →
  chain now mtu f o b data 0 bs → bs ≠ [] → bs' ≡ₚ bs →
  let b' := mkBundle (set_pb_CRC [] (b_PrimaryBlock b)) (renumber 2 (b_ExtensionBlocks b)) (frag_payload b data) in
  ReassembleFragments now' bs' = (check_bundle now' b';; Ok b').
Proof.
  intros Hext Hdata Hlen Hf Ho Ht Hc Hne Hp b'. unfold ReassembleFragments, prepareReassembly.
  destruct bs' as [|x bs']; [by apply Permutation_nil in Hp|].
  rewrite (chain_sort now mtu f o b data Hext Hdata Hlen bs (x :: bs') Hc Hp).
  pose proof (chain_gaps now mtu f o b data Hext Hdata Hlen 0 bs ltac:(pose proof (len_nonneg data); lia) Hc) as Hg.
  pose proof (chain_merge now mtu f o b data Hext Hdata Hlen 0 bs ltac:(pose proof (len_nonneg data); lia) Hc) as Hm.
  destruct bs as [|fb bs]; [done|]. rewrite Hg. simpl in Hc. destruct Hc as (Hlt & n & E & _).
  destruct (make_fragment_inv now mtu f o b data Hext Hdata 0 fb n ltac:(lia) E) as (pbs & fp & Ep & _ & _ & Hfb & _).
  destruct (make_fragment_fields now mtu f o b data Hext Hdata Hlen 0 fb n ltac:(lia) E) as (_ & _ & _ & Htot & _).
  destruct (PrimaryBlock_Marshal_crc _ _ _ Ep) as [crc Hfp].
  cbn [mbind res_bind]. rewrite Htot, Z.eqb_refl.
  unfold mergeFragmentPayload. change (take (Z.to_nat 0) data) with (@nil Byte.byte) in Hm. rewrite Hm.
  rewrite Hfb, Hfp, copied_0. simpl. rewrite reassembled_frag_primary by done.
  rewrite add_blocks_all by done. done.
Qed.

(** C4: when a bundle that passes [CheckValid], is not itself a fragment and numbers its
    extension blocks 2, 3, ... in their order was split into two or more fragments,
    reassembling the fragments in whatever order they arrive gives back the
    bundle (up to the CRC values, which are computed when it is sent). *)
Theorem fragment_reassemble now now' b mtu bs bs' data :
  extension_only (b_ExtensionBlocks b) → b_ExtensionBlocks b = renumber 2 (b_ExtensionBlocks b) →
  payload_data (b_PayloadBlock b) = Ok data → cb_BlockNumber (b_PayloadBlock b) = 1 → len data < two63 →
  HasFragmentation (b_PrimaryBlock b) = false →
  pb_FragmentOffset (b_PrimaryBlock b) = 0 → pb_TotalDataLength (b_PrimaryBlock b) = 0 →
  Bundle_CheckValid now' b = Ok [] →
  Fragment now b mtu = Ok bs → (2 ≤ length bs)%nat → bs' ≡ₚ bs →
  ∃ b', ReassembleFragments now' bs' = Ok b' ∧ erase_crc b' = erase_crc b.
Proof.
  intros Hext Hren Hdata Hno Hlen Hf Ho Ht Hv Hfr Hbs Hp.
  destruct (Fragment_inv _ _ _ _ _ Hdata Hfr) as (_ & f & o & bs2 & _ & Hc & Hbs2).
  assert (bs2 = bs) as ->. { destruct bs2 as [|? [|]]; subst bs; simpl in Hbs; [lia|lia|done]. }
  rewrite (Reassemble_chain now now' mtu f o b data bs bs') by (done || by destruct bs; simpl in *; [lia|]).
  set (b' := mkBundle _ _ _). assert (erase_crc b' = erase_crc b) as He.
  { unfold erase_crc, b'. simpl. rewrite <- Hren. f_equal. unfold payload_data, frag_payload in *.
    destruct (b_PayloadBlock b) as [? ? ? ? [[]|]]; simpl in *; by simplify_eq. }
  exists b'. split; [|done]. rewrite (proj2 (check_bundle_Ok now' b')); [done|].
  by rewrite <- Bundle_CheckValid_erase, He, Bundle_CheckValid_erase.
Qed.
End Roundtrip.

Definition replicated (cb : CanonicalBlock) : CanonicalBlock :=
  mkCanonical (cb_BlockNumber cb) ReplicateBlock (cb_CRCType cb) (cb_CRC cb) (cb_Value cb).

Definition long_bundle : Bundle :=
  mkBundle (sample_primary 0) [hop_block 2 16 3; replicated (age_block 3 1500)]
    (payload_block "a payload of some sixty bytes, which does not fit one fragment").

Lemma fragment_reassemble_witness :
  ∃ bs b', Fragment 0 long_bundle 110 = Ok bs ∧ length bs = 3%nat ∧
    ReassembleFragments 0 (reverse bs) = Ok b' ∧ erase_crc b' = erase_crc long_bundle.
Proof.
  destruct (Fragment 0 long_bundle 110) as [bs| |] eqn:E; [|vm_compute in E; discriminate E..].
  assert (length bs = 3%nat) as Hl by (vm_compute in E; injection E as <-; reflexivity).
  destruct (fragment_reassemble 0 0 long_bundle 110 bs (reverse bs)
    (str_bytes "a payload of some sixty bytes, which does not fit one fragment")) as (b' & H1 & H2).
  - repeat constructor; eexists; (split; [reflexivity|discriminate]).
  - reflexivity.
  - reflexivity.
  - reflexivity.
  - reflexivity.
  - reflexivity.
  - reflexivity.
  - reflexivity.
  - vm_compute. reflexivity.
  - exact E.
  - rewrite Hl. lia.
  - apply reverse_Permutation.
  - exists bs, b'. split; [reflexivity|]. split; [exact Hl|]. split; [exact H1|exact H2].
Defined.

(** ** Overlapping fragments *)

(** [fb] carries the part of [data] its offset says. *)
Definition slice_of (data : bytes) (fb : Bundle) : Prop :=
  ∃ n, payload_data (b_PayloadBlock fb) = Ok (chunk_at data (pb_FragmentOffset (b_PrimaryBlock fb)) n) ∧
    0 ≤ n ∧ 0 ≤ pb_FragmentOffset (b_PrimaryBlock fb) ∧ pb_FragmentOffset (b_PrimaryBlock fb) + n ≤ len data.

Definition frag_end (fb : Bundle) : Z :=
  match payload_data (b_PayloadBlock fb) with
  | Ok d => pb_FragmentOffset (b_PrimaryBlock fb) + len d
  | _ => 0
  end.

(** No fragment ends before the one sorted before it. *)
Fixpoint ends_increase (last : Z) (bs : list Bundle) : Prop :=
  match bs with
  | [] => True
  | fb :: bs => last ≤ frag_end fb ∧ ends_increase (frag_end fb) bs
  end.

Lemma len_chunk_at data i n : 0 ≤ i → 0 ≤ n → i + n ≤ len data → len (chunk_at data i n) = n.
Proof. intros. unfold chunk_at, len in *. rewrite length_take, length_drop. lia. Qed.

Lemma slice_tail data i n k : 0 ≤ i → 0 ≤ n → i + n ≤ len data → 0 ≤ k ≤ n →
  slice k (len (chunk_at data i n)) (chunk_at data i n) = Ok (chunk_at data (i + k) (n - k)).
Proof.
  intros. unfold slice. rewrite len_chunk_at by lia.
  rewrite (proj2 (Z.leb_le 0 k)), (proj2 (Z.leb_le k n)), Z.leb_refl by lia. simpl. f_equal.
  unfold chunk_at. rewrite skipn_firstn_comm, take_take, drop_drop. f_equal; [lia|]. f_equal. lia.
Qed.

Lemma merge_slices data i bs : len data < two63 → 0 ≤ i ≤ len data →
  Forall (slice_of data) bs → ends_increase i bs → check_gaps i bs = Ok (len data) →
  merge_payloads i (take (Z.to_nat i) data) bs = Ok data.
Proof.
  intros Hlen Hi Hs. revert i Hi. induction Hs as [|fb bs (n & Hd & Hn & Ho & Hle) Hs IH]; intros i Hi; simpl.
  { intros _ Hg%Ok_inj. subst i. unfold len. by rewrite Nat2Z.id, firstn_all. }
  unfold frag_end. rewrite Hd. set (off := pb_FragmentOffset _) in *. simpl.
  rewrite len_chunk_at by lia. intros [Hend Hinc] Hg. destruct (Has _ IsFragment); [|done]. simpl in Hg.
  destruct (Z.ltb_spec i off) as [|Hoff]; [done|]. rewrite wrap_u64_id in Hg by u64_lia.
  rewrite (wrap_i64_id off) by u64_lia. rewrite !wrap_i64_id by u64_lia.
  pose proof (slice_tail data off n (i - off) ltac:(lia) ltac:(lia) ltac:(lia) ltac:(lia)) as Hsl.
  rewrite len_chunk_at in Hsl by lia. rewrite Hsl. simpl.
  replace (off + (i - off)) with i by lia. replace (n - (i - off)) with (off + n - i) by lia.
  assert (take (Z.to_nat i) data ++ chunk_at data i (off + n - i) = take (Z.to_nat (off + n)) data) as ->.
  { unfold chunk_at. rewrite take_take_drop. f_equal. lia. }
  apply IH; [lia|done|done].
Qed.

(** Overlapping fragments of one payload that leave no gap are merged to the
    payload, if no fragment ends before the one that sorts before it. *)
Theorem merge_overlapping data bs bs' :
  len data < two63 → Forall (slice_of data) bs → bs' = go_sort offset_less bs →
  ends_increase 0 bs' → prepareReassembly bs = (Ok (), bs') →
  Forall (λ fb, pb_TotalDataLength (b_PrimaryBlock fb) = len data) bs →
  mergeFragmentPayload bs' = Ok data.
Proof.
  intros Hlen Hs -> Hinc Hprep Htot. pose proof (go_sort_perm offset_less bs) as Hperm.
  rewrite <- Hperm in Hs, Htot. unfold prepareReassembly in Hprep.
  destruct bs as [|b0 bs]; [done|]. injection Hprep as Hprep.
  destruct (check_gaps 0 _) as [last| |] eqn:Eg; [|done..]. simpl in Hprep.
  destruct (go_sort offset_less (b0 :: bs)) as [|fb rest] eqn:Esort; [done|].
  apply Forall_cons in Htot as Ht. destruct Ht as [Ht _]. rewrite Ht in Hprep.
  destruct (Z.eqb_spec (len data) last) as [<-|]; [|done].
  apply (merge_slices data 0 (fb :: rest)); [done|pose proof (len_nonneg data); lia|done..].
Qed.

(** Fragments of the payload "abcdefghijkl". *)
Definition frag_of (off n : nat) : Bundle :=
  mkBundle (mkPrimary 7 1 CRC32 (dtn "dst" "in") (dtn "src" "") (dtn "src" "") (mkTimestamp 1 1) 60000 (Z.of_nat off) 12 [])
    [] (mkCanonical 1 0 CRCNo [] (Some (PayloadBlock (take n (drop off (str_bytes "abcdefghijkl")))))).

Lemma merge_overlapping_witness :
  mergeFragmentPayload [frag_of 0 7; frag_of 3 6; frag_of 8 4] = Ok (str_bytes "abcdefghijkl").
Proof.
  apply (merge_overlapping (str_bytes "abcdefghijkl") [frag_of 8 4; frag_of 0 7; frag_of 3 6]).
  - vm_compute. reflexivity.
  - repeat constructor; [exists 4|exists 7|exists 6]; vm_compute; repeat split; discriminate.
  - vm_compute. reflexivity.
  - vm_compute. repeat split; discriminate.
  - vm_compute. reflexivity.
  - repeat constructor.
Defined.

(** A fragment that lies inside an earlier one passes [IsBundleReassemblable],
    but the merge then slices out of range, so [ReassembleFragments] panics on
    fragments of a single payload that cover it. *)
Theorem contained_fragment_panics :
  let bs := [frag_of 0 10; frag_of 2 3; frag_of 5 7] in
  Forall (slice_of (str_bytes "abcdefghijkl")) bs ∧
  IsBundleReassemblable bs = Ok true ∧ ReassembleFragments 0 bs = Panic.
Proof.
  split; [|split; vm_compute; reflexivity].
  repeat constructor; [exists 10|exists 3|exists 7]; vm_compute; repeat split; discriminate.
Qed.

(** A bundle whose payload is empty is split into no fragments at all, without
    an error. *)
Theorem Fragment_empty_payload `{Cboring} `{Crc16} `{GoMapRange} `{Ed25519} now b mtu f o :
  Has (pb_BundleControlFlags (b_PrimaryBlock b)) MustNotFragmented = false →
  payload_data (b_PayloadBlock b) = Ok [] → fragmentExtensionBlocksLen b mtu = Ok (f, o) →
  Fragment now b mtu = Ok [].
Proof. intros Hf Hd Ho. unfold Fragment. by rewrite Hf, Hd; simpl; rewrite Ho. Qed.

Lemma Fragment_empty_payload_witness :
  Fragment 0 (set_b_PayloadBlock (payload_block "") sample_bundle) 500 = Ok [].
Proof.
  destruct (fragmentExtensionBlocksLen (set_b_PayloadBlock (payload_block "") sample_bundle) 500) as [[f o]| |] eqn:E;
    [|vm_compute in E; discriminate E..].
  apply (Fragment_empty_payload 0 (set_b_PayloadBlock (payload_block "") sample_bundle) 500 f o eq_refl eq_refl E).
Defined.
