(* ===== verification/FragmentMtu.v ===== *)
(** * Fragments fit the MTU

    The size bound of [Bundle.Fragment] ([pkg/bpv7/fragmentation.go]): the
    overhead the code estimates before it fills a fragment is never less than the
    real one, although blocks are renumbered and the payload's length field
    grows. *)

From stdpp Require Import base tactics list strings gmap sorting.
From Stdlib Require Import ZArith Lia Bool.
From S2P Require Import Prelude Cboring GoSort Flags Crc DtnTime Endpoint BundleId ExtensionBlocks Blocks.
From S2P Require Import Bundle Samples BundleCodec Fragmentation.
Local Open Scope Z_scope.

Section Sizes.
Context `{Cboring} `{Crc16} `{GoMapRange} `{Ed25519} `{!CboringLaws _}.

(** ** Sizes of canonical blocks *)

Lemma bstr_len d : is_u64 (len d) → len (WriteByteString d) = head_len (len d) + len d.
Proof. intros. by rewrite bstr_split, len_app, bslen_len. Qed.

(** Size of the CRC field. *)
Definition crc_extra (t : Z) : Z := if t =? CRCNo then 0 else 1 + Z.of_nat (crc_size t).

Lemma crc_extra_le t : crc_known t → 0 ≤ crc_extra t ≤ 5.
Proof. by intros [->|[->| ->]]. Qed.

Lemma crc_known_head t : crc_known t → head_len t = 1.
Proof. by intros [->|[->| ->]]. Qed.

(** Size of a canonical block, from its number, flags, CRC type, type code and the
    size of its data. *)
Definition cb_size (no flags crcType code dlen : Z) : Z :=
  1 + head_len code + head_len no + head_len flags + 1 + (head_len dlen + dlen) + crc_extra crcType.

Lemma canonical_size ebm cb bs cb' v d : CanonicalBlock_wf ebm cb →
  CanonicalBlock_MarshalCbor cb = Ok (bs, cb') → cb_Value cb = Some v → block_data v = Ok d →
  len bs = cb_size (cb_BlockNumber cb) (cb_BlockControlFlags cb) (cb_CRCType cb) (BlockTypeCode v) (len d).
Proof.
  intros (Hno & Hfl & Hcrc & _ & Hv) Hm Ev Ed. rewrite Ev in Hv. destruct Hv as (Hc & _ & Hfit & _).
  unfold block_fits in Hfit. rewrite Ed in Hfit.
  unfold CanonicalBlock_MarshalCbor, canonical_body, TypeCode, WriteBlock in Hm. rewrite Ev, Ed in Hm. simpl in Hm.
  set (body := WriteArrayLength _ ++ _) in Hm.
  assert (len body = 1 + head_len (BlockTypeCode v) + head_len (cb_BlockNumber cb) + head_len (cb_BlockControlFlags cb)
    + 1 + (head_len (len d) + len d)) as Hbody.
  { unfold body. rewrite !len_app, !uint_len, bstr_len by auto using crc_known_u64.
    rewrite array_len by (case_match; u64_lia). rewrite (crc_known_head _ Hcrc).
    destruct (CanonicalBlock_HasCRC cb); [change (head_len 6) with 1|change (head_len 5) with 1]; lia. }
  unfold cb_size, crc_extra, CanonicalBlock_HasCRC in *. destruct (Z.eqb_spec (cb_CRCType cb) CRCNo) as [E|E]; simpl in Hm.
  - injection Hm as <- _. lia.
  - destruct (calculateCRCBuff body (cb_CRCType cb)) as [crc| |] eqn:Ec; [|done..]. injection Hm as <- _.
    pose proof (crc_u64 _ _ _ Ec). apply calculateCRCBuff_Ok in Ec as [_ Hl].
    rewrite len_app, bstr_len, Hbody by done. assert (len crc = Z.of_nat (crc_size (cb_CRCType cb))) as -> by (unfold len; by rewrite Hl).
    assert (head_len (Z.of_nat (crc_size (cb_CRCType cb))) = 1) as -> by (destruct Hcrc as [->|[->| ->]]; done). lia.
Qed.

(** The size [fragmentExtensionBlocksLen] reckons with for a block. *)
Definition est_len (cb : CanonicalBlock) : Z :=
  match CanonicalBlock_MarshalCbor (CanonicalBlock_SetCRCType CRC32 cb) with Ok (bs, _) => len bs | _ => 0 end.
Definition est_sum (l : list CanonicalBlock) : Z := foldr (λ cb n, est_len cb + n) 0 l.

(** The same block with a number that is not longer on the wire. *)
Definition smaller (cb cb0 : CanonicalBlock) : Prop :=
  ∃ n, cb = set_cb_BlockNumber n cb0 ∧ is_u64 n ∧ head_len n ≤ head_len (cb_BlockNumber cb0).

Lemma wf_set_crc_type ebm cb : CanonicalBlock_wf ebm cb → CanonicalBlock_wf ebm (CanonicalBlock_SetCRCType CRC32 cb).
Proof.
  intros (? & ? & _ & _ & Hv). split; [done|]. split; [done|]. split; [right; by right|]. split; [done|exact Hv].
Qed.

Lemma wf_smaller ebm cb cb0 : smaller cb cb0 → CanonicalBlock_wf ebm cb0 → CanonicalBlock_wf ebm cb.
Proof. intros (n & -> & Hn & _) (_ & ?). by split. Qed.

Lemma wf_data ebm cb : CanonicalBlock_wf ebm cb → ∃ v d, cb_Value cb = Some v ∧ block_data v = Ok d.
Proof.
  intros (_ & _ & _ & _ & Hv). destruct (cb_Value cb) as [v|]; [|done]. destruct Hv as (_ & Hwf & _).
  destruct (block_data_wf v Hwf). eauto.
Qed.

Lemma est_len_ge ebm cb cb0 bs cb' : CanonicalBlock_wf ebm cb0 → smaller cb cb0 →
  CanonicalBlock_MarshalCbor cb = Ok (bs, cb') → len bs ≤ est_len cb0.
Proof.
  intros Hwf Hs Hm. pose proof (wf_smaller ebm _ _ Hs Hwf) as Hwf'.
  destruct (wf_data ebm cb Hwf') as (v & d & Hv & Hd).
  rewrite (canonical_size ebm cb bs cb' v d Hwf' Hm Hv Hd).
  destruct Hs as (n & -> & _ & Hle). simpl in Hv |- *. unfold est_len.
  destruct (CanonicalBlock_Marshal_wf ebm _ (wf_set_crc_type ebm _ Hwf)) as (bs2 & crc & E). rewrite E.
  rewrite (canonical_size ebm _ _ _ v d (wf_set_crc_type ebm _ Hwf) E Hv Hd). simpl.
  unfold cb_size. destruct Hwf as (_ & _ & Hcrc & _). pose proof (crc_extra_le _ Hcrc).
  change (crc_extra CRC32) with 5. lia.
Qed.

Lemma marshal_smaller ebm l l0 : Forall2 smaller l l0 → Forall (CanonicalBlock_wf ebm) l0 →
  ∃ bs l', marshal_blocks l = Ok (bs, l') ∧ len bs ≤ est_sum l0.
Proof.
  induction 1 as [|cb cb0 l l0 Hs Hl IH]; intros Hwf; simpl; [by exists [], []|].
  apply Forall_cons in Hwf as [Hc Hwf]. destruct (IH Hwf) as (bs & l' & -> & Hle).
  destruct (CanonicalBlock_Marshal_wf ebm cb (wf_smaller ebm _ _ Hs Hc)) as (cbs & crc & Ec). rewrite Ec. simpl.
  eexists _, _. split; [done|]. rewrite len_app. pose proof (est_len_ge ebm _ _ _ _ Hc Hs Ec). lia.
Qed.

Lemma ext_lens_wf ebm mtu l f o : Forall (CanonicalBlock_wf ebm) l → extension_only l →
  ext_lens mtu l f o = Ok (f + est_sum l, o + est_sum (copied 1 l)).
Proof.
  intros Hwf. revert f o. induction Hwf as [|cb l Hc Hl IH]; intros f o Hext; simpl.
  { by rewrite !Z.add_0_r. }
  apply Forall_cons in Hext as [(v & Hv & Ht) Hext].
  assert (TypeCode cb = Ok (BlockTypeCode v)) as Htc by (unfold TypeCode; by rewrite Hv).
  rewrite Htc. simpl. rewrite (proj2 (Z.eqb_neq _ _) Ht).
  destruct (CanonicalBlock_Marshal_wf ebm _ (wf_set_crc_type ebm _ Hc)) as (bs & crc & E).
  assert (est_len cb = len bs) as Hest by (unfold est_len; by rewrite E). rewrite E. simpl.
  change (TypeCode (set_cb_CRC _ _)) with (TypeCode cb). rewrite Htc. simpl.
  rewrite (proj2 (Z.eqb_neq _ _) Ht), IH by done. unfold copied. rewrite filter_cons.
  destruct (Has (cb_BlockControlFlags cb) ReplicateBlock); simpl; rewrite ?Hest; f_equal; f_equal; lia.
Qed.

(** ** Renumbered blocks *)

(** The block at position [i] has a number of at least [n + i]. *)
Fixpoint numbered_from (n : Z) (l : list CanonicalBlock) : Prop :=
  match l with
  | [] => True
  | cb :: l => n ≤ cb_BlockNumber cb ∧ numbered_from (n + 1) l
  end.

Lemma numbered_from_mono n m l : m ≤ n → numbered_from n l → numbered_from m l.
Proof.
  revert n m. induction l as [|c l IH]; intros n m Hle; simpl; [done|]. intros [? ?].
  split; [lia|]. eapply IH; [|done]. lia.
Qed.

Lemma numbered_from_copied n i l : numbered_from n l → numbered_from n (copied i l).
Proof.
  unfold copied. revert n. induction l as [|c l IH]; intros n; [done|]. intros [Hc Hl]. rewrite filter_cons.
  case_decide; [split; [done|by apply IH]|]. apply IH. eapply numbered_from_mono; [|exact Hl]. lia.
Qed.

(** Ordered blocks with distinct numbers from [n] on. *)
Lemma sorted_numbered_from n l : 2 ≤ n → blocks_sorted l → NoDup (block_numbers l) →
  Forall (λ cb, n ≤ cb_BlockNumber cb) l → numbered_from n l.
Proof.
  intros Hn Hs. revert n Hn. induction Hs as [|c l Hl IH Hc]; intros n Hn Hnd Hge; simpl; [done|].
  apply Forall_cons in Hge as [Hcn Hge]. rewrite fmap_cons in Hnd. apply NoDup_cons in Hnd as [Hnot Hnd].
  split; [done|]. apply IH; [lia|done|]. apply Forall_forall. intros x Hx.
  rewrite Forall_forall in Hc, Hge. specialize (Hc x Hx). specialize (Hge x Hx). simpl in Hge.
  assert (cb_BlockNumber x ≠ cb_BlockNumber c) by (intros E; apply Hnot; rewrite <- E; by apply list_elem_of_fmap_2).
  unfold not_less, canonicalBlockNumberSort_Less, BlockTypePayloadBlock in Hc.
  rewrite !(proj2 (Z.eqb_neq _ 1)) in Hc by lia. apply Z.ltb_ge in Hc. lia.
Qed.

Lemma renumber_smaller ebm n l : 0 ≤ n → numbered_from n l → Forall (CanonicalBlock_wf ebm) l →
  Forall2 smaller (renumber n l) l.
Proof.
  revert n. induction l as [|c l IH]; intros n Hn; simpl; [constructor|]. intros [Hc Hl] [Hwf Hwfs]%Forall_cons.
  constructor; [|apply IH; [lia|done|done]]. exists n. split; [done|]. destruct Hwf as [Hu _].
  split; [u64_lia|by apply head_len_mono].
Qed.

Lemma smaller_refl ebm l : Forall (CanonicalBlock_wf ebm) l → Forall2 smaller l l.
Proof.
  induction 1 as [|c l [Hu _] _ IH]; constructor; [|done]. exists (cb_BlockNumber c).
  split; [by destruct c|]. split; [done|lia].
Qed.

Lemma wf_copied ebm i l : Forall (CanonicalBlock_wf ebm) l → Forall (CanonicalBlock_wf ebm) (copied i l).
Proof. rewrite !Forall_forall. intros Hl x [_ Hx]%list_elem_of_filter. auto. Qed.

(** ** Primary blocks *)

Lemma PrimaryBlock_Marshal_again p bs p' : PrimaryBlock_MarshalCbor p = Ok (bs, p') →
  PrimaryBlock_MarshalCbor p' = Ok (bs, p').
Proof.
  intros Hm. destruct (PrimaryBlock_Marshal_crc _ _ _ Hm) as [crc ->]. revert Hm.
  unfold PrimaryBlock_MarshalCbor. change (primary_body (set_pb_CRC crc p)) with (primary_body p).
  change (PrimaryBlock_HasCRC (set_pb_CRC crc p)) with (PrimaryBlock_HasCRC p).
  destruct (primary_body p); [|done..]. simpl.
  destruct (PrimaryBlock_HasCRC p); [|by intros [= <- ->]].
  destruct (calculateCRCBuff _ _); [|done..]. simpl. by intros [= <- <-].
Qed.

(** A fragment's primary block is at least as long as the whole bundle's. *)
Lemma primary_frag_le p i total bs p' bs2 p2 : is_u64 (pb_BundleControlFlags p) →
  HasFragmentation p = false → PrimaryBlock_MarshalCbor p = Ok (bs, p') →
  PrimaryBlock_MarshalCbor (frag_primary p i total) = Ok (bs2, p2) → len bs ≤ len bs2.
Proof.
  intros Hfl Hf. unfold PrimaryBlock_MarshalCbor, primary_body. simpl.
  destruct (EndpointID_MarshalCbor (pb_Destination p)) as [d| |]; simpl; [|done..].
  destruct (EndpointID_MarshalCbor (pb_SourceNode p)) as [s| |]; simpl; [|done..].
  destruct (EndpointID_MarshalCbor (pb_ReportTo p)) as [r| |]; simpl; [|done..].
  change (PrimaryBlock_HasCRC (frag_primary p i total)) with (PrimaryBlock_HasCRC p).
  assert (HasFragmentation (frag_primary p i total) = true) as Hf2 by apply Has_lor_IsFragment.
  rewrite Hf, Hf2.
  set (body := WriteArrayLength (primary_blockLen p) ++ _).
  set (body2 := WriteArrayLength (primary_blockLen (frag_primary p i total)) ++ _).
  assert (len body ≤ len body2) as Hle.
  { unfold body, body2. rewrite !len_app.
    assert (is_u64 (Z.lor (pb_BundleControlFlags p) IsFragment)) by (apply lor_u64; [done|unfold IsFragment; u64_lia]).
    rewrite !(uint_len (pb_BundleControlFlags p)), !(uint_len (Z.lor _ _)) by done.
    assert (head_len (pb_BundleControlFlags p) ≤ head_len (Z.lor (pb_BundleControlFlags p) IsFragment)).
    { apply head_len_mono, lor_ge; [u64_lia|unfold IsFragment; lia]. }
    assert (∀ q, len (WriteArrayLength (primary_blockLen q)) = 1) as Ha.
    { intros q. rewrite array_len; unfold primary_blockLen; repeat case_match; done || u64_lia. }
    rewrite !Ha. pose proof (len_nonneg (WriteUInt (wrap_u64 i))). pose proof (len_nonneg (WriteUInt (wrap_u64 total))).
    change (len (@nil Byte.byte)) with 0. lia. }
  clearbody body body2. destruct (PrimaryBlock_HasCRC p); [|by intros [= <- _] [= <- _]].
  destruct (calculateCRCBuff body _) as [c| |] eqn:Ec; [|done..].
  destruct (calculateCRCBuff body2 _) as [c2| |] eqn:Ec2; [|done..]. intros [= <- _] [= <- _].
  pose proof (crc_u64 _ _ _ Ec). pose proof (crc_u64 _ _ _ Ec2).
  apply calculateCRCBuff_Ok in Ec as [_ Hl], Ec2 as [_ Hl2].
  rewrite !len_app, !bstr_len by done. unfold len in *. rewrite Hl, Hl2. lia.
Qed.
End Sizes.

(** ** The bound *)

Section Bound.
Context `{Cboring} `{Crc16} `{GoMapRange} `{Ed25519} `{!CboringLaws _}.
Context (ebm : ExtensionBlockManager) (now mtu : Z) (b : Bundle) (data : bytes).
Hypothesis Hwf : Bundle_wf ebm b.
Hypothesis Hdata : payload_data (b_PayloadBlock b) = Ok data.
Hypothesis Hmtu : 0 ≤ mtu < two63.
Hypothesis Hlen : len data < two63.

Lemma wf_extension_only : extension_only (b_ExtensionBlocks b).
Proof.
  destruct Hwf as (_ & Hl & _). eapply Forall_impl; [exact Hl|]. intros cb [(_ & _ & _ & _ & Hv) Ht].
  unfold has_type in Ht. destruct (cb_Value cb) as [v|]; [|done]. exists v. split; [done|]. by apply Z.eqb_neq.
Qed.

Lemma wf_blocks : Forall (CanonicalBlock_wf ebm) (b_ExtensionBlocks b).
Proof. destruct Hwf as (_ & Hl & _). eapply Forall_impl; [exact Hl|]. by intros cb [? _]. Qed.

(** Size of a payload block with [d], and the size reserved for it. *)
Definition payload_size (d : bytes) : Z :=
  cb_size 1 (cb_BlockControlFlags (b_PayloadBlock b)) (cb_CRCType (b_PayloadBlock b)) BlockTypePayloadBlock (len d).
Definition payload_reserve : Z :=
  cb_size 1 (cb_BlockControlFlags (b_PayloadBlock b)) CRC32 BlockTypePayloadBlock 0 + (head_len mtu - 1).

Lemma payload_fits d n : 0 < n ≤ mtu → len d ≤ n → payload_size d ≤ payload_reserve + n.
Proof.
  intros Hn Hd. unfold payload_size, payload_reserve, cb_size.
  destruct Hwf as (_ & _ & (_ & _ & Hcrc & _) & _). pose proof (crc_extra_le _ Hcrc).
  change (crc_extra CRC32) with 5. pose proof (head_len_mono (len d) mtu ltac:(lia)).
  change (head_len 0) with 1. lia.
Qed.

Lemma payload_reserve_nonneg : 0 ≤ payload_reserve.
Proof.
  unfold payload_reserve, cb_size. change (crc_extra CRC32) with 5. pose proof (head_len_pos mtu).
  pose proof (head_len_pos BlockTypePayloadBlock). pose proof (head_len_pos 1). pose proof (head_len_pos 0).
  pose proof (head_len_pos (cb_BlockControlFlags (b_PayloadBlock b))). lia.
Qed.

Lemma est_sum_nonneg l : 0 ≤ est_sum l.
Proof.
  induction l as [|c l IH]; simpl; [done|]. unfold est_len.
  destruct (CanonicalBlock_MarshalCbor _) as [[bs ?]| |]; [pose proof (len_nonneg bs)|..]; lia.
Qed.

Lemma frag_payload_wf d : is_u64 (len d) → CanonicalBlock_wf ebm (frag_payload b d).
Proof.
  intros Hd. destruct Hwf as (_ & _ & (Hn & Hf & Hc & _ & Hv) & Ht).
  split; [unfold is_u64, two64; simpl; lia|]. split; [done|]. split; [done|]. split; [done|]. simpl.
  unfold has_type in Ht. unfold payload_data in Hdata. destruct (cb_Value _) as [[]|]; simplify_eq.
  destruct Hv as (Hcode & _ & _ & Hreg). done.
Qed.

Lemma payload_Marshal d : is_u64 (len d) →
  ∃ bs cb, CanonicalBlock_MarshalCbor (frag_payload b d) = Ok (bs, cb) ∧ len bs = payload_size d.
Proof.
  intros Hd. pose proof (frag_payload_wf d Hd) as Hw.
  destruct (CanonicalBlock_Marshal_wf ebm _ Hw) as (bs & crc & E). eexists _, _. split; [exact E|].
  by rewrite (canonical_size ebm _ _ _ (PayloadBlock d) d Hw E).
Qed.

(** The overhead the code reckons with for the first and for later fragments. *)
Lemma extension_overhead : fragmentExtensionBlocksLen b mtu =
  Ok (est_sum (b_ExtensionBlocks b) + payload_reserve, est_sum (copied 1 (b_ExtensionBlocks b)) + payload_reserve).
Proof.
  unfold fragmentExtensionBlocksLen.
  rewrite (ext_lens_wf ebm) by (apply wf_blocks || apply wf_extension_only).
  cbn [mbind res_bind].
  set (eb := mkCanonical 1 (cb_BlockControlFlags (b_PayloadBlock b)) CRC32 [] (Some (PayloadBlock []))).
  assert (CanonicalBlock_wf ebm eb) as Hw.
  { destruct (frag_payload_wf []) as (? & ? & _ & _ & ?); [done|]. split; [done|]. split; [done|].
    split; [right; by right|]. by split. }
  destruct (CanonicalBlock_Marshal_wf ebm _ Hw) as (bs & crc & E). rewrite E. simpl.
  rewrite (canonical_size ebm _ _ _ (PayloadBlock []) [] Hw E) by done.
  rewrite wrap_u64_id, bslen_len by u64_lia. unfold payload_reserve, eb. simpl.
  change (len (@nil Byte.byte)) with 0. f_equal. f_equal; lia.
Qed.

(** A bundle is 2 bytes and its blocks. *)
Lemma bundle_size pb l c pbs pb' ebs l' cbs c' : PrimaryBlock_MarshalCbor pb = Ok (pbs, pb') →
  marshal_blocks l = Ok (ebs, l') → CanonicalBlock_MarshalCbor c = Ok (cbs, c') →
  ∃ bs b', Bundle_MarshalCbor (mkBundle pb l c) = Ok (bs, b') ∧ len bs = 2 + len pbs + len ebs + len cbs.
Proof.
  intros Ep El Ec. unfold Bundle_MarshalCbor. simpl. rewrite Ep. simpl. rewrite El. simpl. rewrite Ec. simpl.
  eexists _, _. split; [done|].
  change (len (IndefiniteArray :: ?l)) with (len ([IndefiniteArray] ++ l)). rewrite !len_app.
  change (len [IndefiniteArray]) with 1. change (len [BreakCode]) with 1. lia.
Qed.

Hypothesis Hsorted : blocks_sorted (b_ExtensionBlocks b).
Hypothesis Hnodup : NoDup (block_numbers (b_ExtensionBlocks b)).
Hypothesis Hnumbers : Forall (λ cb, 2 ≤ cb_BlockNumber cb) (b_ExtensionBlocks b).

Lemma copied_pos i j l : 0 < i → 0 < j → copied i l = copied j l.
Proof.
  intros. unfold copied. apply list_filter_iff. intros x.
  rewrite (proj2 (Z.ltb_lt 0 i)), (proj2 (Z.ltb_lt 0 j)) by lia. done.
Qed.

Lemma fragment_fits f o i fb n : fragmentExtensionBlocksLen b mtu = Ok (f, o) → 0 ≤ i < len data →
  make_fragment now b mtu f o i = Ok (fb, n) →
  ∃ bs fb', Bundle_MarshalCbor fb = Ok (bs, fb') ∧ len bs ≤ mtu.
Proof.
  intros Hov Hi E.
  destruct (make_fragment_inv now mtu f o b data wf_extension_only Hdata i fb n Hi E)
    as (pbs & fp & Ep & Hn & Hpos & -> & _).
  apply PrimaryBlock_Marshal_again in Ep.
  set (exts := copied i (b_ExtensionBlocks b)).
  assert (Forall (CanonicalBlock_wf ebm) exts) as Hwfs by apply wf_copied, wf_blocks.
  assert (numbered_from 2 exts) as Hnum by (apply numbered_from_copied, sorted_numbered_from; done).
  destruct (marshal_smaller ebm _ exts (renumber_smaller ebm 2 exts ltac:(lia) Hnum Hwfs) Hwfs) as (ebs & l' & El & Hle).
  assert (len (chunk_at data i n) ≤ n ∧ len (chunk_at data i n) ≤ len data) as [Hch Hch'].
  { unfold chunk_at, len. rewrite length_take, length_drop. lia. }
  destruct (payload_Marshal (chunk_at data i n)) as (cbs & cb & Ec & Hc).
  { pose proof (len_nonneg (chunk_at data i n)). u64_lia. }
  destruct (bundle_size _ _ _ _ _ _ _ _ _ Ep El Ec) as (bs & b' & Em & Hs).
  exists bs, b'. split; [exact Em|]. rewrite Hs.
  rewrite extension_overhead in Hov. injection Hov as <- <-.
  pose proof (est_sum_nonneg (b_ExtensionBlocks b)). pose proof (est_sum_nonneg (copied 1 (b_ExtensionBlocks b))).
  pose proof payload_reserve_nonneg. pose proof (len_nonneg pbs).
  assert (n ≤ mtu) by (destruct (i =? 0); lia).
  pose proof (payload_fits (chunk_at data i n) n ltac:(lia) Hch).
  destruct (Z.eqb_spec i 0) as [->|]; [unfold exts in Hle; rewrite copied_0 in Hle; lia|].
  unfold exts in Hle. rewrite (copied_pos i 1) in Hle by lia. lia.
Qed.

(** A bundle for which one fragment would do fits as it is. *)
Lemma whole_fits f o fb n : fragmentExtensionBlocksLen b mtu = Ok (f, o) → 0 < len data ≤ n →
  HasFragmentation (b_PrimaryBlock b) = false → cb_BlockNumber (b_PayloadBlock b) = 1 →
  make_fragment now b mtu f o 0 = Ok (fb, n) →
  ∃ bs b', Bundle_MarshalCbor b = Ok (bs, b') ∧ len bs ≤ mtu.
Proof.
  intros Hov Hn Hf Hno E.
  destruct (make_fragment_inv now mtu f o b data wf_extension_only Hdata 0 fb n ltac:(lia) E)
    as (pbs & fp & Ep & Hn' & Hpos & _).
  pose proof Hwf as ((_ & Hfl & _) & _). pose proof Hwf as (Hp & _ & Hc & _).
  destruct (PrimaryBlock_Marshal_wf _ Hp) as (pbs0 & crc0 & Ep0 & _).
  pose proof (primary_frag_le _ _ _ _ _ _ _ Hfl Hf Ep0 Ep) as Hple.
  destruct (marshal_smaller ebm _ _ (smaller_refl ebm _ wf_blocks) wf_blocks) as (ebs & l' & El & Hle).
  destruct (CanonicalBlock_Marshal_wf ebm _ Hc) as (cbs & crc & Ec).
  assert (len cbs = payload_size data) as Hcs.
  { unfold payload_data in Hdata. destruct (cb_Value (b_PayloadBlock b)) as [v|] eqn:Ev; [|done].
    destruct v as [d| | | | | | | | |]; try done. apply Ok_inj in Hdata as ->.
    rewrite (canonical_size ebm _ _ _ (PayloadBlock data) data Hc Ec Ev) by done. by rewrite Hno. }
  destruct (bundle_size _ _ _ _ _ _ _ _ _ Ep0 El Ec) as (bs & b' & Em & Hs).
  replace (mkBundle (b_PrimaryBlock b) (b_ExtensionBlocks b) (b_PayloadBlock b)) with b in Em by (by destruct b).
  exists bs, b'. split; [exact Em|]. rewrite extension_overhead in Hov. injection Hov as <- <-.
  pose proof (est_sum_nonneg (b_ExtensionBlocks b)). pose proof payload_reserve_nonneg. pose proof (len_nonneg pbs).
  simpl in Hn'. pose proof (payload_fits data n ltac:(lia) ltac:(lia)). lia.
Qed.

Lemma chain_fits f o i bs : fragmentExtensionBlocksLen b mtu = Ok (f, o) → 0 ≤ i →
  chain now mtu f o b data i bs →
  Forall (λ fb, ∃ bytes fb', Bundle_MarshalCbor fb = Ok (bytes, fb') ∧ len bytes ≤ mtu) bs.
Proof.
  intros Hov. revert i. induction bs as [|fb bs IH]; intros i Hi; simpl; [constructor|].
  intros (Hlt & n & E & Hc). constructor; [by eapply fragment_fits|].
  destruct (make_fragment_inv now mtu f o b data wf_extension_only Hdata i fb n ltac:(lia) E) as (_ & _ & _ & _ & Hn & _).
  apply (IH (i + n)); [lia|done].
Qed.

(** C20: every bundle that [Fragment] returns for an MTU is at most that many bytes
    long when it is marshalled.  The bundle is well formed, not itself a fragment, and its
    extension blocks have distinct numbers from 2 on, in order; its payload has the
    number 1. *)
Theorem Fragment_mtu bs :
  HasFragmentation (b_PrimaryBlock b) = false → cb_BlockNumber (b_PayloadBlock b) = 1 →
  Fragment now b mtu = Ok bs →
  Forall (λ fb, ∃ bytes fb', Bundle_MarshalCbor fb = Ok (bytes, fb') ∧ len bytes ≤ mtu) bs.
Proof.
  intros Hf Hno Hfr. destruct (Fragment_inv _ _ _ _ _ Hdata Hfr) as (_ & f & o & bs' & Hov & Hc & ->).
  pose proof (chain_fits f o 0 bs' Hov ltac:(lia) Hc) as Hall.
  destruct bs' as [|fb [|fb' bs']]; [done| |done].
  simpl in Hc. destruct Hc as (Hlt & n & E & Hend). constructor; [|done]. eapply (whole_fits f o fb n); done.
Qed.
End Bound.

Lemma long_bundle_wf : Bundle_wf GetExtensionBlockManager long_bundle.
Proof. repeat constructor; vm_compute; repeat split; auto; discriminate. Qed.

Lemma Fragment_mtu_witness :
  ∃ bs, Fragment 0 long_bundle 110 = Ok bs ∧
    Forall (λ fb, ∃ bytes fb', Bundle_MarshalCbor fb = Ok (bytes, fb') ∧ len bytes ≤ 110) bs.
Proof.
  destruct (Fragment 0 long_bundle 110) as [bs| |] eqn:E; [|vm_compute in E; discriminate E..].
  exists bs. split; [reflexivity|].
  apply (Fragment_mtu GetExtensionBlockManager 0 110 long_bundle
    (str_bytes "a payload of some sixty bytes, which does not fit one fragment") long_bundle_wf eq_refl
    ltac:(vm_compute; split; [discriminate|reflexivity]) ltac:(vm_compute; reflexivity)
    ltac:(repeat constructor) ltac:(apply (bool_decide_unpack _); vm_compute; exact I)
    ltac:(repeat constructor; discriminate) bs eq_refl eq_refl E).
Defined.
