(* ===== verification/AdminRecord.v ===== *)
(** * Administrative records

    [pkg/bpv7/administrative_record.go] and
    [administrative_record_status_report.go]: status reports, their CBOR form and
    the registry of record types. *)

From stdpp Require Import base tactics list strings gmap.
From Stdlib Require Import ZArith Lia Bool.
From S2P Require Import Prelude Cboring GoStrings Flags Crc DtnTime Endpoint BundleId ExtensionBlocks.
From S2P Require Import Blocks Bundle Samples Fragmentation.
Local Open Scope Z_scope.

(** ** Data *)

Record BundleStatusItem := mkStatusItem { si_Asserted : bool; si_Time : Z; si_StatusRequested : bool }.

#[global] Instance BundleStatusItem_eq_dec : EqDecision BundleStatusItem.
Proof. solve_decision. Defined.

Definition NewBundleStatusItem (asserted : bool) : BundleStatusItem := mkStatusItem asserted DtnTimeEpoch false.
Definition NewTimeReportingBundleStatusItem (time : Z) : BundleStatusItem := mkStatusItem true time true.

(** [StatusReportReason.String] *)
Definition StatusReportReason_String (srr : Z) : string :=
  match srr with
  | 0 => "No additional information"
  | 1 => "Lifetime expired"
  | 2 => "Forward over unidirectional link"
  | 3 => "Transmission canceled"
  | 4 => "Depleted storage"
  | 5 => "Destination endpoint ID unintelligible"
  | 6 => "No known route to destination from here"
  | 7 => "No timely contact with next node on route"
  | 8 => "Block unintelligible"
  | 9 => "Hop limit exceeded"
  | 10 => "Traffic pared"
  | 11 => "Block unsupported"
  | _ => "unknown"
  end.

Definition maxStatusInformationPos : nat := 4.
Definition ReceivedBundle : Z := 0.
Definition ForwardedBundle : Z := 1.
Definition DeliveredBundle : Z := 2.
Definition DeletedBundle : Z := 3.

(** [StatusInformationPos.String] *)
Definition StatusInformationPos_String (sip : Z) : string :=
  match sip with
  | 0 => "received bundle"
  | 1 => "forwarded bundle"
  | 2 => "delivered bundle"
  | 3 => "deleted bundle"
  | _ => "unknown"
  end.

Record StatusReport := mkStatusReport {
  sr_StatusInformation : list BundleStatusItem;
  sr_ReportReason : Z;
  sr_RefBundle : BundleID;
}.

#[global] Instance StatusReport_eq_dec : EqDecision StatusReport.
Proof. solve_decision. Defined.

Definition zero_item : BundleStatusItem := mkStatusItem false 0 false.
Definition zero_report : StatusReport := mkStatusReport [] 0 (mkBundleID None (mkTimestamp 0 0) false 0 0).

(** One item of a new report. *)
Definition status_item_at (flags statusItem time sip : Z) : BundleStatusItem :=
  if (sip =? statusItem) && Has flags RequestStatusTime then NewTimeReportingBundleStatusItem time else
  if sip =? statusItem then NewBundleStatusItem true else NewBundleStatusItem false.

Definition NewStatusReport (bndl : Bundle) (statusItem reason time : Z) : StatusReport :=
  mkStatusReport
    ((λ i, status_item_at (pb_BundleControlFlags (b_PrimaryBlock bndl)) statusItem time (Z.of_nat i))
       <$> seq 0 maxStatusInformationPos)
    reason (Bundle_ID bndl).

(** The positions of the asserted items, from position [i] on. *)
Fixpoint asserted_from (i : Z) (l : list BundleStatusItem) : list Z :=
  match l with
  | [] => []
  | si :: l => if si_Asserted si then i :: asserted_from (i + 1) l else asserted_from (i + 1) l
  end.

Definition StatusInformations (sr : StatusReport) : list Z := asserted_from 0 (sr_StatusInformation sr).

(** ** CBOR *)

Section Codec.
Context `{Cboring}.

Definition BundleStatusItem_MarshalCbor (bsi : BundleStatusItem) : bytes :=
  let arrLen := if si_Asserted bsi && si_StatusRequested bsi then 2 else 1 in
  WriteArrayLength arrLen ++ WriteBoolean (si_Asserted bsi) ++
  (if arrLen =? 2 then WriteUInt (si_Time bsi) else []).

(** The receiver is a fresh item of the slice. *)
Definition BundleStatusItem_UnmarshalCbor : reader BundleStatusItem :=
  arrLen ← ReadArrayLength;
  if negb (arrLen =? 1) && negb (arrLen =? 2) then fail (errorf "BundleStatusItem: Array's length is not 1 or 2") else
  b ← ReadBoolean;
  if arrLen =? 2 then n ← ReadUInt; mret (mkStatusItem b n true)
  else mret (mkStatusItem b 0 false).

Definition StatusReport_MarshalCbor (sr : StatusReport) : res bytes :=
  ref ← match BundleID_MarshalCbor (sr_RefBundle sr) with
        | Err _ => Err (errorf "Marshalling BundleID failed") | x => x end;
  Ok (WriteArrayLength (2 + BundleID_Len (sr_RefBundle sr)) ++
      WriteArrayLength (len (sr_StatusInformation sr)) ++
      concat (BundleStatusItem_MarshalCbor <$> sr_StatusInformation sr) ++
      WriteUInt (sr_ReportReason sr) ++ ref).

(** [make([]BundleStatusItem, int(n))]: an item takes 24 bytes and Go's run time
    panics on a length that is negative or needs more than 2^48 bytes. *)
Definition make_items_ok (n : Z) : bool := (0 <=? wrap_i64 n) && (wrap_i64 n * 24 <=? 2 ^ 48).

Fixpoint read_items (n : nat) : reader (list BundleStatusItem) :=
  match n with
  | O => mret []
  | S n =>
      si ← wrap_err "Unmarshalling BundleStatusItem failed" BundleStatusItem_UnmarshalCbor;
      rest ← read_items n;
      mret (si :: rest)
  end.

(** The reference at the end of a report; its [IsFragment] was set from the length
    of the outer array. *)
Definition read_ref (isFragment : bool) : reader BundleID := λ inp,
  match BundleID_UnmarshalCbor (set_bid_IsFragment isFragment (sr_RefBundle zero_report), inp) with
  | (Ok _, (ref, inp')) => (Ok ref, inp')
  | (Err _, (_, inp')) => (Err (errorf "Unmarshalling BundleID failed"), inp')
  | (Panic, (_, inp')) => (Panic, inp')
  end.

(** [StatusReport.UnmarshalCbor] into a fresh report, which is dropped when an
    error is returned. *)
Definition StatusReport_UnmarshalCbor : reader StatusReport :=
  n ← ReadArrayLength;
  if negb (n =? 4) && negb (n =? 6) then fail (errorf "Expected array of length 4 or 6") else
  k ← ReadArrayLength;
  if negb (make_items_ok k) then panic else
  items ← read_items (Z.to_nat k);
  reason ← ReadUInt;
  ref ← read_ref (n =? 6);
  mret (mkStatusReport items reason ref).

(** ** The registry *)

Definition AdminRecordTypeStatusReport : Z := 1.

(** The one implementation of the interface [AdministrativeRecord]. *)
Inductive AdministrativeRecord := ARStatusReport (sr : StatusReport).

Definition RecordTypeCode (ar : AdministrativeRecord) : Z :=
  match ar with ARStatusReport _ => AdminRecordTypeStatusReport end.

Definition AdministrativeRecord_MarshalCbor (ar : AdministrativeRecord) : res bytes :=
  match ar with ARStatusReport sr => StatusReport_MarshalCbor sr end.

(** [reflect.Type] of a record. *)
Inductive RecordKind := KStatusReport.
Definition record_kind (ar : AdministrativeRecord) : RecordKind := match ar with ARStatusReport _ => KStatusReport end.

Definition AdministrativeRecordManager : Type := gmap Z RecordKind.

(** [LoadOrStore] keeps an entry that is there. *)
Definition ARM_Register (arm : AdministrativeRecordManager) (ar : AdministrativeRecord) :
    res () * AdministrativeRecordManager :=
  match arm !! RecordTypeCode ar with
  | Some _ => (Err (errorf "record type code is already registered"), arm)
  | None => (Ok (), <[RecordTypeCode ar := record_kind ar]> arm)
  end.

Definition ARM_Unregister (arm : AdministrativeRecordManager) (ar : AdministrativeRecord) : AdministrativeRecordManager :=
  delete (RecordTypeCode ar) arm.

Definition ARM_IsKnown (arm : AdministrativeRecordManager) (typeCode : Z) : bool :=
  bool_decide (is_Some (arm !! typeCode)).

Definition GetAdministrativeRecordManager : AdministrativeRecordManager :=
  (ARM_Register ∅ (ARStatusReport zero_report)).2.

Definition WriteAdministrativeRecord (ar : AdministrativeRecord) : res bytes :=
  match AdministrativeRecord_MarshalCbor ar with
  | Ok bs => Ok (WriteArrayLength 2 ++ WriteUInt (RecordTypeCode ar) ++ bs)
  | Err _ => Err (errorf "marshalling AdministrativeRecord erred")
  | Panic => Panic
  end.

Definition unmarshal_record (k : RecordKind) : reader AdministrativeRecord :=
  match k with KStatusReport => sr ← StatusReport_UnmarshalCbor; mret (ARStatusReport sr) end.

Definition ReadAdministrativeRecord (arm : AdministrativeRecordManager) : reader AdministrativeRecord :=
  n ← ReadArrayLength;
  if negb (n =? 2) then fail (errorf "expected CBOR array of length 2") else
  typeCode ← ReadUInt;
  match arm !! typeCode with
  | None => fail (errorf "no AdministrativeRecord registered for record type code")
  | Some k => wrap_err "unmarshalling AdministrativeRecord failed" (unmarshal_record k)
  end.

(** [Bundle.AdministrativeRecord] *)
Definition Bundle_AdministrativeRecord (b : Bundle) : res AdministrativeRecord :=
  if negb (IsAdministrativeRecord b) then Err (errorf "bundle is not an administrative record") else
  data ← payload_data (b_PayloadBlock b);
  (ReadAdministrativeRecord GetAdministrativeRecordManager data).1.

Definition NewAdministrativeRecordFromCbor (data : bytes) : res AdministrativeRecord :=
  (ReadAdministrativeRecord GetAdministrativeRecordManager data).1.

(** [AdministrativeRecordToCbor] *)
Definition AdministrativeRecordToCbor (ar : AdministrativeRecord) : res CanonicalBlock :=
  buff ← WriteAdministrativeRecord ar;
  Ok (NewCanonicalBlock 1 0 (PayloadBlock buff)).
End Codec.

(** ** Properties *)

(** Times are reported only with an assertion that asks for them. *)
Definition item_wf (si : BundleStatusItem) : Prop :=
  is_u64 (si_Time si) ∧ (si_StatusRequested si = true → si_Asserted si = true) ∧
  (si_StatusRequested si = false → si_Time si = 0).

Definition StatusReport_wf (sr : StatusReport) : Prop :=
  Forall item_wf (sr_StatusInformation sr) ∧ len (sr_StatusInformation sr) ≤ 2 ^ 40 ∧
  is_u64 (sr_ReportReason sr) ∧ BundleID_wf (sr_RefBundle sr) ∧ EndpointID_fits (bid_SourceNode (sr_RefBundle sr)).

Section Props.
Context `{Cboring} `{!CboringLaws _}.

Lemma item_rt si r : item_wf si →
  BundleStatusItem_UnmarshalCbor (BundleStatusItem_MarshalCbor si ++ r) = (Ok si, r).
Proof.
  intros (Ht & Ha & Hn). unfold BundleStatusItem_MarshalCbor, BundleStatusItem_UnmarshalCbor.
  destruct si as [a t q]; simpl in *. rewrite <- !app_assoc.
  destruct q; [rewrite (Ha eq_refl)|rewrite (Hn eq_refl), andb_false_r]; simpl.
  - mstep by (apply array_rt; u64_lia). mif. mstep by apply bool_rt. mif. by mstep by by apply uint_rt.
  - mstep by (apply array_rt; u64_lia). mif. mstep by apply bool_rt. by mif.
Qed.

Lemma items_rt l r : Forall item_wf l →
  read_items (length l) (concat (BundleStatusItem_MarshalCbor <$> l) ++ r) = (Ok l, r).
Proof.
  induction 1 as [|si l Hsi Hl IH]; [done|]. rewrite fmap_cons. simpl. rewrite <- app_assoc.
  mstep by (apply wrap_err_ok; by apply item_rt). by mstep by exact IH.
Qed.

Lemma StatusReport_rt sr bs r : StatusReport_wf sr → StatusReport_MarshalCbor sr = Ok bs →
  StatusReport_UnmarshalCbor (bs ++ r) = (Ok sr, r).
Proof.
  intros (Hi & Hl & Hr & Hb & Hf). unfold StatusReport_MarshalCbor, StatusReport_UnmarshalCbor.
  destruct (BundleID_MarshalCbor _) as [ref| |] eqn:Eb; [|done..]. intros <-%(Ok_inj (A := bytes)).
  rewrite <- !app_assoc. pose proof (len_nonneg (sr_StatusInformation sr)).
  mstep by (apply array_rt; unfold BundleID_Len; case_match; u64_lia).
  assert (negb (2 + BundleID_Len (sr_RefBundle sr) =? 4) && negb (2 + BundleID_Len (sr_RefBundle sr) =? 6) = false) as ->
    by (unfold BundleID_Len; by case_match).
  mstep by (apply array_rt; u64_lia).
  assert (make_items_ok (len (sr_StatusInformation sr)) = true) as ->.
  { unfold make_items_ok. rewrite wrap_i64_id by u64_lia. rewrite andb_true_iff, !Z.leb_le. lia. }
  mif. unfold len. rewrite Nat2Z.id.
  mstep by by apply items_rt. mstep by by apply uint_rt.
  assert ((2 + BundleID_Len (sr_RefBundle sr) =? 6) = bid_IsFragment (sr_RefBundle sr)) as ->
    by (unfold BundleID_Len; by case_match).
  mstep by (unfold read_ref; erewrite BundleID_rt; [reflexivity|exact Hb|exact Hf|exact Eb|done|done]).
  by destruct sr.
Qed.

(** An administrative record that was written is read back by the registry
    of record types, and leaves what follows it unread. *)
Theorem administrative_record_roundtrip sr bs r : StatusReport_wf sr →
  WriteAdministrativeRecord (ARStatusReport sr) = Ok bs →
  ReadAdministrativeRecord GetAdministrativeRecordManager (bs ++ r) = (Ok (ARStatusReport sr), r).
Proof.
  intros Hwf. unfold WriteAdministrativeRecord, ReadAdministrativeRecord, AdministrativeRecord_MarshalCbor.
  destruct (StatusReport_MarshalCbor sr) as [body| |] eqn:E; [|done..]. intros <-%Ok_inj. rewrite <- !app_assoc.
  mstep by (apply array_rt; u64_lia). mif. mstep by (apply uint_rt; by vm_compute).
  apply wrap_err_ok. simpl. by mstep by (by eapply StatusReport_rt).
Qed.
End Props.

(** A status report made for a bundle refers to that bundle, asserts exactly
    the requested status, and carries the time only if the bundle asked for it. *)
Theorem NewStatusReport_spec bndl statusItem reason time :
  0 ≤ statusItem < Z.of_nat maxStatusInformationPos →
  let sr := NewStatusReport bndl statusItem reason time in
  sr_RefBundle sr = Bundle_ID bndl ∧ StatusInformations sr = [statusItem] ∧
  length (sr_StatusInformation sr) = maxStatusInformationPos ∧
  ∀ i si, sr_StatusInformation sr !! i = Some si →
    si_Asserted si = (Z.of_nat i =? statusItem) ∧
    si_StatusRequested si = (Z.of_nat i =? statusItem) && Has (pb_BundleControlFlags (b_PrimaryBlock bndl)) RequestStatusTime ∧
    si_Time si = if si_StatusRequested si then time else DtnTimeEpoch.
Proof.
  intros Hs. unfold maxStatusInformationPos in *. split; [done|].
  unfold StatusInformations, NewStatusReport. simpl sr_StatusInformation.
  set (t := Has _ RequestStatusTime).
  assert (∀ i, status_item_at (pb_BundleControlFlags (b_PrimaryBlock bndl)) statusItem time i =
    mkStatusItem (i =? statusItem) (if (i =? statusItem) && t then time else 0) ((i =? statusItem) && t)) as Hat.
  { intros i. unfold status_item_at. fold t. by destruct (i =? statusItem), t. }
  split; [|split; [done|]].
  - rewrite !Hat. assert (statusItem = 0 ∨ statusItem = 1 ∨ statusItem = 2 ∨ statusItem = 3) as [->|[->|[->| ->]]] by lia; done.
  - intros i si Hi. assert (si = status_item_at (pb_BundleControlFlags (b_PrimaryBlock bndl)) statusItem time (Z.of_nat i)) as ->.
    { destruct i as [|[|[|[|]]]]; by simplify_eq/=. }
    by rewrite Hat.
Qed.

Lemma NewStatusReport_spec_witness :
  StatusInformations (NewStatusReport sample_bundle DeliveredBundle 0 77) = [DeliveredBundle].
Proof. apply (NewStatusReport_spec sample_bundle DeliveredBundle 0 77). vm_compute. split; [discriminate|reflexivity]. Defined.

Lemma administrative_record_roundtrip_witness :
  ∃ bs, WriteAdministrativeRecord (ARStatusReport (NewStatusReport sample_bundle ReceivedBundle 0 77)) = Ok bs ∧
    ReadAdministrativeRecord GetAdministrativeRecordManager (bs ++ [Byte.x00]) =
      (Ok (ARStatusReport (NewStatusReport sample_bundle ReceivedBundle 0 77)), [Byte.x00]).
Proof.
  eexists. split; [vm_compute; reflexivity|].
  apply (administrative_record_roundtrip (NewStatusReport sample_bundle ReceivedBundle 0 77) _ [Byte.x00]).
  - split; [repeat constructor; vm_compute; done|]. vm_compute. repeat split; discriminate.
  - vm_compute. reflexivity.
Defined.

(** The length of a report's item list is taken from the input and allocated
    before a single item is read: twelve bytes of input are enough to make the
    decoder panic. *)
Theorem status_report_length_panics :
  let bs := WriteArrayLength 2 ++ WriteUInt 1 ++ WriteArrayLength 4 ++ WriteArrayLength (2 ^ 63) in
  length bs = 12%nat ∧ NewAdministrativeRecordFromCbor bs = Panic.
Proof. split; vm_compute; reflexivity. Qed.
