(* ===== verification/Builder.v ===== *)
(** * The bundle builder

    [pkg/bpv7/bundle_builder.go]: a builder collects fields and blocks, keeps the
    first error it meets, and makes a bundle at the end; [BuildFromMap] drives it from
    the untyped map that the application agents receive. *)

From stdpp Require Import base tactics list strings gmap.
From Stdlib Require Import ZArith Lia Bool Floats.SpecFloat.
From S2P Require Import Prelude Cboring GoStrings GoSort GoTime Flags Crc DtnTime Endpoint BundleId.
From S2P Require Import ExtensionBlocks Blocks Bundle Samples AdminRecord.
Local Open Scope Z_scope.

(** ** Untyped arguments *)

#[local] Set Warnings "-register-all".

(** A value of type [interface{}]: the dynamic types the builder tells apart, those
    that JSON and MessagePack decode to among them. *)
Inductive GoValue :=
  | GNil
  | GString (s : string)
  | GBytes (data : bytes)
  | GBool (b : bool)
  | GInt (z : Z)
  | GUint64 (z : Z)
  | GFloat64 (bits : Z)
  | GDuration (ns : Z)
  | GTime (ns : Z)
  | GEndpointID (e : EndpointID)
  | GBlockControlFlags (bcf : Z)
  | GExtensionBlock (eb : ExtensionBlock)
  | GCanonicalBlock (cb : CanonicalBlock)
  | GBundle (b : Bundle)
  | GStatusInformationPos (pos : Z)
  | GStatusReportReason (reason : Z)
  | GDtnTime (t : Z)
  | GSlice (l : list GoValue)
  | GMap.

(** [binary.Write] with little-endian order; it refuses values whose size is not
    fixed, among them [int] and [string], and follows pointers. *)
Definition binary_Write (v : GoValue) : res bytes :=
  match v with
  | GBytes data => Ok data
  | GBool b => Ok [byte_of_Z (if b then 1 else 0)]
  | GUint64 z | GFloat64 z | GBlockControlFlags z | GStatusReportReason z | GDtnTime z => Ok (le_bytes 8 z)
  | GDuration ns => Ok (le_bytes 8 (wrap_u64 ns))
  | GExtensionBlock (PayloadBlock data) => Ok data
  | GExtensionBlock (BundleAgeBlock z) | GExtensionBlock (BinarySprayBlock z) | GExtensionBlock (RECBundleTypeBlock z) =>
      Ok (le_bytes 8 z)
  | GExtensionBlock (HopCountBlock limit count) => Ok [byte_of_Z limit; byte_of_Z count]
  | _ => Err (errorf "binary.Write: some values are not fixed-sized")
  end.

(** ** The builder *)

Record BundleBuilder := mkBuilder {
  bl_err : option error;
  bl_primary : PrimaryBlock;
  bl_canonicals : list CanonicalBlock;
  bl_canonicalCounter : Z;
  bl_payload : CanonicalBlock;
  bl_crcType : Z;
}.

Definition Builder : BundleBuilder := mkBuilder None (set_pb_Version dtnVersion zero_primary) [] 2 zero_canonical CRCNo.

Definition set_bl_err e bl := mkBuilder (Some e) (bl_primary bl) (bl_canonicals bl) (bl_canonicalCounter bl) (bl_payload bl) (bl_crcType bl).
Definition set_bl_primary p bl := mkBuilder (bl_err bl) p (bl_canonicals bl) (bl_canonicalCounter bl) (bl_payload bl) (bl_crcType bl).
Definition set_bl_payload cb bl := mkBuilder (bl_err bl) (bl_primary bl) (bl_canonicals bl) (bl_canonicalCounter bl) cb (bl_crcType bl).
Definition set_bl_crcType c bl := mkBuilder (bl_err bl) (bl_primary bl) (bl_canonicals bl) (bl_canonicalCounter bl) (bl_payload bl) c.

(** The block gets the next number. *)
Definition append_canonical (cb : CanonicalBlock) (bl : BundleBuilder) : BundleBuilder :=
  mkBuilder (bl_err bl) (bl_primary bl) (bl_canonicals bl ++ [set_cb_BlockNumber (bl_canonicalCounter bl) cb])
    (wrap_u64 (bl_canonicalCounter bl + 1)) (bl_payload bl) (bl_crcType bl).

(** Methods start with [if bldr.err != nil { return bldr }]. *)
Definition unless_err (k : BundleBuilder → res BundleBuilder) (bl : BundleBuilder) : res BundleBuilder :=
  match bl_err bl with Some _ => Ok bl | None => k bl end.

(** A value that may be missing: an error is stored in the builder. *)
Definition or_err {A} (r : res A) (k : A → BundleBuilder → res BundleBuilder) (bl : BundleBuilder) : res BundleBuilder :=
  match r with
  | Ok a => k a bl
  | Err e => Ok (set_bl_err e bl)
  | Panic => Panic
  end.

Definition Builder_CRC (crcType : Z) : BundleBuilder → res BundleBuilder := unless_err (λ bl, Ok (set_bl_crcType crcType bl)).

Definition bldrParseEndpoint (eid : GoValue) : res EndpointID :=
  match eid with
  | GEndpointID e => Ok e
  | GString uri => NewEndpointID uri
  | _ => Err (errorf "is neither an EndpointID nor a string")
  end.

Definition bldrParseLifetime `{GoFloat} (duration : GoValue) : res Z :=
  match duration with
  | GUint64 ms => Ok ms
  | GInt z => if z <? 0 then Err (errorf "lifetime's duration <= 0") else Ok z
  | GFloat64 bits =>
      let f := f64_of_bits bits in
      if f64_negative f then Err (errorf "lifetime's duration <= 0") else Ok (f64_to_uint64 f)
  | GString s =>
      dur ← ParseDuration s;
      if dur <=? 0 then Err (errorf "lifetime's duration <= 0") else Ok (dur / 1000000)
  | GDuration ns => Ok (wrap_u64 (Z.quot ns 1000000))
  | _ => Err (errorf "is an unsupported type to parse a Duration from")
  end.

(** *** The primary block *)

Definition Builder_Destination (eid : GoValue) : BundleBuilder → res BundleBuilder :=
  unless_err (or_err (bldrParseEndpoint eid) (λ e bl, Ok (set_bl_primary (set_pb_Destination e (bl_primary bl)) bl))).

Definition Builder_Source (eid : GoValue) : BundleBuilder → res BundleBuilder :=
  unless_err (or_err (bldrParseEndpoint eid) (λ e bl, Ok (set_bl_primary (set_pb_SourceNode e (bl_primary bl)) bl))).

Definition Builder_ReportTo (eid : GoValue) : BundleBuilder → res BundleBuilder :=
  unless_err (or_err (bldrParseEndpoint eid) (λ e bl, Ok (set_bl_primary (set_pb_ReportTo e (bl_primary bl)) bl))).

Definition creationTimestamp (t : Z) : BundleBuilder → res BundleBuilder :=
  unless_err (λ bl, Ok (set_bl_primary (set_pb_CreationTimestamp (NewCreationTimestamp t 0) (bl_primary bl)) bl)).

Definition CreationTimestampEpoch : BundleBuilder → res BundleBuilder := creationTimestamp DtnTimeEpoch.
(** [now] is the clock's time. *)
Definition CreationTimestampNow (now : Z) : BundleBuilder → res BundleBuilder := creationTimestamp (DtnTimeFromTime now).
Definition CreationTimestampTime (t : Z) : BundleBuilder → res BundleBuilder := creationTimestamp (DtnTimeFromTime t).

Definition Builder_Lifetime `{GoFloat} (duration : GoValue) : BundleBuilder → res BundleBuilder :=
  unless_err (or_err (bldrParseLifetime duration) (λ ms bl, Ok (set_bl_primary (set_pb_Lifetime ms (bl_primary bl)) bl))).

Definition BundleCtrlFlags (bcf : Z) : BundleBuilder → res BundleBuilder :=
  unless_err (λ bl, Ok (set_bl_primary (set_pb_BundleControlFlags bcf (bl_primary bl)) bl)).

(** *** Canonical blocks *)

(** A block of the given value and flags, as payload or with the next number. *)
Definition add_block (cb : CanonicalBlock) (bl : BundleBuilder) : res BundleBuilder :=
  code ← TypeCode cb;
  if code =? BlockTypePayloadBlock then Ok (set_bl_payload (set_cb_BlockNumber 1 cb) bl) else Ok (append_canonical cb bl).

Definition Canonical (args : list GoValue) : BundleBuilder → res BundleBuilder := unless_err (λ bl,
  match args with
  | [] => Ok (set_bl_err (errorf "canonical was called with no parameters") bl)
  | [GExtensionBlock data] => add_block (NewCanonicalBlock 0 0 data) bl
  | [GExtensionBlock data; GBlockControlFlags blockCtrlFlags] => add_block (NewCanonicalBlock 0 blockCtrlFlags data) bl
  | [GExtensionBlock _; _] => Ok (set_bl_err (errorf "Canonical received wrong parameter types") bl)
  | GExtensionBlock _ :: _ => Ok (set_bl_err (errorf "Canonical was called with neither one nor two parameters") bl)
  | GCanonicalBlock cb :: _ => add_block cb bl
  | _ => Ok (set_bl_err (errorf "canonicals received unknown type") bl)
  end).

(** [canonicalParseFlags]: the flags, and the builder with an error if there are
    none where they should be. *)
Definition canonicalParseFlags (args : list GoValue) (bl : BundleBuilder) : Z * BundleBuilder :=
  match args with
  | [_; GBlockControlFlags flags] => (flags, bl)
  | [_; _] => (0, set_bl_err (errorf "second parameter are no BlockControlFlags") bl)
  | _ => (0, bl)
  end.

(** The end of the methods for a special block.  The call
    [canonicalParseFlags(args)] passes the slice as one argument. *)
Definition add_special (args : list GoValue) (eb : ExtensionBlock) (bl : BundleBuilder) : res BundleBuilder :=
  let '(passed, bl) := canonicalParseFlags [GSlice args] bl in
  Canonical [GExtensionBlock eb; GBlockControlFlags (Z.lor passed ReplicateBlock)] bl.

(** The value of a result, and the builder with its error; the code goes on with the
    zero value. *)
Definition value_or {A} (zero : A) (r : res A) (bl : BundleBuilder) : res (A * BundleBuilder) :=
  match r with
  | Ok a => Ok (a, bl)
  | Err e => Ok (zero, set_bl_err e bl)
  | Panic => Panic
  end.

Definition Builder_BundleAgeBlock `{GoFloat} (args : list GoValue) : BundleBuilder → res BundleBuilder := unless_err (λ bl,
  match args with
  | [] => Panic
  | arg :: _ => '(ms, bl) ← value_or 0 (bldrParseLifetime arg) bl; add_special args (BundleAgeBlock ms) bl
  end).

Definition Builder_HopCountBlock (args : list GoValue) : BundleBuilder → res BundleBuilder := unless_err (λ bl,
  match args with
  | [] => Panic
  | arg :: _ =>
      let r := match arg with GInt limit => Ok limit | _ => Err (errorf "HopCountBlock received wrong parameter type") end in
      '(limit, bl) ← value_or 0 r bl;
      add_special args (NewHopCountBlock (wrap_u8 limit)) bl
  end).

(** [PayloadBlock] does not look at the builder's error first. *)
Definition Builder_PayloadBlock (args : list GoValue) (bl : BundleBuilder) : res BundleBuilder :=
  match args with
  | [] => Panic
  | arg :: args =>
      match binary_Write arg with
      | Ok pBytes => Canonical (GExtensionBlock (PayloadBlock pBytes) :: args) bl
      | Err e => Ok (set_bl_err e bl)
      | Panic => Panic
      end
  end.

Definition Builder_PreviousNodeBlock (args : list GoValue) : BundleBuilder → res BundleBuilder := unless_err (λ bl,
  match args with
  | [] => Panic
  | arg :: _ => '(eid, bl) ← value_or None (bldrParseEndpoint arg) bl; add_special args (PreviousNodeBlock eid) bl
  end).

Section Records.
Context `{Cboring}.

(** Clears the four status requests of 64-bit flags. *)
Definition noRequests : Z :=
  Z.lxor (two64 - 1) (Z.lor (Z.lor (Z.lor StatusRequestReception StatusRequestForward) StatusRequestDelivery) StatusRequestDeletion).

Definition Builder_AdministrativeRecord (ar : AdministrativeRecord) : BundleBuilder → res BundleBuilder :=
  unless_err (or_err (WriteAdministrativeRecord ar) (λ buff bl,
    let p := bl_primary bl in
    let bcf := Z.land (Z.lor (pb_BundleControlFlags p) AdministrativeRecordPayload) noRequests in
    Builder_PayloadBlock [GBytes buff] (set_bl_primary (set_pb_BundleControlFlags bcf p) bl))).

(** [now] is the clock's time, used if the fourth argument is missing. *)
Definition Builder_StatusReport (now : Z) (args : list GoValue) : BundleBuilder → res BundleBuilder := unless_err (λ bl,
  let report bundle pos reason t := Builder_AdministrativeRecord (ARStatusReport (NewStatusReport bundle pos reason t)) bl in
  match args with
  | [GBundle bundle; GStatusInformationPos pos; GStatusReportReason reason] => report bundle pos reason (DtnTimeFromTime now)
  | [GBundle bundle; GStatusInformationPos pos; GStatusReportReason reason; GDtnTime t] => report bundle pos reason t
  | [GBundle _; GStatusInformationPos _; GStatusReportReason _; _] =>
      Ok (set_bl_err (errorf "StatusReport's fourth argument is not a DtnTime") bl)
  | GBundle _ :: GStatusInformationPos _ :: [_] | GBundle _ :: GStatusInformationPos _ :: [_; _] =>
      Ok (set_bl_err (errorf "StatusReport's third argument is not a StatusReportReason") bl)
  | GBundle _ :: [_; _] | GBundle _ :: [_; _; _] =>
      Ok (set_bl_err (errorf "StatusReport's second argument is not an StatusInformationPos") bl)
  | [_; _; _] | [_; _; _; _] => Ok (set_bl_err (errorf "StatusReport's first argument is not a Bundle") bl)
  | _ => Ok (set_bl_err (errorf "StatusReport expects three or four arguments") bl)
  end).

(** *** The end *)

Context `{Crc16} `{GoMapRange} `{Ed25519}.

(** The result is the bundle, which comes also with an error, and the error. *)
Definition Build (now : Z) (bl : BundleBuilder) : res () * Bundle :=
  match bl_err bl with
  | Some e => (Err e, zero_bundle)
  | None =>
      let p := bl_primary bl in
      let p := if bool_decide (pb_ReportTo p = None) then set_pb_ReportTo (pb_SourceNode p) p else p in
      if bool_decide (pb_SourceNode p = None) || bool_decide (pb_Destination p = None)
      then (Err (errorf "both Source and Destination must be set"), zero_bundle) else
      match NewBundle now p (bl_canonicals bl) (bl_payload bl) with
      | (Ok _, bndl) => (Ok (), Bundle_SetCRCType (bl_crcType bl) bndl)
      | x => x
      end
  end.

(** ** [BuildFromMap] *)

Context `{GoFloat}.

(** One round of the loop: the builder after the call of the method, or the error
    the switch sets. *)
Definition call_method (now : Z) (method : string) (args : GoValue) (bl : BundleBuilder) : res BundleBuilder :=
  if bool_decide (method = "destination") then Builder_Destination args bl else
  if bool_decide (method = "source") then Builder_Source args bl else
  if bool_decide (method = "report_to") then Builder_ReportTo args bl else
  if bool_decide (method = "creation_timestamp_epoch") then CreationTimestampEpoch bl else
  if bool_decide (method = "creation_timestamp_now") then CreationTimestampNow now bl else
  if bool_decide (method = "creation_timestamp_time") then
    match args with
    | GTime t => CreationTimestampTime t bl
    | _ => Err (errorf "creation_timestamp_time needs a time.Time")
    end else
  if bool_decide (method = "lifetime") then Builder_Lifetime args bl else
  if bool_decide (method = "bundle_ctrl_flags") then Err (errorf "bundle_ctrl_flags is not yet implemented") else
  if bool_decide (method = "canonical") then Err (errorf "canonical is not impelemtend") else
  if bool_decide (method = "bundle_age_block") then Builder_BundleAgeBlock [args] bl else
  if bool_decide (method = "hop_count_block") then Builder_HopCountBlock [args] bl else
  if bool_decide (method = "payload_block") then
    match args with
    | GString s => Builder_PayloadBlock [GBytes (str_bytes s)] bl
    | _ => Builder_PayloadBlock [args] bl
    end else
  if bool_decide (method = "previous_node_block") then Builder_PreviousNodeBlock [args] bl else
  Err (errorf "method is either not implemented or not existing").

(** The loop over the map, in the order the runtime takes. *)
Fixpoint call_methods (now : Z) (m : list (string * GoValue)) (bl : BundleBuilder) : res BundleBuilder :=
  match m with
  | [] => Ok bl
  | (method, args) :: m =>
      bl ← call_method now method args bl;
      match bl_err bl with
      | Some e => Err e
      | None => call_methods now m bl
      end
  end.

Definition BuildFromMap (now : Z) (m : list (string * GoValue)) : res () * Bundle :=
  match call_methods now m Builder with
  | Ok bl => Build now bl
  | Err e => (Err e, zero_bundle)
  | Panic => (Panic, zero_bundle)
  end.
End Records.
