(* ===== verification/BuilderProps.v ===== *)
(** * Properties of the bundle builder *)

From stdpp Require Import base tactics list strings gmap.
From Stdlib Require Import ZArith Lia Bool Floats.SpecFloat.
From S2P Require Import Prelude Cboring GoStrings GoSort GoTime Flags Crc DtnTime Endpoint BundleId.
From S2P Require Import ExtensionBlocks Blocks Bundle Samples BundleValid Fragmentation AdminRecord Builder.
Local Open Scope Z_scope.

Section Props.
Context `{Cboring} `{Crc16} `{GoMapRange} `{Ed25519} `{GoFloat}.

(** ** Every method *)

Inductive is_method : (BundleBuilder → res BundleBuilder) → Prop :=
  | m_CRC c : is_method (Builder_CRC c)
  | m_Destination v : is_method (Builder_Destination v)
  | m_Source v : is_method (Builder_Source v)
  | m_ReportTo v : is_method (Builder_ReportTo v)
  | m_creationTimestamp t : is_method (creationTimestamp t)
  | m_Lifetime v : is_method (Builder_Lifetime v)
  | m_BundleCtrlFlags f : is_method (BundleCtrlFlags f)
  | m_Canonical args : is_method (Canonical args)
  | m_BundleAgeBlock args : is_method (Builder_BundleAgeBlock args)
  | m_HopCountBlock args : is_method (Builder_HopCountBlock args)
  | m_PayloadBlock args : is_method (Builder_PayloadBlock args)
  | m_PreviousNodeBlock args : is_method (Builder_PreviousNodeBlock args)
  | m_AdministrativeRecord ar : is_method (Builder_AdministrativeRecord ar)
  | m_StatusReport now args : is_method (Builder_StatusReport now args).

(** The builders a chain of calls can reach. *)
Inductive built : BundleBuilder → Prop :=
  | built_new : built Builder
  | built_call f bl bl' : built bl → is_method f → f bl = Ok bl' → built bl'.

(** The same but for the error. *)
Definition same_but_err (bl bl' : BundleBuilder) : Prop :=
  bl_primary bl' = bl_primary bl ∧ bl_canonicals bl' = bl_canonicals bl ∧ bl_canonicalCounter bl' = bl_canonicalCounter bl ∧
  bl_payload bl' = bl_payload bl ∧ bl_crcType bl' = bl_crcType bl.

(** What a call may do. *)
Inductive effect (bl : BundleBuilder) : BundleBuilder → Prop :=
  | eff_error bl' : same_but_err bl bl' → bl_err bl' ≠ None → effect bl bl'
  | eff_keep : bl_err bl ≠ None → effect bl bl
  | eff_primary p : bl_err bl = None → effect bl (set_bl_primary p bl)
  | eff_crc c : bl_err bl = None → effect bl (set_bl_crcType c bl)
  | eff_payload p cb v : bl_err bl = None → cb_Value cb = Some v → BlockTypeCode v = BlockTypePayloadBlock →
      effect bl (set_bl_payload (set_cb_BlockNumber 1 cb) (set_bl_primary p bl))
  | eff_append cb v : bl_err bl = None → cb_Value cb = Some v → BlockTypeCode v ≠ BlockTypePayloadBlock →
      effect bl (append_canonical cb bl).

Lemma set_err_effect e bl : effect bl (set_bl_err e bl).
Proof. by apply eff_error. Qed.

Lemma unless_err_effect k bl bl' : unless_err k bl = Ok bl' → (bl_err bl = None → k bl = Ok bl' → effect bl bl') → effect bl bl'.
Proof.
  unfold unless_err. destruct (bl_err bl) as [e|] eqn:E; [intros [= <-] _|by auto]. apply eff_keep. by rewrite E.
Qed.

Lemma or_err_effect {B} (r : res B) k bl bl' : or_err r k bl = Ok bl' → (∀ a, r = Ok a → k a bl = Ok bl' → effect bl bl') → effect bl bl'.
Proof. unfold or_err. destruct r; [by eauto|intros [= <-] _; apply set_err_effect|done]. Qed.

Lemma add_block_effect p cb bl bl' : bl_err bl = None → add_block cb (set_bl_primary p bl) = Ok bl' →
  p = bl_primary bl ∨ TypeCode cb = Ok BlockTypePayloadBlock → effect bl bl'.
Proof.
  intros E. unfold add_block, TypeCode. destruct (cb_Value cb) as [v|] eqn:Ev; [|done]. simpl.
  destruct (Z.eqb_spec (BlockTypeCode v) BlockTypePayloadBlock); intros [= <-] Hp; [by eapply eff_payload|].
  destruct Hp as [->|[= Hp]]; [|done]. replace (set_bl_primary (bl_primary bl) bl) with bl by (by destruct bl). by eapply eff_append.
Qed.

Lemma add_block_effect' cb bl bl' : bl_err bl = None → add_block cb bl = Ok bl' → effect bl bl'.
Proof.
  intros E Ha. apply (add_block_effect (bl_primary bl) cb); [done| |by left].
  by replace (set_bl_primary (bl_primary bl) bl) with bl by (by destruct bl).
Qed.

Lemma Canonical_effect args bl bl' : Canonical args bl = Ok bl' → effect bl bl'.
Proof.
  intros Hc. eapply unless_err_effect; [exact Hc|]. intros E Hk. unfold Canonical in *.
  destruct args as [|a args]; [injection Hk as <-; apply set_err_effect|].
  destruct a as [| | | | | | | | | | |eb|cb| | | | | |]; try (injection Hk as <-; apply set_err_effect); [|by eapply add_block_effect'].
  destruct args as [|a2 args]; [by eapply add_block_effect'|].
  destruct a2, args; try (injection Hk as <-; apply set_err_effect). by eapply add_block_effect'.
Qed.

Lemma add_special_effect args eb bl bl' : add_special args eb bl = Ok bl' → effect bl bl'.
Proof. unfold add_special. simpl. apply Canonical_effect. Qed.

(** With an error the end of a special method does nothing. *)
Lemma value_or_effect {B} (zero : B) r args (f : B → ExtensionBlock) bl bl' :
  ('(x, bl) ← value_or zero r bl; add_special args (f x) bl) = Ok bl' → effect bl bl'.
Proof.
  unfold value_or. destruct r as [a|e|]; simpl; [apply add_special_effect| |done].
  unfold add_special, Canonical, unless_err. simpl. intros [= <-]. apply set_err_effect.
Qed.

Lemma PayloadBlock_effect args bl bl' : Builder_PayloadBlock args bl = Ok bl' → effect bl bl'.
Proof.
  unfold Builder_PayloadBlock. destruct args as [|arg args]; [done|].
  destruct (binary_Write arg); [apply Canonical_effect|intros [= <-]; apply set_err_effect|done].
Qed.

Lemma AdministrativeRecord_effect ar bl bl' : Builder_AdministrativeRecord ar bl = Ok bl' → effect bl bl'.
Proof.
  intros Hr. eapply unless_err_effect; [exact Hr|]. intros E Hk. eapply or_err_effect; [exact Hk|]. intros buff _ Hp.
  simpl in Hp. unfold Canonical, unless_err in Hp. simpl in Hp. rewrite E in Hp.
  eapply add_block_effect; [exact E|exact Hp|by right].
Qed.

Lemma method_effect f bl bl' : is_method f → f bl = Ok bl' → effect bl bl'.
Proof.
  intros Hf Hr. destruct Hf;
    try (first [exact (Canonical_effect _ _ _ Hr)|exact (PayloadBlock_effect _ _ _ Hr)|exact (AdministrativeRecord_effect _ _ _ Hr)]);
    (eapply unless_err_effect; [exact Hr|]; intros E Hk).
  - injection Hk as <-. by apply eff_crc.
  - eapply or_err_effect; [exact Hk|]. intros a _ [= <-]. by apply eff_primary.
  - eapply or_err_effect; [exact Hk|]. intros a _ [= <-]. by apply eff_primary.
  - eapply or_err_effect; [exact Hk|]. intros a _ [= <-]. by apply eff_primary.
  - injection Hk as <-. by apply eff_primary.
  - eapply or_err_effect; [exact Hk|]. intros a _ [= <-]. by apply eff_primary.
  - injection Hk as <-. by apply eff_primary.
  - destruct args; [done|]. eapply value_or_effect; exact Hk.
  - destruct args; [done|]. eapply (value_or_effect 0 _ _ (λ limit, NewHopCountBlock (wrap_u8 limit))); exact Hk.
  - destruct args; [done|]. eapply value_or_effect; exact Hk.
  - cbv beta zeta in Hk. repeat (case_match; try (injection Hk as <-; apply set_err_effect); try (by eapply AdministrativeRecord_effect)).
Qed.

(** C25: the builder's first error is not lost: once it has an error no method
    changes anything but perhaps the error, and [Build] returns an error and an empty
    bundle. *)
Theorem builder_error_sticky f bl bl' now : is_method f → bl_err bl ≠ None → f bl = Ok bl' →
  bl_err bl' ≠ None ∧ same_but_err bl bl' ∧ ∃ e, Build now bl' = (Err e, zero_bundle).
Proof.
  intros Hf Herr Hr. apply method_effect in Hr; [|done].
  assert (bl_err bl' ≠ None ∧ same_but_err bl bl') as [Herr' Hsame] by (by destruct Hr).
  split; [done|]. split; [done|]. unfold Build. destruct (bl_err bl') as [e'|]; [|done]. by exists e'.
Qed.

(** ** The blocks *)

(** A block with a value that is, or is not, a payload. *)
Definition payload_valued (cb : CanonicalBlock) : Prop :=
  ∃ v, cb_Value cb = Some v ∧ BlockTypeCode v = BlockTypePayloadBlock.
Definition extension_valued (cb : CanonicalBlock) : Prop :=
  ∃ v, cb_Value cb = Some v ∧ BlockTypeCode v ≠ BlockTypePayloadBlock.

(** Extension blocks are numbered in the order of the calls. *)
Record builder_inv (bl : BundleBuilder) : Prop := {
  bi_counter : bl_canonicalCounter bl = wrap_u64 (2 + len (bl_canonicals bl));
  bi_numbers : ∀ i cb, bl_canonicals bl !! i = Some cb → cb_BlockNumber cb = wrap_u64 (2 + Z.of_nat i);
  bi_extensions : Forall extension_valued (bl_canonicals bl);
  bi_payload : bl_payload bl = zero_canonical ∨ (cb_BlockNumber (bl_payload bl) = 1 ∧ payload_valued (bl_payload bl));
}.

Lemma effect_inv bl bl' : effect bl bl' → builder_inv bl → builder_inv bl'.
Proof.
  intros He [Hc Hn Hx Hp]. destruct He as [bl' (E1 & E2 & E3 & E4 & E5) _| |p|c|p cb v _ Hv Ht|cb v _ Hv Ht]; try (by split).
  - split; by rewrite ?E2, ?E3, ?E4.
  - split; [done..|]. right. split; [done|]. by exists v.
  - split; simpl.
    + rewrite Hc. unfold len. rewrite length_app. simpl. unfold wrap_u64. rewrite Zplus_mod_idemp_l. f_equal. lia.
    + intros i cb'. rewrite lookup_app. destruct (bl_canonicals bl !! i) eqn:Ei; [intros [= <-]; by apply Hn|].
      intros [Hi <-]%list_lookup_singleton_Some. simpl. rewrite Hc. apply lookup_ge_None in Ei. unfold len. f_equal. lia.
    + apply Forall_app. split; [done|]. constructor; [by exists v|constructor].
    + done.
Qed.

Lemma built_inv bl : built bl → builder_inv bl.
Proof.
  induction 1 as [|f bl bl' _ IH Hf Hr]; [|by eapply effect_inv; [eapply method_effect|]].
  split; simpl; [done|done|constructor|by left].
Qed.

Lemma inv_block_numbers bl : builder_inv bl → len (bl_canonicals bl) < two64 - 2 →
  block_numbers (bl_canonicals bl) = seqZ 2 (len (bl_canonicals bl)).
Proof.
  intros Hi Hl. apply list_eq. intros i. unfold block_numbers. rewrite list_lookup_fmap.
  destruct (bl_canonicals bl !! i) as [cb|] eqn:E; simpl.
  - pose proof (lookup_lt_Some _ _ _ E) as Hlt. rewrite (bi_numbers _ Hi _ _ E), wrap_u64_id by (unfold is_u64, len in *; lia).
    symmetry. apply lookup_seqZ. unfold len. lia.
  - apply lookup_ge_None in E. symmetry. apply lookup_seqZ_ge. unfold len. lia.
Qed.

(** Blocks numbered upwards are in order already. *)
Lemma seqZ_blocks_sorted n l : 1 < n → block_numbers l = seqZ n (len l) → blocks_sorted l.
Proof.
  revert n. induction l as [|c l IH]; intros n Hn1; [constructor|]. unfold len. simpl length.
  unfold block_numbers. rewrite fmap_cons, (seqZ_cons n) by lia. intros [= Hc Hl].
  replace (Z.pred (Z.of_nat (S (length l)))) with (len l) in Hl by (unfold len; lia).
  constructor; [eapply (IH (Z.succ n)); [lia|done]|]. apply Forall_forall. intros x Hx.
  assert (cb_BlockNumber x ∈ seqZ (Z.succ n) (len l)) as Hin%elem_of_seqZ by (rewrite <- Hl; by apply list_elem_of_fmap_2).
  unfold not_less, canonicalBlockNumberSort_Less, BlockTypePayloadBlock.
  rewrite (proj2 (Z.eqb_neq (cb_BlockNumber x) 1)), (proj2 (Z.eqb_neq (cb_BlockNumber c) 1)) by lia. apply Z.ltb_ge. lia.
Qed.

Lemma inv_NewBundle p bl : builder_inv bl → len (bl_canonicals bl) < two64 - 2 →
  MustNewBundle p (bl_canonicals bl) (bl_payload bl) = mkBundle p (bl_canonicals bl) (bl_payload bl).
Proof.
  intros Hi Hl. pose proof (inv_block_numbers _ Hi Hl) as Hn.
  unfold MustNewBundle, sortExtensionBlocks, set_b_ExtensionBlocks. simpl. f_equal. symmetry.
  apply sort_blocks_unique; [rewrite Hn; apply NoDup_seqZ|done|by eapply (seqZ_blocks_sorted 2)].
Qed.

(** The primary block [Build] passes on. *)
Definition with_report_to (p : PrimaryBlock) : PrimaryBlock :=
  if bool_decide (pb_ReportTo p = None) then set_pb_ReportTo (pb_SourceNode p) p else p.

Lemma with_report_to_keeps p : pb_SourceNode (with_report_to p) = pb_SourceNode p ∧ pb_Destination (with_report_to p) = pb_Destination p.
Proof. unfold with_report_to. by case_bool_decide. Qed.

(** C23: a builder that any chain of calls made, with fewer than 2^64-2 extension
    blocks, and that builds a bundle: the extension blocks are those added, in the
    order of the calls and numbered from 2 on; the payload block is numbered 1 and
    holds a payload; source and destination are set and the report-to endpoint is the
    source unless it was set; every block has the builder's CRC type, the primary block
    CRC-32 instead of none; and the bundle before the CRC types are set is valid. *)
Theorem build_spec now bl b : built bl → len (bl_canonicals bl) < two64 - 2 → Build now bl = (Ok (), b) →
  let crc := bl_crcType bl in
  b_ExtensionBlocks b = (CanonicalBlock_SetCRCType crc <$> bl_canonicals bl) ∧
  block_numbers (b_ExtensionBlocks b) = seqZ 2 (len (bl_canonicals bl)) ∧
  b_PayloadBlock b = CanonicalBlock_SetCRCType crc (bl_payload bl) ∧
  cb_BlockNumber (b_PayloadBlock b) = 1 ∧ payload_valued (b_PayloadBlock b) ∧
  b_PrimaryBlock b = PrimaryBlock_SetCRCType crc (with_report_to (bl_primary bl)) ∧
  pb_SourceNode (bl_primary bl) ≠ None ∧ pb_Destination (bl_primary bl) ≠ None ∧
  Bundle_CheckValid now (mkBundle (with_report_to (bl_primary bl)) (bl_canonicals bl) (bl_payload bl)) = Ok [].
Proof.
  intros Hb Hl. apply built_inv in Hb as Hi. unfold Build. destruct (bl_err bl); [done|]. fold (with_report_to (bl_primary bl)).
  destruct (with_report_to_keeps (bl_primary bl)) as [-> ->].
  case_bool_decide as Hs; [done|]. case_bool_decide as Hd; [done|]. simpl. unfold NewBundle. rewrite inv_NewBundle by done.
  destruct (check_bundle _ _) as [[]| |] eqn:Ec; [|done..]. apply check_bundle_Ok in Ec. intros [= <-]. cbv zeta.
  assert (cb_BlockNumber (bl_payload bl) = 1 ∧ payload_valued (bl_payload bl)) as (Hp1 & Hpv).
  { destruct (bi_payload _ Hi) as [Hz|]; [|done]. exfalso. rewrite CheckValid_no_payload_panics in Ec; [done|by simpl; rewrite Hz|].
    simpl. eapply Forall_impl; [apply (bi_extensions _ Hi)|]. intros cb (v & Hv & _). by exists v. }
  split_and!; try done. simpl. rewrite <- (inv_block_numbers _ Hi Hl). unfold block_numbers. by rewrite <- list_fmap_compose.
Qed.

(** A builder with source and destination but without a payload makes [Build]
    panic. *)
Theorem build_without_payload_panics now bl : built bl → bl_err bl = None → bl_payload bl = zero_canonical →
  pb_SourceNode (bl_primary bl) ≠ None → pb_Destination (bl_primary bl) ≠ None → (Build now bl).1 = Panic.
Proof.
  intros Hb He Hz Hs Hd. apply built_inv in Hb as Hi. unfold Build. rewrite He. fold (with_report_to (bl_primary bl)).
  destruct (with_report_to_keeps (bl_primary bl)) as [-> ->]. rewrite !bool_decide_eq_false_2 by done.
  simpl. unfold NewBundle, check_bundle. rewrite CheckValid_no_payload_panics; [done|by simpl; rewrite Hz|].
  unfold MustNewBundle, all_valued. rewrite sort_blocks_perm. simpl. eapply Forall_impl; [apply (bi_extensions _ Hi)|]. intros cb (v & Hv & _). by exists v.
Qed.

(** ** The order of the map *)

(** What a method of [BuildFromMap] does to a builder without an error. *)
Inductive update :=
  | UDestination (e : EndpointID)
  | USource (e : EndpointID)
  | UReportTo (e : EndpointID)
  | UTimestamp (t : Z)
  | ULifetime (ms : Z)
  | UExtension (key : string) (eb : ExtensionBlock)
  | UPayload (data : bytes).

Definition res_option {B} (r : res B) : option B := match r with Ok x => Some x | _ => None end.

Definition method_update (now : Z) (method : string) (args : GoValue) : option update :=
  if bool_decide (method = "destination") then UDestination <$> res_option (bldrParseEndpoint args) else
  if bool_decide (method = "source") then USource <$> res_option (bldrParseEndpoint args) else
  if bool_decide (method = "report_to") then UReportTo <$> res_option (bldrParseEndpoint args) else
  if bool_decide (method = "creation_timestamp_epoch") then Some (UTimestamp DtnTimeEpoch) else
  if bool_decide (method = "creation_timestamp_now") then Some (UTimestamp (DtnTimeFromTime now)) else
  if bool_decide (method = "creation_timestamp_time") then
    match args with GTime t => Some (UTimestamp (DtnTimeFromTime t)) | _ => None end else
  if bool_decide (method = "lifetime") then ULifetime <$> res_option (bldrParseLifetime args) else
  if bool_decide (method = "bundle_ctrl_flags") then None else
  if bool_decide (method = "canonical") then None else
  if bool_decide (method = "bundle_age_block") then
    (λ ms, UExtension method (BundleAgeBlock ms)) <$> res_option (bldrParseLifetime args) else
  if bool_decide (method = "hop_count_block") then
    match args with GInt limit => Some (UExtension method (NewHopCountBlock (wrap_u8 limit))) | _ => None end else
  if bool_decide (method = "payload_block") then
    match args with GString s => Some (UPayload (str_bytes s)) | _ => UPayload <$> res_option (binary_Write args) end else
  if bool_decide (method = "previous_node_block") then
    (λ e, UExtension method (PreviousNodeBlock e)) <$> res_option (bldrParseEndpoint args) else None.

Definition update_primary (u : update) (p : PrimaryBlock) : PrimaryBlock :=
  match u with
  | UDestination e => set_pb_Destination e p
  | USource e => set_pb_SourceNode e p
  | UReportTo e => set_pb_ReportTo e p
  | UTimestamp t => set_pb_CreationTimestamp (NewCreationTimestamp t 0) p
  | ULifetime ms => set_pb_Lifetime ms p
  | _ => p
  end.

Definition apply_update (u : update) (bl : BundleBuilder) : BundleBuilder :=
  match u with
  | UExtension _ eb => append_canonical (NewCanonicalBlock 0 (Z.lor 0 ReplicateBlock) eb) bl
  | UPayload data => set_bl_payload (set_cb_BlockNumber 1 (NewCanonicalBlock 0 0 (PayloadBlock data))) bl
  | _ => set_bl_primary (update_primary u (bl_primary bl)) bl
  end.

(** The three methods for the creation timestamp set the same field. *)
Definition method_kind (method : string) : string :=
  if bool_decide (method = "creation_timestamp_epoch") || bool_decide (method = "creation_timestamp_now") ||
     bool_decide (method = "creation_timestamp_time")
  then "creation_timestamp" else method.

Definition update_kind (u : update) : string :=
  match u with
  | UDestination _ => "destination" | USource _ => "source" | UReportTo _ => "report_to"
  | UTimestamp _ => "creation_timestamp" | ULifetime _ => "lifetime" | UExtension key _ => key | UPayload _ => "payload_block"
  end.

(** What is to be shown of a call. *)
Definition is_update (o : option update) (kind : string) (bl : BundleBuilder) (r : res BundleBuilder) : Prop :=
  match o with
  | Some u => r = Ok (apply_update u bl) ∧ update_kind u = kind
  | None => ∀ bl', r = Ok bl' → bl_err bl' ≠ None
  end.

Lemma or_err_update {B} (r : res B) k (f : B → update) kind bl :
  (∀ x, k x bl = Ok (apply_update (f x) bl) ∧ update_kind (f x) = kind) →
  is_update (f <$> res_option r) kind bl (or_err r k bl).
Proof. intros Hk. destruct r as [x|e|]; simpl; [apply Hk|by intros bl' [= <-]|done]. Qed.

Lemma special_update {B} (zero : B) r (f : B → ExtensionBlock) kind args bl : bl_err bl = None →
  (∀ x, BlockTypeCode (f x) ≠ BlockTypePayloadBlock) →
  is_update ((λ x, UExtension kind (f x)) <$> res_option r) kind bl
    ('(x, bl) ← value_or zero r bl; add_special args (f x) bl).
Proof.
  intros He Hf. destruct r as [x|e|]; simpl; [| |done]; unfold add_special, Canonical, unless_err; simpl.
  - rewrite He. unfold add_block. simpl. specialize (Hf x). by destruct (Z.eqb_spec (BlockTypeCode (f x)) BlockTypePayloadBlock).
  - by intros bl' [= <-].
Qed.

Lemma payload_update v bl : bl_err bl = None →
  is_update (UPayload <$> res_option (binary_Write v)) "payload_block" bl (Builder_PayloadBlock [v] bl).
Proof.
  intros He. unfold Builder_PayloadBlock. destruct (binary_Write v); simpl; [|by intros bl' [= <-]|done].
  unfold Canonical, unless_err. by rewrite He.
Qed.

(** A call without error is its update, and fails or not whatever the builder. *)
Lemma call_method_update now method args bl : bl_err bl = None →
  is_update (method_update now method args) (method_kind method) bl (call_method now method args bl).
Proof.
  intros He. unfold method_update, call_method, method_kind.
  repeat (case_bool_decide as Hm; [subst method; simpl; clear -He|clear Hm]).
  all: unfold Builder_Destination, Builder_Source, Builder_ReportTo, CreationTimestampEpoch, CreationTimestampNow,
    CreationTimestampTime, creationTimestamp, Builder_Lifetime, Builder_BundleAgeBlock, Builder_HopCountBlock,
    Builder_PreviousNodeBlock, unless_err; rewrite ?He; try done; try (by apply or_err_update).
  - by destruct args.
  - by apply special_update.
  - pose proof (λ r, special_update 0 r (λ l, NewHopCountBlock (wrap_u8 l)) "hop_count_block" [args] bl He ltac:(done)) as Hs.
    destruct args; first [exact (Hs (Ok _))|exact (Hs (Err _))].
  - destruct args; try (by apply payload_update). exact (payload_update (GBytes (str_bytes s)) bl He).
  - by apply special_update.
Qed.

Lemma apply_update_err u bl : bl_err (apply_update u bl) = bl_err bl.
Proof. by destruct u. Qed.

Definition apply_updates (us : list update) (bl : BundleBuilder) : BundleBuilder := fold_left (λ bl u, apply_update u bl) us bl.

(** A loop without error applies the update of every entry. *)
Lemma call_methods_updates now m bl : bl_err bl = None → ∀ bl', call_methods now m bl = Ok bl' ↔
  ∃ us, mapM (λ x, method_update now x.1 x.2) m = Some us ∧ bl' = apply_updates us bl.
Proof.
  intros He bl'. revert bl He. induction m as [|[k v] m IH]; intros bl He.
  { simpl. split; [intros [= <-]; by exists []|by intros (us & [= <-] & ->)]. }
  pose proof (call_method_update now k v bl He) as Hc. cbn [call_methods mapM fst snd].
  destruct (method_update now k v) as [u|]; simpl in Hc |- *.
  - destruct Hc as [-> _]. simpl. rewrite apply_update_err, He. rewrite IH by (by rewrite apply_update_err). split.
    + intros (us & Hm & ->). exists (u :: us). by rewrite Hm.
    + intros (us & Hm & ->). apply bind_Some in Hm as (us' & Hm' & [= <-]). by exists us'.
  - split; [|by intros (us & ? & _)]. destruct (call_method now k v bl) as [bl1| |] eqn:E; [|done..]. simpl.
    specialize (Hc bl1 eq_refl). by destruct (bl_err bl1).
Qed.

Lemma mapM_kinds now m us : mapM (λ x, method_update now x.1 x.2) m = Some us → update_kind <$> us = (λ x, method_kind x.1) <$> m.
Proof.
  intros Hm%mapM_Some_1. induction Hm as [|[k v] u m us Hu Hm IH]; [done|]. rewrite !fmap_cons, IH. f_equal.
  pose proof (call_method_update now k v Builder eq_refl) as Hc. simpl in *. rewrite Hu in Hc. by destruct Hc.
Qed.

(** Builders that differ in the order of the extension blocks only. *)
Definition unnumbered (l : list CanonicalBlock) : list CanonicalBlock := set_cb_BlockNumber 0 <$> l.

Record same_content (bl bl' : BundleBuilder) : Prop := {
  sc_err : bl_err bl = bl_err bl';
  sc_primary : bl_primary bl = bl_primary bl';
  sc_canonicals : unnumbered (bl_canonicals bl) ≡ₚ unnumbered (bl_canonicals bl');
  sc_payload : bl_payload bl = bl_payload bl';
  sc_crcType : bl_crcType bl = bl_crcType bl';
}.

#[local] Instance same_content_preorder : PreOrder same_content.
Proof. split; [by split|]. intros a b c [] []. split; by etrans. Qed.

#[local] Instance apply_update_proper u : Proper (same_content ==> same_content) (apply_update u).
Proof.
  intros a b [He Hp Hc Hl Hr]. destruct u; split; simpl; try done; try (by rewrite Hp).
  unfold unnumbered in *. by rewrite !fmap_app, Hc.
Qed.

(** Updates of different kinds commute. *)
Lemma apply_update_comm u w bl : update_kind u ≠ update_kind w →
  same_content (apply_update u (apply_update w bl)) (apply_update w (apply_update u bl)).
Proof.
  intros Hk. destruct u, w; try done; split; try done.
  simpl. unfold unnumbered. rewrite !fmap_app, <- !(assoc_L (++)). apply Permutation_app_head. simpl. apply Permutation_swap.
Qed.

Lemma apply_updates_perm us us' bl : NoDup (update_kind <$> us) → us ≡ₚ us' →
  same_content (apply_updates us bl) (apply_updates us' bl).
Proof.
  intros Hnd Hp. unfold apply_updates. rewrite <- !(fold_left_rev_right apply_update).
  apply foldr_permutation; [apply _|apply _| |by rewrite <- !Permutation_rev].
  intros i u j w b Hij Hi Hj. apply apply_update_comm. intros Hk. apply Hij.
  assert (NoDup (update_kind <$> rev us)) as Hr by (by rewrite <- Permutation_rev).
  eapply (NoDup_lookup _ i j (update_kind w) Hr); rewrite list_lookup_fmap.
  - rewrite Hi. simpl. by rewrite Hk.
  - by rewrite Hj.
Qed.

Lemma Forall2_perm {A B} (R : A → B → Prop) l l' k : l ≡ₚ l' → Forall2 R l k → ∃ k', Forall2 R l' k' ∧ k ≡ₚ k'.
Proof.
  intros Hp. revert k. induction Hp as [|x l l' _ IH|x y l|l1 l2 l3 _ IH1 _ IH2]; intros k Hf.
  - exists k. done.
  - apply Forall2_cons_inv_l in Hf as (z & k1 & Hz & (k' & Hk' & Hp')%IH & ->). exists (z :: k'). split; [by constructor|by rewrite Hp'].
  - apply Forall2_cons_inv_l in Hf as (z & k1 & Hz & (w & k2 & Hw & Hk & ->)%Forall2_cons_inv_l & ->).
    exists (w :: z :: k2). split; [by repeat constructor|apply Permutation_swap].
  - apply IH1 in Hf as (k' & (k2 & Hk2 & Hp2)%IH2 & Hp'). exists k2. split; [done|by etrans].
Qed.

(** The calls in another order. *)
Lemma call_methods_perm now m m' bl : NoDup ((λ x, method_kind x.1) <$> m) → m ≡ₚ m' →
  call_methods now m Builder = Ok bl → ∃ bl', call_methods now m' Builder = Ok bl' ∧ same_content bl bl'.
Proof.
  intros Hnd Hp Hc. apply (call_methods_updates now m Builder eq_refl) in Hc as (us & Hm & ->).
  pose proof (mapM_kinds _ _ _ Hm) as Hk.
  assert (∃ us', mapM (λ x, method_update now x.1 x.2) m' = Some us' ∧ us ≡ₚ us') as (us' & Hm' & Hp').
  { apply mapM_Some_1 in Hm. destruct (Forall2_perm _ _ _ _ Hp Hm) as (us' & Hf & Hp').
    exists us'. split; [by apply mapM_Some_2|done]. }
  exists (apply_updates us' Builder). split; [apply call_methods_updates; eauto|].
  apply apply_updates_perm; [by rewrite Hk|done].
Qed.

(** C24: [BuildFromMap] does not depend on the order in which Go ranges over the map,
    if at most one of the three timestamp methods is used: if the calls succeed in one
    order they succeed in every other, and the two builders agree in everything but the
    order, and so the numbers, of the extension blocks. *)
Theorem BuildFromMap_order now m m' bl : NoDup ((λ x, method_kind x.1) <$> m) → m ≡ₚ m' →
  call_methods now m Builder = Ok bl → ∃ bl', call_methods now m' Builder = Ok bl' ∧ same_content bl bl'.
Proof. apply call_methods_perm. Qed.

Lemma call_methods_built now m bl bl' : built bl → call_methods now m bl = Ok bl' → built bl'.
Proof.
  revert bl. induction m as [|[k v] m IH]; intros bl Hb; simpl; [by intros [= <-]|].
  destruct (call_method now k v bl) as [bl1| |] eqn:E; [|done..]. simpl. destruct (bl_err bl1); [done|]. apply IH.
  unfold call_method in E.
  repeat (case_bool_decide; [subst; try done; try (destruct v; try done); by (eapply built_call; [exact Hb| |exact E]; constructor)|]). done.
Qed.

(** A hop count can not be asked for with the types JSON and MessagePack decode
    numbers to: [HopCountBlock] wants an [int]. *)
Theorem hop_count_needs_int now args bl : bl_err bl = None → (∀ z, args ≠ GInt z) →
  ∃ bl', call_method now "hop_count_block" args bl = Ok bl' ∧ bl_err bl' ≠ None.
Proof.
  intros He Ha. unfold call_method. simpl. unfold Builder_HopCountBlock, unless_err. rewrite He.
  destruct args; try (by eexists). by destruct (Ha z).
Qed.

(** Flags given for a special block are ignored: the block is added with the same
    flags whatever arguments follow. *)
Theorem special_flags_ignored arg args bl :
  Builder_BundleAgeBlock (arg :: args) bl = Builder_BundleAgeBlock [arg] bl ∧
  Builder_HopCountBlock (arg :: args) bl = Builder_HopCountBlock [arg] bl ∧
  Builder_PreviousNodeBlock (arg :: args) bl = Builder_PreviousNodeBlock [arg] bl.
Proof. done. Qed.

End Props.

(** ** Concrete builders *)

#[local] Instance no_overflow : GoFloat := λ _, 0.

Definition chat_map : list (string * GoValue) :=
  [("destination", GString "dtn://dest/"); ("source", GString "dtn://src/"); ("creation_timestamp_now", GBool true);
   ("lifetime", GString "24h"); ("previous_node_block", GString "dtn://hop/"); ("hop_count_block", GInt 64);
   ("payload_block", GString "hello world")].

Definition chat_builder : BundleBuilder := apply_updates (default [] (mapM (λ x, method_update (dtn_ns 1000) x.1 x.2) chat_map)) Builder.

Lemma builder_error_sticky_witness :
  bl_err (set_bl_err (errorf "first") Builder) ≠ None ∧
  ∃ e, Build 0 (set_bl_err (errorf "first") Builder) = (Err e, zero_bundle).
Proof.
  split; [discriminate|].
  destruct (builder_error_sticky (Builder_CRC CRC32) (set_bl_err (errorf "first") Builder) (set_bl_err (errorf "first") Builder) 0)
    as (_ & _ & He); [constructor|discriminate|reflexivity|exact He].
Defined.

Lemma BuildFromMap_order_witness :
  ∃ bl', call_methods (dtn_ns 1000) (rev chat_map) Builder = Ok bl' ∧ same_content chat_builder bl'.
Proof.
  apply (BuildFromMap_order (dtn_ns 1000) chat_map (rev chat_map) chat_builder).
  - apply (bool_decide_unpack _). vm_compute. exact I.
  - apply Permutation_rev.
  - vm_compute. reflexivity.
Defined.

Lemma build_spec_witness :
  ∃ b, Build (dtn_ns 2000) chat_builder = (Ok (), b) ∧ block_numbers (b_ExtensionBlocks b) = [2; 3] ∧
    payload_valued (b_PayloadBlock b).
Proof.
  destruct (Build (dtn_ns 2000) chat_builder) as [r b] eqn:E. exists b.
  assert (r = Ok ()) as -> by (rewrite <- (f_equal fst E : _ = r); vm_compute; reflexivity).
  destruct (build_spec (dtn_ns 2000) chat_builder b) as (_ & Hn & _ & _ & Hp & _).
  - eapply (call_methods_built (dtn_ns 1000) chat_map Builder); [constructor|vm_compute; reflexivity].
  - vm_compute. reflexivity.
  - exact E.
  - split; [reflexivity|]. split; [rewrite Hn; vm_compute; reflexivity|exact Hp].
Defined.

(** The blocks are numbered in the order of the map range. *)
Example order_numbers_blocks :
  (λ bl, cb_Value <$> bl_canonicals bl) <$> res_option (call_methods (dtn_ns 1000) chat_map Builder) =
    Some [Some (PreviousNodeBlock (dtn "hop" "")); Some (NewHopCountBlock 64)] ∧
  (λ bl, cb_Value <$> bl_canonicals bl) <$> res_option (call_methods (dtn_ns 1000) (rev chat_map) Builder) =
    Some [Some (NewHopCountBlock 64); Some (PreviousNodeBlock (dtn "hop" ""))].
Proof. vm_compute. split; reflexivity. Qed.
