(* ===== verification/IdKeeper.v ===== *)
(** * The id keeper

    [pkg/id_keeper/id_keeper.go]: sequence numbers for the bundles a node creates.
    [Update] and [Clean] hold the keeper's mutex for their whole body, so an
    execution is a sequence of these two operations. *)

From stdpp Require Import base tactics list strings gmap.
From Stdlib Require Import ZArith Lia.
From S2P Require Import Prelude Cboring Flags Crc DtnTime Endpoint BundleId ExtensionBlocks Blocks Bundle.
From S2P Require Import Samples.
Local Open Scope Z_scope.

(** ** State and operations *)

Record idTuple := mkIdTuple { it_source : EndpointID; it_time : Z }.

#[global] Instance idTuple_eq_dec : EqDecision idTuple.
Proof. solve_decision. Defined.
#[global] Instance idTuple_countable : Countable idTuple.
Proof. apply (inj_countable' (λ t, (it_source t, it_time t)) (λ '(s, t), mkIdTuple s t)). by intros []. Defined.

Definition newIdTuple (bndl : Bundle) : idTuple :=
  mkIdTuple (pb_SourceNode (b_PrimaryBlock bndl)) (CreationTimestamp_DtnTime (pb_CreationTimestamp (b_PrimaryBlock bndl))).

Abbreviation IdKeeper := (gmap idTuple Z).

(** [Update] sets the bundle's sequence number in place. *)
Definition set_sequence (bndl : Bundle) (seq : Z) : Bundle :=
  let p := b_PrimaryBlock bndl in
  set_b_PrimaryBlock (set_pb_CreationTimestamp (mkTimestamp (ct_time (pb_CreationTimestamp p)) seq) p) bndl.

Definition IdKeeper_Update (idk : IdKeeper) (bndl : Bundle) : IdKeeper * Bundle :=
  let tpl := newIdTuple bndl in
  let seq := match idk !! tpl with Some state => wrap_u64 (state + 1) | None => 0 end in
  (<[tpl := seq]> idk, set_sequence bndl seq).

Definition Hour : Z := 3600 * 1000000000.

Definition clean_threshold (now : Z) : Z := DtnTimeFromTime (now - Hour).

Definition IdKeeper_Clean (now : Z) (idk : IdKeeper) : IdKeeper :=
  filter (λ '(tpl, _), ¬ it_time tpl < clean_threshold now) idk.

(** ** Executions *)

Inductive op :=
  | OpUpdate (bndl : Bundle)
  | OpClean (now : Z).

(** The ids of the bundles that were updated, in order. *)
Fixpoint run (ops : list op) (idk : IdKeeper) : list BundleID :=
  match ops with
  | [] => []
  | OpUpdate bndl :: ops =>
      let '(idk', bndl') := IdKeeper_Update idk bndl in Bundle_ID bndl' :: run ops idk'
  | OpClean now :: ops => run ops (IdKeeper_Clean now idk)
  end.

(** Every bundle that is updated was created no earlier than all the thresholds
    of the cleanings before it; [T] is the greatest threshold so far. *)
Fixpoint fresh_bundles (T : Z) (ops : list op) : Prop :=
  match ops with
  | [] => True
  | OpUpdate bndl :: ops => T ≤ it_time (newIdTuple bndl) ∧ fresh_bundles T ops
  | OpClean now :: ops => fresh_bundles (Z.max T (clean_threshold now)) ops
  end.

(** ** Lemmas *)

Definition id_tuple (bid : BundleID) : idTuple := mkIdTuple (bid_SourceNode bid) (ct_time (bid_Timestamp bid)).

(** The keeper has counted at least to the sequence number of every id that was
    issued, except for those older than the threshold [T]; its counters are
    below [n]. *)
Definition covers (T n : Z) (issued : list BundleID) (idk : IdKeeper) : Prop :=
  (∀ bid, bid ∈ issued → it_time (id_tuple bid) < T ∨
     ∃ seq, idk !! id_tuple bid = Some seq ∧ ct_seq (bid_Timestamp bid) ≤ seq) ∧
  (∀ tpl seq, idk !! tpl = Some seq → 0 ≤ seq < n).

Lemma Update_id idk bndl :
  let bid := Bundle_ID (IdKeeper_Update idk bndl).2 in
  id_tuple bid = newIdTuple bndl ∧
  ct_seq (bid_Timestamp bid) = match idk !! newIdTuple bndl with Some s => wrap_u64 (s + 1) | None => 0 end.
Proof. done. Qed.

Lemma covers_Update T n issued idk bndl : 0 ≤ n → n + 1 < two64 → covers T n issued idk → T ≤ it_time (newIdTuple bndl) →
  let bid := Bundle_ID (IdKeeper_Update idk bndl).2 in
  (bid ∉ issued) ∧ covers T (n + 1) (bid :: issued) (IdKeeper_Update idk bndl).1.
Proof.
  intros Hn0 Hn [Hc Hs] HT bid. destruct (Update_id idk bndl) as [Hid Hseq]. fold bid in Hid, Hseq.
  assert (∀ s, idk !! newIdTuple bndl = Some s → wrap_u64 (s + 1) = s + 1) as Hw.
  { intros s E. specialize (Hs _ _ E). apply wrap_u64_id. u64_lia. }
  split.
  - intros Hin. destruct (Hc bid Hin) as [Hlt|(s & E & Hle)]; [rewrite Hid in Hlt; lia|].
    rewrite Hid in E. rewrite E, (Hw s E) in Hseq. lia.
  - unfold IdKeeper_Update. simpl. split.
    + intros bid' Hin. destruct (decide (id_tuple bid' = newIdTuple bndl)) as [E|E].
      * right. rewrite E, lookup_insert_eq. eexists. split; [done|].
        apply elem_of_cons in Hin as [->|Hin]; [rewrite Hseq; lia|].
        destruct (Hc bid' Hin) as [Hlt|(s & Es & Hle)]; [rewrite E in Hlt; lia|].
        rewrite E in Es. rewrite Es, (Hw s Es). lia.
      * apply elem_of_cons in Hin as [->|Hin]; [done|]. rewrite lookup_insert_ne by done. by apply Hc.
    + intros tpl s. destruct (decide (tpl = newIdTuple bndl)) as [->|E].
      * rewrite lookup_insert_eq. intros [= <-]. destruct (idk !! newIdTuple bndl) as [s'|] eqn:Es; [|lia].
        rewrite (Hw s' eq_refl). specialize (Hs _ _ Es). lia.
      * rewrite lookup_insert_ne by done. intros Es. specialize (Hs _ _ Es). lia.
Qed.

Lemma covers_Clean T n now issued idk : covers T n issued idk →
  covers (Z.max T (clean_threshold now)) n issued (IdKeeper_Clean now idk).
Proof.
  intros [Hc Hs]. split.
  - intros bid Hin. destruct (Hc bid Hin) as [Hlt|(s & E & Hle)]; [left; lia|].
    destruct (decide (it_time (id_tuple bid) < clean_threshold now)); [left; lia|].
    right. exists s. split; [|done]. by apply map_lookup_filter_Some.
  - intros tpl s [E _]%map_lookup_filter_Some. by eapply Hs.
Qed.

Lemma run_NoDup T n issued ops idk : 0 ≤ n → n + len ops < two64 → covers T n issued idk → fresh_bundles T ops →
  NoDup (run ops idk) ∧ ∀ bid, bid ∈ run ops idk → bid ∉ issued.
Proof.
  revert T n issued idk. induction ops as [|[bndl|now] ops IH]; intros T n issued idk H0 Hn Hc Hf.
  - simpl. split; [constructor|]. intros bid Hin. by apply not_elem_of_nil in Hin.
  - change (len (OpUpdate bndl :: ops)) with (Z.of_nat (S (length ops))) in Hn. destruct Hf as [HT Hf].
    destruct (covers_Update T n issued idk bndl H0 ltac:(lia) Hc HT) as [Hnew Hc'].
    destruct (IH T (n + 1) _ _ ltac:(lia) ltac:(unfold len; lia) Hc' Hf) as [Hnd Hout].
    change (run (OpUpdate bndl :: ops) idk) with
      (Bundle_ID (IdKeeper_Update idk bndl).2 :: run ops (IdKeeper_Update idk bndl).1). split.
    + constructor; [|done]. intros Hin. apply (Hout _ Hin). by left.
    + intros bid [->|Hin]%elem_of_cons; [done|]. intros Hi. apply (Hout bid Hin). by right.
  - simpl in *. change (len (OpClean now :: ops)) with (Z.of_nat (S (length ops))) in Hn.
    eapply IH; [exact H0|unfold len; lia|by apply covers_Clean|done].
Qed.

(** ** Properties *)

(** C39: the ids the keeper gives to the bundles of an execution are pairwise
    different, cleaning included, as long as no bundle is older than a threshold
    of a cleaning that came before it and fewer than 2^64 operations ran. *)
Theorem IdKeeper_unique ops : len ops < two64 → fresh_bundles 0 ops → NoDup (run ops ∅).
Proof.
  intros Hn Hf. apply (run_NoDup 0 0 [] ops ∅); [lia|lia| |done]. split.
  - intros bid Hin. by apply not_elem_of_nil in Hin.
  - intros tpl seq. by rewrite lookup_empty.
Qed.

Definition at_time (t : Z) : Bundle :=
  set_b_PrimaryBlock (set_pb_CreationTimestamp (mkTimestamp t 0) (sample_primary 0)) sample_bundle.

(** 2026-01-01 as nanoseconds since the Unix epoch, and as DTN time. *)
Definition jan2026 : Z := 1767225600000000000.
Definition jan2026_dtn : Z := DtnTimeFromTime jan2026.

Lemma IdKeeper_unique_witness :
  NoDup (run [OpUpdate (at_time jan2026_dtn); OpClean jan2026; OpUpdate (at_time jan2026_dtn)] ∅).
Proof. apply IdKeeper_unique; [vm_compute; reflexivity|vm_compute; repeat split; discriminate]. Defined.

(** [Clean] also drops the counters of bundles with the epoch time 0, which
    its comment exempts: two bundles without a clock that are created before and
    after a cleaning get the same id. *)
Theorem Clean_forgets_epoch now : 0 < clean_threshold now →
  ∃ bid, run [OpUpdate (at_time 0); OpClean now; OpUpdate (at_time 0)] ∅ = [bid; bid].
Proof.
  intros Ht.
  change (run _ ∅) with [Bundle_ID (set_sequence (at_time 0) 0);
    Bundle_ID (IdKeeper_Update (IdKeeper_Clean now (<[newIdTuple (at_time 0) := 0]> ∅)) (at_time 0)).2].
  assert (IdKeeper_Clean now (<[newIdTuple (at_time 0) := 0]> ∅) = ∅) as ->.
  { unfold IdKeeper_Clean. rewrite map_filter_insert_False; [by rewrite delete_empty, map_filter_empty|].
    simpl. intros Hn. apply Hn. exact Ht. }
  by eexists.
Qed.

Lemma Clean_forgets_epoch_witness :
  ∃ bid, run [OpUpdate (at_time 0); OpClean jan2026; OpUpdate (at_time 0)] ∅ = [bid; bid].
Proof. apply (Clean_forgets_epoch jan2026). vm_compute. reflexivity. Defined.
