(* ===== verification/Descriptor.v ===== *)
(** * Bundle descriptors

    [pkg/store/bundle_descriptor.go] and [constraints.go]: the in-memory state of
    a stored bundle.  Every method locks the descriptor's mutex for its whole
    body, so a method is one atomic step on the descriptor; what other goroutines
    do between two calls is another step. *)

From stdpp Require Import base tactics list strings gmap.
From Stdlib Require Import ZArith Lia Bool.
From S2P Require Import Prelude DtnTime Endpoint BundleId.
Local Open Scope Z_scope.

(** ** Constraints *)

Definition DispatchPending : Z := 0.
Definition ForwardPending : Z := 1.
Definition ReassemblyPending : Z := 2.

Definition Constraint_String (c : Z) : string :=
  if c =? DispatchPending then "dispatch pending" else
  if c =? ForwardPending then "forwarding pending" else
  if c =? ReassemblyPending then "reassembly pending" else "unknown".

(** [Constraint.Valid]; a [uint8] is not negative. *)
Definition Constraint_Valid (c : Z) : bool := c <=? ReassemblyPending.

(** ** Data *)

(** The values kept in [MiscellaneousData], a [map[string]interface{}]: the copy
    counter of spray routing, or a value of another type. *)
Inductive MiscValue :=
  | VUint64 (n : Z)
  | VOther (text : string).

Record BundleMetadata := mkMetadata {
  m_ID : BundleID;
  m_Source : EndpointID;
  m_Destination : EndpointID;
  m_ReportTo : EndpointID;
  m_IsAdministrativeRecord : bool;
  m_MiscellaneousData : gmap string MiscValue;
  m_IDString : string;
  m_KnownHolders : list EndpointID;
  m_Expires : Z;
  m_SerialisedFileName : string;
}.

#[global] Instance MiscValue_eq_dec : EqDecision MiscValue.
Proof. solve_decision. Defined.
#[global] Instance BundleMetadata_eq_dec : EqDecision BundleMetadata.
Proof. solve_decision. Defined.

Definition set_m_MiscellaneousData v m := mkMetadata (m_ID m) (m_Source m) (m_Destination m) (m_ReportTo m)
  (m_IsAdministrativeRecord m) v (m_IDString m) (m_KnownHolders m) (m_Expires m) (m_SerialisedFileName m).
Definition set_m_KnownHolders v m := mkMetadata (m_ID m) (m_Source m) (m_Destination m) (m_ReportTo m)
  (m_IsAdministrativeRecord m) (m_MiscellaneousData m) (m_IDString m) v (m_Expires m) (m_SerialisedFileName m).

Record BundleDescriptor := mkDescriptor {
  d_metadata : BundleMetadata;
  d_retentionConstraints : list Z;
  d_retain : bool;
  d_dispatch : bool;
  d_deleted : bool;
  d_shouldDelete : bool;
}.

Definition set_d_metadata m d := mkDescriptor m (d_retentionConstraints d) (d_retain d) (d_dispatch d) (d_deleted d) (d_shouldDelete d).
Definition set_d_deleted v d := mkDescriptor (d_metadata d) (d_retentionConstraints d) (d_retain d) (d_dispatch d) v (d_shouldDelete d).
Definition set_d_shouldDelete v d := mkDescriptor (d_metadata d) (d_retentionConstraints d) (d_retain d) (d_dispatch d) (d_deleted d) v.

Definition NewBundleDescriptor (metadata : BundleMetadata) : BundleDescriptor :=
  mkDescriptor metadata [DispatchPending] true true false false.

Definition BundleDeletedError : error := errorf "Bundle has been deleted".
Definition InvalidConstraint : error := errorf "is not a valid retention constraint".
Definition HasConstraintsError : error := errorf "Bundle still has constraints".

(** ** Methods

    A method that may start the goroutine [deleteBundle] also says whether it
    did ([true]); the goroutine gets the metadata of that moment. *)

Definition Metadata (bd : BundleDescriptor) : res BundleMetadata :=
  if d_deleted bd then Err BundleDeletedError else Ok (d_metadata bd).

Definition GetMiscData (bd : BundleDescriptor) (key : string) : option MiscValue :=
  m_MiscellaneousData (d_metadata bd) !! key.

(** The descriptor's part of [SetMiscData] and [AddKnownHolder]; the database is
    updated by [Store]. *)
Definition set_misc (key : string) (value : MiscValue) (bd : BundleDescriptor) : BundleDescriptor :=
  set_d_metadata (set_m_MiscellaneousData (<[key := value]> (m_MiscellaneousData (d_metadata bd))) (d_metadata bd)) bd.
Definition add_holders (peers : list EndpointID) (bd : BundleDescriptor) : BundleDescriptor :=
  set_d_metadata (set_m_KnownHolders (m_KnownHolders (d_metadata bd) ++ peers) (d_metadata bd)) bd.

Definition GetKnownHolders (bd : BundleDescriptor) : res (list EndpointID) :=
  if d_deleted bd then Err BundleDeletedError else Ok (m_KnownHolders (d_metadata bd)).

Definition AddConstraint (constraint : Z) (bd : BundleDescriptor) : res () * BundleDescriptor :=
  if d_deleted bd then (Err BundleDeletedError, bd) else
  if negb (Constraint_Valid constraint) then (Err InvalidConstraint, bd) else
  (Ok (), mkDescriptor (d_metadata bd) (d_retentionConstraints bd ++ [constraint]) true
            (if constraint =? ForwardPending then false else d_dispatch bd) (d_deleted bd) (d_shouldDelete bd)).

(** [unsafeDelete] *)
Definition unsafeDelete (bd : BundleDescriptor) : res () * BundleDescriptor * bool :=
  if d_deleted bd then (Err BundleDeletedError, bd, false) else (Ok (), set_d_deleted true bd, true).

Definition RemoveConstraint (constraint : Z) (bd : BundleDescriptor) : res () * BundleDescriptor * bool :=
  if d_deleted bd then (Err BundleDeletedError, bd, false) else
  let constraints := filter (λ c, c ≠ constraint) (d_retentionConstraints bd) in
  let dispatch := negb (existsb (Z.eqb ForwardPending) constraints) in
  let retain := 0 <? len constraints in
  let bd := mkDescriptor (d_metadata bd) constraints retain dispatch (d_deleted bd) (d_shouldDelete bd) in
  if negb retain && d_shouldDelete bd then let '(_, bd, go) := unsafeDelete bd in (Ok (), bd, go)
  else (Ok (), bd, false).

Definition ResetConstraints (bd : BundleDescriptor) : res () * BundleDescriptor * bool :=
  if d_deleted bd then (Err BundleDeletedError, bd, false) else
  let bd := mkDescriptor (d_metadata bd) [] false true (d_deleted bd) (d_shouldDelete bd) in
  if d_shouldDelete bd then let '(_, bd, go) := unsafeDelete bd in (Ok (), bd, go)
  else (Ok (), bd, false).

Definition HasConstraint (bd : BundleDescriptor) (constraint : Z) : res bool :=
  if d_deleted bd then Err BundleDeletedError else Ok (existsb (Z.eqb constraint) (d_retentionConstraints bd)).

Definition Dispatch (bd : BundleDescriptor) : bool := d_dispatch bd && negb (d_deleted bd).
Definition Retain (bd : BundleDescriptor) : bool := d_retain bd && negb (d_deleted bd).
Definition Deleted (bd : BundleDescriptor) : bool := d_deleted bd.

Definition Delete (markIfConstraint : bool) (bd : BundleDescriptor) : res () * BundleDescriptor * bool :=
  if 0 <? len (d_retentionConstraints bd) then
    if markIfConstraint then (Ok (), set_d_shouldDelete true bd, false) else (Err HasConstraintsError, bd, false)
  else unsafeDelete bd.

(** [Expired] at the instant [now]. *)
Definition Expired (now : Z) (bd : BundleDescriptor) : bool := m_Expires (d_metadata bd) <? now.

(** ** Steps and reachable descriptors *)

Inductive desc_step : BundleDescriptor → BundleDescriptor → Prop :=
  | step_AddConstraint c bd : desc_step bd (AddConstraint c bd).2
  | step_RemoveConstraint c bd : desc_step bd (RemoveConstraint c bd).1.2
  | step_ResetConstraints bd : desc_step bd (ResetConstraints bd).1.2
  | step_Delete mark bd : desc_step bd (Delete mark bd).1.2
  | step_SetMiscData k v bd : desc_step bd (set_misc k v bd)
  | step_AddKnownHolder peers bd : d_deleted bd = false → desc_step bd (add_holders peers bd).

Inductive desc_reachable (m : BundleMetadata) : BundleDescriptor → Prop :=
  | reach_new : desc_reachable m (NewBundleDescriptor m)
  | reach_step bd bd' : desc_reachable m bd → desc_step bd bd' → desc_reachable m bd'.

(** ** The invariant *)

(** The two flags mirror the constraints, a deleted bundle has none, and a bundle
    that is marked is deleted as soon as it has none. *)
Record desc_inv (bd : BundleDescriptor) : Prop := {
  inv_retain : d_retain bd = (0 <? len (d_retentionConstraints bd));
  inv_dispatch : d_dispatch bd = negb (existsb (Z.eqb ForwardPending) (d_retentionConstraints bd));
  inv_deleted : d_deleted bd = true → d_retentionConstraints bd = [];
  inv_marked : d_shouldDelete bd = true → d_retentionConstraints bd = [] → d_deleted bd = true;
  inv_valid : Forall (λ c, Constraint_Valid c = true) (d_retentionConstraints bd);
}.

Lemma NewBundleDescriptor_inv m : desc_inv (NewBundleDescriptor m).
Proof. constructor; simpl; try done. by repeat constructor. Qed.

Lemma len_zero {A} (l : list A) : (0 <? len l) = false → l = [].
Proof. destruct l; [done|]. unfold len. simpl. intros H%Z.ltb_ge. lia. Qed.

Lemma len_pos {A} (l : list A) : l ≠ [] → (0 <? len l) = true.
Proof. destruct l; [done|]. intros _. apply Z.ltb_lt. unfold len. simpl. lia. Qed.

Lemma AddConstraint_inv c bd : desc_inv bd → desc_inv (AddConstraint c bd).2.
Proof.
  intros Hinv. pose proof Hinv as [Hr Hd Hdel Hm Hv]. unfold AddConstraint. destruct (d_deleted bd) eqn:Ed; [done|].
  destruct (Constraint_Valid c) eqn:Ev; [|done].
  constructor; cbn [d_retain d_dispatch d_deleted d_shouldDelete d_retentionConstraints negb snd].
  - rewrite len_pos; [done|]. by destruct (d_retentionConstraints bd).
  - rewrite existsb_app, Hd, (Z.eqb_sym c). cbn [existsb].
    by destruct (existsb _ _), (ForwardPending =? c).
  - done.
  - intros _ Hnil. by destruct (d_retentionConstraints bd).
  - apply Forall_app. split; [done|]. by repeat constructor.
Qed.

Lemma RemoveConstraint_inv c bd : desc_inv bd → desc_inv (RemoveConstraint c bd).1.2.
Proof.
  intros Hinv. pose proof Hinv as [Hr Hd Hdel Hm Hv]. unfold RemoveConstraint. destruct (d_deleted bd) eqn:Ed; [done|].
  set (l := filter _ _). assert (Forall (λ c, Constraint_Valid c = true) l).
  { apply Forall_forall. intros x [_ Hx]%list_elem_of_filter. by eapply Forall_forall in Hv. }
  destruct (0 <? len l) eqn:El; simpl.
  - constructor; simpl; try done. intros _ Hnil. by rewrite Hnil in El.
  - apply len_zero in El. rewrite El. destruct (d_shouldDelete bd) eqn:Es; simpl; constructor; simpl; congruence || done.
Qed.

Lemma ResetConstraints_inv bd : desc_inv bd → desc_inv (ResetConstraints bd).1.2.
Proof.
  intros Hinv. pose proof Hinv as [Hr Hd Hdel Hm Hv]. unfold ResetConstraints. destruct (d_deleted bd) eqn:Ed; [done|].
  simpl. destruct (d_shouldDelete bd) eqn:Es; simpl; constructor; simpl; congruence || done.
Qed.

Lemma Delete_inv mark bd : desc_inv bd → desc_inv (Delete mark bd).1.2.
Proof.
  intros Hinv. pose proof Hinv as [Hr Hd Hdel Hm Hv]. unfold Delete. destruct (0 <? len _) eqn:El.
  - destruct mark; [|done]. constructor; simpl; try done; [by rewrite El|]. intros _ Hnil. by rewrite Hnil in El.
  - unfold unsafeDelete. destruct (d_deleted bd) eqn:Ed; [done|].
    constructor; simpl; try done; [by rewrite El|intros _; by apply len_zero].
Qed.

Lemma set_misc_inv k v bd : desc_inv bd → desc_inv (set_misc k v bd).
Proof. by intros []. Qed.
Lemma add_holders_inv l bd : desc_inv bd → desc_inv (add_holders l bd).
Proof. by intros []. Qed.

Create HintDb descriptor.
#[export] Hint Resolve NewBundleDescriptor_inv AddConstraint_inv RemoveConstraint_inv ResetConstraints_inv Delete_inv
  set_misc_inv add_holders_inv : descriptor.

Lemma desc_step_inv bd bd' : desc_inv bd → desc_step bd bd' → desc_inv bd'.
Proof. intros Hinv Hs. destruct Hs; auto with descriptor. Qed.

Lemma desc_reachable_inv m bd : desc_reachable m bd → desc_inv bd.
Proof. induction 1; eauto using desc_step_inv with descriptor. Qed.

(** C33: whatever methods run on a descriptor in whatever order, it is retained
    exactly while it has constraints, may be dispatched exactly while forwarding
    is not pending, is never deleted while it has a constraint, and if it is
    marked for deletion it is deleted once it has none left. *)
Theorem descriptor_invariant m bd : desc_reachable m bd →
  (Retain bd = true ↔ d_retentionConstraints bd ≠ []) ∧
  (Dispatch bd = true ↔ (ForwardPending ∉ d_retentionConstraints bd) ∧ d_deleted bd = false) ∧
  (d_deleted bd = true → d_retentionConstraints bd = []) ∧
  (d_shouldDelete bd = true → d_retentionConstraints bd = [] → d_deleted bd = true).
Proof.
  intros [Hr Hd Hdel Hm _]%desc_reachable_inv. unfold Retain, Dispatch. rewrite Hr, Hd.
  rewrite !andb_true_iff, !negb_true_iff. split; [|split; [|done]].
  - split; [intros [Hl _] Hnil; by rewrite Hnil in Hl|]. intros Hl. split; [by apply len_pos|].
    destruct (d_deleted bd); [|done]. by rewrite Hdel in Hl.
  - assert (existsb (Z.eqb ForwardPending) (d_retentionConstraints bd) = false ↔ ForwardPending ∉ d_retentionConstraints bd) as ->; [|done].
    rewrite <- not_true_iff_false, existsb_exists. split.
    + intros Hn Hin. apply Hn. exists ForwardPending. split; [by apply list_elem_of_In|by apply Z.eqb_refl].
    + intros Hn (x & Hx & Heq). apply Hn. apply Z.eqb_eq in Heq. subst. by apply list_elem_of_In.
Qed.

Definition sample_metadata : BundleMetadata :=
  mkMetadata (mkBundleID DtnNone (mkTimestamp 1 2) false 0 0) DtnNone DtnNone DtnNone false ∅ "dtn:none-1-2" [] 0 "file".

Lemma descriptor_invariant_witness :
  let bd := (Delete true (NewBundleDescriptor sample_metadata)).1.2 in
  let bd' := (RemoveConstraint DispatchPending bd).1.2 in
  (d_deleted bd' = true → d_retentionConstraints bd' = []) ∧ d_deleted bd' = true.
Proof.
  intros bd bd'. split; [|reflexivity].
  apply (descriptor_invariant sample_metadata bd').
  apply (reach_step _ bd); [|apply step_RemoveConstraint].
  apply (reach_step _ (NewBundleDescriptor sample_metadata)); [constructor|apply step_Delete].
Defined.

(** Deletion is final: no method revives a deleted descriptor, changes its
    constraints or starts a second deletion. *)
Theorem deleted_final bd bd' : d_deleted bd = true → d_retentionConstraints bd = [] → desc_step bd bd' →
  d_deleted bd' = true ∧ d_retentionConstraints bd' = [] ∧
  ∀ c mark, (AddConstraint c bd).1 = Err BundleDeletedError ∧
    RemoveConstraint c bd = (Err BundleDeletedError, bd, false) ∧
    ResetConstraints bd = (Err BundleDeletedError, bd, false) ∧
    Delete mark bd = (Err BundleDeletedError, bd, false) ∧ Dispatch bd = false ∧ Retain bd = false.
Proof.
  intros Hd Hc Hs. split; [|split].
  - destruct Hs; simpl; try done.
    + by unfold AddConstraint; rewrite Hd.
    + by unfold RemoveConstraint; rewrite Hd.
    + by unfold ResetConstraints; rewrite Hd.
    + by unfold Delete, unsafeDelete; rewrite Hc, Hd.
  - destruct Hs; simpl; try done.
    + by unfold AddConstraint; rewrite Hd.
    + by unfold RemoveConstraint; rewrite Hd.
    + by unfold ResetConstraints; rewrite Hd.
    + by unfold Delete, unsafeDelete; rewrite Hc, Hd.
  - intros c mark. unfold AddConstraint, RemoveConstraint, ResetConstraints, Delete, unsafeDelete, Dispatch, Retain.
    rewrite Hd, Hc. simpl. by rewrite !andb_false_r.
Qed.

Lemma deleted_final_witness :
  let bd := set_d_deleted true (mkDescriptor sample_metadata [] false true false true) in
  d_deleted (AddConstraint ForwardPending bd).2 = true.
Proof. intros bd. apply (deleted_final bd); [reflexivity|reflexivity|apply step_AddConstraint]. Defined.
