(* ===== verification/Store.v ===== *)
(** * The bundle store

    [pkg/store/store.go]: descriptors in memory, their metadata in a database and
    the bundles in files.  The database (badgerhold) is a parameter, as is the
    SHA-256 digest that names the files.  Methods that hold the store's mutex are
    atomic; the goroutine [deleteBundle] that a descriptor starts is a pending
    action that runs at some later time. *)

From stdpp Require Import base tactics list strings gmap.
From Stdlib Require Import ZArith Lia Bool.
From S2P Require Import Prelude Cboring GoSort Flags Crc DtnTime Endpoint BundleId ExtensionBlocks Blocks.
From S2P Require Import Bundle Samples BundleCodec Partial Descriptor.
Local Open Scope Z_scope.

(** ** What the store uses *)

(** [badgerhold.Store] with values of type [BundleMetadata]; [db_get] is what a
    query for a key would find. *)
Class Badgerhold := {
  db : Type;
  db_get : db → string → option BundleMetadata;
  db_Insert : string → BundleMetadata → db → res () * db;
  db_Update : string → BundleMetadata → db → res () * db;
  db_Delete : string → db → res () * db;
  db_FindAll : db → res (list BundleMetadata);
}.

(** The documented behaviour: [Insert] fails on a key that exists, [Update] and
    [Delete] on one that does not, a call that fails changes nothing, and [Find] with
    an empty query returns every record once. *)
Class BadgerholdLaws (B : Badgerhold) : Prop := {
  db_Insert_Ok k m s s' : db_Insert k m s = (Ok (), s') →
    db_get s k = None ∧ ∀ k', db_get s' k' = if decide (k' = k) then Some m else db_get s k';
  db_Update_Ok k m s s' : db_Update k m s = (Ok (), s') →
    is_Some (db_get s k) ∧ ∀ k', db_get s' k' = if decide (k' = k) then Some m else db_get s k';
  db_Delete_Ok k s s' : db_Delete k s = (Ok (), s') →
    is_Some (db_get s k) ∧ ∀ k', db_get s' k' = if decide (k' = k) then None else db_get s k';
  db_Insert_fails k m s r s' : db_Insert k m s = (r, s') → r ≠ Ok () → r ≠ Panic ∧ db_get s' = db_get s;
  db_Update_fails k m s r s' : db_Update k m s = (r, s') → r ≠ Ok () → r ≠ Panic ∧ db_get s' = db_get s;
  db_Delete_fails k s r s' : db_Delete k s = (r, s') → r ≠ Ok () → r ≠ Panic ∧ db_get s' = db_get s;
  db_FindAll_Ok s l : db_FindAll s = Ok l → NoDup l ∧ ∀ m, m ∈ l ↔ ∃ k, db_get s k = Some m;
}.

(** [fmt.Sprintf("%x", sha256.Sum256(...))] *)
Class Sha256 := sha256_hex : string → string.

(** The outcomes of the file operations of one call: whether [os.Create],
    [Flush] and [os.Remove] succeed, and what a failed write leaves in the file. *)
Record FileIO := mkFileIO { io_create : bool; io_flush : bool; io_remove : bool; io_partial : bytes }.

Definition io_ok : FileIO := mkFileIO true true true [].

Section Store.
Context `{Cboring} `{Crc16} `{GoMapRange} `{Ed25519} `{Badgerhold} `{Sha256}.

(** ** State

    A descriptor pointer is an index into [st_heap]. *)
Record BundleStore := mkStore {
  st_nodeID : EndpointID;
  st_metadataStore : db;
  st_files : gmap string bytes;
  st_bundles : gmap BundleID nat;
  st_heap : list BundleDescriptor;
  st_pending : list BundleMetadata;
}.

Definition set_st_db v s := mkStore (st_nodeID s) v (st_files s) (st_bundles s) (st_heap s) (st_pending s).
Definition set_st_files v s := mkStore (st_nodeID s) (st_metadataStore s) v (st_bundles s) (st_heap s) (st_pending s).
Definition set_st_bundles v s := mkStore (st_nodeID s) (st_metadataStore s) (st_files s) v (st_heap s) (st_pending s).
Definition set_st_heap v s := mkStore (st_nodeID s) (st_metadataStore s) (st_files s) (st_bundles s) v (st_pending s).
Definition set_st_pending v s := mkStore (st_nodeID s) (st_metadataStore s) (st_files s) (st_bundles s) (st_heap s) v.

Definition NoSuchBundleError : error := errorf "No bundle with this id in store".

(** ** Start *)

Definition loadAll (d : db) : res (list BundleDescriptor) :=
  bundles ← db_FindAll d;
  Ok (map NewBundleDescriptor bundles).

(** [ID] of a descriptor. *)
Definition descriptor_ID (bd : BundleDescriptor) : BundleID := m_ID (d_metadata bd).

(** The loop over the loaded bundles in [InitialiseStore]. *)
Fixpoint load_descriptors (l : list BundleDescriptor) (s : BundleStore) : BundleStore :=
  match l with
  | [] => s
  | bundle :: l =>
      let loc := length (st_heap s) in
      load_descriptors l (set_st_bundles (<[descriptor_ID bundle := loc]> (st_bundles s))
        (set_st_heap (st_heap s ++ [bundle]) s))
  end.

(** [InitialiseStore] on a database and a directory that exist. *)
Definition InitialiseStore (nodeID : EndpointID) (d : db) (files : gmap string bytes) : res BundleStore :=
  allBundles ← loadAll d;
  Ok (load_descriptors allBundles (mkStore nodeID d files ∅ [] [])).

(** ** Lookup *)

Definition GetBundleDescriptor (bundleId : BundleID) (s : BundleStore) : res nat :=
  match st_bundles s !! bundleId with
  | None => Err NoSuchBundleError
  | Some loc =>
      match st_heap s !! loc with
      | None => Panic
      | Some d => if Deleted d then Err NoSuchBundleError else Ok loc
      end
  end.

(** The descriptors of the map that satisfy [p], in an order the program cannot
    rely on. *)
Definition select_bundles (p : BundleDescriptor → bool) (s : BundleStore) : list nat :=
  filter (λ loc, match st_heap s !! loc with Some d => p d | None => false end = true)
    (map_to_list (st_bundles s)).*2.

Definition GetWithConstraint (constraint : Z) (s : BundleStore) : list nat :=
  select_bundles (λ d, match HasConstraint d constraint with Ok b => b | _ => false end) s.

Definition GetDispatchable (s : BundleStore) : list nat := select_bundles Dispatch s.

(** ** Files *)

(** [loadEntireBundle] drops the error of [ParseBundle]. *)
Definition loadEntireBundle (ebm : ExtensionBlockManager) (now : Z) (filename : string) (s : BundleStore) : res Bundle :=
  match st_files s !! filename with
  | None => Err (errorf "no such file")
  | Some bs =>
      match ParseBundle ebm now bs with
      | (Panic, _) => Panic
      | (_, b) => Ok b
      end
  end.

(** [BundleDescriptor.Load] *)
Definition Load (ebm : ExtensionBlockManager) (now : Z) (loc : nat) (s : BundleStore) : res Bundle :=
  match st_heap s !! loc with
  | None => Panic
  | Some d => if d_deleted d then Err BundleDeletedError
              else loadEntireBundle ebm now (m_SerialisedFileName (d_metadata d)) s
  end.

(** [loadPartialBundle]: a file is a seeker. *)
Definition loadPartialBundle (ebm : ExtensionBlockManager) (filename : string) (wantedBlocks : list Z) (s : BundleStore) : res PartialBundle :=
  match st_files s !! filename with
  | None => Err (errorf "no such file")
  | Some bs => (ParsePartialBundle ebm wantedBlocks (mkSource bs 0 true)).1
  end.

(** [BundleDescriptor.LoadPartialBundle] *)
Definition LoadPartialBundle (ebm : ExtensionBlockManager) (wantedBlocks : list Z) (loc : nat) (s : BundleStore) : res PartialBundle :=
  match st_heap s !! loc with
  | None => Panic
  | Some d => if d_deleted d then Err BundleDeletedError
              else loadPartialBundle ebm (m_SerialisedFileName (d_metadata d)) wantedBlocks s
  end.

(** ** Changes of a descriptor *)

(** A method on the descriptor at [loc]; a deletion that it starts is pending. *)
Definition desc_op {A} (f : BundleDescriptor → res A * BundleDescriptor * bool) (loc : nat) : M BundleStore A := λ s,
  match st_heap s !! loc with
  | None => (Panic, s)
  | Some d =>
      let '(r, d', go) := f d in
      let s := set_st_heap (<[loc := d']> (st_heap s)) s in
      (r, if (go : bool) then set_st_pending (st_pending s ++ [d_metadata d']) s else s)
  end.

Definition bd_AddConstraint (c : Z) : nat → M BundleStore () := desc_op (λ d, (AddConstraint c d, false)).
Definition bd_RemoveConstraint (c : Z) : nat → M BundleStore () := desc_op (RemoveConstraint c).
Definition bd_ResetConstraints : nat → M BundleStore () := desc_op ResetConstraints.
Definition bd_Delete (mark : bool) : nat → M BundleStore () := desc_op (Delete mark).

Definition updateBundleMetadata (m : BundleMetadata) : M BundleStore () := λ s,
  let '(r, d) := db_Update (m_IDString m) m (st_metadataStore s) in (r, set_st_db d s).

(** [SetMiscData] *)
Definition bd_SetMiscData (key : string) (value : MiscValue) (loc : nat) : M BundleStore () := λ s,
  match st_heap s !! loc with
  | None => (Panic, s)
  | Some d =>
      let d' := set_misc key value d in
      updateBundleMetadata (d_metadata d') (set_st_heap (<[loc := d']> (st_heap s)) s)
  end.

(** [AddKnownHolder]; an error of the database is only logged. *)
Definition bd_AddKnownHolder (peers : list EndpointID) (loc : nat) : M BundleStore () := λ s,
  match st_heap s !! loc with
  | None => (Panic, s)
  | Some d =>
      if d_deleted d then (Err BundleDeletedError, s) else
      let d' := add_holders peers d in
      let '(_, s) := updateBundleMetadata (d_metadata d') (set_st_heap (<[loc := d']> (st_heap s)) s) in
      (Ok (), s)
  end.

(** ** Deletion *)

Definition deleteFromDiskUnsafe (io : FileIO) (m : BundleMetadata) (s : BundleStore) : BundleStore :=
  let '(_, d) := db_Delete (m_IDString m) (st_metadataStore s) in
  let files := if io_remove io then delete (m_SerialisedFileName m) (st_files s) else st_files s in
  set_st_files files (set_st_db d s).

(** The goroutine [deleteBundle]; its errors are logged. *)
Definition deleteBundle (io : FileIO) (m : BundleMetadata) (s : BundleStore) : BundleStore :=
  deleteFromDiskUnsafe io m (set_st_bundles (delete (m_ID m) (st_bundles s)) s).

(** One pending goroutine runs. *)
Definition run_pending (io : FileIO) (i : nat) (s : BundleStore) : BundleStore :=
  match st_pending s !! i with
  | None => s
  | Some m => deleteBundle io m (set_st_pending (delete i (st_pending s)) s)
  end.

(** One round of the loop in [GarbageCollect]; its error is logged. *)
Definition collect (now : Z) (loc : nat) (s : BundleStore) : BundleStore :=
  match st_heap s !! loc with
  | None => s
  | Some d => if Expired now d && negb (Retain d) then (bd_Delete false loc s).2 else s
  end.

Definition GarbageCollect (now : Z) (s : BundleStore) : BundleStore :=
  foldl (λ s loc, collect now loc s) s (map_to_list (st_bundles s)).*2.

(** ** Insertion *)

(** The endpoint of a bundle's previous node block, if it has one such block. *)
Definition previous_node (bundle : Bundle) : res (option EndpointID) :=
  match ExtensionBlockByType bundle BlockTypePreviousNodeBlock with
  | Panic => Panic
  | Err _ => Ok None
  | Ok (_, cb) => match cb_Value cb with Some (PreviousNodeBlock e) => Ok (Some e) | _ => Panic end
  end.

Definition new_metadata (nodeID : EndpointID) (bundle : Bundle) (prev : option EndpointID) : BundleMetadata :=
  let p := b_PrimaryBlock bundle in
  let idString := BundleID_String (Bundle_ID bundle) in
  mkMetadata (Bundle_ID bundle) (pb_SourceNode p) (pb_Destination p) (pb_ReportTo p) (IsAdministrativeRecord bundle) ∅
    idString (nodeID :: option_list prev)
    (DtnTime_Time (CreationTimestamp_DtnTime (pb_CreationTimestamp p)) + Duration_ms (pb_Lifetime p))
    (sha256_hex idString).

Definition insertNewBundleUnsafe (io : FileIO) (bundle : Bundle) : M BundleStore nat := λ s,
  match previous_node bundle with
  | Panic => (Panic, s)
  | Err e => (Err e, s)
  | Ok prev =>
      let metadata := new_metadata (st_nodeID s) bundle prev in
      match db_Insert (m_IDString metadata) metadata (st_metadataStore s) with
      | (Panic, d) => (Panic, set_st_db d s)
      | (Err e, d) => (Err e, set_st_db d s)
      | (Ok _, d) =>
          let s := set_st_db d s in
          let name := m_SerialisedFileName metadata in
          if negb (io_create io) then (Err (errorf "create failed"), deleteFromDiskUnsafe io metadata s) else
          match Bundle_MarshalCbor bundle with
          | Panic => (Panic, set_st_files (<[name := io_partial io]> (st_files s)) s)
          | Err e => (Err e, set_st_files (<[name := io_partial io]> (st_files s)) s)
          | Ok (bs, _) =>
              if negb (io_flush io) then (Err (errorf "flush failed"), set_st_files (<[name := io_partial io]> (st_files s)) s) else
              let loc := length (st_heap s) in
              (Ok loc,
               set_st_files (<[name := bs]> (st_files s))
                 (set_st_bundles (<[Bundle_ID bundle := loc]> (st_bundles s))
                    (set_st_heap (st_heap s ++ [NewBundleDescriptor metadata]) s)))
          end
      end
  end.

Definition InsertBundle (io : FileIO) (bundle : Bundle) : M BundleStore nat := λ s,
  match st_bundles s !! Bundle_ID bundle with
  | None => insertNewBundleUnsafe io bundle s
  | Some loc =>
      match previous_node bundle with
      | Panic => (Panic, s)
      | Err e => (Err e, s)
      | Ok None => (Ok loc, s)
      | Ok (Some prev) =>
          match bd_AddKnownHolder [prev] loc s with
          | (Ok _, s) => (Ok loc, s)
          | (Err e, s) => (Err e, s)
          | (Panic, s) => (Panic, s)
          end
      end
  end.
End Store.

(** ** A concrete database and digest *)

#[export] Instance map_db : Badgerhold := {|
  db := gmap string BundleMetadata;
  db_get s k := s !! k;
  db_Insert k m s := match s !! k with Some _ => (Err (errorf "key exists"), s) | None => (Ok (), <[k := m]> s) end;
  db_Update k m s := match s !! k with Some _ => (Ok (), <[k := m]> s) | None => (Err (errorf "not found"), s) end;
  db_Delete k s := match s !! k with Some _ => (Ok (), delete k s) | None => (Err (errorf "not found"), s) end;
  db_FindAll s := Ok (remove_dups (map_to_list s).*2);
|}.

#[export] Instance map_db_laws : BadgerholdLaws map_db.
Proof.
  constructor; simpl.
  - intros k m s s'. destruct (s !! k) eqn:E; [done|]. intros [= <-]. split; [done|]. intros k'.
    case_decide as Hk; [subst; by rewrite lookup_insert_eq|by rewrite lookup_insert_ne].
  - intros k m s s'. destruct (s !! k) eqn:E; [|done]. intros [= <-]. split; [by eexists|]. intros k'.
    case_decide as Hk; [subst; by rewrite lookup_insert_eq|by rewrite lookup_insert_ne].
  - intros k s s'. destruct (s !! k) eqn:E; [|done]. intros [= <-]. split; [by eexists|]. intros k'.
    case_decide as Hk; [subst; by rewrite lookup_delete_eq|by rewrite lookup_delete_ne].
  - intros k m s r s'. destruct (s !! k); intros [= <- <-]; done.
  - intros k m s r s'. destruct (s !! k); intros [= <- <-]; done.
  - intros k s r s'. destruct (s !! k); intros [= <- <-]; done.
  - intros s l <-%Ok_inj. split; [apply NoDup_remove_dups|]. intros m. rewrite elem_of_remove_dups. split.
    + intros ([k m'] & -> & Hin)%list_elem_of_fmap. exists k. by apply elem_of_map_to_list.
    + intros [k Hk]. apply (list_elem_of_fmap_2 snd _ (k, m)). by apply elem_of_map_to_list.
Qed.

(** File names that are the keys themselves. *)
#[export] Instance plain_names : Sha256 := λ s, s.
