(* ===== verification/StoreInv.v ===== *)
(** * Consistency of the store

    The parts of [BundleStore] (map, descriptors, database, files, pending
    deletions) agree with each other after any sequence of the operations of
    [pkg/store], in any interleaving with the goroutines they start. *)

From stdpp Require Import base tactics list strings gmap.
From Stdlib Require Import ZArith Lia Bool.
From S2P Require Import Prelude Cboring GoSort Flags Crc DtnTime Endpoint BundleId ExtensionBlocks Blocks.
From S2P Require Import Bundle Samples BundleCodec Partial PartialProps Descriptor Store.
Local Open Scope Z_scope.

Section Inv.
Context `{Cboring} `{Crc16} `{GoMapRange} `{Ed25519} `{Badgerhold} `{!BadgerholdLaws _} `{Sha256}.

(** ** Executions *)

Inductive store_step : BundleStore → BundleStore → Prop :=
  | do_InsertBundle io b s : store_step s (InsertBundle io b s).2
  | do_AddConstraint c loc s : store_step s (bd_AddConstraint c loc s).2
  | do_RemoveConstraint c loc s : store_step s (bd_RemoveConstraint c loc s).2
  | do_ResetConstraints loc s : store_step s (bd_ResetConstraints loc s).2
  | do_Delete mark loc s : store_step s (bd_Delete mark loc s).2
  | do_SetMiscData k v loc s : store_step s (bd_SetMiscData k v loc s).2
  | do_AddKnownHolder peers loc s : store_step s (bd_AddKnownHolder peers loc s).2
  | do_GarbageCollect now s : store_step s (GarbageCollect now s)
  | do_deleteBundle io i s : store_step s (run_pending io i s).

Inductive store_steps : BundleStore → BundleStore → Prop :=
  | steps_refl s : store_steps s s
  | steps_cons s s' s'' : store_steps s s' → store_step s' s'' → store_steps s s''.

(** ** The invariant *)

(** The fields of a metadata record that are computed from the bundle's id. *)
Definition meta_ok (m : BundleMetadata) : Prop :=
  m_IDString m = BundleID_String (m_ID m) ∧ m_SerialisedFileName m = sha256_hex (BundleID_String (m_ID m)).

Record core_inv (s : BundleStore) : Prop := {
  ci_map id loc : st_bundles s !! id = Some loc → ∃ d, st_heap s !! loc = Some d ∧ m_ID (d_metadata d) = id;
  ci_heap loc d : st_heap s !! loc = Some d → desc_inv d ∧ meta_ok (d_metadata d) ∧
    (d_deleted d = false → st_bundles s !! m_ID (d_metadata d) = Some loc);
  ci_db k m : db_get (st_metadataStore s) k = Some m → m_IDString m = k ∧ meta_ok m;
  ci_stored id : is_Some (st_bundles s !! id) → is_Some (db_get (st_metadataStore s) (BundleID_String id));
  ci_strings id id' : is_Some (st_bundles s !! id) → is_Some (st_bundles s !! id') →
    BundleID_String id = BundleID_String id' → id = id';
  ci_pending m : m ∈ st_pending s → meta_ok m ∧
    ∃ loc d, st_bundles s !! m_ID m = Some loc ∧ st_heap s !! loc = Some d ∧ d_deleted d = true;
  ci_deleted id loc d : st_bundles s !! id = Some loc → st_heap s !! loc = Some d → d_deleted d = true →
    id ∈ m_ID <$> st_pending s;
  ci_once : NoDup (m_ID <$> st_pending s);
}.

(** The file of every bundle in the map exists. *)
Definition files_inv (s : BundleStore) : Prop :=
  ∀ id, is_Some (st_bundles s !! id) → is_Some (st_files s !! sha256_hex (BundleID_String id)).

(** ** Descriptor methods *)

Definition op_ok {A} (f : BundleDescriptor → res A * BundleDescriptor * bool) : Prop :=
  ∀ d r d' go, f d = (r, d', go) → desc_inv d →
    desc_inv d' ∧ d_metadata d' = d_metadata d ∧
    (if (go : bool) then d_deleted d = false ∧ d_deleted d' = true else d_deleted d' = d_deleted d).

Lemma AddConstraint_op c : op_ok (λ d, (AddConstraint c d, false)).
Proof.
  intros d r d' go E Hd. pose proof (AddConstraint_inv c d Hd) as Hi. destruct (AddConstraint c d) as [r0 d0] eqn:Ea.
  simplify_eq. simpl in Hi. split; [done|]. unfold AddConstraint in Ea.
  destruct (d_deleted d) eqn:Ed; [by simplify_eq|]. destruct (Constraint_Valid c); by simplify_eq/=.
Qed.

Lemma RemoveConstraint_op c : op_ok (RemoveConstraint c).
Proof.
  intros d r d' go E Hd. pose proof (RemoveConstraint_inv c d Hd) as Hi. rewrite E in Hi. split; [done|].
  unfold RemoveConstraint, unsafeDelete in E. destruct (d_deleted d) eqn:Ed; [by simplify_eq|].
  simpl in E. destruct (_ && _); by simplify_eq/=.
Qed.

Lemma ResetConstraints_op : op_ok ResetConstraints.
Proof.
  intros d r d' go E Hd. pose proof (ResetConstraints_inv d Hd) as Hi. rewrite E in Hi. split; [done|].
  unfold ResetConstraints, unsafeDelete in E. destruct (d_deleted d) eqn:Ed; [by simplify_eq|].
  simpl in E. destruct (d_shouldDelete d); by simplify_eq/=.
Qed.

Lemma Delete_op mark : op_ok (Delete mark).
Proof.
  intros d r d' go E Hd. pose proof (Delete_inv mark d Hd) as Hi. rewrite E in Hi. split; [done|].
  unfold Delete, unsafeDelete in E. destruct (0 <? len _); [destruct mark; by simplify_eq/=|].
  destruct (d_deleted d) eqn:Ed; by simplify_eq/=.
Qed.

Hint Resolve AddConstraint_op RemoveConstraint_op ResetConstraints_op Delete_op : descriptor.

(** Replacing a descriptor by one with the same id that is deleted if the old one
    was, and only then. *)
Lemma heap_update_inv s loc d d' : core_inv s → st_heap s !! loc = Some d → desc_inv d' →
  m_ID (d_metadata d') = m_ID (d_metadata d) → meta_ok (d_metadata d') → d_deleted d' = d_deleted d →
  core_inv (set_st_heap (<[loc := d']> (st_heap s)) s).
Proof.
  intros [Hmap Hheap Hdb Hst Hstr Hpend Hdel Honce] Hl Hd' Hid Hok Hdeq.
  assert (∀ loc2 d2, <[loc := d']> (st_heap s) !! loc2 = Some d2 →
    (loc2 = loc ∧ d2 = d') ∨ (loc2 ≠ loc ∧ st_heap s !! loc2 = Some d2)) as Hcase.
  { intros loc2 d2. destruct (decide (loc2 = loc)) as [->|Hne].
    - rewrite list_lookup_insert_eq by (by eapply lookup_lt_Some). intros; left; by simplify_eq.
    - rewrite list_lookup_insert_ne by done. by right. }
  assert (<[loc := d']> (st_heap s) !! loc = Some d') as Hnew
    by (rewrite list_lookup_insert_eq; [done|by eapply lookup_lt_Some]).
  constructor; simpl; try done.
  - intros id loc2 E. destruct (Hmap _ _ E) as (d2 & Hl2 & Hid2). destruct (decide (loc2 = loc)) as [->|Hne].
    + exists d'. split; [done|]. congruence.
    + exists d2. by rewrite list_lookup_insert_ne.
  - intros loc2 d2 [[-> ->]|[Hne Hl2]]%Hcase; [|by apply Hheap]. split; [done|]. split; [done|].
    rewrite Hdeq, Hid. by apply Hheap.
  - intros m Hm. destruct (Hpend m Hm) as (? & loc2 & d2 & E & Hl2 & Hd2). split; [done|].
    destruct (decide (loc2 = loc)) as [->|Hne].
    + exists loc, d'. split; [done|]. split; [done|]. congruence.
    + exists loc2, d2. by rewrite list_lookup_insert_ne.
  - intros id loc2 d2 E [[-> ->]|[Hne Hl2]]%Hcase Hdd; eapply Hdel; try done. congruence.
Qed.

(** Marking a descriptor as deleted and starting the goroutine. *)
Lemma heap_delete_inv s loc d d' : core_inv s → st_heap s !! loc = Some d → desc_inv d' →
  d_metadata d' = d_metadata d → d_deleted d = false → d_deleted d' = true →
  core_inv (set_st_pending (st_pending s ++ [d_metadata d']) (set_st_heap (<[loc := d']> (st_heap s)) s)).
Proof.
  intros [Hmap Hheap Hdb Hst Hstr Hpend Hdel Honce] Hl Hd' Hm Hd Hdt.
  destruct (Hheap _ _ Hl) as (_ & Hok & Hin). specialize (Hin Hd).
  assert (<[loc := d']> (st_heap s) !! loc = Some d') as Hnew
    by (rewrite list_lookup_insert_eq; [done|by eapply lookup_lt_Some]).
  constructor; simpl; try done.
  - intros id loc2 E. destruct (Hmap _ _ E) as (d2 & Hl2 & Hid2). destruct (decide (loc2 = loc)) as [->|Hne].
    + exists d'. split; [done|]. congruence.
    + exists d2. by rewrite list_lookup_insert_ne.
  - intros loc2 d2 E. destruct (decide (loc2 = loc)) as [->|Hne].
    + rewrite Hnew in E. simplify_eq. split; [done|]. rewrite Hm. split; [done|]. by rewrite Hdt.
    + rewrite list_lookup_insert_ne in E by done. by apply Hheap.
  - intros m [Hm2|Hm2%list_elem_of_singleton]%elem_of_app; [|subst m].
    + destruct (Hpend m Hm2) as (? & loc2 & d2 & E & Hl2 & Hd2). split; [done|].
      destruct (decide (loc2 = loc)) as [->|Hne]; [exists loc, d'|exists loc2, d2]; [done|].
      by rewrite list_lookup_insert_ne.
    + rewrite Hm. split; [done|]. by exists loc, d'.
  - intros id loc2 d2 E E2 Hdd. rewrite fmap_app, elem_of_app. simpl. destruct (decide (loc2 = loc)) as [->|Hne].
    + right. apply list_elem_of_singleton. destruct (Hmap _ _ E) as (d3 & Hl3 & Hid3). congruence.
    + rewrite list_lookup_insert_ne in E2 by done. left. by eapply Hdel.
  - rewrite fmap_app. apply NoDup_app. split; [done|]. split; [|simpl; apply NoDup_singleton].
    intros id (m & -> & Hm2)%list_elem_of_fmap Hs%list_elem_of_singleton.
    destruct (Hpend m Hm2) as (_ & loc2 & d2 & E & Hl2 & Hd2). rewrite Hs, Hm, Hin in E. simplify_eq. congruence.
Qed.

Lemma desc_op_inv {A} (f : BundleDescriptor → res A * BundleDescriptor * bool) loc s :
  op_ok f → core_inv s → core_inv (desc_op f loc s).2.
Proof.
  intros Hf Hs. unfold desc_op. destruct (st_heap s !! loc) as [d|] eqn:El; [|done].
  destruct (f d) as [[r d'] go] eqn:Ef. pose proof (ci_heap s Hs _ _ El) as (Hd & Hok & _).
  destruct (Hf _ _ _ _ Ef Hd) as (Hd' & Hm & Hgo). destruct go; simpl.
  - destruct Hgo. by eapply heap_delete_inv.
  - eapply heap_update_inv; try done; by rewrite Hm.
Qed.

Lemma desc_op_frame {A} (f : BundleDescriptor → res A * BundleDescriptor * bool) loc s :
  let s' := (desc_op f loc s).2 in
  st_bundles s' = st_bundles s ∧ st_files s' = st_files s ∧ st_metadataStore s' = st_metadataStore s.
Proof.
  unfold desc_op. destruct (st_heap s !! loc) as [d|]; [|done]. by destruct (f d) as [[r d'] []].
Qed.

(** ** The database *)

Lemma db_set_inv s d m : core_inv s → meta_ok m →
  (∀ k, db_get d k = if decide (k = m_IDString m) then Some m else db_get (st_metadataStore s) k) →
  core_inv (set_st_db d s).
Proof.
  intros [Hmap Hheap Hdb Hst Hstr Hpend Hdel Honce] Hm Hd. constructor; simpl; try done.
  - intros k m2. rewrite Hd. case_decide; [intros; by simplify_eq|apply Hdb].
  - intros id Hid. rewrite Hd. case_decide; [by eexists|by apply Hst].
Qed.

Lemma db_same_inv s d : core_inv s → db_get d = db_get (st_metadataStore s) → core_inv (set_st_db d s).
Proof.
  intros [Hmap Hheap Hdb Hst Hstr Hpend Hdel Honce] Hd. by constructor; simpl; rewrite ?Hd.
Qed.

Lemma update_inv m s : core_inv s → meta_ok m → core_inv (updateBundleMetadata m s).2.
Proof.
  intros Hs Hm. unfold updateBundleMetadata. destruct (db_Update _ _ _) as [r d] eqn:E. simpl.
  destruct (decide (r = Ok ())) as [->|Hr].
  - destruct (db_Update_Ok _ _ _ _ E) as [_ Hd]. by eapply db_set_inv.
  - destruct (db_Update_fails _ _ _ _ _ E Hr). by apply db_same_inv.
Qed.

Lemma update_frame m s :
  let s' := (updateBundleMetadata m s).2 in st_bundles s' = st_bundles s ∧ st_files s' = st_files s.
Proof. unfold updateBundleMetadata. by destruct (db_Update _ _ _). Qed.

Lemma SetMiscData_inv k v loc s : core_inv s → core_inv (bd_SetMiscData k v loc s).2.
Proof.
  intros Hs. unfold bd_SetMiscData. destruct (st_heap s !! loc) as [d|] eqn:El; [|done].
  destruct (ci_heap s Hs _ _ El) as (Hd & Hok & _). apply update_inv; [|done].
  eapply heap_update_inv; [done|exact El|by apply set_misc_inv|done|exact Hok|done].
Qed.

Lemma AddKnownHolder_inv peers loc s : core_inv s → core_inv (bd_AddKnownHolder peers loc s).2.
Proof.
  intros Hs. unfold bd_AddKnownHolder. destruct (st_heap s !! loc) as [d|] eqn:El; [|done].
  destruct (d_deleted d); [done|]. destruct (ci_heap s Hs _ _ El) as (Hd & Hok & _).
  set (s1 := set_st_heap _ _). assert (core_inv s1) as Hs1 by (eapply heap_update_inv; [done|exact El|by apply add_holders_inv|done|exact Hok|done]).
  pose proof (update_inv (d_metadata (add_holders peers d)) s1 Hs1 Hok) as Hu.
  by destruct (updateBundleMetadata _ s1) as [r s2].
Qed.

Lemma AddKnownHolder_frame peers loc s :
  let s' := (bd_AddKnownHolder peers loc s).2 in st_bundles s' = st_bundles s ∧ st_files s' = st_files s.
Proof.
  unfold bd_AddKnownHolder. destruct (st_heap s !! loc) as [d|]; [|done]. destruct (d_deleted d); [done|].
  set (s1 := set_st_heap _ _). pose proof (update_frame (d_metadata (add_holders peers d)) s1) as Hu.
  by destruct (updateBundleMetadata _ s1) as [r s2].
Qed.

(** ** Deletion *)

(** Removing the data of a bundle that is not in the map. *)
Lemma deleteFromDisk_inv io m s : core_inv s → (∀ id, is_Some (st_bundles s !! id) → BundleID_String id ≠ m_IDString m) →
  core_inv (deleteFromDiskUnsafe io m s).
Proof.
  intros [Hmap Hheap Hdb Hst Hstr Hpend Hdel Honce] Hno. unfold deleteFromDiskUnsafe.
  destruct (db_Delete _ _) as [r d] eqn:E.
  assert (∀ k, db_get d k = db_get (st_metadataStore s) k ∨ k = m_IDString m ∧ db_get d k = None) as Hd.
  { destruct (decide (r = Ok ())) as [->|Hr].
    - destruct (db_Delete_Ok _ _ _ E) as [_ Hd]. intros k. rewrite Hd. case_decide; auto.
    - destruct (db_Delete_fails _ _ _ _ E Hr) as [_ ->]. auto. }
  constructor; simpl; try done.
  - intros k m2 Hk. destruct (Hd k) as [Hk2|[_ Hk2]]; [rewrite Hk2 in Hk; by apply Hdb|congruence].
  - intros id Hid. destruct (Hd (BundleID_String id)) as [->|[Hk _]]; [by apply Hst|]. by destruct (Hno id Hid).
Qed.

Lemma deleteFromDisk_files io m s :
  (∀ s t, sha256_hex s = sha256_hex t → s = t) → files_inv s → meta_ok m →
  (∀ id, is_Some (st_bundles s !! id) → BundleID_String id ≠ m_IDString m) →
  files_inv (deleteFromDiskUnsafe io m s).
Proof.
  intros Hinj Hf [Hm1 Hm2] Hno id. unfold deleteFromDiskUnsafe. destruct (db_Delete _ _) as [r d]. simpl. intros Hid.
  destruct (io_remove io); [|by apply Hf]. rewrite lookup_delete_ne; [by apply Hf|].
  rewrite Hm2. intros E%Hinj. apply (Hno id Hid). congruence.
Qed.

Lemma list_elem_of_delete {A} (l : list A) i x : x ∈ delete i l → x ∈ l.
Proof. rewrite !list_elem_of_lookup. intros [j Hj]. destruct (decide (j < i)%nat).
  - rewrite list_lookup_delete_lt in Hj by done. eauto.
  - rewrite list_lookup_delete_ge in Hj by lia. eauto.
Qed.

Lemma delete_pending (l : list BundleMetadata) i m : l !! i = Some m → l ≡ₚ m :: delete i l.
Proof. apply delete_Permutation. Qed.

(** The state when a pending deletion has left the list and its bundle the map. *)
Lemma unlink_inv i m s : core_inv s → st_pending s !! i = Some m →
  let s' := set_st_bundles (delete (m_ID m) (st_bundles s)) (set_st_pending (delete i (st_pending s)) s) in
  core_inv s' ∧ ∀ id, is_Some (st_bundles s' !! id) → BundleID_String id ≠ m_IDString m.
Proof.
  intros [Hmap Hheap Hdb Hst Hstr Hpend Hdel Honce] Hi. simpl.
  pose proof (delete_pending _ _ _ Hi) as Hp. set (rest := delete i (st_pending s)) in *.
  assert (m ∈ st_pending s) as Hm by (rewrite Hp; by left).
  destruct (Hpend m Hm) as ([Hok1 Hok2] & loc & d & Hb & Hl & Hdd).
  assert (∀ id loc2, delete (m_ID m) (st_bundles s) !! id = Some loc2 → id ≠ m_ID m ∧ st_bundles s !! id = Some loc2) as Hlk.
  { intros id loc2 E. apply lookup_delete_Some in E as [? ?]. auto. }
  assert (m_ID <$> st_pending s ≡ₚ m_ID m :: (m_ID <$> rest)) as Hp2 by (by rewrite Hp).
  rewrite Hp2 in Honce. apply NoDup_cons in Honce as [Hnot Honce].
  split; [constructor; simpl|].
  - intros id loc2 [_ E]%Hlk. by apply Hmap.
  - intros loc2 d2 E. destruct (Hheap _ _ E) as (? & ? & Hlive). split; [done|]. split; [done|]. intros Hd2.
    rewrite lookup_delete_ne; [by apply Hlive|]. intros Heq. specialize (Hlive Hd2). rewrite <- Heq in Hlive. congruence.
  - done.
  - intros id [loc2 [_ E]%Hlk]. apply Hst. by eexists.
  - intros id id' [loc2 [_ E]%Hlk] [loc3 [_ E']%Hlk]. apply Hstr; by eexists.
  - intros m2 Hm2. destruct (Hpend m2) as (? & loc2 & d2 & E & ?); [by rewrite Hp; right|]. split; [done|].
    exists loc2, d2. split; [|done]. rewrite lookup_delete_ne; [done|]. intros Heq. apply Hnot. rewrite Heq.
    by apply list_elem_of_fmap_2.
  - intros id loc2 d2 [Hne E]%Hlk Hl2 Hd2. specialize (Hdel _ _ _ E Hl2 Hd2). rewrite Hp2 in Hdel.
    by apply elem_of_cons in Hdel as [?|?].
  - done.
  - intros id [loc2 [Hne E]%Hlk] Hs. apply Hne. apply Hstr; [by eexists|by eexists|congruence].
Qed.

Lemma run_pending_inv io i s : core_inv s → core_inv (run_pending io i s).
Proof.
  intros Hs. unfold run_pending, deleteBundle. destruct (st_pending s !! i) as [m|] eqn:Ei; [|done].
  destruct (unlink_inv i m s Hs Ei) as [Hu Hno]. by apply deleteFromDisk_inv.
Qed.

Lemma run_pending_files io i s :
  (∀ s t, sha256_hex s = sha256_hex t → s = t) → core_inv s → files_inv s → files_inv (run_pending io i s).
Proof.
  intros Hinj Hs Hf. unfold run_pending, deleteBundle. destruct (st_pending s !! i) as [m|] eqn:Ei; [|done].
  destruct (unlink_inv i m s Hs Ei) as [_ Hno]. apply deleteFromDisk_files; [done| |by eapply ci_pending, list_elem_of_lookup_2|done].
  intros id [loc E]. simpl in E. apply lookup_delete_Some in E as [_ E]. apply Hf. by eexists.
Qed.

(** What an insertion leaves on disk: the bytes of the bundle, in the file of its
    descriptor. *)
Lemma inserted_file io b s s' loc : st_bundles s !! Bundle_ID b = None → InsertBundle io b s = (Ok loc, s') →
  ∃ bd bs b', st_heap s' !! loc = Some bd ∧ d_deleted bd = false ∧ Bundle_MarshalCbor b = Ok (bs, b') ∧
    st_files s' !! m_SerialisedFileName (d_metadata bd) = Some bs.
Proof.
  intros Hnew. unfold InsertBundle. rewrite Hnew. unfold insertNewBundleUnsafe.
  destruct (previous_node b) as [prev| |]; [|done..].
  set (m := new_metadata (st_nodeID s) b prev). destruct (db_Insert _ _ _) as [[[]| |] d]; [|done..].
  destruct (io_create io); [|done]. simpl negb. cbv iota. destruct (Bundle_MarshalCbor b) as [[bs b']| |]; [|done..].
  destruct (io_flush io); [|done]. intros [= <- <-]. exists (NewBundleDescriptor m), bs, b'. simpl.
  split; [by apply list_lookup_middle|]. split; [done|]. split; [done|]. apply lookup_insert_eq.
Qed.

(** A part of a newly inserted bundle can be loaded without the rest of it, and agrees
    with the whole: the same primary block, and for every wanted type the block that the
    whole bundle has. *)
Theorem insert_load_partial `{!CboringLaws _} ebm now io wanted b s s' loc :
  st_bundles s !! Bundle_ID b = None → Bundle_wf ebm b → Bundle_CheckValid now b = Ok [] →
  (∀ bs b', Bundle_MarshalCbor b = Ok (bs, b') → len bs < two63) → InsertBundle io b s = (Ok loc, s') →
  ∃ b' p, Load ebm now loc s' = Ok b' ∧ LoadPartialBundle ebm wanted loc s' = Ok p ∧ pa_PrimaryBlock p = b_PrimaryBlock b' ∧
    ∀ t, t ∈ wanted → PartialBundle_ExtensionBlockByType p t = find_type t (b_ExtensionBlocks b').
Proof.
  intros Hnew Hwf Hv Hlen Hi. destruct (inserted_file io b s s' loc Hnew Hi) as (bd & bs & b' & El & Ed & Hm & Hf).
  destruct (partial_agrees ebm now true wanted b Hwf Hv) as (bs2 & b2 & Hm2 & Hp & Hpart).
  assert (bs2 = bs ∧ b2 = b') as [-> ->] by (split; congruence).
  destruct (Hpart (Hlen _ _ Hm)) as (p & Hp2 & Hpb & _ & Hl & _). exists b', p.
  unfold Load, LoadPartialBundle, loadEntireBundle, loadPartialBundle. rewrite El, Ed, Hf, Hp. done.
Qed.

(** ** Garbage collection *)

Lemma collect_inv now loc s : core_inv s → core_inv (collect now loc s).
Proof.
  intros Hs. unfold collect. destruct (st_heap s !! loc); [|done]. case_match; [|done].
  apply desc_op_inv; auto with descriptor.
Qed.

Lemma collect_frame now loc s :
  st_bundles (collect now loc s) = st_bundles s ∧ st_files (collect now loc s) = st_files s.
Proof.
  unfold collect. destruct (st_heap s !! loc); [|done]. case_match; [|done].
  destruct (desc_op_frame (Delete false) loc s) as (? & ? & _). done.
Qed.

Lemma GarbageCollect_inv now s : core_inv s → core_inv (GarbageCollect now s).
Proof.
  unfold GarbageCollect. generalize ((map_to_list (st_bundles s)).*2) as locs. intros locs. revert s.
  induction locs as [|loc locs IH]; intros s Hs; simpl; [done|]. by apply IH, collect_inv.
Qed.

Lemma GarbageCollect_frame now s :
  st_bundles (GarbageCollect now s) = st_bundles s ∧ st_files (GarbageCollect now s) = st_files s.
Proof.
  unfold GarbageCollect. generalize ((map_to_list (st_bundles s)).*2) as locs. intros locs. revert s.
  induction locs as [|loc locs IH]; intros s; simpl; [done|].
  destruct (IH (collect now loc s)) as [-> ->]. apply collect_frame.
Qed.

(** ** Insertion *)

Lemma files_inv_irrelevant s files : core_inv s → core_inv (set_st_files files s).
Proof. by intros []. Qed.

Lemma new_metadata_ok nodeID b prev : meta_ok (new_metadata nodeID b prev).
Proof. done. Qed.

(** A new descriptor enters the map. *)
Lemma link_inv s m : core_inv s → meta_ok m → st_bundles s !! m_ID m = None →
  is_Some (db_get (st_metadataStore s) (m_IDString m)) →
  (∀ id, is_Some (st_bundles s !! id) → BundleID_String id ≠ m_IDString m) →
  core_inv (set_st_bundles (<[m_ID m := length (st_heap s)]> (st_bundles s))
    (set_st_heap (st_heap s ++ [NewBundleDescriptor m]) s)).
Proof.
  intros [Hmap Hheap Hdb Hst Hstr Hpend Hdel Honce] [Hok1 Hok2] Hnew Hget Hno.
  assert (∀ loc d, (st_heap s ++ [NewBundleDescriptor m]) !! loc = Some d →
    st_heap s !! loc = Some d ∨ loc = length (st_heap s) ∧ d = NewBundleDescriptor m) as Hcase.
  { intros loc d [?|[? E]]%lookup_app_Some; [by left|]. right. apply list_lookup_singleton_Some in E as [? ?].
    split; [lia|done]. }
  assert (∀ loc d, st_heap s !! loc = Some d → (st_heap s ++ [NewBundleDescriptor m]) !! loc = Some d) as Hold
    by (intros; by apply lookup_app_l_Some).
  assert (∀ id loc, <[m_ID m := length (st_heap s)]> (st_bundles s) !! id = Some loc →
    id = m_ID m ∧ loc = length (st_heap s) ∨ id ≠ m_ID m ∧ st_bundles s !! id = Some loc) as Hlk.
  { intros id loc [[? ?]|[? ?]]%lookup_insert_Some; [left|right]; auto. }
  constructor; simpl.
  - intros id loc [[-> ->]|[_ E]]%Hlk; [|destruct (Hmap _ _ E) as (d & Hd & ?); eauto].
    exists (NewBundleDescriptor m). split; [|done]. by apply list_lookup_middle.
  - intros loc d [E|[-> ->]]%Hcase.
    + destruct (Hheap _ _ E) as (? & ? & Hlive). split; [done|]. split; [done|]. intros Hd.
      specialize (Hlive Hd). rewrite lookup_insert_ne; [done|]. intros Heq. congruence.
    + split; [apply NewBundleDescriptor_inv|]. split; [done|]. intros _. by rewrite lookup_insert_eq.
  - done.
  - intros id [loc [[-> _]|[_ E]]%Hlk]; [by rewrite <- Hok1|]. apply Hst. by eexists.
  - intros id id' [loc [[-> _]|[? E]]%Hlk] [loc' [[-> _]|[? E']]%Hlk] Hs; [done| | |].
    + destruct (Hno id'); [by eexists|congruence].
    + destruct (Hno id); [by eexists|congruence].
    + apply Hstr; [by eexists|by eexists|done].
  - intros m2 Hm2. destruct (Hpend m2 Hm2) as (? & loc & d & E & Hl & Hd). split; [done|].
    exists loc, d. split; [|eauto]. rewrite lookup_insert_ne; [done|]. intros Heq. congruence.
  - intros id loc d [[-> ->]|[_ E]]%Hlk Hl Hd.
    + destruct (Hcase _ _ Hl) as [Hl2|[_ ->]]; [|done]. apply lookup_lt_Some in Hl2. lia.
    + eapply Hdel; [done| |done]. destruct (Hcase _ _ Hl) as [?|[-> ->]]; [done|].
      destruct (Hmap _ _ E) as (d2 & Hl2%lookup_lt_Some & _). lia.
  - done.
Qed.

(** What a successful [Insert] says about the ids in the map. *)
Lemma Insert_fresh s m d : core_inv s → meta_ok m →
  db_Insert (m_IDString m) m (st_metadataStore s) = (Ok (), d) →
  core_inv (set_st_db d s) ∧ is_Some (db_get d (m_IDString m)) ∧
  ∀ id, is_Some (st_bundles s !! id) → BundleID_String id ≠ m_IDString m.
Proof.
  intros Hs Hm E. destruct (db_Insert_Ok _ _ _ _ E) as [Hnone Hd]. split; [by eapply db_set_inv|]. split.
  - rewrite Hd. rewrite decide_True by done. by eexists.
  - intros id Hid Heq. destruct (ci_stored s Hs id Hid) as [x Hx]. congruence.
Qed.

Lemma insertNew_inv io b s : core_inv s → st_bundles s !! Bundle_ID b = None →
  core_inv (insertNewBundleUnsafe io b s).2.
Proof.
  intros Hs Hnew. unfold insertNewBundleUnsafe. destruct (previous_node b) as [prev| |]; [|done..].
  set (m := new_metadata (st_nodeID s) b prev). pose proof (new_metadata_ok (st_nodeID s) b prev) as Hm. fold m in Hm.
  destruct (db_Insert _ _ _) as [[[]|e|] d] eqn:E.
  - destruct (Insert_fresh s m d Hs Hm E) as (Hs1 & Hget & Hno).
    destruct (io_create io); simpl; [|by apply deleteFromDisk_inv].
    destruct (Bundle_MarshalCbor b) as [[bs b']| |]; simpl; try by apply files_inv_irrelevant.
    destruct (io_flush io); simpl; [|by apply files_inv_irrelevant].
    apply files_inv_irrelevant. by apply (link_inv (set_st_db d s) m).
  - destruct (db_Insert_fails _ _ _ _ _ E ltac:(done)). by apply db_same_inv.
  - destruct (db_Insert_fails _ _ _ _ _ E ltac:(done)). by apply db_same_inv.
Qed.

Lemma InsertBundle_inv io b s : core_inv s → core_inv (InsertBundle io b s).2.
Proof.
  intros Hs. unfold InsertBundle. destruct (st_bundles s !! Bundle_ID b) as [loc|] eqn:E; [|by apply insertNew_inv].
  destruct (previous_node b) as [[prev|]| |]; [|done..].
  pose proof (AddKnownHolder_inv [prev] loc s Hs) as Hi. by destruct (bd_AddKnownHolder [prev] loc s) as [[]].
Qed.

Lemma InsertBundle_files io b s : (∀ s t, sha256_hex s = sha256_hex t → s = t) → core_inv s → files_inv s →
  files_inv (InsertBundle io b s).2.
Proof.
  intros Hinj Hs Hf. unfold InsertBundle. destruct (st_bundles s !! Bundle_ID b) as [loc|] eqn:Eb.
  { destruct (previous_node b) as [[prev|]| |]; [|done..].
    pose proof (AddKnownHolder_frame [prev] loc s) as [Hb Hfl].
    destruct (bd_AddKnownHolder [prev] loc s) as [[] s']; simpl in *; intros id; rewrite Hb, Hfl; apply Hf. }
  unfold insertNewBundleUnsafe. destruct (previous_node b) as [prev| |]; [|done..].
  set (m := new_metadata (st_nodeID s) b prev). pose proof (new_metadata_ok (st_nodeID s) b prev) as Hm. fold m in Hm.
  assert (∀ d bs, files_inv (set_st_files (<[m_SerialisedFileName m := bs]> (st_files (set_st_db d s))) (set_st_db d s))) as Hw.
  { intros d bs id Hid. simpl. apply lookup_insert_is_Some'. right. by apply Hf. }
  destruct (db_Insert _ _ _) as [[[]|e|] d] eqn:E; [|exact Hf..].
  destruct (Insert_fresh s m d Hs Hm E) as (Hs1 & Hget & Hno).
  destruct (io_create io); simpl; [|by apply deleteFromDisk_files].
  destruct (Bundle_MarshalCbor b) as [[bs b']| |]; simpl; [|apply Hw..].
  destruct (io_flush io); simpl; [|apply Hw].
  intros id [loc Hid]. simpl in *. apply lookup_insert_is_Some'.
  apply lookup_insert_Some in Hid as [[<- _]|[_ Hid]]; [by left|right]. apply Hf. by eexists.
Qed.

(** ** The theorems *)

Lemma store_step_inv s s' : core_inv s → store_step s s' → core_inv s'.
Proof.
  intros Hs Hst. destruct Hst; auto using InsertBundle_inv, SetMiscData_inv, AddKnownHolder_inv, GarbageCollect_inv,
    run_pending_inv; apply desc_op_inv; auto with descriptor.
Qed.

Lemma store_step_files s s' : (∀ s t, sha256_hex s = sha256_hex t → s = t) →
  core_inv s → files_inv s → store_step s s' → files_inv s'.
Proof.
  intros Hinj Hs Hf Hst.
  assert (∀ s', st_bundles s' = st_bundles s → st_files s' = st_files s → files_inv s') as Hframe
    by (intros s2 Hb Hfl id; rewrite Hb, Hfl; apply Hf).
  destruct Hst; auto using InsertBundle_files, run_pending_files.
  - apply Hframe; apply desc_op_frame.
  - apply Hframe; apply desc_op_frame.
  - apply Hframe; apply desc_op_frame.
  - apply Hframe; apply desc_op_frame.
  - unfold bd_SetMiscData. destruct (st_heap s !! loc) as [d|]; [|done].
    destruct (update_frame (d_metadata (set_misc k v d)) (set_st_heap (<[loc := set_misc k v d]> (st_heap s)) s)).
    by apply Hframe.
  - apply Hframe; apply AddKnownHolder_frame.
  - apply Hframe; apply GarbageCollect_frame.
Qed.

Lemma store_steps_inv s s' : core_inv s → store_steps s s' → core_inv s'.
Proof. intros Hs. induction 1; eauto using store_step_inv. Qed.

Lemma store_steps_files s s' : (∀ s t, sha256_hex s = sha256_hex t → s = t) →
  core_inv s → files_inv s → store_steps s s' → files_inv s'.
Proof. intros Hinj Hs Hf. induction 1; eauto using store_step_files, store_steps_inv. Qed.

(** ** Start of the store *)

Lemma load_descriptors_inv l s : core_inv s → NoDup l →
  (∀ m, m ∈ l → meta_ok m ∧ db_get (st_metadataStore s) (m_IDString m) = Some m ∧
     ∀ id, is_Some (st_bundles s !! id) → BundleID_String id ≠ m_IDString m) →
  let s' := load_descriptors (map NewBundleDescriptor l) s in
  core_inv s' ∧ st_metadataStore s' = st_metadataStore s ∧ st_files s' = st_files s ∧ st_pending s' = st_pending s ∧
  (∀ id, is_Some (st_bundles s' !! id) ↔ is_Some (st_bundles s !! id) ∨ id ∈ m_ID <$> l) ∧
  (∀ loc d, st_heap s' !! loc = Some d → st_heap s !! loc = Some d ∨ ∃ m, m ∈ l ∧ d = NewBundleDescriptor m).
Proof.
  revert s. induction l as [|m l IH]; intros s Hs Hnd Hl; simpl.
  { split; [done|]. split; [done|]. split; [done|]. split; [done|]. split; [|auto].
    intros id. split; [by left|]. intros [?|?%not_elem_of_nil]; done. }
  apply NoDup_cons in Hnd as [Hnot Hnd]. destruct (Hl m ltac:(by left)) as (Hok & Hget & Hno).
  set (s1 := set_st_bundles _ _).
  assert (st_bundles s !! m_ID m = None) as Hnone.
  { destruct (st_bundles s !! m_ID m) eqn:E; [|done]. destruct (Hno (m_ID m)); [by eexists|]. by destruct Hok. }
  assert (core_inv s1) as Hs1 by (apply link_inv; [done|done|done|by rewrite Hget|done]).
  destruct (IH s1 Hs1 Hnd) as (Hi & Hdb & Hf & Hn & Hb & Hh).
  { intros m2 Hm2. destruct (Hl m2 ltac:(by right)) as (Hok2 & Hget2 & Hno2). split; [done|]. split; [done|].
    intros id [loc Hid] Hs2. unfold s1, descriptor_ID in Hid. simpl in Hid. apply lookup_insert_Some in Hid as [[<- _]|[_ Hid]].
    - destruct Hok as [Hi1 _]. rewrite <- Hs2, <- Hi1, Hget in Hget2. congruence.
    - apply (Hno2 id); [by eexists|done]. }
  split; [done|]. split; [done|]. split; [done|]. split; [done|]. split.
  - intros id. rewrite Hb. unfold s1, descriptor_ID. simpl. rewrite lookup_insert_is_Some', elem_of_cons. split.
    + intros [[->|?]|?]; auto.
    + intros [?|[->|?]]; auto.
  - intros loc d [E|(m2 & ? & ->)]%Hh; [|right; exists m2; split; [by right|done]].
    simpl in E. apply lookup_app_Some in E as [?|[_ E]]; [by left|].
    apply list_lookup_singleton_Some in E as [_ <-]. right. exists m. split; [by left|done].
Qed.

(** A store without bundles on a consistent database. *)
Lemma empty_inv nodeID d files : (∀ k m, db_get d k = Some m → m_IDString m = k ∧ meta_ok m) →
  core_inv (mkStore nodeID d files ∅ [] []).
Proof.
  intros Hd. constructor; simpl; try done.
  - by intros id [x E].
  - by intros id id' [x E].
  - intros m Hm. by apply not_elem_of_nil in Hm.
  - constructor.
Qed.

(** Starting the store on a database whose records are consistent gives a
    consistent store that holds exactly the bundles of the database, every one of
    them fresh and ready to be dispatched. *)
Theorem InitialiseStore_spec nodeID d files s :
  (∀ k m, db_get d k = Some m → m_IDString m = k ∧ meta_ok m) → InitialiseStore nodeID d files = Ok s →
  core_inv s ∧ st_metadataStore s = d ∧ st_files s = files ∧ st_pending s = [] ∧
  (∀ id, is_Some (st_bundles s !! id) ↔ ∃ k m, db_get d k = Some m ∧ m_ID m = id) ∧
  (∀ loc bd, st_heap s !! loc = Some bd → Dispatch bd = true ∧ HasConstraint bd DispatchPending = Ok true).
Proof.
  intros Hd. unfold InitialiseStore, loadAll. destruct (db_FindAll d) as [l| |] eqn:E; [|done..]. intros <-%Ok_inj.
  destruct (db_FindAll_Ok _ _ E) as [Hnd Hl]. set (s0 := mkStore nodeID d files ∅ [] []).
  assert (core_inv s0) as Hs0 by (by apply empty_inv).
  destruct (load_descriptors_inv l s0 Hs0 Hnd) as (Hi & Hdb & Hf & Hp & Hb & Hh).
  { intros m [k Hk]%Hl. destruct (Hd _ _ Hk) as [Hk2 Hok]. rewrite Hk2. split; [done|]. split; [done|].
    by intros id [x Hx]. }
  do 4 (split; [done|]). split.
  - intros id. rewrite Hb. split.
    + intros [[x Hx]|(m & -> & Hm)%list_elem_of_fmap]; [done|].
      apply Hl in Hm as [k Hk]. eauto.
    + intros (k & m & Hk & <-). right. apply list_elem_of_fmap_2, Hl. eauto.
  - intros loc bd [Hx|(m & _ & ->)]%Hh; done.
Qed.

(** C6: whatever operations run on a store that started empty, and whenever the
    goroutines they start get to run: a bundle that can be looked up has a
    descriptor with its id, a database record under its key and its file; a
    descriptor that is not deleted can be looked up; and no bundle has two
    deletions pending.  The digest that names the files is taken to be free of
    collisions. *)
Theorem store_consistent nodeID d s :
  (∀ s t, sha256_hex s = sha256_hex t → s = t) → (∀ k, db_get d k = None) →
  store_steps (mkStore nodeID d ∅ ∅ [] []) s →
  (∀ id loc, GetBundleDescriptor id s = Ok loc → ∃ bd m bs,
     st_heap s !! loc = Some bd ∧ m_ID (d_metadata bd) = id ∧ d_deleted bd = false ∧
     db_get (st_metadataStore s) (BundleID_String id) = Some m ∧
     st_files s !! m_SerialisedFileName (d_metadata bd) = Some bs) ∧
  (∀ loc bd, st_heap s !! loc = Some bd → d_deleted bd = false →
     GetBundleDescriptor (m_ID (d_metadata bd)) s = Ok loc) ∧
  NoDup (m_ID <$> st_pending s).
Proof.
  intros Hinj Hd Hsteps. set (s0 := mkStore nodeID d ∅ ∅ [] []) in *.
  assert (core_inv s0) as Hs0 by (apply empty_inv; intros k m; by rewrite Hd).
  assert (files_inv s0) as Hf0 by (by intros id [x Hx]).
  pose proof (store_steps_inv _ _ Hs0 Hsteps) as Hs. pose proof (store_steps_files _ _ Hinj Hs0 Hf0 Hsteps) as Hf.
  split; [|split; [|apply (ci_once s Hs)]].
  - intros id loc. unfold GetBundleDescriptor. destruct (st_bundles s !! id) as [loc'|] eqn:Eb; [|done].
    destruct (st_heap s !! loc') as [bd|] eqn:El; [|done]. unfold Deleted. destruct (d_deleted bd) eqn:Ed; [done|].
    intros ->%Ok_inj. destruct (ci_map s Hs _ _ Eb) as (bd' & El' & Hid). rewrite El in El'. simplify_eq.
    destruct (ci_heap s Hs _ _ El) as (_ & [_ Hname] & _).
    destruct (ci_stored s Hs (m_ID (d_metadata bd')) ltac:(by eexists)) as [m Hm].
    destruct (Hf (m_ID (d_metadata bd')) ltac:(by eexists)) as [bs Hbs].
    exists bd', m, bs. by rewrite Hname.
  - intros loc bd El Ed. destruct (ci_heap s Hs _ _ El) as (_ & _ & Hlive).
    unfold GetBundleDescriptor, Deleted. by rewrite (Hlive Ed), El, Ed.
Qed.

(** C12: a well-formed and valid bundle that was newly inserted can be looked up
    under its id and loaded again: the loaded bundle is the inserted one up to the
    CRC values.  The holders known at first are the node itself and the previous
    node. *)
Theorem insert_load_roundtrip `{!CboringLaws _} ebm now io b s s' loc :
  core_inv s → st_bundles s !! Bundle_ID b = None → Bundle_wf ebm b → Bundle_CheckValid now b = Ok [] →
  InsertBundle io b s = (Ok loc, s') →
  GetBundleDescriptor (Bundle_ID b) s' = Ok loc ∧
  (∃ b', Load ebm now loc s' = Ok b' ∧ erase_crc b' = erase_crc b) ∧
  ∃ bd prev, st_heap s' !! loc = Some bd ∧ previous_node b = Ok prev ∧
    GetKnownHolders bd = Ok (st_nodeID s :: option_list prev).
Proof.
  intros Hs Hnew Hwf Hv. unfold InsertBundle. rewrite Hnew. unfold insertNewBundleUnsafe.
  destruct (previous_node b) as [prev| |]; [|done..].
  set (m := new_metadata (st_nodeID s) b prev). destruct (db_Insert _ _ _) as [[[]| |] d]; [|done..].
  destruct (io_create io); [|done]. simpl negb. cbv iota.
  destruct (Bundle_Marshal_wf ebm b Hwf) as (body & b' & Hm & He & Hu). rewrite Hm.
  destruct (io_flush io); [|done]. intros [= <- <-].
  assert ((st_heap s ++ [NewBundleDescriptor m]) !! length (st_heap s) = Some (NewBundleDescriptor m)) as Hl
    by (by apply list_lookup_middle).
  split; [|split].
  - unfold GetBundleDescriptor. simpl. by rewrite lookup_insert_eq, Hl.
  - exists b'. split; [|done]. unfold Load. simpl. rewrite Hl. simpl. unfold loadEntireBundle. simpl.
    rewrite lookup_insert_eq. unfold ParseBundle. rewrite (Hu now _ [] (CanonicalBlock_break ebm [])).
    by erewrite check_bundle_erase.
  - simpl. rewrite Hl. eexists _, prev. done.
Qed.

(** ** Garbage collection *)

(** The descriptors that garbage collection deletes. *)
Definition collectable (now : Z) (bd : BundleDescriptor) : bool :=
  Expired now bd && bool_decide (d_retentionConstraints bd = []) && negb (d_deleted bd).

Definition collected (now : Z) (bd : BundleDescriptor) : BundleDescriptor :=
  if collectable now bd then set_d_deleted true bd else bd.

Lemma collected_twice now bd : collected now (collected now bd) = collected now bd.
Proof.
  unfold collected. destruct (collectable now bd) eqn:E; [|by rewrite E]. unfold collectable. simpl. by rewrite andb_false_r.
Qed.

Lemma collect_spec now loc s : core_inv s → collect now loc s =
  match st_heap s !! loc with
  | Some bd => if collectable now bd
               then set_st_pending (st_pending s ++ [d_metadata bd]) (set_st_heap (<[loc := set_d_deleted true bd]> (st_heap s)) s) else s
  | None => s
  end.
Proof.
  intros Hs. unfold collect. destruct (st_heap s !! loc) as [bd|] eqn:El; [|done].
  destruct (ci_heap s Hs _ _ El) as ([Hr _ Hdel _ _] & _). unfold collectable. destruct (Expired now bd); [|done]. simpl.
  unfold Retain, bd_Delete, desc_op, Delete, unsafeDelete. rewrite Hr, El. case_bool_decide as Hc.
  - rewrite Hc. destruct (d_deleted bd); simpl; [|done]. rewrite list_insert_id by done. by destruct s.
  - assert (0 < len (d_retentionConstraints bd)) as ->%Z.ltb_lt by (unfold len; destruct (d_retentionConstraints bd); simpl; [done|lia]).
    assert (d_deleted bd = false) as -> by (destruct (d_deleted bd); [by destruct Hc; apply Hdel|done]). done.
Qed.

Lemma collect_heap now loc s l : core_inv s →
  st_heap (collect now loc s) !! l = if decide (l = loc) then collected now <$> st_heap s !! l else st_heap s !! l.
Proof.
  intros Hs. rewrite collect_spec by done. unfold collected. case_decide as Hl; [subst l|].
  - destruct (st_heap s !! loc) as [bd|] eqn:E; simpl; [|done]. destruct (collectable now bd); [|done].
    simpl. rewrite list_lookup_insert_eq; [done|by eapply lookup_lt_Some].
  - destruct (st_heap s !! loc) as [bd|]; [|done]. destruct (collectable now bd); [|done]. simpl. by rewrite list_lookup_insert_ne.
Qed.

(** The loop of [GarbageCollect] over any descriptors: those that are collectable are
    deleted, and [deleteBundle] is started for each of them. *)
Lemma collect_all now locs : ∀ s, core_inv s → let s' := foldl (λ s loc, collect now loc s) s locs in
  st_nodeID s' = st_nodeID s ∧ st_metadataStore s' = st_metadataStore s ∧
  (∀ l, st_heap s' !! l = if decide (l ∈ locs) then collected now <$> st_heap s !! l else st_heap s !! l) ∧
  ∃ ms, st_pending s' = st_pending s ++ ms ∧
    ∀ m, m ∈ ms ↔ ∃ l bd, l ∈ locs ∧ st_heap s !! l = Some bd ∧ collectable now bd = true ∧ d_metadata bd = m.
Proof.
  induction locs as [|loc locs IH]; intros s Hs; cbn [foldl].
  { do 2 (split; [done|]). split; [intros l; by rewrite decide_False by apply not_elem_of_nil|]. exists []. rewrite app_nil_r. split; [done|].
    intros m. split; [by intros ?%not_elem_of_nil|by intros (l & bd & ?%not_elem_of_nil & _)]. }
  destruct (IH (collect now loc s) (collect_inv now loc s Hs)) as (Hn & Hd & Hh & ms & Hp & Hms). rewrite Hn, Hd, Hp.
  assert (∀ l bd, st_heap (collect now loc s) !! l = Some bd ∧ collectable now bd = true ↔
    l ≠ loc ∧ st_heap s !! l = Some bd ∧ collectable now bd = true) as Hcol.
  { intros l bd. rewrite collect_heap by done. case_decide as Hl; [|naive_solver]. split; [|by intros [? _]]. intros [Hb Hc].
    destruct (st_heap s !! l) as [bd0|]; simplify_eq/=. unfold collected in Hc. destruct (collectable now bd0) eqn:E; [|congruence].
    unfold collectable in Hc. simpl in Hc. by rewrite andb_false_r in Hc. }
  assert (∀ m, m ∈ ms ↔ ∃ l bd, l ∈ locs ∧ l ≠ loc ∧ st_heap s !! l = Some bd ∧ collectable now bd = true ∧ d_metadata bd = m) as Hms'.
  { intros m. rewrite Hms. split; intros (l & bd & Hin & Hx); exists l, bd; specialize (Hcol l bd); naive_solver. }
  split; [|split; [|split]].
  - rewrite collect_spec by done. by repeat case_match.
  - rewrite collect_spec by done. by repeat case_match.
  - intros l. rewrite Hh, collect_heap by done. destruct (decide (l = loc)) as [->|Hne].
    + rewrite (decide_True _ _ (list_elem_of_here loc locs)). case_decide; [|done]. destruct (st_heap s !! loc); [|done]. simpl. by rewrite collected_twice.
    + apply decide_ext. rewrite elem_of_cons. naive_solver.
  - rewrite collect_spec by done. setoid_rewrite elem_of_cons.
    destruct (st_heap s !! loc) as [bd|] eqn:El; [destruct (collectable now bd) eqn:Ec|].
    + exists (d_metadata bd :: ms). split; [simpl; by rewrite <- (assoc_L (++))|]. intros m. rewrite elem_of_cons, Hms'. split.
      * intros [->|(l & bd0 & ? & ? & ?)]; [by exists loc, bd; auto|exists l, bd0; auto].
      * intros (l & bd0 & [->|Hin] & Hb & Hc & Hm); [left; congruence|]. destruct (decide (l = loc)) as [->|]; [left; congruence|right; exists l, bd0; auto 10].
    + exists ms. split; [done|]. intros m. rewrite Hms'. split; [intros (l & bd0 & ? & ? & ?); exists l, bd0; auto|].
      intros (l & bd0 & Hin & Hb & Hc & Hm). assert (l ≠ loc) as Hne by congruence. destruct Hin as [?|Hin]; [done|]. exists l, bd0. auto 10.
    + exists ms. split; [done|]. intros m. rewrite Hms'. split; [intros (l & bd0 & ? & ? & ?); exists l, bd0; auto|].
      intros (l & bd0 & Hin & Hb & Hc & Hm). assert (l ≠ loc) as Hne by congruence. destruct Hin as [?|Hin]; [done|]. exists l, bd0. auto 10.
Qed.

(** What garbage collection makes of the descriptors. *)
Lemma GarbageCollect_heap now s loc : core_inv s → st_heap (GarbageCollect now s) !! loc = collected now <$> st_heap s !! loc.
Proof.
  intros Hs. destruct (collect_all now (map_to_list (st_bundles s)).*2 s Hs) as (_ & _ & Hh & _). unfold GarbageCollect. rewrite Hh.
  case_decide as Hl; [done|]. destruct (st_heap s !! loc) as [bd|] eqn:El; [|done]. simpl. unfold collected.
  destruct (collectable now bd) eqn:Hc; [|done]. destruct Hl. destruct (ci_heap s Hs _ _ El) as (_ & _ & Hlive).
  unfold collectable in Hc. apply andb_true_iff in Hc as [_ Hdel].
  apply (list_elem_of_fmap_2 snd _ (m_ID (d_metadata bd), loc)), elem_of_map_to_list, Hlive. by destruct (d_deleted bd).
Qed.

(** C35: garbage collection, exactly.  Those bundles that are expired, have no constraint
    and are not deleted yet are marked as deleted, and for each of them, once, the
    goroutine [deleteBundle] is started.  Every other descriptor is left as it was, a
    retained one also without the mark for deletion, and so are the map of bundles, the
    database and the files. *)
Theorem GarbageCollect_spec now s : core_inv s → let s' := GarbageCollect now s in
  (∀ loc, st_heap s' !! loc = (λ bd, if collectable now bd then set_d_deleted true bd else bd) <$> st_heap s !! loc) ∧
  (∃ ms, st_pending s' = st_pending s ++ ms ∧ NoDup (m_ID <$> ms) ∧
    ∀ m, m ∈ ms ↔ ∃ loc bd, st_heap s !! loc = Some bd ∧ collectable now bd = true ∧ d_metadata bd = m) ∧
  st_nodeID s' = st_nodeID s ∧ st_bundles s' = st_bundles s ∧ st_metadataStore s' = st_metadataStore s ∧ st_files s' = st_files s.
Proof.
  intros Hs s'. destruct (collect_all now (map_to_list (st_bundles s)).*2 s Hs) as (Hn & Hd & Hh & ms & Hp & Hms). change (foldl _ s _) with s' in Hn, Hd, Hh, Hp.
  assert (∀ loc bd, st_heap s !! loc = Some bd → collectable now bd = true → loc ∈ (map_to_list (st_bundles s)).*2) as Hin.
  { intros loc bd El Hc. destruct (ci_heap s Hs _ _ El) as (_ & _ & Hlive). unfold collectable in Hc. apply andb_true_iff in Hc as [_ Hdel].
    apply (list_elem_of_fmap_2 snd _ (m_ID (d_metadata bd), loc)), elem_of_map_to_list, Hlive. by destruct (d_deleted bd). }
  split; [|split; [|destruct (GarbageCollect_frame now s); by split_and!]].
  - intros loc. by apply GarbageCollect_heap.
  - exists ms. split; [done|]. split.
    + pose proof (ci_once _ (GarbageCollect_inv now s Hs)) as Hnd. fold s' in Hnd. rewrite Hp, fmap_app in Hnd. by apply NoDup_app in Hnd as (_ & _ & ?).
    + intros m. rewrite Hms. split; [intros (l & bd & _ & Hx); by exists l, bd|]. intros (l & bd & El & Ec & Hm). exists l, bd. eauto.
Qed.
End Inv.
