(* ===== verification/StoreHistory.v ===== *)
(** * What the store never forgets

    A descriptor that was created stays at its address; its id and destination are
    fixed, known holders are only added, and a deleted descriptor stays deleted.
    The order [heap_le] states this for two states of the store; every operation
    of the store follows it. *)

From stdpp Require Import base tactics list strings gmap.
From Stdlib Require Import ZArith Lia Bool.
From S2P Require Import Prelude Cboring GoSort Flags Crc DtnTime Endpoint BundleId ExtensionBlocks Blocks.
From S2P Require Import Bundle Samples BundleCodec Descriptor Store StoreInv.
Local Open Scope Z_scope.

Record desc_le (d d' : BundleDescriptor) : Prop := {
  le_ID : m_ID (d_metadata d') = m_ID (d_metadata d);
  le_Destination : m_Destination (d_metadata d') = m_Destination (d_metadata d);
  le_holders e : e ∈ m_KnownHolders (d_metadata d) → e ∈ m_KnownHolders (d_metadata d');
  le_deleted : d_deleted d = true → d_deleted d' = true;
}.

#[global] Instance desc_le_preorder : PreOrder desc_le.
Proof.
  split; [by intros d; constructor|].
  intros d1 d2 d3 [] []. constructor; eauto; congruence.
Qed.

Section History.
Context `{Cboring} `{Crc16} `{GoMapRange} `{Ed25519} `{Badgerhold} `{!BadgerholdLaws _} `{Sha256}.

Definition heap_le (s s' : BundleStore) : Prop :=
  ∀ loc d, st_heap s !! loc = Some d → ∃ d', st_heap s' !! loc = Some d' ∧ desc_le d d'.

#[global] Instance heap_le_preorder : PreOrder heap_le.
Proof.
  split; [intros s loc d E; exists d; by split; [|reflexivity]|].
  intros s1 s2 s3 H12 H23 loc d E. destruct (H12 _ _ E) as (d2 & E2 & Hle). destruct (H23 _ _ E2) as (d3 & E3 & Hle').
  exists d3. split; [done|]. by transitivity d2.
Qed.

Lemma heap_le_eq s s' : st_heap s' = st_heap s → heap_le s s'.
Proof. intros E loc d Hl. exists d. rewrite E. by split; [|reflexivity]. Qed.

Lemma heap_le_app s s' l : st_heap s' = st_heap s ++ l → heap_le s s'.
Proof. intros E loc d Hl. exists d. rewrite E. split; [by apply lookup_app_l_Some|reflexivity]. Qed.

Lemma heap_le_insert s s' loc d d' : st_heap s !! loc = Some d → desc_le d d' →
  st_heap s' = <[loc := d']> (st_heap s) → heap_le s s'.
Proof.
  intros El Hle Eh loc2 d2 El2. rewrite Eh. destruct (decide (loc2 = loc)) as [->|Hne].
  - exists d'. rewrite list_lookup_insert_eq by (by eapply lookup_lt_Some). by simplify_eq.
  - exists d2. rewrite list_lookup_insert_ne by done. by split; [|reflexivity].
Qed.

Lemma desc_op_le {A} (f : BundleDescriptor → res A * BundleDescriptor * bool) loc s :
  op_ok f → core_inv s → heap_le s (desc_op f loc s).2.
Proof.
  intros Hf Hs. unfold desc_op. destruct (st_heap s !! loc) as [d|] eqn:El; [|reflexivity].
  destruct (f d) as [[r d'] go] eqn:Ef. destruct (Hf _ _ _ _ Ef (proj1 (ci_heap s Hs _ _ El))) as (_ & Hm & Hgo).
  eapply (heap_le_insert _ _ loc d d'); [done| |by destruct go]. constructor; rewrite ?Hm; try done.
  destruct go; [by destruct Hgo|congruence].
Qed.

Lemma update_le m s : heap_le s (updateBundleMetadata m s).2.
Proof. apply heap_le_eq. unfold updateBundleMetadata. by destruct (db_Update _ _ _). Qed.

Lemma SetMiscData_le k v loc s : heap_le s (bd_SetMiscData k v loc s).2.
Proof.
  unfold bd_SetMiscData. destruct (st_heap s !! loc) as [d|] eqn:El; [|reflexivity].
  etrans; [|apply update_le]. by eapply (heap_le_insert _ _ loc d (set_misc k v d)); [|constructor|].
Qed.

Lemma AddKnownHolder_le peers loc s : heap_le s (bd_AddKnownHolder peers loc s).2.
Proof.
  unfold bd_AddKnownHolder. destruct (st_heap s !! loc) as [d|] eqn:El; [|reflexivity].
  destruct (d_deleted d); [reflexivity|].
  pose proof (update_le (d_metadata (add_holders peers d)) (set_st_heap (<[loc := add_holders peers d]> (st_heap s)) s)) as Hu.
  destruct (updateBundleMetadata _ _) as [r s']. etrans; [|exact Hu].
  eapply (heap_le_insert _ _ loc d (add_holders peers d)); [done| |done]. constructor; try done.
  intros e He. apply elem_of_app. by left.
Qed.

(** [AddKnownHolder] on a live descriptor adds the peers. *)
Lemma AddKnownHolder_spec peers loc s d : st_heap s !! loc = Some d → d_deleted d = false →
  ∃ s', bd_AddKnownHolder peers loc s = (Ok (), s') ∧ st_heap s' = <[loc := add_holders peers d]> (st_heap s).
Proof.
  intros El Ed. unfold bd_AddKnownHolder, updateBundleMetadata. rewrite El, Ed.
  destruct (db_Update _ _ _) as [r db']. eexists. by split.
Qed.

Lemma deleteFromDisk_heap io m s : st_heap (deleteFromDiskUnsafe io m s) = st_heap s.
Proof. unfold deleteFromDiskUnsafe. by destruct (db_Delete _ _). Qed.

Lemma run_pending_le io i s : heap_le s (run_pending io i s).
Proof.
  apply heap_le_eq. unfold run_pending, deleteBundle. destruct (st_pending s !! i); [|done]. by rewrite deleteFromDisk_heap.
Qed.

Lemma GarbageCollect_le now s : core_inv s → heap_le s (GarbageCollect now s).
Proof.
  unfold GarbageCollect. generalize ((map_to_list (st_bundles s)).*2) as locs. intros locs. revert s.
  induction locs as [|loc locs IH]; intros s Hs; simpl; [reflexivity|].
  transitivity (collect now loc s); [|by apply IH, collect_inv].
  unfold collect. destruct (st_heap s !! loc); [|reflexivity]. case_match; [|reflexivity].
  apply desc_op_le; [apply Delete_op|done].
Qed.

Lemma InsertBundle_le io b s : heap_le s (InsertBundle io b s).2.
Proof.
  unfold InsertBundle, insertNewBundleUnsafe. destruct (st_bundles s !! Bundle_ID b) as [loc|].
  - destruct (previous_node b) as [[prev|]| |]; try reflexivity.
    pose proof (AddKnownHolder_le [prev] loc s) as Hle. by destruct (bd_AddKnownHolder [prev] loc s) as [[] ?].
  - destruct (previous_node b) as [prev| |]; [|reflexivity..].
    destruct (db_Insert _ _ _) as [[[]|e|] d]; [|by apply heap_le_eq..].
    destruct (io_create io); simpl; [|apply heap_le_eq; by rewrite deleteFromDisk_heap].
    destruct (Bundle_MarshalCbor b) as [[bs b']| |]; simpl; [|by apply heap_le_eq..].
    destruct (io_flush io); simpl; [by eapply heap_le_app|by apply heap_le_eq].
Qed.

Lemma store_step_le s s' : core_inv s → store_step s s' → heap_le s s'.
Proof.
  intros Hs Hst. destruct Hst; auto using InsertBundle_le, SetMiscData_le, AddKnownHolder_le, GarbageCollect_le, run_pending_le;
    apply desc_op_le; auto using AddConstraint_op, RemoveConstraint_op, ResetConstraints_op, Delete_op.
Qed.

Lemma store_steps_le s s' : core_inv s → store_steps s s' → heap_le s s'.
Proof.
  intros Hs. induction 1 as [|s s1 s2 Hst IH Hstep]; [reflexivity|].
  transitivity s1; [by apply IH|]. apply store_step_le; [by eapply store_steps_inv|done].
Qed.

Lemma store_steps_trans s1 s2 s3 : store_steps s1 s2 → store_steps s2 s3 → store_steps s1 s3.
Proof. intros H12. induction 1; eauto using steps_cons. Qed.

Lemma store_steps_one s s' : store_step s s' → store_steps s s'.
Proof. intros Hs. eapply steps_cons; [apply steps_refl|done]. Qed.

(** C34: over any sequence of store operations (insertions, constraint changes,
    deletions, garbage collection, the deletion goroutines) a descriptor keeps its
    bundle's id and destination, its known holders only grow, and deletion is
    final. *)
Theorem store_history s s' loc d : core_inv s → store_steps s s' → st_heap s !! loc = Some d →
  ∃ d', st_heap s' !! loc = Some d' ∧ m_ID (d_metadata d') = m_ID (d_metadata d) ∧
    m_Destination (d_metadata d') = m_Destination (d_metadata d) ∧
    (∀ e, e ∈ m_KnownHolders (d_metadata d) → e ∈ m_KnownHolders (d_metadata d')) ∧
    (d_deleted d = true → d_deleted d' = true).
Proof. intros Hs Hst El. destruct (store_steps_le s s' Hs Hst loc d El) as (d' & El' & []). eauto 10. Qed.
End History.
