(* ===== verification/StoreExamples.v ===== *)
(** * The store at work

    Concrete executions of the store, and behaviours of [pkg/store] that its
    users may not expect. *)

From stdpp Require Import base tactics list strings gmap.
From Stdlib Require Import ZArith Lia Bool.
From S2P Require Import Prelude Cboring GoSort Flags Crc DtnTime Endpoint BundleId ExtensionBlocks Blocks.
From S2P Require Import Bundle Samples BundleValid BundleCodec Partial Descriptor Store StoreInv StoreHistory.
Local Open Scope Z_scope.

Definition own_node : EndpointID := dtn "me" "".
Definition empty_store : BundleStore := mkStore own_node (∅ : gmap string BundleMetadata) ∅ ∅ [] [].
Definition one_bundle : BundleStore := (InsertBundle io_ok sample_bundle empty_store).2.

Lemma empty_store_inv : core_inv empty_store.
Proof. apply empty_inv. intros k m E. simpl in E. by rewrite lookup_empty in E. Qed.

Lemma store_consistent_witness :
  GetBundleDescriptor (Bundle_ID sample_bundle) (GarbageCollect 5 one_bundle) = Ok 0%nat ∧
  ∃ bs, st_files (GarbageCollect 5 one_bundle) !! BundleID_String (Bundle_ID sample_bundle) = Some bs.
Proof.
  split; [vm_compute; reflexivity|].
  assert (store_steps empty_store (GarbageCollect 5 one_bundle)) as Hsteps.
  { apply (steps_cons _ one_bundle); [|apply do_GarbageCollect].
    apply (steps_cons _ empty_store); [apply steps_refl|apply do_InsertBundle]. }
  destruct (store_consistent own_node ∅ (GarbageCollect 5 one_bundle) (λ s t E, E) (λ k, lookup_empty k) Hsteps) as (Hget & _ & _).
  destruct (Hget (Bundle_ID sample_bundle) 0%nat ltac:(vm_compute; reflexivity)) as (bd & m & bs & Hl & _ & _ & _ & Hf).
  exists bs. vm_compute in Hl. injection Hl as <-. exact Hf.
Defined.

Lemma InitialiseStore_spec_witness :
  ∃ s, InitialiseStore own_node (st_metadataStore one_bundle) (st_files one_bundle) = Ok s ∧ core_inv s ∧
    is_Some (st_bundles s !! Bundle_ID sample_bundle).
Proof.
  assert (core_inv one_bundle) as Hi by (apply InsertBundle_inv, empty_store_inv).
  destruct (InitialiseStore own_node (st_metadataStore one_bundle) (st_files one_bundle)) as [s| |] eqn:E; [|discriminate E..].
  destruct (InitialiseStore_spec own_node _ _ s (ci_db one_bundle Hi) E) as (Hs & _ & _ & _ & Hids & _).
  exists s. split; [reflexivity|]. split; [exact Hs|]. apply Hids.
  exists (BundleID_String (Bundle_ID sample_bundle)), (new_metadata own_node sample_bundle None).
  split; [vm_compute; reflexivity|reflexivity].
Defined.

Lemma one_bundle_inserted : InsertBundle io_ok sample_bundle empty_store = (Ok 0%nat, one_bundle).
Proof. apply injective_projections; [vm_compute|]; reflexivity. Qed.

Lemma sample_bundle_valid : Bundle_CheckValid 0 sample_bundle = Ok [].
Proof. vm_compute. reflexivity. Qed.

Lemma insert_load_roundtrip_witness :
  ∃ b', Load GetExtensionBlockManager 0 0 one_bundle = Ok b' ∧ erase_crc b' = erase_crc sample_bundle.
Proof.
  exact (proj1 (proj2 (insert_load_roundtrip GetExtensionBlockManager 0 io_ok sample_bundle empty_store one_bundle 0
    empty_store_inv eq_refl sample_bundle_wf sample_bundle_valid one_bundle_inserted))).
Defined.

Lemma insert_load_partial_witness :
  ∃ b' p, Load GetExtensionBlockManager 0 0 one_bundle = Ok b' ∧
    LoadPartialBundle GetExtensionBlockManager [BlockTypeBundleAgeBlock] 0 one_bundle = Ok p ∧ pa_PrimaryBlock p = b_PrimaryBlock b'.
Proof.
  destruct (insert_load_partial GetExtensionBlockManager 0 io_ok [BlockTypeBundleAgeBlock] sample_bundle empty_store one_bundle 0
    eq_refl sample_bundle_wf sample_bundle_valid) as (b' & p & Hl & Hp & Hpb & _).
  - intros bs b' Hm. vm_compute in Hm. injection Hm as <- <-. vm_compute. reflexivity.
  - exact one_bundle_inserted.
  - exists b', p. split; [exact Hl|]. split; [exact Hp|exact Hpb].
Defined.

Lemma store_history_witness :
  ∃ d', st_heap (bd_AddKnownHolder [dtn "a" ""] 0 one_bundle).2 !! 0%nat = Some d' ∧ own_node ∈ m_KnownHolders (d_metadata d').
Proof.
  destruct (st_heap one_bundle !! 0%nat) as [d|] eqn:E; [|vm_compute in E; discriminate E].
  destruct (store_history one_bundle (bd_AddKnownHolder [dtn "a" ""] 0 one_bundle).2 0 d) as (d' & E' & _ & _ & Hh & _).
  - apply InsertBundle_inv, empty_store_inv.
  - apply store_steps_one, do_AddKnownHolder.
  - exact E.
  - exists d'. split; [exact E'|]. apply Hh. vm_compute in E. injection E as <-. left.
Defined.

(** The bundle of [one_bundle] when nothing holds it any more. *)
Definition released : BundleStore := (bd_ResetConstraints 0 one_bundle).2.

Lemma GarbageCollect_spec_witness :
  st_pending (GarbageCollect (2 ^ 62) released) = [new_metadata own_node sample_bundle None] ∧
  ∃ bd', st_heap (GarbageCollect (2 ^ 62) released) !! 0%nat = Some bd' ∧ d_deleted bd' = true.
Proof.
  assert (core_inv released) as Hi.
  { apply desc_op_inv; [apply ResetConstraints_op|]. apply InsertBundle_inv, empty_store_inv. }
  split; [vm_compute; reflexivity|]. destruct (GarbageCollect_spec (2 ^ 62) released Hi) as [Hh _]. specialize (Hh 0%nat).
  destruct (st_heap released !! 0%nat) as [bd|] eqn:E; [|vm_compute in E; discriminate E].
  assert (collectable (2 ^ 62) bd = true) as Hc by (vm_compute in E; injection E as <-; vm_compute; reflexivity).
  eexists. split; [exact Hh|]. cbv beta. rewrite Hc. reflexivity.
Defined.

(** ** Surprises *)

(** A bundle without a creation time counts as expired for the store as soon
    as its life time has passed since the year 2000, however young its bundle age
    block says it is, although the bundle itself is valid. *)
Theorem epoch_bundle_expired now nodeID b prev cb age :
  pb_CreationTimestamp (b_PrimaryBlock b) = mkTimestamp 0 (ct_seq (pb_CreationTimestamp (b_PrimaryBlock b))) →
  0 ≤ pb_Lifetime (b_PrimaryBlock b) ≤ 9223372036854 → all_valued (b_ExtensionBlocks b) →
  filter (λ cb, has_type BlockTypeBundleAgeBlock cb = true) (b_ExtensionBlocks b) = [cb] →
  cb_Value cb = Some (BundleAgeBlock age) → age ≤ pb_Lifetime (b_PrimaryBlock b) →
  dtn_ns (pb_Lifetime (b_PrimaryBlock b)) < now →
  IsLifetimeExceeded now b = Ok false ∧ Expired now (NewBundleDescriptor (new_metadata nodeID b prev)) = true.
Proof.
  intros Ht Hl Hv Hf Hcb Hage Hnow. split.
  - unfold IsLifetimeExceeded. rewrite Ht. simpl.
    assert (cb ∈ b_ExtensionBlocks b) as Hin.
    { assert (cb ∈ filter (λ cb, has_type BlockTypeBundleAgeBlock cb = true) (b_ExtensionBlocks b)) as Hc
        by (rewrite Hf; by left). by apply list_elem_of_filter in Hc as [_ ?]. }
    apply list_elem_of_lookup in Hin as [j Hj].
    rewrite (proj2 (ExtensionBlockByType_Ok b BlockTypeBundleAgeBlock j cb)) by done. rewrite Hcb.
    f_equal. by apply Z.ltb_ge.
  - unfold Expired, new_metadata. cbn [NewBundleDescriptor d_metadata m_Expires]. rewrite Ht. apply Z.ltb_lt.
    unfold CreationTimestamp_DtnTime. simpl ct_time. rewrite DtnTime_Time_exact, Duration_ms_exact by lia.
    unfold dtn_ns in Hnow. lia.
Qed.

Lemma epoch_bundle_expired_witness :
  IsLifetimeExceeded 1767225600000000000 sample_bundle = Ok false ∧
  Expired 1767225600000000000 (NewBundleDescriptor (new_metadata own_node sample_bundle None)) = true.
Proof.
  apply (epoch_bundle_expired 1767225600000000000 own_node sample_bundle None (age_block 3 1500) 1500);
    [reflexivity|vm_compute; split; discriminate|repeat constructor; eexists; reflexivity|reflexivity|reflexivity|
     vm_compute; discriminate|vm_compute; reflexivity].
Defined.

(** A bundle that arrives again while the deletion of its earlier copy is
    pending is accepted without an error and without being stored: the caller
    gets the deleted descriptor. *)
Theorem insert_while_deleting `{Cboring} `{Crc16} `{GoMapRange} `{Ed25519} `{Badgerhold} `{Sha256} io b s loc bd :
  st_bundles s !! Bundle_ID b = Some loc → st_heap s !! loc = Some bd → d_deleted bd = true →
  previous_node b = Ok None →
  InsertBundle io b s = (Ok loc, s) ∧ GetBundleDescriptor (Bundle_ID b) s = Err NoSuchBundleError.
Proof.
  intros Hb Hl Hd Hp. unfold InsertBundle, GetBundleDescriptor, Deleted. by rewrite Hb, Hp, Hl, Hd.
Qed.

Lemma insert_while_deleting_witness :
  let s := GarbageCollect (2 ^ 62) released in
  InsertBundle io_ok sample_bundle s = (Ok 0%nat, s).
Proof.
  intros s. destruct (st_heap s !! 0%nat) as [bd|] eqn:E; [|vm_compute in E; discriminate E].
  apply (insert_while_deleting io_ok sample_bundle s 0 bd); [vm_compute; reflexivity|exact E| |vm_compute; reflexivity].
  vm_compute in E. injection E as <-. reflexivity.
Defined.

(** A bundle cannot be stored while another one is whose id has the same text
    form. *)
Theorem insert_collision `{Cboring} `{Crc16} `{GoMapRange} `{Ed25519} `{Badgerhold} `{!BadgerholdLaws _} `{Sha256} io b s id :
  core_inv s → is_Some (st_bundles s !! id) → st_bundles s !! Bundle_ID b = None →
  BundleID_String (Bundle_ID b) = BundleID_String id →
  is_ok (InsertBundle io b s).1 = false.
Proof.
  intros Hs Hid Hnew Heq. unfold InsertBundle. rewrite Hnew. unfold insertNewBundleUnsafe.
  destruct (previous_node b) as [prev| |]; [|done..].
  destruct (db_Insert _ _ _) as [[[]|e|] d] eqn:E; [|done..]. exfalso.
  destruct (Insert_fresh s (new_metadata (st_nodeID s) b prev) d Hs (new_metadata_ok _ _ _) E) as (_ & _ & Hno).
  by apply (Hno id Hid).
Qed.

(** A fragment from dtn://a/b, and a bundle from dtn://a/b-1-2. *)
Definition twin_fragment : Bundle :=
  mkBundle (mkPrimary 7 1 CRC32 (dtn "dst" "in") (dtn "a" "b") (dtn "a" "b") (mkTimestamp 1 2) 60000 3 4 []) [] (payload_block "x").
Definition twin_whole : Bundle :=
  mkBundle (mkPrimary 7 0 CRC32 (dtn "dst" "in") (dtn "a" "b-1-2") (dtn "a" "b") (mkTimestamp 3 4) 60000 0 0 []) [] (payload_block "y").

Lemma insert_collision_witness :
  is_ok (InsertBundle io_ok twin_whole (InsertBundle io_ok twin_fragment empty_store).2).1 = false.
Proof.
  apply (insert_collision io_ok twin_whole (InsertBundle io_ok twin_fragment empty_store).2 (Bundle_ID twin_fragment)).
  - apply InsertBundle_inv, empty_store_inv.
  - vm_compute. eexists. reflexivity.
  - vm_compute. reflexivity.
  - vm_compute. reflexivity.
Defined.

(** A received bundle whose primary block names CRC type 7 but carries no CRC. *)
Definition odd_crc_bytes : bytes :=
  match PrimaryBlock_MarshalCbor (set_pb_CRCType CRCNo (sample_primary 0)), Bundle_MarshalCbor sample_bundle with
  | Ok (p, _), Ok (whole, _) =>
      match PrimaryBlock_MarshalCbor (sample_primary 0) with
      | Ok (p0, _) => IndefiniteArray :: take 3 p ++ [Byte.x07] ++ drop 4 p ++ drop (1 + length p0) whole
      | _ => []
      end
  | _, _ => []
  end.

(** The bundle that is parsed from it, the store after the attempt to insert it,
    and the store after a restart. *)
Definition odd_bundle : Bundle := (ParseBundle GetExtensionBlockManager 0 odd_crc_bytes).2.
Definition odd_store : BundleStore := (InsertBundle io_ok odd_bundle empty_store).2.
Definition odd_restarted : res BundleStore :=
  InitialiseStore own_node (st_metadataStore odd_store) (st_files odd_store).

(** The parser accepts a primary block with an unknown CRC type and no CRC
    field.  Such a bundle cannot be marshalled, and the store writes its database
    record before it finds out: the insertion fails, a second attempt fails
    because the key exists, and after a restart the store offers the bundle for
    dispatch and loads an empty bundle without an error. *)
Theorem unmarshallable_bundle_in_store :
  (ParseBundle GetExtensionBlockManager 0 odd_crc_bytes).1 = Ok () ∧
  is_ok (InsertBundle io_ok odd_bundle empty_store).1 = false ∧
  is_ok (InsertBundle io_ok odd_bundle odd_store).1 = false ∧
  (GetDispatchable <$> odd_restarted) = Ok [0%nat] ∧
  (s ← odd_restarted; Load GetExtensionBlockManager 0 0 s) = Ok zero_bundle.
Proof. split; [|split; [|split; [|split]]]; vm_compute; reflexivity. Qed.
