(* ===== verification/StoreSpec.v ===== *)
(** * What the store promises

    An abstract store: a map from the ids of bundles to what a client can learn of them, and
    the handles given out so far.  It has no heap, no database, no files, no cached flags and
    no goroutines.  [pkg/store] is shown to refine it: in every history of requests and
    deletion goroutines each request is answered as the abstract store answers it. *)

From stdpp Require Import base tactics list strings gmap.
From Stdlib Require Import ZArith Lia Bool.
From S2P Require Import Prelude Cboring GoSort Flags Crc DtnTime Endpoint BundleId ExtensionBlocks Blocks.
From S2P Require Import Bundle Samples BundleCodec Descriptor Store StoreInv StoreHistory StoreExamples.
Local Open Scope Z_scope.

(** ** The abstract store *)

(** A stored bundle: what was written for it, and what the node keeps about it. *)
Record Entry := mkEntry {
  e_content : bytes;
  e_destination : EndpointID;
  e_expires : Z;
  e_holders : list EndpointID;
  e_constraints : list Z;
  e_misc : gmap string MiscValue;
  e_doomed : bool;  (** is deleted with its last constraint *)
}.

(** An id is that of a stored bundle, or of one that is being deleted. *)
Inductive Slot :=
  | Stored (h : nat) (e : Entry)
  | Dying (h : nat).

(** A handle stands for its bundle until this is deleted; then only its miscellaneous data
    is left. *)
Inductive Handle :=
  | Current (id : BundleID)
  | Stale (misc : gmap string MiscValue).

Record Spec := mkSpec {
  sp_node : EndpointID;
  sp_bundles : gmap BundleID Slot;
  sp_handles : list Handle;
}.

(** What clients ask for. *)
Inductive query :=
  | QAddConstraint (c : Z)
  | QRemoveConstraint (c : Z)
  | QResetConstraints
  | QDelete (mark : bool)
  | QAddKnownHolder (peers : list EndpointID)
  | QSetMiscData (k : string) (v : MiscValue)
  | QGetMiscData (k : string)
  | QGetKnownHolders
  | QDestination
  | QHasConstraint (c : Z)
  | QDispatch
  | QRetain
  | QDeleted
  | QLoad (ebm : ExtensionBlockManager) (now : Z).

Inductive request :=
  | InsertB (b : Bundle)
  | Lookup (id : BundleID)
  | Dispatchable
  | WithConstraint (c : Z)
  | Collect (now : Z)
  | On (h : nat) (q : query).

Inductive answer :=
  | ADone
  | AHandle (h : nat)
  | AHandles (hs : gset nat)
  | ABool (b : bool)
  | AEndpoint (e : EndpointID)
  | AEndpoints (es : list EndpointID)
  | AMisc (v : option MiscValue)
  | ABundle (b : Bundle).

(** What the database and the file system answer when a new bundle is written, and when
    a record is updated. *)
Record world := mkWorld { w_store : res (); w_update : res () }.

Definition done (r : res ()) : res answer := r ≫= λ _, Ok ADone.

Definition set_holders v e := mkEntry (e_content e) (e_destination e) (e_expires e) v (e_constraints e) (e_misc e) (e_doomed e).
Definition set_constraints v e := mkEntry (e_content e) (e_destination e) (e_expires e) (e_holders e) v (e_misc e) (e_doomed e).
Definition set_misc_data v e := mkEntry (e_content e) (e_destination e) (e_expires e) (e_holders e) (e_constraints e) v (e_doomed e).
Definition doom e := mkEntry (e_content e) (e_destination e) (e_expires e) (e_holders e) (e_constraints e) (e_misc e) true.

Section Spec.
Context `{Cboring} `{Crc16} `{GoMapRange} `{Ed25519}.

(** A query about a stored bundle; [None] instead of a new entry starts its deletion. *)
Definition ask (w : world) (q : query) (e : Entry) : res answer * option Entry :=
  match q with
  | QAddConstraint c =>
      if Constraint_Valid c then (Ok ADone, Some (set_constraints (e_constraints e ++ [c]) e)) else (Err InvalidConstraint, Some e)
  | QRemoveConstraint c =>
      let rest := filter (λ c', c' ≠ c) (e_constraints e) in
      (Ok ADone, if bool_decide (rest = []) && e_doomed e then None else Some (set_constraints rest e))
  | QResetConstraints => (Ok ADone, if e_doomed e then None else Some (set_constraints [] e))
  | QDelete mark =>
      if bool_decide (e_constraints e = []) then (Ok ADone, None) else
      if mark then (Ok ADone, Some (doom e)) else (Err HasConstraintsError, Some e)
  | QAddKnownHolder peers => (Ok ADone, Some (set_holders (e_holders e ++ peers) e))
  | QSetMiscData k v => (done (w_update w), Some (set_misc_data (<[k := v]> (e_misc e)) e))
  | QGetMiscData k => (Ok (AMisc (e_misc e !! k)), Some e)
  | QGetKnownHolders => (Ok (AEndpoints (e_holders e)), Some e)
  | QDestination => (Ok (AEndpoint (e_destination e)), Some e)
  | QHasConstraint c => (Ok (ABool (bool_decide (c ∈ e_constraints e))), Some e)
  | QDispatch => (Ok (ABool (bool_decide (ForwardPending ∉ e_constraints e))), Some e)
  | QRetain => (Ok (ABool (bool_decide (e_constraints e ≠ []))), Some e)
  | QDeleted => (Ok (ABool false), Some e)
  | QLoad ebm now =>
      (match ParseBundle ebm now (e_content e) with (Panic, _) => Panic | (_, b) => Ok (ABundle b) end, Some e)
  end.

(** A query through the handle of a deleted bundle. *)
Definition ask_stale (w : world) (q : query) (misc : gmap string MiscValue) : res answer * gmap string MiscValue :=
  match q with
  | QSetMiscData k v => (done (w_update w), <[k := v]> misc)
  | QGetMiscData k => (Ok (AMisc (misc !! k)), misc)
  | QDispatch | QRetain => (Ok (ABool false), misc)
  | QDeleted => (Ok (ABool true), misc)
  | _ => (Err BundleDeletedError, misc)
  end.

Definition set_bundles v σ := mkSpec (sp_node σ) v (sp_handles σ).
Definition set_handles v σ := mkSpec (sp_node σ) (sp_bundles σ) v.

(** What becomes of a bundle that was asked. *)
Definition put (id : BundleID) (h : nat) (e : Entry) (e' : option Entry) (σ : Spec) : Spec :=
  match e' with
  | Some e' => set_bundles (<[id := Stored h e']> (sp_bundles σ)) σ
  | None => set_bundles (<[id := Dying h]> (sp_bundles σ)) (set_handles (<[h := Stale (e_misc e)]> (sp_handles σ)) σ)
  end.

Definition spec_on (w : world) (h : nat) (q : query) (σ : Spec) : res answer * Spec :=
  match sp_handles σ !! h with
  | None => (Panic, σ)
  | Some (Stale misc) => let '(r, misc') := ask_stale w q misc in (r, set_handles (<[h := Stale misc']> (sp_handles σ)) σ)
  | Some (Current id) =>
      match sp_bundles σ !! id with
      | Some (Stored _ e) => let '(r, e') := ask w q e in (r, put id h e e' σ)
      | _ => (Panic, σ)
      end
  end.

(** The entry of a new bundle: it waits for its dispatch, and is known to be held by the node
    itself and by the node it came from. *)
Definition new_entry (node : EndpointID) (b : Bundle) (prev : option EndpointID) (bs : bytes) : Entry :=
  let p := b_PrimaryBlock b in
  mkEntry bs (pb_Destination p)
    (DtnTime_Time (CreationTimestamp_DtnTime (pb_CreationTimestamp p)) + Duration_ms (pb_Lifetime p))
    (node :: option_list prev) [DispatchPending] ∅ false.

(** Insertion: a bundle that is there already only learns of another holder; while its
    earlier copy is being deleted, nothing changes. *)
Definition spec_insert (w : world) (b : Bundle) (σ : Spec) : res answer * Spec :=
  match previous_node b with
  | Panic => (Panic, σ)
  | Err e => (Err e, σ)
  | Ok prev =>
      match sp_bundles σ !! Bundle_ID b with
      | Some (Stored h e) =>
          (Ok (AHandle h), set_bundles (<[Bundle_ID b := Stored h (set_holders (e_holders e ++ option_list prev) e)]> (sp_bundles σ)) σ)
      | Some (Dying h) => (match prev with Some _ => Err BundleDeletedError | None => Ok (AHandle h) end, σ)
      | None =>
          match w_store w, Bundle_MarshalCbor b with
          | Ok _, Ok (bs, _) =>
              let h := length (sp_handles σ) in
              (Ok (AHandle h), mkSpec (sp_node σ) (<[Bundle_ID b := Stored h (new_entry (sp_node σ) b prev bs)]> (sp_bundles σ))
                                 (sp_handles σ ++ [Current (Bundle_ID b)]))
          | Ok _, Err e => (Err e, σ)
          | Ok _, Panic => (Panic, σ)
          | Err e, _ => (Err e, σ)
          | Panic, _ => (Panic, σ)
          end
      end
  end.

(** Garbage collection: expired bundles that nothing retains start to die. *)
Definition garbage (now : Z) (e : Entry) : bool := bool_decide (e_expires e < now ∧ e_constraints e = []).

Definition spec_collect (now : Z) (σ : Spec) : Spec :=
  mkSpec (sp_node σ)
    ((λ sl, match sl with Stored h e => if garbage now e then Dying h else sl | Dying _ => sl end) <$> sp_bundles σ)
    ((λ hd, match hd with
            | Current id => match sp_bundles σ !! id with
                            | Some (Stored _ e) => if garbage now e then Stale (e_misc e) else hd
                            | _ => hd
                            end
            | Stale _ => hd
            end) <$> sp_handles σ).

(** The handles of the stored bundles that satisfy [p]. *)
Definition stored_with (p : Entry → bool) (σ : Spec) : gset nat :=
  list_to_set (omap (λ sl, match sl with Stored h e => if p e then Some h else None | Dying _ => None end)
                 (map_to_list (sp_bundles σ)).*2).

Definition spec_serve (w : world) (rq : request) (σ : Spec) : res answer * Spec :=
  match rq with
  | InsertB b => spec_insert w b σ
  | Lookup id => (match sp_bundles σ !! id with Some (Stored h _) => Ok (AHandle h) | _ => Err NoSuchBundleError end, σ)
  | Dispatchable => (Ok (AHandles (stored_with (λ e, bool_decide (ForwardPending ∉ e_constraints e)) σ)), σ)
  | WithConstraint c => (Ok (AHandles (stored_with (λ e, bool_decide (c ∈ e_constraints e)) σ)), σ)
  | Collect now => (Ok ADone, spec_collect now σ)
  | On h q => spec_on w h q σ
  end.

(** A deletion is completed. *)
Definition spec_erase (id : BundleID) (σ : Spec) : Spec := set_bundles (delete id (sp_bundles σ)) σ.

(** What happens to a store, as seen from outside: a request that was answered, or the end
    of a deletion. *)
Inductive event :=
  | Served (w : world) (rq : request) (r : res answer)
  | Erased (id : BundleID).

Inductive spec_step : Spec → event → Spec → Prop :=
  | spec_Served w rq r σ σ' : spec_serve w rq σ = (r, σ') → spec_step σ (Served w rq r) σ'
  | spec_Erased id h σ : sp_bundles σ !! id = Some (Dying h) → spec_step σ (Erased id) (spec_erase id σ).

Inductive spec_history : Spec → list event → Spec → Prop :=
  | spec_start σ : spec_history σ [] σ
  | spec_more σ tr σ' ev σ'' : spec_history σ tr σ' → spec_step σ' ev σ'' → spec_history σ (tr ++ [ev]) σ''.
End Spec.

(** ** The store, seen from outside *)

Section Refinement.
Context `{Cboring} `{Crc16} `{GoMapRange} `{Ed25519} `{Badgerhold} `{!BadgerholdLaws _} `{Sha256}.
Context `{!Inj (=) (=) sha256_hex}.

Definition answered {σ A} (f : A → answer) (c : res A * σ) : res answer * σ := (f <$> c.1, c.2).

(** A method that only reads the descriptor. *)
Definition peek (f : BundleDescriptor → res answer) (h : nat) (s : BundleStore) : res answer * BundleStore :=
  (match st_heap s !! h with Some d => f d | None => Panic end, s).

Definition serve_on (h : nat) (q : query) (s : BundleStore) : res answer * BundleStore :=
  match q with
  | QAddConstraint c => answered (λ _, ADone) (bd_AddConstraint c h s)
  | QRemoveConstraint c => answered (λ _, ADone) (bd_RemoveConstraint c h s)
  | QResetConstraints => answered (λ _, ADone) (bd_ResetConstraints h s)
  | QDelete mark => answered (λ _, ADone) (bd_Delete mark h s)
  | QAddKnownHolder peers => answered (λ _, ADone) (bd_AddKnownHolder peers h s)
  | QSetMiscData k v => answered (λ _, ADone) (bd_SetMiscData k v h s)
  | QGetMiscData k => peek (λ d, Ok (AMisc (GetMiscData d k))) h s
  | QGetKnownHolders => peek (λ d, AEndpoints <$> GetKnownHolders d) h s
  | QDestination => peek (λ d, (λ m, AEndpoint (m_Destination m)) <$> Metadata d) h s
  | QHasConstraint c => peek (λ d, ABool <$> HasConstraint d c) h s
  | QDispatch => peek (λ d, Ok (ABool (Dispatch d))) h s
  | QRetain => peek (λ d, Ok (ABool (Retain d))) h s
  | QDeleted => peek (λ d, Ok (ABool (Deleted d))) h s
  | QLoad ebm now => (ABundle <$> Load ebm now h s, s)
  end.

Definition serve (io : FileIO) (rq : request) (s : BundleStore) : res answer * BundleStore :=
  match rq with
  | InsertB b => answered AHandle (InsertBundle io b s)
  | Lookup id => (AHandle <$> GetBundleDescriptor id s, s)
  | Dispatchable => (Ok (AHandles (list_to_set (GetDispatchable s))), s)
  | WithConstraint c => (Ok (AHandles (list_to_set (GetWithConstraint c s))), s)
  | Collect now => (Ok ADone, GarbageCollect now s)
  | On h q => serve_on h q s
  end.

(** The part of the database and of the file system in the answer. *)
Definition storing (io : FileIO) (b : Bundle) (s : BundleStore) : res () :=
  prev ← previous_node b;
  _ ← (db_Insert (BundleID_String (Bundle_ID b)) (new_metadata (st_nodeID s) b prev) (st_metadataStore s)).1;
  if negb (io_create io) then Err (errorf "create failed") else
  _ ← Bundle_MarshalCbor b;
  if negb (io_flush io) then Err (errorf "flush failed") else Ok ().

Definition updating (k : string) (v : MiscValue) (h : nat) (s : BundleStore) : res () :=
  match st_heap s !! h with
  | Some d => let m := d_metadata (set_misc k v d) in (db_Update (m_IDString m) m (st_metadataStore s)).1
  | None => Panic
  end.

Definition world_of (io : FileIO) (rq : request) (s : BundleStore) : world :=
  mkWorld (match rq with InsertB b => storing io b s | _ => Ok () end)
    (match rq with On h (QSetMiscData k v) => updating k v h s | _ => Ok () end).

(** Any sequence of requests and of ends of deletion goroutines. *)
Inductive history : BundleStore → list event → BundleStore → Prop :=
  | hist_start s : history s [] s
  | hist_serve s tr s' io rq r s'' : history s tr s' → serve io rq s' = (r, s'') →
      history s (tr ++ [Served (world_of io rq s') rq r]) s''
  | hist_erase s tr s' io i m : history s tr s' → st_pending s' !! i = Some m →
      history s (tr ++ [Erased (m_ID m)]) (run_pending io i s').

(** *** Abstraction *)

Definition entry_of (files : gmap string bytes) (d : BundleDescriptor) : Entry :=
  let m := d_metadata d in
  mkEntry (default [] (files !! m_SerialisedFileName m)) (m_Destination m) (m_Expires m) (m_KnownHolders m)
    (d_retentionConstraints d) (m_MiscellaneousData m) (d_shouldDelete d).

Definition slot_of (files : gmap string bytes) (h : nat) (d : BundleDescriptor) : Slot :=
  if d_deleted d then Dying h else Stored h (entry_of files d).

Definition slot_at (files : gmap string bytes) (heap : list BundleDescriptor) (h : nat) : Slot :=
  match heap !! h with Some d => slot_of files h d | None => Dying h end.

Definition handle_of (d : BundleDescriptor) : Handle :=
  if d_deleted d then Stale (m_MiscellaneousData (d_metadata d)) else Current (m_ID (d_metadata d)).

Definition abs (s : BundleStore) : Spec :=
  mkSpec (st_nodeID s) (slot_at (st_files s) (st_heap s) <$> st_bundles s) (handle_of <$> st_heap s).

Lemma Spec_eq σ σ' : sp_node σ = sp_node σ' → sp_bundles σ = sp_bundles σ' → sp_handles σ = sp_handles σ' → σ = σ'.
Proof. destruct σ, σ'. simpl. congruence. Qed.

Lemma set_bundles_same σ : set_bundles (sp_bundles σ) σ = σ.
Proof. by destruct σ. Qed.
Lemma set_handles_same σ : set_handles (sp_handles σ) σ = σ.
Proof. by destruct σ. Qed.

(** Where the abstract store finds a live descriptor. *)
Lemma abs_live s h d : core_inv s → st_heap s !! h = Some d → d_deleted d = false →
  sp_handles (abs s) !! h = Some (Current (m_ID (d_metadata d))) ∧
  sp_bundles (abs s) !! m_ID (d_metadata d) = Some (Stored h (entry_of (st_files s) d)).
Proof.
  intros Hs El Ed. destruct (ci_heap s Hs h d El) as (_ & _ & Hin). specialize (Hin Ed). simpl.
  rewrite list_lookup_fmap, lookup_fmap, Hin, El. unfold handle_of, slot_at. simpl. rewrite El. unfold slot_of. by rewrite Ed.
Qed.

(** Replacing a live descriptor changes its slot and its handle. *)
Lemma abs_replace s h d d' : core_inv s → st_heap s !! h = Some d → d_deleted d = false →
  m_ID (d_metadata d') = m_ID (d_metadata d) → m_MiscellaneousData (d_metadata d') = m_MiscellaneousData (d_metadata d) ∨ d_deleted d' = false →
  abs (set_st_heap (<[h := d']> (st_heap s)) s) =
    put (m_ID (d_metadata d)) h (entry_of (st_files s) d) (if d_deleted d' then None else Some (entry_of (st_files s) d')) (abs s).
Proof.
  intros Hs El Ed Hid Hm. destruct (ci_heap s Hs h d El) as (_ & _ & Hin). specialize (Hin Ed).
  assert (h < length (st_heap s))%nat as Hlt by by eapply lookup_lt_Some.
  assert (slot_at (st_files s) (<[h := d']> (st_heap s)) <$> st_bundles s =
    <[m_ID (d_metadata d) := slot_of (st_files s) h d']> (slot_at (st_files s) (st_heap s) <$> st_bundles s)) as Hb.
  { apply map_eq. intros id. rewrite lookup_fmap. destruct (decide (id = m_ID (d_metadata d))) as [->|Hne].
    - rewrite lookup_insert_eq, Hin. simpl. unfold slot_at. by rewrite list_lookup_insert_eq.
    - rewrite lookup_insert_ne, lookup_fmap by done. destruct (st_bundles s !! id) as [h2|] eqn:E2; [|done]. simpl. f_equal.
      unfold slot_at. rewrite list_lookup_insert_ne; [done|]. intros <-. destruct (ci_map s Hs id h E2) as (d2 & El2 & ?). congruence. }
  apply Spec_eq; unfold put; destruct (d_deleted d') eqn:Ed'; simpl; try done.
  - rewrite Hb. unfold slot_of. by rewrite Ed'.
  - rewrite Hb. unfold slot_of. by rewrite Ed'.
  - destruct Hm as [Hm|]; [|done]. rewrite list_fmap_insert. unfold handle_of at 1. by rewrite Ed', Hm.
  - rewrite list_fmap_insert. apply list_insert_id. rewrite list_lookup_fmap, El. simpl. unfold handle_of. by rewrite Ed, Ed', Hid.
Qed.

(** Replacing a deleted descriptor changes its handle only. *)
Lemma abs_replace_stale s h d d' : st_heap s !! h = Some d → d_deleted d = true → d_deleted d' = true →
  abs (set_st_heap (<[h := d']> (st_heap s)) s) =
    set_handles (<[h := Stale (m_MiscellaneousData (d_metadata d'))]> (sp_handles (abs s))) (abs s).
Proof.
  intros El Ed Ed'. assert (h < length (st_heap s))%nat as Hlt by by eapply lookup_lt_Some. apply Spec_eq; simpl; [done| |].
  - apply map_fmap_ext. intros id h2 _. unfold slot_at. destruct (decide (h2 = h)) as [->|Hne].
    + rewrite list_lookup_insert_eq, El by done. unfold slot_of. by rewrite Ed, Ed'.
    + by rewrite list_lookup_insert_ne.
  - rewrite list_fmap_insert. unfold handle_of at 1. by rewrite Ed'.
Qed.

(** *** Queries *)

Lemma spec_on_none w q h s : st_heap s !! h = None → spec_on w h q (abs s) = (Panic, abs s).
Proof. intros El. unfold spec_on. simpl. by rewrite list_lookup_fmap, El. Qed.

Lemma spec_on_stale w q h s d : st_heap s !! h = Some d → d_deleted d = true →
  spec_on w h q (abs s) = let '(r, misc) := ask_stale w q (m_MiscellaneousData (d_metadata d)) in
    (r, set_handles (<[h := Stale misc]> (sp_handles (abs s))) (abs s)).
Proof. intros El Ed. unfold spec_on. simpl. rewrite list_lookup_fmap, El. simpl. unfold handle_of. by rewrite Ed. Qed.

Lemma spec_on_live w q h s d : core_inv s → st_heap s !! h = Some d → d_deleted d = false →
  spec_on w h q (abs s) = let '(r, e') := ask w q (entry_of (st_files s) d) in
    (r, put (m_ID (d_metadata d)) h (entry_of (st_files s) d) e' (abs s)).
Proof. intros Hs El Ed. destruct (abs_live s h d Hs El Ed) as [Hh Hb]. unfold spec_on. by rewrite Hh, Hb. Qed.

(** Nothing changes when a query leaves the entry or the data as they are. *)
Lemma stale_same h s d : st_heap s !! h = Some d → d_deleted d = true →
  set_handles (<[h := Stale (m_MiscellaneousData (d_metadata d))]> (sp_handles (abs s))) (abs s) = abs s.
Proof.
  intros El Ed. rewrite list_insert_id; [apply set_handles_same|]. simpl. rewrite list_lookup_fmap, El. simpl. unfold handle_of. by rewrite Ed.
Qed.

Lemma live_same h s d : core_inv s → st_heap s !! h = Some d → d_deleted d = false →
  put (m_ID (d_metadata d)) h (entry_of (st_files s) d) (Some (entry_of (st_files s) d)) (abs s) = abs s.
Proof. intros Hs El Ed. destruct (abs_live s h d Hs El Ed) as [_ Hb]. unfold put. rewrite insert_id by done. apply set_bundles_same. Qed.

(** A method that changes constraints or marks. *)
Lemma op_refines {A} (f : BundleDescriptor → res A * BundleDescriptor * bool) (k : A → answer) w q h s :
  core_inv s → op_ok f →
  (∀ d, desc_inv d → d_deleted d = true → f d = (Err BundleDeletedError, d, false)) →
  (∀ misc, ask_stale w q misc = (Err BundleDeletedError, misc)) →
  (∀ files d, desc_inv d → d_deleted d = false → let '(r, d', go) := f d in
     ask w q (entry_of files d) = (k <$> r, if (go : bool) then None else Some (entry_of files d'))) →
  spec_on w h q (abs s) = (k <$> (desc_op f h s).1, abs (desc_op f h s).2).
Proof.
  intros Hs Hop Hdead Hstale Hlive. unfold desc_op. destruct (st_heap s !! h) as [d|] eqn:El; [|by apply spec_on_none].
  destruct (ci_heap s Hs h d El) as (Hd & _ & _). destruct (d_deleted d) eqn:Ed.
  - rewrite (spec_on_stale w q h s d), Hstale, Hdead by done. cbn [fst snd]. cbv iota beta. f_equal. rewrite stale_same by done. symmetry.
    rewrite (abs_replace_stale s h d d) by done. by apply stale_same.
  - rewrite (spec_on_live w q h s d) by done. specialize (Hlive (st_files s) d Hd Ed). destruct (f d) as [[r d'] go] eqn:Ef.
    destruct (Hop d r d' go Ef Hd) as (_ & Hm & Hgo). rewrite Hlive.
    assert (abs (set_st_heap (<[h := d']> (st_heap s)) s) =
      put (m_ID (d_metadata d)) h (entry_of (st_files s) d) (if go then None else Some (entry_of (st_files s) d')) (abs s)) as ->%eq_sym.
    { rewrite (abs_replace s h d d') by (try done; rewrite Hm; auto). destruct go; [by destruct Hgo as [_ ->]|by rewrite Hgo, Ed]. }
    by destruct go.
Qed.

(** A method that only reads. *)
Lemma peek_refines f w q h s : core_inv s →
  (∀ d, desc_inv d → d_deleted d = true →
     ask_stale w q (m_MiscellaneousData (d_metadata d)) = (f d, m_MiscellaneousData (d_metadata d))) →
  (∀ d, desc_inv d → st_heap s !! h = Some d → d_deleted d = false → ask w q (entry_of (st_files s) d) = (f d, Some (entry_of (st_files s) d))) →
  spec_on w h q (abs s) = ((peek f h s).1, abs (peek f h s).2).
Proof.
  intros Hs Hdead Hlive. unfold peek. destruct (st_heap s !! h) as [d|] eqn:El; [|by apply spec_on_none].
  destruct (ci_heap s Hs h d El) as (Hd & _ & _). destruct (d_deleted d) eqn:Ed.
  - rewrite (spec_on_stale w q h s d), Hdead by done. by rewrite stale_same.
  - rewrite (spec_on_live w q h s d), Hlive by done. by rewrite live_same.
Qed.

Lemma existsb_elem c l : existsb (Z.eqb c) l = bool_decide (c ∈ l).
Proof.
  apply eq_true_iff_eq. rewrite existsb_exists, bool_decide_eq_true. setoid_rewrite Z.eqb_eq. setoid_rewrite <- list_elem_of_In.
  split; [by intros (x & ? & ->)|intros ?; by exists c].
Qed.

Lemma nonempty_len (l : list Z) : (0 <? len l) = bool_decide (l ≠ []).
Proof. unfold len. destruct l; simpl; [done|]. apply Z.ltb_lt. lia. Qed.

Lemma negb_decide (P : Prop) `{Decision P} : negb (bool_decide P) = bool_decide (¬ P).
Proof. by rewrite bool_decide_not. Qed.

Lemma abs_db d s : abs (set_st_db d s) = abs s.
Proof. done. Qed.

Lemma SetMisc_refines w k v h s : core_inv s → w_update w = updating k v h s →
  spec_on w h (QSetMiscData k v) (abs s) = (done (bd_SetMiscData k v h s).1, abs (bd_SetMiscData k v h s).2).
Proof.
  intros Hs Hw. unfold bd_SetMiscData, updateBundleMetadata, updating in *. destruct (st_heap s !! h) as [d|] eqn:El; [|by apply spec_on_none].
  simpl st_metadataStore. destruct (db_Update _ _ _) as [r db'] eqn:E. simpl in Hw. cbn [fst snd]. rewrite abs_db. destruct (d_deleted d) eqn:Ed.
  - rewrite (spec_on_stale w _ h s d) by done. simpl ask_stale. cbv iota beta. rewrite Hw. f_equal. symmetry. by apply (abs_replace_stale s h d).
  - rewrite (spec_on_live w _ h s d) by done. simpl ask. cbv iota beta. rewrite Hw. f_equal. symmetry.
    rewrite (abs_replace s h d) by (try done; by right). simpl d_deleted. by rewrite Ed.
Qed.

Lemma AddKnownHolder_refines w peers h s : core_inv s →
  spec_on w h (QAddKnownHolder peers) (abs s) =
    ((λ _, ADone) <$> (bd_AddKnownHolder peers h s).1, abs (bd_AddKnownHolder peers h s).2).
Proof.
  intros Hs. unfold bd_AddKnownHolder, updateBundleMetadata. destruct (st_heap s !! h) as [d|] eqn:El; [|by apply spec_on_none].
  destruct (d_deleted d) eqn:Ed.
  - rewrite (spec_on_stale w _ h s d) by done. simpl ask_stale. cbv iota beta. by rewrite stale_same.
  - simpl st_metadataStore. destruct (db_Update _ _ _) as [r db'] eqn:E. cbn [fst snd]. rewrite abs_db.
    rewrite (spec_on_live w _ h s d) by done. simpl ask. cbv iota beta. f_equal. symmetry.
    rewrite (abs_replace s h d) by (try done; by right). simpl d_deleted. by rewrite Ed.
Qed.

Lemma RemoveConstraint_ask w c files d : desc_inv d → d_deleted d = false → let '(r, d', go) := RemoveConstraint c d in
  ask w (QRemoveConstraint c) (entry_of files d) = ((λ _, ADone) <$> r, if (go : bool) then None else Some (entry_of files d')).
Proof.
  intros _ Ed. unfold RemoveConstraint, unsafeDelete. rewrite Ed, nonempty_len. cbn [ask entry_of e_constraints e_doomed].
  change (e_constraints (entry_of files d)) with (d_retentionConstraints d).
  unfold entry_of, set_constraints. destruct (filter _ (d_retentionConstraints d)); simpl; by destruct (d_shouldDelete d).
Qed.

Lemma ResetConstraints_ask w files d : desc_inv d → d_deleted d = false → let '(r, d', go) := ResetConstraints d in
  ask w QResetConstraints (entry_of files d) = ((λ _, ADone) <$> r, if (go : bool) then None else Some (entry_of files d')).
Proof. intros _ Ed. unfold ResetConstraints, unsafeDelete, entry_of. rewrite Ed. simpl. by destruct (d_shouldDelete d). Qed.

Lemma Delete_ask w mark files d : desc_inv d → d_deleted d = false → let '(r, d', go) := Delete mark d in
  ask w (QDelete mark) (entry_of files d) = ((λ _, ADone) <$> r, if (go : bool) then None else Some (entry_of files d')).
Proof.
  intros _ Ed. unfold Delete, unsafeDelete. rewrite Ed, nonempty_len. simpl. rewrite bool_decide_not.
  case_bool_decide; [done|]. by destruct mark.
Qed.

Lemma Load_ask ebm now h s d : core_inv s → files_inv s → st_heap s !! h = Some d → d_deleted d = false →
  match ParseBundle ebm now (e_content (entry_of (st_files s) d)) with (Panic, _) => Panic | (_, b) => Ok (ABundle b) end =
    ABundle <$> Load ebm now h s.
Proof.
  intros Hs Hf El Ed. unfold Load, loadEntireBundle. rewrite El, Ed. simpl. destruct (ci_heap s Hs h d El) as (_ & [_ Hn] & Hin).
  destruct (Hf (m_ID (d_metadata d))) as [bs Hbs]; [by eexists; apply Hin|]. rewrite Hn, Hbs. simpl.
  by destruct (ParseBundle ebm now bs) as [[] ?].
Qed.

Lemma Load_peek ebm now h s : (ABundle <$> Load ebm now h s, s) = peek (λ _, ABundle <$> Load ebm now h s) h s.
Proof. unfold peek, Load. by destruct (st_heap s !! h). Qed.

Lemma serve_on_refines io w h q s : core_inv s → files_inv s → w_update w = w_update (world_of io (On h q) s) →
  spec_on w h q (abs s) = ((serve_on h q s).1, abs (serve_on h q s).2).
Proof.
  intros Hs Hf Hw. destruct q; simpl serve_on; unfold answered.
  - apply op_refines; try done; [apply AddConstraint_op| |].
    + intros d _ Ed. unfold AddConstraint. by rewrite Ed.
    + intros files d _ Ed. unfold AddConstraint. rewrite Ed. simpl. by destruct (Constraint_Valid c).
  - apply op_refines; try done; [apply RemoveConstraint_op| |apply RemoveConstraint_ask].
    intros d _ Ed. unfold RemoveConstraint. by rewrite Ed.
  - apply op_refines; try done; [apply ResetConstraints_op| |apply ResetConstraints_ask].
    intros d _ Ed. unfold ResetConstraints. by rewrite Ed.
  - apply op_refines; try done; [apply Delete_op| |apply Delete_ask].
    intros d Hd Ed. unfold Delete, unsafeDelete. by rewrite (inv_deleted d Hd Ed), Ed.
  - by apply AddKnownHolder_refines.
  - rewrite (SetMisc_refines w k v h s) by done. by destruct (bd_SetMiscData k v h s) as [[] ?].
  - by apply peek_refines.
  - apply peek_refines; [done|intros d _ Ed..]; unfold GetKnownHolders; [by rewrite Ed|intros Ed2; by rewrite Ed2].
  - apply peek_refines; [done|intros d _ Ed..]; unfold Metadata; [by rewrite Ed|intros Ed2; by rewrite Ed2].
  - apply peek_refines; [done|intros d _ Ed..]; unfold HasConstraint; [by rewrite Ed|intros Ed2; rewrite Ed2, existsb_elem; done].
  - apply peek_refines; [done|intros d Hd Ed..]; unfold Dispatch; [by rewrite Ed, andb_false_r|intros Ed2].
    by rewrite Ed2, andb_true_r, (inv_dispatch d Hd), existsb_elem, negb_decide.
  - apply peek_refines; [done|intros d Hd Ed..]; unfold Retain; [by rewrite Ed, andb_false_r|intros Ed2].
    by rewrite Ed2, andb_true_r, (inv_retain d Hd), nonempty_len.
  - apply peek_refines; [done|intros d _ Ed..]; unfold Deleted; [by rewrite Ed|intros Ed2; by rewrite Ed2].
  - rewrite Load_peek. destruct (st_heap s !! h) as [d|] eqn:El; [destruct (d_deleted d) eqn:Ed|].
    + unfold peek. rewrite El. cbn [fst snd]. rewrite (spec_on_stale w _ h s d) by done. simpl ask_stale. cbv iota beta. rewrite stale_same by done.
      unfold Load. by rewrite El, Ed.
    + unfold peek. rewrite El. cbn [fst snd]. rewrite (spec_on_live w _ h s d) by done. unfold ask. rewrite (Load_ask ebm now h s d) by done. by rewrite live_same.
    + unfold peek. rewrite El. by apply spec_on_none.
Qed.

(** *** Lookup *)

Lemma abs_slot s id h : core_inv s → st_bundles s !! id = Some h →
  ∃ d, st_heap s !! h = Some d ∧ m_ID (d_metadata d) = id ∧ sp_bundles (abs s) !! id = Some (slot_of (st_files s) h d).
Proof.
  intros Hs E. destruct (ci_map s Hs id h E) as (d & El & Hid). exists d. do 2 (split; [done|]). simpl. rewrite lookup_fmap, E. simpl.
  unfold slot_at. by rewrite El.
Qed.

Lemma abs_no_slot s id : st_bundles s !! id = None → sp_bundles (abs s) !! id = None.
Proof. intros E. simpl. by rewrite lookup_fmap, E. Qed.

Lemma Lookup_refines id s : core_inv s →
  AHandle <$> GetBundleDescriptor id s = match sp_bundles (abs s) !! id with Some (Stored h _) => Ok (AHandle h) | _ => Err NoSuchBundleError end.
Proof.
  intros Hs. unfold GetBundleDescriptor, Deleted. destruct (st_bundles s !! id) as [h|] eqn:E.
  - destruct (abs_slot s id h Hs E) as (d & El & _ & ->). rewrite El. unfold slot_of. by destruct (d_deleted d).
  - by rewrite abs_no_slot.
Qed.

Lemma select_refines p p' s : core_inv s →
  (∀ d, desc_inv d → p d = negb (d_deleted d) && p' (entry_of (st_files s) d)) →
  (list_to_set (select_bundles p s) : gset nat) = stored_with p' (abs s).
Proof.
  intros Hs Hp. apply set_eq. intros h. unfold stored_with, select_bundles. rewrite !elem_of_list_to_set, list_elem_of_filter, list_elem_of_omap.
  split.
  - intros [Hd ([id h'] & -> & Hin%elem_of_map_to_list)%list_elem_of_fmap]. simpl in *.
    destruct (abs_slot s id h' Hs Hin) as (d & El & _ & Hb). rewrite El, Hp in Hd by (by eapply ci_heap).
    apply andb_true_iff in Hd as [Hl Hq]. exists (slot_of (st_files s) h' d). split.
    + apply (list_elem_of_fmap_2 snd _ (id, _)). by apply elem_of_map_to_list.
    + unfold slot_of. destruct (d_deleted d); [done|]. by rewrite Hq.
  - intros (sl & ([id sl'] & -> & Hin%elem_of_map_to_list)%list_elem_of_fmap & Hsl). simpl in Hin, Hsl. rewrite lookup_fmap in Hin.
    destruct (st_bundles s !! id) as [h'|] eqn:E; [|done]. simpl in Hin. injection Hin as <-.
    destruct (ci_map s Hs id h' E) as (d & El & _). unfold slot_at, slot_of in Hsl. rewrite El in Hsl.
    destruct (d_deleted d) eqn:Ed; [done|]. destruct (p' _) eqn:Hq; [|done]. injection Hsl as <-. split.
    + rewrite El, Hp by (by eapply ci_heap). by rewrite Ed, Hq.
    + apply (list_elem_of_fmap_2 snd _ (id, h')). by apply elem_of_map_to_list.
Qed.

(** *** Garbage collection *)

Lemma garbage_collectable now files d : d_deleted d = false → garbage now (entry_of files d) = collectable now d.
Proof.
  intros Ed. unfold garbage, collectable, Expired. rewrite Ed, andb_true_r, bool_decide_and. f_equal.
  simpl. apply eq_true_iff_eq. by rewrite bool_decide_eq_true, Z.ltb_lt.
Qed.

Lemma collectable_deleted now d : d_deleted d = true → collectable now d = false.
Proof. intros Ed. unfold collectable. by rewrite Ed, andb_false_r. Qed.

Lemma Collect_refines now s : core_inv s → abs (GarbageCollect now s) = spec_collect now (abs s).
Proof.
  intros Hs. destruct (GarbageCollect_frame now s) as [Hb Hf]. apply Spec_eq; cbn [abs spec_collect sp_node sp_bundles sp_handles].
  - by destruct (collect_all now (map_to_list (st_bundles s)).*2 s Hs) as (? & _).
  - rewrite Hb, Hf, <- map_fmap_compose. apply map_fmap_ext. intros id h E. destruct (ci_map s Hs id h E) as (d & El & _).
    cbn [compose]. unfold compose, slot_at. rewrite GarbageCollect_heap, El by done. cbn [fmap option_fmap option_map]. unfold collected, slot_of.
    destruct (d_deleted d) eqn:Ed; [by rewrite collectable_deleted, Ed|]. rewrite garbage_collectable by done.
    destruct (collectable now d); [done|by rewrite Ed].
  - apply list_eq. intros h. rewrite !list_lookup_fmap, GarbageCollect_heap by done. destruct (st_heap s !! h) as [d|] eqn:El; [|done].
    cbn [fmap option_fmap option_map]. f_equal. unfold collected. destruct (d_deleted d) eqn:Ed.
    + rewrite collectable_deleted by done. unfold handle_of. by rewrite Ed.
    + unfold handle_of at 2. rewrite Ed. destruct (abs_live s h d Hs El Ed) as [_ Hbl]. cbn [abs sp_bundles] in Hbl. rewrite Hbl, garbage_collectable by done.
      unfold handle_of. destruct (collectable now d); simpl; [done|by rewrite Ed].
Qed.

(** *** Insertion *)

(** A change of files that belong to no bundle in the map. *)
Lemma abs_files s files : core_inv s →
  (∀ id, is_Some (st_bundles s !! id) → files !! sha256_hex (BundleID_String id) = st_files s !! sha256_hex (BundleID_String id)) →
  abs (set_st_files files s) = abs s.
Proof.
  intros Hs Hf. apply Spec_eq; simpl; [done| |done]. apply map_fmap_ext. intros id h E. destruct (ci_map s Hs id h E) as (d & El & Hid).
  unfold slot_at, slot_of, entry_of. rewrite El. destruct (ci_heap s Hs h d El) as (_ & [_ Hn] & _). rewrite Hn, Hid.
  by rewrite Hf by (by eexists).
Qed.

Lemma abs_file_insert s text bs : core_inv s → (∀ id, is_Some (st_bundles s !! id) → BundleID_String id ≠ text) →
  abs (set_st_files (<[sha256_hex text := bs]> (st_files s)) s) = abs s.
Proof. intros Hs Hno. apply abs_files; [done|]. intros id Hid. rewrite lookup_insert_ne; [done|]. intros E%(inj _). by apply (Hno id). Qed.

Lemma abs_deleteFromDisk io m s : core_inv s → meta_ok m → (∀ id, is_Some (st_bundles s !! id) → BundleID_String id ≠ m_IDString m) →
  abs (deleteFromDiskUnsafe io m s) = abs s.
Proof.
  intros Hs [Hi Hn] Hno. unfold deleteFromDiskUnsafe. destruct (db_Delete _ _) as [r d]. cbn [fst snd].
  transitivity (abs (set_st_files (if io_remove io then delete (m_SerialisedFileName m) (st_files s) else st_files s) s)); [done|].
  apply abs_files; [done|]. intros id Hid. destruct (io_remove io); [|done]. rewrite lookup_delete_ne; [done|].
  rewrite Hn. intros E%(inj _). apply (Hno id Hid). congruence.
Qed.

(** A new descriptor and its file. *)
Lemma abs_link s b prev bs : core_inv s → st_bundles s !! Bundle_ID b = None →
  (∀ id, is_Some (st_bundles s !! id) → BundleID_String id ≠ BundleID_String (Bundle_ID b)) →
  let m := new_metadata (st_nodeID s) b prev in
  abs (set_st_files (<[m_SerialisedFileName m := bs]> (st_files s))
        (set_st_bundles (<[Bundle_ID b := length (st_heap s)]> (st_bundles s)) (set_st_heap (st_heap s ++ [NewBundleDescriptor m]) s))) =
  mkSpec (st_nodeID s) (<[Bundle_ID b := Stored (length (st_heap s)) (new_entry (st_nodeID s) b prev bs)]> (sp_bundles (abs s)))
    (sp_handles (abs s) ++ [Current (Bundle_ID b)]).
Proof.
  intros Hs Hnew Hno m. apply Spec_eq; cbn [abs sp_node sp_bundles sp_handles st_nodeID st_bundles st_heap st_files set_st_files set_st_bundles set_st_heap].
  - done.
  - apply map_eq. intros id. rewrite lookup_fmap. destruct (decide (id = Bundle_ID b)) as [->|Hne].
    + rewrite !lookup_insert_eq. simpl. f_equal. unfold slot_at. rewrite list_lookup_middle by done. unfold slot_of, entry_of. simpl.
      by rewrite lookup_insert_eq.
    + rewrite !lookup_insert_ne, lookup_fmap by done. destruct (st_bundles s !! id) as [h|] eqn:E; [|done]. simpl. f_equal.
      destruct (ci_map s Hs id h E) as (d & El & Hid). unfold slot_at. rewrite (lookup_app_l_Some _ _ _ _ El), El. unfold slot_of, entry_of.
      destruct (ci_heap s Hs h d El) as (_ & [_ Hn] & _). rewrite Hn, Hid. rewrite lookup_insert_ne; [done|].
      intros Heq%(inj _). apply (Hno id); [by eexists|done].
  - by rewrite fmap_app.
Qed.

Lemma insertNew_refines io w b prev s : core_inv s → st_bundles s !! Bundle_ID b = None → previous_node b = Ok prev →
  w_store w = storing io b s →
  spec_insert w b (abs s) = (AHandle <$> (insertNewBundleUnsafe io b s).1, abs (insertNewBundleUnsafe io b s).2).
Proof.
  intros Hs Hnew Hp Hw. unfold spec_insert. rewrite Hp, abs_no_slot, Hw by done. unfold storing, insertNewBundleUnsafe. rewrite Hp.
  cbn [mbind res_bind]. set (m := new_metadata (st_nodeID s) b prev). change (BundleID_String (Bundle_ID b)) with (m_IDString m).
  destruct (db_Insert (m_IDString m) m (st_metadataStore s)) as [[[]|e|] d] eqn:E; [|done..]. cbn [fst snd].
  destruct (Insert_fresh s m d Hs (new_metadata_ok _ b prev) E) as (Hs1 & _ & Hno).
  destruct (io_create io); cbn [negb]; [|cbn [fst snd]; by rewrite abs_deleteFromDisk].
  destruct (Bundle_MarshalCbor b) as [[bs b']|e|]; cbn [fst snd]; [|f_equal; symmetry; by apply (abs_file_insert (set_st_db d s) (m_IDString m))..].
  destruct (io_flush io); cbn [negb fst snd]; [|f_equal; symmetry; by apply (abs_file_insert (set_st_db d s) (m_IDString m))].
  pose proof (abs_link (set_st_db d s) b prev bs Hs1 Hnew Hno) as Hl. cbv zeta in Hl. f_equal; [cbn [abs sp_handles fmap res_fmap]; by rewrite length_fmap|].
  etrans; [|symmetry; exact Hl]. cbn [abs sp_handles]. by rewrite length_fmap.
Qed.

Lemma Insert_refines io w b s : core_inv s → w_store w = storing io b s →
  spec_insert w b (abs s) = (AHandle <$> (InsertBundle io b s).1, abs (InsertBundle io b s).2).
Proof.
  intros Hs Hw. unfold InsertBundle. destruct (st_bundles s !! Bundle_ID b) as [h|] eqn:Eb.
  - unfold spec_insert. destruct (previous_node b) as [prev|e|]; [|done..]. destruct (abs_slot s (Bundle_ID b) h Hs Eb) as (d & El & Hid & Hsl).
    rewrite Hsl. unfold slot_of. destruct (d_deleted d) eqn:Ed.
    + destruct prev as [prev|]; [|done]. unfold bd_AddKnownHolder. by rewrite El, Ed.
    + destruct prev as [prev|].
      * pose proof (AddKnownHolder_refines w [prev] h s Hs) as Ha. rewrite (spec_on_live w _ h s d) in Ha by done. simpl ask in Ha. cbv iota beta in Ha.
        destruct (AddKnownHolder_spec [prev] h s d El Ed) as (s' & Hk & _). rewrite Hk in Ha |- *. cbn [fst snd] in Ha |- *.
        f_equal. etrans; [|exact (f_equal snd Ha)]. by rewrite Hid.
      * cbn [option_list fst snd]. rewrite app_nil_r. change (set_holders _ _) with (entry_of (st_files s) d). f_equal.
        rewrite <- Hid. by apply (live_same h s d).
  - destruct (previous_node b) as [prev|e|] eqn:Hp; [by eapply insertNew_refines|..]; unfold spec_insert, insertNewBundleUnsafe; by rewrite Hp.
Qed.

(** *** Deletion *)

Lemma Erase_refines io i m s : core_inv s → st_pending s !! i = Some m →
  abs (run_pending io i s) = spec_erase (m_ID m) (abs s) ∧ ∃ h, sp_bundles (abs s) !! m_ID m = Some (Dying h).
Proof.
  intros Hs Ei. destruct (unlink_inv i m s Hs Ei) as [Hu Hno]. destruct (ci_pending s Hs m) as (Hm & h & d & Hb & El & Ed);
    [by eapply list_elem_of_lookup_2|]. unfold run_pending, deleteBundle. rewrite Ei. split.
  - rewrite abs_deleteFromDisk by done. apply Spec_eq; simpl; [done| |done]. by rewrite fmap_delete.
  - exists h. destruct (abs_slot s _ _ Hs Hb) as (d2 & El2 & _ & ->). assert (d2 = d) as -> by congruence. unfold slot_of. by rewrite Ed.
Qed.

Lemma pending_dying s id : core_inv s → (id ∈ m_ID <$> st_pending s) ↔ ∃ h, sp_bundles (abs s) !! id = Some (Dying h).
Proof.
  intros Hs. split.
  - intros (m & -> & [i Hi]%list_elem_of_lookup)%list_elem_of_fmap. by apply (Erase_refines io_ok i m s).
  - intros [h Hsl]. destruct (st_bundles s !! id) as [h'|] eqn:E; [|by rewrite abs_no_slot in Hsl].
    destruct (abs_slot s id h' Hs E) as (d & El & _ & Hsl'). rewrite Hsl in Hsl'. unfold slot_of in Hsl'. destruct (d_deleted d) eqn:Ed; [|done].
    by apply (ci_deleted s Hs id h' d).
Qed.

(** *** The refinement *)

Lemma serve_refines io rq s r s' : core_inv s → files_inv s → serve io rq s = (r, s') →
  spec_serve (world_of io rq s) rq (abs s) = (r, abs s').
Proof.
  intros Hs Hf. destruct rq as [b|id| |c|now|h q]; cbn [serve spec_serve].
  - intros [= <- <-]. by apply Insert_refines.
  - intros [= <- <-]. by rewrite Lookup_refines.
  - intros [= <- <-]. unfold GetDispatchable. do 3 f_equal. symmetry. apply select_refines; [done|]. intros d Hd. unfold Dispatch.
    by rewrite (inv_dispatch d Hd), existsb_elem, negb_decide, andb_comm.
  - intros [= <- <-]. unfold GetWithConstraint. do 3 f_equal. symmetry. apply select_refines; [done|]. intros d Hd. unfold HasConstraint.
    destruct (d_deleted d); [done|]. by rewrite existsb_elem.
  - intros [= <- <-]. by rewrite Collect_refines.
  - intros E. rewrite (serve_on_refines io) by done. by rewrite E.
Qed.

Lemma serve_step io rq s : store_steps s (serve io rq s).2.
Proof.
  destruct rq as [b|id| |c|now|h q]; simpl; try apply steps_refl; try (apply store_steps_one; constructor).
  destruct q; simpl; try apply steps_refl; apply store_steps_one; constructor.
Qed.

Lemma history_steps s tr s' : history s tr s' → store_steps s s'.
Proof.
  induction 1 as [s|s tr s1 io rq r s2 _ IH E|s tr s1 io i m _ IH Ei]; [apply steps_refl|..].
  - eapply store_steps_trans; [exact IH|]. pose proof (serve_step io rq s1) as Hst. by rewrite E in Hst.
  - eapply store_steps_trans; [exact IH|]. apply store_steps_one. constructor.
Qed.

(** C11: the store, started empty, implements the abstract store: in every history of
    insertions, lookups, queries, changes and garbage collections, in which the deletion
    goroutines end at any time, each request is answered as the abstract store answers it.
    What clients can learn is then a map from ids to contents, holders, constraints and
    miscellaneous data, and a handle whose bundle is deleted stays useless, also when the
    bundle is stored again.  The goroutines still to run are those of the bundles that the
    abstract store calls dying.  The environment's part of the answer, whether the database
    and the file system accept a write, is an input of both sides; the digest that names the
    files is taken to be free of collisions. *)
Theorem store_refines node d tr s : (∀ k, db_get d k = None) → history (mkStore node d ∅ ∅ [] []) tr s →
  spec_history (mkSpec node ∅ []) tr (abs s) ∧
  ∀ id, (id ∈ m_ID <$> st_pending s) ↔ ∃ h, sp_bundles (abs s) !! id = Some (Dying h).
Proof.
  intros Hd Hh. set (s0 := mkStore node d ∅ ∅ [] []) in *.
  assert (core_inv s0) as Hs0 by (apply empty_inv; intros k m; by rewrite Hd).
  assert (files_inv s0) as Hf0 by (by intros id [x Hx]).
  assert (∀ s, store_steps s0 s → core_inv s ∧ files_inv s) as Hinv.
  { intros s1 Hst. split; [by eapply store_steps_inv|]. eapply store_steps_files; [|done..]. intros t u. apply inj. apply _. }
  split; [|intros id; by apply pending_dying, Hinv, (history_steps _ tr)].
  assert (abs s0 = mkSpec node ∅ []) as <- by (apply Spec_eq; [done|apply fmap_empty|done]).
  clearbody s0. induction Hh as [s|s tr s1 io rq r s2 Hh IH E|s tr s1 io i m Hh IH Ei]; [constructor|..];
    destruct (Hinv s1 (history_steps _ _ _ Hh)) as [Hs1 Hf1]; (eapply spec_more; [by apply IH|]).
  - constructor. by apply (serve_refines io).
  - destruct (Erase_refines io i m s1 Hs1 Ei) as [-> [h Hdy]]. by econstructor.
Qed.
End Refinement.

(** ** A history *)

#[export] Instance plain_names_inj : Inj (=) (=) plain_names.
Proof. intros s t E. exact E. Qed.

(** A bundle is stored, its constraints are reset, and it is collected when it has expired;
    after that it is not found any more, and its handle is stale. *)
Lemma store_refines_witness : ∃ σ,
  spec_history (mkSpec own_node ∅ [])
    [Served (mkWorld (Ok ()) (Ok ())) (InsertB sample_bundle) (Ok (AHandle 0));
     Served (mkWorld (Ok ()) (Ok ())) (On 0 QResetConstraints) (Ok ADone);
     Served (mkWorld (Ok ()) (Ok ())) (Collect (2 ^ 62)) (Ok ADone);
     Served (mkWorld (Ok ()) (Ok ())) (Lookup (Bundle_ID sample_bundle)) (Err NoSuchBundleError);
     Served (mkWorld (Ok ()) (Ok ())) (On 0 QGetKnownHolders) (Err BundleDeletedError);
     Erased (Bundle_ID sample_bundle)] σ.
Proof.
  eexists. refine (proj1 (store_refines own_node (∅ : gmap string BundleMetadata) _ _ (λ k, lookup_empty k) _)).
  set (dying := GarbageCollect (2 ^ 62) released).
  apply (hist_erase _ [_; _; _; _; _] dying io_ok 0 (new_metadata own_node sample_bundle None)); [|vm_compute; reflexivity].
  apply (hist_serve _ [_; _; _; _] dying io_ok (On 0 QGetKnownHolders)); [|apply injective_projections; [vm_compute|]; reflexivity].
  apply (hist_serve _ [_; _; _] dying io_ok (Lookup (Bundle_ID sample_bundle))); [|apply injective_projections; [vm_compute|]; reflexivity].
  apply (hist_serve _ [_; _] released io_ok (Collect (2 ^ 62))); [|reflexivity].
  apply (hist_serve _ [_] one_bundle io_ok (On 0 QResetConstraints)); [|apply injective_projections; [vm_compute|]; reflexivity].
  assert (storing io_ok sample_bundle empty_store = Ok ()) as <- by (vm_compute; reflexivity).
  apply (hist_serve _ [] empty_store io_ok (InsertB sample_bundle)); [apply hist_start|]. apply injective_projections; [vm_compute|]; reflexivity.
Defined.
