(* ===== verification/Cla.v ===== *)
(** * Convergence layers and their manager

    [pkg/cla/cla_types.go], [convergence_layer.go] and [cla_manager.go].  The
    manager's methods hold its mutex for their whole body, except that
    [activateCLA] calls [Activate] before it takes the lock; a registration is
    therefore two steps, with anything in between. *)

From stdpp Require Import base tactics list strings gmap.
From Stdlib Require Import ZArith Lia Bool.
From S2P Require Import Prelude DtnTime Endpoint BundleId ExtensionBlocks Blocks Bundle Samples.
Local Open Scope Z_scope.

(** ** CLA types *)

Definition TCPCLv4 : Z := 0.
Definition MTCP : Z := 10.
Definition QUICL : Z := 20.
Definition Dummy : Z := 8080.
Definition unknownClaTypeString : string := "unknown CLA type".

(** [strings.ToLower] on ASCII text. *)
Definition lower_ascii (a : Ascii.ascii) : Ascii.ascii :=
  let n := Ascii.nat_of_ascii a in
  if (65 <=? n)%nat && (n <=? 90)%nat then Ascii.ascii_of_nat (n + 32) else a.
Fixpoint ToLower (s : string) : string :=
  match s with EmptyString => EmptyString | String a s => String (lower_ascii a) (ToLower s) end.

Definition TypeFromString (claType : string) : res Z :=
  let claType := ToLower claType in
  if bool_decide (claType = "tcpclv4") then Ok TCPCLv4 else
  if bool_decide (claType = "mtcp") then Ok MTCP else
  if bool_decide (claType = "quicl") then Ok QUICL else Err (errorf "invalid CLA Type").

Definition CLAType_String (claType : Z) : string :=
  if claType =? TCPCLv4 then "TCPCLv4" else
  if claType =? MTCP then "MTCP" else
  if claType =? QUICL then "QUICL" else unknownClaTypeString.

Definition CLAType_CheckValid (claType : Z) : res () :=
  if bool_decide (CLAType_String claType = unknownClaTypeString) then Err (errorf unknownClaTypeString) else Ok ().

(** ** Convergences *)

(** What the rest of the program sees of an object with the interface
    [Convergence]: its address, whether it also is a [ConvergenceReceiver] or a
    [ConvergenceSender], and the peer of a sender. *)
Record Convergence := mkCLA {
  cla_Address : string;
  cla_receiver : bool;
  cla_sender : bool;
  cla_PeerEndpointID : EndpointID;
}.

#[global] Instance Convergence_eq_dec : EqDecision Convergence.
Proof. solve_decision. Defined.

(** ** The manager *)

(** The goroutines the manager starts: the callbacks it was given, and the [Close] of a
    CLA or of the listener at an address. *)
Inductive callback :=
  | CbReceive (bundle : Bundle)
  | CbConnect (peer : EndpointID)
  | CbDisconnect (peer : EndpointID)
  | CbClose (cla : Convergence)
  | CbCloseListener (address : string).

Record Manager := mkManager {
  mg_receivers : list Convergence;
  mg_senders : list Convergence;
  mg_pendingStart : list Convergence;
  mg_pendingRemoval : gmap string bool;
  mg_callbacks : list callback;
  mg_listeners : list string;
}.

Definition InitialiseCLAManager : Manager := mkManager [] [] [] ∅ [] [].

Definition GetSenders (mg : Manager) : list Convergence := mg_senders mg.
Definition GetReceivers (mg : Manager) : list Convergence := mg_receivers mg.
(** Listeners by their addresses. *)
Definition GetListeners (mg : Manager) : list string := mg_listeners mg.

Definition has_address (a : string) (l : list Convergence) : bool :=
  existsb (λ c, bool_decide (a = cla_Address c)) l.

Definition checkPresent (cla : Convergence) (mg : Manager) : bool :=
  has_address (cla_Address cla) (mg_pendingStart mg) ||
  (cla_receiver cla && has_address (cla_Address cla) (mg_receivers mg)) ||
  (cla_sender cla && has_address (cla_Address cla) (mg_senders mg)).

(** [registerAsync]; the goroutine [activateCLA] it starts is the next definition,
    for a member of [mg_pendingStart]. *)
Definition registerAsync (cla : Convergence) (mg : Manager) : Manager :=
  if checkPresent cla mg then mg else
  mkManager (mg_receivers mg) (mg_senders mg) (mg_pendingStart mg ++ [cla]) (mg_pendingRemoval mg) (mg_callbacks mg) (mg_listeners mg).

Definition without_address (a : string) (l : list Convergence) : list Convergence :=
  filter (λ c, a ≠ cla_Address c) l.

(** [activateCLA] after [Activate] returned; [ok] tells whether without an error. *)
Definition activateCLA (ok : bool) (cla : Convergence) (mg : Manager) : Manager :=
  mkManager
    (if ok && cla_receiver cla then mg_receivers mg ++ [cla] else mg_receivers mg)
    (if ok && cla_sender cla then mg_senders mg ++ [cla] else mg_senders mg)
    (without_address (cla_Address cla) (mg_pendingStart mg))
    (mg_pendingRemoval mg) (mg_callbacks mg) (mg_listeners mg).

Definition start_callback (cb : callback) (mg : Manager) : Manager :=
  mkManager (mg_receivers mg) (mg_senders mg) (mg_pendingStart mg) (mg_pendingRemoval mg) (mg_callbacks mg ++ [cb]) (mg_listeners mg).

Definition NotifyReceive (bundle : Bundle) (mg : Manager) : Manager := start_callback (CbReceive bundle) mg.
Definition NotifyConnect (peerID : EndpointID) (mg : Manager) : Manager := start_callback (CbConnect peerID) mg.

(** The first part of [NotifyDisconnect], up to the removal lock's release:
    whether this call goes on. *)
Definition begin_disconnect (cla : Convergence) (mg : Manager) : option Manager :=
  match mg_pendingRemoval mg !! cla_Address cla with
  | Some _ => None
  | None => Some (mkManager (mg_receivers mg) (mg_senders mg) (mg_pendingStart mg)
                    (<[cla_Address cla := true]> (mg_pendingRemoval mg)) (mg_callbacks mg) (mg_listeners mg))
  end.

(** The rest of [NotifyDisconnect], under the state lock. *)
Definition finish_disconnect (cla : Convergence) (mg : Manager) : Manager :=
  mkManager
    (if cla_receiver cla then without_address (cla_Address cla) (mg_receivers mg) else mg_receivers mg)
    (if cla_sender cla then without_address (cla_Address cla) (mg_senders mg) else mg_senders mg)
    (mg_pendingStart mg) (delete (cla_Address cla) (mg_pendingRemoval mg))
    (if cla_sender cla then mg_callbacks mg ++ [CbDisconnect (cla_PeerEndpointID cla)] else mg_callbacks mg)
    (mg_listeners mg).

Definition NotifyDisconnect (cla : Convergence) (mg : Manager) : Manager :=
  match begin_disconnect cla mg with
  | None => mg
  | Some mg => finish_disconnect cla mg
  end.

(** [RegisterListener] with the outcome of the listener's [Start]. *)
Definition RegisterListener (start : res ()) (address : string) (mg : Manager) : res () * Manager :=
  match start with
  | Ok _ => (Ok (), mkManager (mg_receivers mg) (mg_senders mg) (mg_pendingStart mg) (mg_pendingRemoval mg) (mg_callbacks mg)
                      (mg_listeners mg ++ [address]))
  | Err e => (Err e, mg)
  | Panic => (Panic, mg)
  end.

(** [shutdown] *)
Definition shutdown (mg : Manager) : Manager :=
  mkManager [] [] (mg_pendingStart mg) (mg_pendingRemoval mg)
    (mg_callbacks mg ++ (CbClose <$> mg_receivers mg) ++ (CbClose <$> mg_senders mg) ++ (CbCloseListener <$> mg_listeners mg)) [].

(** ** Executions *)

Inductive mg_step : Manager → Manager → Prop :=
  | mg_register cla mg : mg_step mg (registerAsync cla mg)
  | mg_activate ok cla mg : cla ∈ mg_pendingStart mg → mg_step mg (activateCLA ok cla mg)
  | mg_receive b mg : mg_step mg (NotifyReceive b mg)
  | mg_connect p mg : mg_step mg (NotifyConnect p mg)
  | mg_disconnect_begin cla mg mg' : begin_disconnect cla mg = Some mg' → mg_step mg mg'
  | mg_disconnect_finish cla mg : is_Some (mg_pendingRemoval mg !! cla_Address cla) → mg_step mg (finish_disconnect cla mg)
  | mg_listen start address mg : mg_step mg (RegisterListener start address mg).2
  | mg_shutdown mg : mg_step mg (shutdown mg).

Inductive mg_reachable : Manager → Prop :=
  | mg_start : mg_reachable InitialiseCLAManager
  | mg_next mg mg' : mg_reachable mg → mg_step mg mg' → mg_reachable mg'.

(** ** The lists hold every address at most once *)

Abbreviation addresses l := (cla_Address <$> (l : list Convergence)).

Lemma has_address_spec a l : has_address a l = true ↔ a ∈ addresses l.
Proof.
  unfold has_address. rewrite existsb_exists. rewrite list_elem_of_fmap. split.
  - intros (c & Hc & Ha%bool_decide_eq_true). exists c. split; [done|]. by apply list_elem_of_In.
  - intros (c & -> & Hc). exists c. split; [by apply list_elem_of_In|]. by apply bool_decide_eq_true.
Qed.

Lemma has_address_false a l : has_address a l = false ↔ a ∉ addresses l.
Proof. rewrite <- has_address_spec. by destruct (has_address a l); split. Qed.

Lemma elem_of_without a l c : c ∈ without_address a l ↔ c ∈ l ∧ a ≠ cla_Address c.
Proof. unfold without_address. rewrite list_elem_of_filter. tauto. Qed.

Lemma addresses_without a l : addresses (without_address a l) = filter (λ b, a ≠ b) (addresses l).
Proof.
  unfold without_address. induction l as [|c l IH]; [done|]. rewrite fmap_cons, !filter_cons.
  case_decide; [rewrite fmap_cons|]; by rewrite IH.
Qed.

Lemma NoDup_without a l : NoDup (addresses l) → NoDup (addresses (without_address a l)).
Proof. rewrite addresses_without. apply NoDup_filter. Qed.

Lemma not_in_without a b l : b ∉ addresses l → b ∉ addresses (without_address a l).
Proof. rewrite addresses_without, list_elem_of_filter. tauto. Qed.

Record mg_inv (mg : Manager) : Prop := {
  mi_receivers : NoDup (addresses (mg_receivers mg));
  mi_senders : NoDup (addresses (mg_senders mg));
  mi_pending : NoDup (addresses (mg_pendingStart mg));
  mi_pending_new c : c ∈ mg_pendingStart mg →
    (cla_receiver c = true → cla_Address c ∉ addresses (mg_receivers mg)) ∧
    (cla_sender c = true → cla_Address c ∉ addresses (mg_senders mg));
  mi_roles : Forall (λ c, cla_receiver c = true) (mg_receivers mg) ∧ Forall (λ c, cla_sender c = true) (mg_senders mg);
}.

Lemma NoDup_addr_snoc l c : NoDup (addresses l) → cla_Address c ∉ addresses l → NoDup (addresses (l ++ [c])).
Proof.
  intros Hl Hc. rewrite fmap_app. apply NoDup_app. split; [done|]. split; [|apply NoDup_singleton].
  intros a Ha ->%list_elem_of_singleton. done.
Qed.

Lemma register_inv cla mg : mg_inv mg → mg_inv (registerAsync cla mg).
Proof.
  intros Hinv. pose proof Hinv as [Hr Hs Hp Hn Hro]. unfold registerAsync.
  destruct (checkPresent cla mg) eqn:E; [done|]. unfold checkPresent in E.
  apply orb_false_iff in E as [[Ep Er]%orb_false_iff Es]. apply has_address_false in Ep.
  constructor; simpl; try done; [by apply NoDup_addr_snoc|].
  intros c [Hc|Hc%list_elem_of_singleton]%elem_of_app; [by apply Hn|]. subst c. split.
  - intros Hrc. rewrite Hrc in Er. by apply has_address_false.
  - intros Hsc. rewrite Hsc in Es. by apply has_address_false.
Qed.

Lemma checkPresent_mono conv mg mg' : mg_receivers mg' = mg_receivers mg → mg_senders mg' = mg_senders mg →
  mg_pendingStart mg ⊆ mg_pendingStart mg' → checkPresent conv mg = true → checkPresent conv mg' = true.
Proof.
  intros Hr Hs Hp. unfold checkPresent. rewrite Hr, Hs. rewrite !orb_true_iff, !has_address_spec.
  intros [[Hin|Hin]|Hin]; auto. do 2 left. apply list_elem_of_fmap in Hin as (c & -> & Hc). apply list_elem_of_fmap_2. by apply Hp.
Qed.

Lemma registerAsync_present conv mg : checkPresent conv (registerAsync conv mg) = true.
Proof.
  unfold registerAsync. destruct (checkPresent conv mg) eqn:E; [done|]. unfold checkPresent. simpl.
  rewrite !orb_true_iff, has_address_spec. do 2 left. rewrite fmap_app, elem_of_app. right. by apply list_elem_of_singleton.
Qed.

Lemma activate_inv ok cla mg : cla ∈ mg_pendingStart mg → mg_inv mg → mg_inv (activateCLA ok cla mg).
Proof.
  intros Hc [Hr Hs Hp Hn [Hro Hso]]. destruct (Hn cla Hc) as [Hrn Hsn].
  assert (∀ l (b : bool) c, cla_Address cla ≠ cla_Address c → cla_Address c ∉ addresses l →
    cla_Address c ∉ addresses (if b then l ++ [cla] else l)) as Hsnoc.
  { intros l b c Hne Hl. destruct b; [|done]. rewrite fmap_app, elem_of_app. simpl.
    rewrite list_elem_of_singleton. intros [?|?]; congruence. }
  unfold activateCLA. constructor; simpl.
  - destruct ok, (cla_receiver cla) eqn:E; simpl; auto using NoDup_addr_snoc.
  - destruct ok, (cla_sender cla) eqn:E; simpl; auto using NoDup_addr_snoc.
  - by apply NoDup_without.
  - intros c [Hin Hne]%elem_of_without. destruct (Hn c Hin). split; intros Hrole; apply Hsnoc; auto.
  - split; [destruct ok, (cla_receiver cla) eqn:E|destruct ok, (cla_sender cla) eqn:E]; simpl; try done;
      apply Forall_app; split; auto.
Qed.

Lemma finish_disconnect_inv cla mg : mg_inv mg → mg_inv (finish_disconnect cla mg).
Proof.
  intros [Hr Hs Hp Hn [Hro Hso]]. unfold finish_disconnect. constructor; simpl.
  - destruct (cla_receiver cla); auto using NoDup_without.
  - destruct (cla_sender cla); auto using NoDup_without.
  - done.
  - intros c Hc. destruct (Hn c Hc). split; intros Hrole; case_match; auto using not_in_without.
  - assert (∀ (P : Convergence → Prop) l a, Forall P l → Forall P (without_address a l)) as Hf.
    { intros P l a. rewrite !Forall_forall. intros HP x [Hx _]%elem_of_without. auto. }
    split; case_match; auto.
Qed.

Lemma mg_step_inv mg mg' : mg_inv mg → mg_step mg mg' → mg_inv mg'.
Proof.
  intros Hinv Hst. destruct Hst; auto using register_inv, activate_inv, finish_disconnect_inv.
  - by destruct Hinv.
  - by destruct Hinv.
  - unfold begin_disconnect in *. case_match; simplify_eq. by destruct Hinv.
  - by destruct start, Hinv.
  - destruct Hinv as [_ _ Hp _ _]. constructor; simpl; [constructor|constructor|done| |split; constructor].
    intros c _. split; intros _; apply not_elem_of_nil.
Qed.

(** However registrations, activations and disconnections interleave, the
    manager never lists two senders, two receivers or two starting CLAs with the
    same address, and a sender is only listed as one if it can send. *)
Theorem manager_addresses_unique mg : mg_reachable mg →
  NoDup (addresses (mg_senders mg)) ∧ NoDup (addresses (mg_receivers mg)) ∧ NoDup (addresses (mg_pendingStart mg)) ∧
  Forall (λ c, cla_sender c = true) (mg_senders mg).
Proof.
  intros Hr. assert (mg_inv mg) as [? ? ? _ [_ ?]]; [|done].
  induction Hr as [|mg mg' _ IH Hst]; [|by eapply mg_step_inv].
  constructor; simpl; [constructor|constructor|constructor| |split; constructor].
  intros c Hc. by apply not_elem_of_nil in Hc.
Qed.

Definition cla1 : Convergence := mkCLA "tcp://a:4556" true true (dtn "a" "").

Lemma manager_addresses_unique_witness :
  NoDup (addresses (mg_senders (activateCLA true cla1 (registerAsync cla1 (registerAsync cla1 InitialiseCLAManager))))).
Proof.
  apply (manager_addresses_unique (activateCLA true cla1 (registerAsync cla1 (registerAsync cla1 InitialiseCLAManager)))).
  apply (mg_next (registerAsync cla1 (registerAsync cla1 InitialiseCLAManager))).
  - apply (mg_next (registerAsync cla1 InitialiseCLAManager)); [|apply mg_register].
    apply (mg_next InitialiseCLAManager); [apply mg_start|apply mg_register].
  - apply mg_activate. vm_compute. left.
Defined.

(** A CLA whose connection is lost between its activation and the moment the
    manager lists it stays listed: the disconnection finds nothing to remove, the
    dead sender is added afterwards, and registering the address again is
    refused. *)
Theorem early_disconnect_leaves_sender cla : cla_sender cla = true →
  let started := registerAsync cla InitialiseCLAManager in
  let mg := activateCLA true cla (NotifyDisconnect cla started) in
  mg_senders mg = [cla] ∧ registerAsync cla mg = mg.
Proof.
  intros Hs started mg.
  assert (started = mkManager [] [] [cla] ∅ [] []) as E.
  { unfold started, registerAsync, checkPresent. simpl. by rewrite !andb_false_r. }
  assert (mg_senders mg = [cla]) as Hm.
  { unfold mg, NotifyDisconnect, begin_disconnect. rewrite E. simpl. rewrite lookup_empty. simpl. by rewrite Hs. }
  split; [done|]. unfold registerAsync, checkPresent.
  assert (has_address (cla_Address cla) (mg_senders mg) = true) as ->
    by (rewrite Hm; apply has_address_spec; by left).
  by rewrite Hs, orb_true_r.
Qed.

Lemma early_disconnect_leaves_sender_witness :
  mg_senders (activateCLA true cla1 (NotifyDisconnect cla1 (registerAsync cla1 InitialiseCLAManager))) = [cla1].
Proof. apply (early_disconnect_leaves_sender cla1). reflexivity. Defined.

(** After a CLA's disconnection has been handled, no sender or receiver with
    its address is listed. *)
Theorem NotifyDisconnect_removes cla mg : mg_pendingRemoval mg !! cla_Address cla = None →
  cla_sender cla = true → cla_receiver cla = true →
  (cla_Address cla ∉ addresses (mg_senders (NotifyDisconnect cla mg)) ++ addresses (mg_receivers (NotifyDisconnect cla mg))) ∧
  (∀ c, c ∈ mg_senders mg → cla_Address c ≠ cla_Address cla → c ∈ mg_senders (NotifyDisconnect cla mg)) ∧
  mg_callbacks (NotifyDisconnect cla mg) = mg_callbacks mg ++ [CbDisconnect (cla_PeerEndpointID cla)].
Proof.
  intros Hp Hs Hr. unfold NotifyDisconnect, begin_disconnect, finish_disconnect. rewrite Hp. simpl. rewrite Hs, Hr.
  split; [|split; [|done]].
  - rewrite !addresses_without, elem_of_app, !list_elem_of_filter. tauto.
  - intros c Hc Hne. apply elem_of_without. auto.
Qed.

Lemma NotifyDisconnect_removes_witness :
  mg_senders (NotifyDisconnect cla1 (mkManager [] [cla1] [] ∅ [] [])) = [] ∧
  cla_Address cla1 ∉ addresses (mg_senders (NotifyDisconnect cla1 (mkManager [] [cla1] [] ∅ [] []))) ++
                     addresses (mg_receivers (NotifyDisconnect cla1 (mkManager [] [cla1] [] ∅ [] []))).
Proof.
  split; [vm_compute; reflexivity|].
  apply (NotifyDisconnect_removes cla1 (mkManager [] [cla1] [] ∅ [] [])); reflexivity.
Defined.

(** ** Shutdown *)

(** A shutdown starts the closing of every listed CLA and listener, and of nothing else,
    and leaves none listed. *)
Theorem shutdown_closes mg : let mg' := shutdown mg in
  mg_receivers mg' = [] ∧ mg_senders mg' = [] ∧ mg_listeners mg' = [] ∧
  ∃ closing, mg_callbacks mg' = mg_callbacks mg ++ closing ∧
    ∀ cb, cb ∈ closing ↔ (∃ c, cb = CbClose c ∧ c ∈ mg_receivers mg ++ mg_senders mg) ∨ (∃ a, cb = CbCloseListener a ∧ a ∈ mg_listeners mg).
Proof.
  cbv zeta. do 3 (split; [done|]). eexists. split; [reflexivity|]. intros cb. rewrite !elem_of_app, !list_elem_of_fmap.
  setoid_rewrite elem_of_app. firstorder.
Qed.

(** A CLA that is being started while the manager shuts down becomes active afterwards and
    nothing closes it. *)
Theorem shutdown_misses_pending cla : cla_sender cla = true →
  let mg := activateCLA true cla (shutdown (registerAsync cla InitialiseCLAManager)) in
  mg_senders mg = [cla] ∧ mg_callbacks mg = [].
Proof.
  intros Hs mg. assert (registerAsync cla InitialiseCLAManager = mkManager [] [] [cla] ∅ [] []) as E.
  { unfold registerAsync, checkPresent. simpl. by rewrite !andb_false_r. }
  unfold mg, activateCLA, shutdown. rewrite E. simpl. by rewrite Hs.
Qed.
