(* ===== verification/Mtcp.v ===== *)
(** * The MTCP convergence layer

    [pkg/cla/mtcp]: a client writes bundles, each as a CBOR byte string, and keepalives
    (empty byte strings) to a TCP connection; a server reads them from the connections
    it accepts.  A connection is the sequence of bytes written to it.  The client's mutex
    makes each send and each keepalive one step. *)

From stdpp Require Import base tactics list strings gmap.
From Stdlib Require Import ZArith Lia Bool.
From S2P Require Import Prelude Cboring Flags Crc DtnTime Endpoint BundleId ExtensionBlocks Blocks.
From S2P Require Import Bundle Samples BundleCodec Cla.
Local Open Scope Z_scope.

(** ** Writing to a connection *)

(** A write succeeds, or fails after some of its bytes. *)
Inductive write_outcome := WOk | WFail (n : nat).

Definition conn_write (o : write_outcome) (bs conn : bytes) : res () * bytes :=
  match o with
  | WOk => (Ok (), conn ++ bs)
  | WFail n => (Err (errorf "write"), conn ++ take n bs)
  end.

(** ** The client *)

(** [mc_conn] is what was written to the connection, once there is one; [mc_stopSyn] is
    the channel: nil before [Activate], then open, then closed ([Some true]). *)
Record MTCPClient := mkClient {
  mc_peer : EndpointID;
  mc_address : string;
  mc_conn : option bytes;
  mc_stopSyn : option bool;
  mc_stopped : bool;
  mc_handler : bool;
}.

Definition NewMTCPClient (address : string) (peer : EndpointID) : MTCPClient := mkClient peer address None None false false.
Definition NewAnonymousMTCPClient (address : string) : MTCPClient := NewMTCPClient address DtnNone.

Definition set_mc_conn w c := mkClient (mc_peer c) (mc_address c) (Some w) (mc_stopSyn c) (mc_stopped c) (mc_handler c).
Definition set_mc_stopSyn x c := mkClient (mc_peer c) (mc_address c) (mc_conn c) x (mc_stopped c) (mc_handler c).
Definition set_mc_stopped c := mkClient (mc_peer c) (mc_address c) (mc_conn c) (mc_stopSyn c) true (mc_handler c).
Definition set_mc_handler h c := mkClient (mc_peer c) (mc_address c) (mc_conn c) (mc_stopSyn c) (mc_stopped c) h.

(** The client as the manager sees it. *)
Definition client_cla (c : MTCPClient) : Convergence := mkCLA (mc_address c) false true (mc_peer c).

(** The client and the CLA manager it notifies. *)
Abbreviation ClientState := (MTCPClient * Manager)%type.

(** [Activate] with the outcome of [dial], and the start of [handler]. *)
Definition client_Activate (dial : res ()) : M ClientState () := λ '(c, mg),
  match dial with
  | Ok _ => (Ok (), (mkClient (mc_peer c) (mc_address c) (Some []) (Some false) (mc_stopped c) true, NotifyConnect (mc_peer c) mg))
  | Err e => (Err e, (c, mg))
  | Panic => (Panic, (c, mg))
  end.

(** Closing a channel that is nil or closed panics. *)
Definition client_Close : M ClientState () := λ '(c, mg),
  if mc_stopped c then (Ok (), (c, mg)) else
  let mg := NotifyDisconnect (client_cla c) mg in
  let c := set_mc_stopped c in
  match mc_stopSyn c with
  | Some false => (Ok (), (set_mc_stopSyn (Some true) c, mg))
  | _ => (Panic, (c, mg))
  end.

Section Client.
Context `{Cboring} `{Crc16} `{GoMapRange} `{Ed25519}.

(** A write to a connection that does not exist is a call on a nil interface. *)
Definition client_write (o : write_outcome) (bs : bytes) : M ClientState () := λ '(c, mg),
  match mc_conn c with
  | None => (Panic, (c, mg))
  | Some w => let '(r, w) := conn_write o bs w in (r, (set_mc_conn w c, mg))
  end.

(** A case of the [handler]'s [select]: the ticker. *)
Definition handler_tick (o : write_outcome) : M ClientState () := λ st,
  match client_write o (WriteByteStringLen 0) st with
  | (Err _, st) => client_Close st
  | x => x
  end.

(** The other case: the stop channel is closed. *)
Definition handler_stop : M ClientState () := λ '(c, mg), (Ok (), (set_mc_handler false c, mg)).

(** The byte string of a bundle, and what follows to probe the connection. *)
Definition bundle_frame (bs : bytes) : bytes := WriteByteStringLen (len bs) ++ bs.

Definition send_body (o1 o2 : write_outcome) (bndl : Bundle) : M ClientState () :=
  '(bs, _) ← lift_res (Bundle_MarshalCbor bndl);
  client_write o1 (bundle_frame bs);;
  client_write o2 (WriteByteStringLen 0).

(** [Send]: an error closes the client, a panic (also one of closing) is recovered. *)
Definition client_Send (o1 o2 : write_outcome) (bndl : Bundle) : M ClientState () := λ st,
  let recovered st := (Err (errorf "MTCPClient.Send"), st) in
  match send_body o1 o2 bndl st with
  | (Ok _, st) => (Ok (), st)
  | (Err e, st) => match client_Close st with (Panic, st) => recovered st | (_, st) => (Err e, st) end
  | (Panic, st) => recovered st
  end.

(** ** The server *)

Context (ebm : ExtensionBlockManager) (clock : nat → Z).

(** [handleSender] on the bytes of a connection: the bundles handed to the callback, the
    [i]-th of which is read at the time [clock i].  Any error or panic ends the loop.
    Every round takes input, see [handleSender_fuel]. *)
Fixpoint handleSender (fuel i : nat) (inp : bytes) : list Bundle :=
  match fuel with
  | O => []
  | S fuel =>
      match ReadByteStringLen inp with
      | (Ok n, r) =>
          if n =? 0 then handleSender fuel i r else
          match Bundle_UnmarshalCbor ebm (clock i) (zero_bundle, r) with
          | (Ok _, (bndl, r)) => bndl :: handleSender fuel (S i) r
          | _ => []
          end
      | _ => []
      end
  end.

Definition serve (inp : bytes) : list Bundle := handleSender (S (length inp)) 0 inp.
End Client.

(** The accepting goroutine. *)
Inductive accept_loop := NotStarted | Looping | InClose | Ended.

Record MTCPServer := mkServer {
  ms_listenAddress : string;
  ms_endpointID : EndpointID;
  ms_running : bool;
  ms_stopSyn : bool;
  ms_stopAck : bool;
  ms_loop : accept_loop;
}.

Definition NewMTCPServer (listenAddress : string) (endpointID : EndpointID) : MTCPServer :=
  mkServer listenAddress endpointID false false false NotStarted.

Definition server_Address (serv : MTCPServer) : string := "mtcp://" +:+ ms_listenAddress serv.

(** [Start] with the outcome of resolving the address and listening. *)
Definition server_Start (listen : res ()) : M MTCPServer () := λ serv,
  match listen with
  | Ok _ => (Ok (), mkServer (ms_listenAddress serv) (ms_endpointID serv) true (ms_stopSyn serv) (ms_stopAck serv) Looping)
  | Err e => (Err e, serv)
  | Panic => (Panic, serv)
  end.

(** The first statement of [Close]; what follows waits for [stopAck]. *)
Definition begin_Close : M MTCPServer () := λ serv,
  if ms_stopSyn serv then (Panic, serv) else
  (Ok (), mkServer (ms_listenAddress serv) (ms_endpointID serv) (ms_running serv) true (ms_stopAck serv) (ms_loop serv)).

(** One round of the loop; [deadline] is the outcome of [SetDeadline].  If that fails the
    loop itself calls [Close]. *)
Definition accept_round (deadline : res ()) : M MTCPServer () := λ serv,
  if ms_stopSyn serv then
    (Ok (), mkServer (ms_listenAddress serv) (ms_endpointID serv) false true true Ended)
  else
    match deadline with
    | Ok _ => (Ok (), serv)
    | _ => (begin_Close;; modify (λ serv,
             mkServer (ms_listenAddress serv) (ms_endpointID serv) (ms_running serv) (ms_stopSyn serv) (ms_stopAck serv) InClose)) serv
    end.

Inductive server_step : MTCPServer → MTCPServer → Prop :=
  | s_start listen serv : ms_loop serv = NotStarted → server_step serv (server_Start listen serv).2
  | s_close serv serv' : begin_Close serv = (Ok (), serv') → server_step serv serv'
  | s_round deadline serv serv' : ms_loop serv = Looping → accept_round deadline serv = (Ok (), serv') → server_step serv serv'
  | s_resume serv : ms_loop serv = InClose → ms_stopAck serv = true →
      server_step serv (mkServer (ms_listenAddress serv) (ms_endpointID serv) (ms_running serv) (ms_stopSyn serv) true Looping).

(** ** Dialling on Linux ([client_dial_linux.go]) *)

Inductive tcp_option := TCP_KEEPCNT | TCP_KEEPIDLE | TCP_KEEPINTVL | TCP_USER_TIMEOUT.

Definition dialTcpKeepCnt : Z := 1.
Definition dialTcpKeepIdle : Z := 5.
Definition dialTcpKeepIntvl : Z := 3.
Definition dialTcpUserTimeout : Z := 2000.

Definition dial_opts : list (tcp_option * Z) :=
  [(TCP_KEEPCNT, dialTcpKeepCnt); (TCP_KEEPIDLE, dialTcpKeepIdle); (TCP_KEEPINTVL, dialTcpKeepIntvl);
   (TCP_USER_TIMEOUT, dialTcpUserTimeout)].

(** The loop over the options in the order the map is ranged over: the options set, and
    the value that is left in [err]. *)
Fixpoint set_options (setsockopt : tcp_option → Z → res ()) (opts : list (tcp_option * Z)) : res () * list (tcp_option * Z) :=
  match opts with
  | [] => (Ok (), [])
  | (opt, value) :: opts =>
      match setsockopt opt value with
      | Ok _ => let '(err, set) := set_options setsockopt opts in (err, (opt, value) :: set)
      | e => (e, [])
      end
  end.

(** [control] is what [rawConn.Control] returns, and whether it has called the function;
    its result is assigned to [err] last. *)
Definition dialControl (setsockopt : tcp_option → Z → res ()) (order : list (tcp_option * Z)) (control : bool * res ()) :
    res () * list (tcp_option * Z) :=
  let '(called, r) := control in
  let '(_, set) := if (called : bool) then set_options setsockopt order else (Ok (), []) in
  (r, set).

(** [Dial] calls [dialControl] before it connects, and fails if that fails. *)
Definition mtcp_dial (setsockopt : tcp_option → Z → res ()) (order : list (tcp_option * Z)) (control : bool * res ()) (connect : res ()) :
    res () * list (tcp_option * Z) :=
  match dialControl setsockopt order control with
  | (Ok _, set) => (connect, set)
  | x => x
  end.

(** If setting the options works, all of them are set before the connection is made. *)
Theorem dial_sets_options setsockopt order connect : order ≡ₚ dial_opts → (∀ opt v, setsockopt opt v = Ok ()) →
  mtcp_dial setsockopt order (true, Ok ()) connect = (connect, order).
Proof.
  intros _ Hs. unfold mtcp_dial, dialControl.
  assert (set_options setsockopt order = (Ok (), order)) as ->; [|done].
  induction order as [|[opt v] order IH]; [done|]. simpl. by rewrite Hs, IH.
Qed.

(** The error of an option is overwritten by the result of [Control]: a connection is made
    although no option could be set. *)
Theorem dial_ignores_option_error e order : order ≡ₚ dial_opts →
  mtcp_dial (λ _ _, Err e) order (true, Ok ()) (Ok ()) = (Ok (), []).
Proof. intros Hp. destruct order as [|[opt v] order]; [by apply Permutation_nil_l in Hp|done]. Qed.

Lemma dial_sets_options_witness : mtcp_dial (λ _ _, Ok ()) (rev dial_opts) (true, Ok ()) (Ok ()) = (Ok (), rev dial_opts).
Proof. apply (dial_sets_options (λ _ _, Ok ()) (rev dial_opts) (Ok ())); [symmetry; apply Permutation_rev|reflexivity]. Defined.

Lemma dial_ignores_option_error_witness : mtcp_dial (λ _ _, Err (errorf "EPERM")) dial_opts (true, Ok ()) (Ok ()) = (Ok (), []).
Proof. apply (dial_ignores_option_error (errorf "EPERM") dial_opts). reflexivity. Defined.
