(* ===== verification/MtcpProps.v ===== *)
(** * Properties of the MTCP convergence layer *)

From stdpp Require Import base tactics list strings gmap.
From Stdlib Require Import ZArith Lia Bool.
From S2P Require Import Prelude Cboring Flags Crc DtnTime Endpoint BundleId ExtensionBlocks Blocks.
From S2P Require Import Bundle Samples BundleCodec Streams Cla Mtcp.
Local Open Scope Z_scope.

(** ** The server's loop *)

Section Serve.
Context `{Cboring} `{Crc16} `{GoMapRange} `{Ed25519} `{!CboringLaws _}.
Context (ebm : ExtensionBlockManager) (clock : nat → Z).

(** With more rounds than bytes of input the loop does not run out of rounds. *)
Lemma handleSender_fuel n m i inp : (length inp < n)%nat → (length inp < m)%nat →
  handleSender ebm clock n i inp = handleSender ebm clock m i inp.
Proof.
  revert m i inp. induction n as [|n IH]; intros [|m] i inp Hn Hm; [lia..|]. simpl.
  destruct (ReadByteStringLen inp) as [[k| |] r] eqn:E; [|done..]. apply bslen_progress in E.
  destruct (k =? 0); [apply IH; lia|]. pose proof (Bundle_smono ebm (clock i) zero_bundle r) as Hs.
  destruct (Bundle_UnmarshalCbor ebm (clock i) (zero_bundle, r)) as [[u| |] [b r']]; [|done..]. simpl in Hs.
  f_equal. apply IH; lia.
Qed.

Lemma handleSender_keepalive n i r :
  handleSender ebm clock (S n) i (WriteByteStringLen 0 ++ r) = handleSender ebm clock n i r.
Proof. simpl. by rewrite bslen_rt by u64_lia. Qed.

(** A well-formed bundle that fits the length field. *)
Definition writable (b : Bundle) : Prop :=
  Bundle_wf ebm b ∧ ∀ bs b', Bundle_MarshalCbor b = Ok (bs, b') → is_u64 (len bs).

(** The bundles that a server delivers, of those it is sent: the [i]-th is read at
    [clock i], and one that is not valid then ends the connection. *)
Fixpoint accepted (i : nat) (l : list Bundle) : list Bundle :=
  match l with
  | [] => []
  | b :: l => if is_ok (check_bundle (clock i) b) then b :: accepted (S i) l else []
  end.

Lemma handleSender_bundle b : writable b → ∃ bs b', Bundle_MarshalCbor b = Ok (bs, b') ∧ erase_crc b' = erase_crc b ∧
  ∀ n i r, handleSender ebm clock (S n) i (bundle_frame bs ++ r) =
    if is_ok (check_bundle (clock i) b) then b' :: handleSender ebm clock n (S i) r else [].
Proof.
  intros (Hwf & Hl). destruct (Bundle_Marshal_wf ebm b Hwf) as (body & b' & Hm & He & Hu).
  exists (body ++ [BreakCode]), b'. split; [done|]. split; [done|]. intros n i r. specialize (Hl _ _ Hm).
  unfold bundle_frame. rewrite <- (assoc_L (++)). simpl. rewrite bslen_rt by done.
  destruct (Z.eqb_spec (len (body ++ [BreakCode])) 0) as [E|_]; [unfold len in E; rewrite length_app in E; simpl in E; lia|].
  rewrite <- (assoc_L (++)). simpl. rewrite (Hu (clock i) (BreakCode :: r) r) by apply CanonicalBlock_break.
  assert (check_bundle (clock i) b' = check_bundle (clock i) b) as ->.
  { unfold check_bundle. by rewrite <- Bundle_CheckValid_erase, He, Bundle_CheckValid_erase. }
  by destruct (check_bundle (clock i) b).
Qed.

Lemma accepted_all i l : Forall (λ b, ∀ i, Bundle_CheckValid (clock i) b = Ok []) l → accepted i l = l.
Proof.
  intros Hl. revert i. induction Hl as [|b l Hb _ IH]; intros i; simpl; [done|]. unfold check_bundle. rewrite Hb. simpl. by rewrite IH.
Qed.

(** ** From client to server *)

(** What a client does while its connection works: sends and keepalives. *)
Fixpoint run_client (ops : list (option Bundle)) : M ClientState () :=
  match ops with
  | [] => mret ()
  | Some b :: ops => client_Send WOk WOk b;; run_client ops
  | None :: ops => handler_tick WOk;; run_client ops
  end.

Definition sent_bundles (ops : list (option Bundle)) : list Bundle := omap id ops.

Lemma Send_written bs b b' c mg w : Bundle_MarshalCbor b = Ok (bs, b') → mc_conn c = Some w →
  client_Send WOk WOk b (c, mg) = (Ok (), (set_mc_conn (w ++ bundle_frame bs ++ WriteByteStringLen 0) c, mg)).
Proof.
  intros Hm Hw. unfold client_Send, send_body, lift_res, mbind, M_bind. rewrite Hm. unfold client_write. rewrite Hw. simpl.
  by rewrite (assoc_L (++)).
Qed.

(** The same bundles up to the CRC fields. *)
Abbreviation same_bundles := (Forall2 (λ b' b, erase_crc b' = erase_crc b)).

Lemma run_client_written ops c mg w : Forall writable (sent_bundles ops) → mc_conn c = Some w →
  ∃ ws, run_client ops (c, mg) = (Ok (), (set_mc_conn (w ++ ws) c, mg)) ∧
    ∀ n i, (length ws < n)%nat → same_bundles (handleSender ebm clock n i ws) (accepted i (sent_bundles ops)).
Proof.
  revert c w. induction ops as [|[b|] ops IH]; intros c w Hs Hw.
  - exists []. rewrite app_nil_r. split; [by destruct c; simpl in *; subst|].
    intros [|n] i Hn; [simpl in Hn; lia|]. simpl. destruct (ReadByteStringLen []) as [[k| |] r] eqn:E; [|constructor..].
    apply bslen_progress in E. simpl in E. lia.
  - apply Forall_cons in Hs as [Hb Hs]. destruct (handleSender_bundle b Hb) as (bs & b' & Hm & He & Hr).
    set (w1 := w ++ bundle_frame bs ++ WriteByteStringLen 0).
    destruct (IH (set_mc_conn w1 c) w1 Hs eq_refl) as (ws & Hrun & Hread).
    exists (bundle_frame bs ++ WriteByteStringLen 0 ++ ws). split.
    { cbn [run_client]. unfold mbind, M_bind. rewrite (Send_written bs b b' c mg w Hm Hw). fold w1. rewrite Hrun. unfold w1. by rewrite <- !(assoc_L (++)). }
    assert (1 ≤ length (bundle_frame bs) ∧ 1 ≤ length (WriteByteStringLen 0))%nat as [Hl1 Hl2].
    { pose proof (bslen_len 0 ltac:(u64_lia)). pose proof (bslen_len _ (proj2 Hb _ _ Hm)). pose proof (head_len_pos 0). pose proof (head_len_pos (len bs)).
      unfold bundle_frame, len in *. rewrite length_app. lia. }
    intros [|[|n]] i Hn; rewrite !length_app in Hn; [lia..|]. rewrite Hr. cbn [sent_bundles omap list_omap id accepted].
    destruct (is_ok _); [|constructor]. constructor; [done|]. rewrite handleSender_keepalive. apply Hread. lia.
  - destruct (IH (set_mc_conn (w ++ WriteByteStringLen 0) c) _ Hs eq_refl) as (ws & Hrun & Hread).
    exists (WriteByteStringLen 0 ++ ws). split.
    { cbn [run_client]. unfold mbind, M_bind, handler_tick, client_write. rewrite Hw. simpl. rewrite Hrun. by rewrite <- (assoc_L (++)). }
    intros [|n] i Hn; rewrite length_app in Hn; [lia|]. rewrite handleSender_keepalive. apply Hread.
    pose proof (bslen_len 0 ltac:(u64_lia)) as Hz. pose proof (head_len_pos 0). unfold len in Hz. lia.
Qed.

(** C14: whatever well-formed bundles that fit the length field an activated client sends,
    with keepalives in between, while its connection works: every send succeeds, and a
    server that reads the connection hands to its callback, in order and up to the CRC
    fields, which are recomputed, exactly the bundles before the first one that is not
    valid at the time it is read.  In particular all of them arrive if all are valid when
    they are read. *)
Theorem mtcp_delivery ops c mg : mc_conn c = Some [] → Forall writable (sent_bundles ops) →
  ∃ w c', run_client ops (c, mg) = (Ok (), (c', mg)) ∧ mc_conn c' = Some w ∧
    same_bundles (serve ebm clock w) (accepted 0 (sent_bundles ops)) ∧
    (Forall (λ b, ∀ i, Bundle_CheckValid (clock i) b = Ok []) (sent_bundles ops) → same_bundles (serve ebm clock w) (sent_bundles ops)).
Proof.
  intros Hc Hs. destruct (run_client_written ops c mg [] Hs Hc) as (ws & Hrun & Hread).
  assert (same_bundles (serve ebm clock ws) (accepted 0 (sent_bundles ops))) as Hd by (apply Hread; lia).
  exists ws, (set_mc_conn ws c). do 3 (split; [done|]). intros Hv. by rewrite <- (accepted_all 0 _ Hv).
Qed.
End Serve.

(** ** The client's life *)

(** The manager's goroutine for the client: [activateCLA] is about to call [Activate], has
    come back from it, or has taken the client off the pending ones and, if there was no
    error, listed it. *)
Inductive activation := Unregistered | Activating | Returned (ok : bool) | Listed (ok : bool).

(** A client, the manager, how far its activation is, and how far it was when the client
    was closed. *)
Record Life := mkLife { lf_state : ClientState; lf_phase : activation; lf_closed : option activation }.

Abbreviation life_client l := (lf_state l).1.
Abbreviation life_manager l := (lf_state l).2.

Section Life.
Context `{Cboring} `{Crc16} `{GoMapRange} `{Ed25519}.

(** What runs after [Activate] has returned without an error: the senders of bundles, the
    handler's [select] and [Close], none of them if it would panic. *)
Inductive client_step : ClientState → ClientState → Prop :=
  | c_send o1 o2 b st : client_step st (client_Send o1 o2 b st).2
  | c_tick o st : mc_handler st.1 = true → (handler_tick o st).1 ≠ Panic → client_step st (handler_tick o st).2
  | c_stop st : mc_handler st.1 = true → mc_stopSyn st.1 = Some true → client_step st (handler_stop st).2
  | c_close st : (client_Close st).1 ≠ Panic → client_step st (client_Close st).2.

(** The other CLAs, which have other addresses and peers. *)
Inductive others_step (address : string) (peer : EndpointID) : Manager → Manager → Prop :=
  | o_register cla mg : cla_Address cla ≠ address → others_step address peer mg (registerAsync cla mg)
  | o_activate ok cla mg : cla_Address cla ≠ address → others_step address peer mg (activateCLA ok cla mg)
  | o_receive b mg : others_step address peer mg (NotifyReceive b mg)
  | o_connect p mg : others_step address peer mg (NotifyConnect p mg)
  | o_disconnect cla mg : cla_Address cla ≠ address → cla_PeerEndpointID cla ≠ peer → others_step address peer mg (NotifyDisconnect cla mg)
  | o_listen start listen mg : others_step address peer mg (RegisterListener start listen mg).2.

Definition note_closed (c c' : MTCPClient) (p : activation) (old : option activation) : option activation :=
  if negb (mc_stopped c) && mc_stopped c' then Some p else old.

Inductive life_step : Life → Life → Prop :=
  | l_register l : lf_phase l = Unregistered → checkPresent (client_cla (life_client l)) (life_manager l) = false →
      life_step l (mkLife (life_client l, registerAsync (client_cla (life_client l)) (life_manager l)) Activating (lf_closed l))
  | l_activate dial l st' (r : res ()) : lf_phase l = Activating → dial ≠ Panic → client_Activate dial (lf_state l) = (r, st') →
      life_step l (mkLife st' (Returned (is_ok r)) (lf_closed l))
  | l_list ok l : lf_phase l = Returned ok →
      life_step l (mkLife (life_client l, activateCLA ok (client_cla (life_client l)) (life_manager l)) (Listed ok) (lf_closed l))
  | l_run l st' : client_step (lf_state l) st' →
      life_step l (mkLife st' (lf_phase l) (note_closed (life_client l) st'.1 (lf_phase l) (lf_closed l)))
  | l_others l mg : others_step (mc_address (life_client l)) (mc_peer (life_client l)) (life_manager l) mg →
      life_step l (mkLife (life_client l, mg) (lf_phase l) (lf_closed l)).

Inductive life_reachable (l0 : Life) : Life → Prop :=
  | lr_start : life_reachable l0 l0
  | lr_next l l' : life_reachable l0 l → life_step l l' → life_reachable l0 l'.

Definition disconnect_of (peer : EndpointID) (cb : callback) : bool :=
  match cb with CbDisconnect p => bool_decide (p = peer) | _ => false end.
Definition disconnects (peer : EndpointID) (mg : Manager) : list callback := filter (λ cb, disconnect_of peer cb = true) (mg_callbacks mg).

(** Whether the client is among the senders: from its listing on, until it is closed, or
    for ever if it was closed before. *)
Definition listed (l : Life) : Prop :=
  lf_phase l = Listed true ∧ (mc_stopped (life_client l) = false ∨ lf_closed l ≠ Some (Listed true)).

(** Relative to a client and manager at the start. *)
Record life_inv (c0 : MTCPClient) (mg0 : Manager) (l : Life) : Prop := {
  li_identity : client_cla (life_client l) = client_cla c0;
  li_removal : mg_pendingRemoval (life_manager l) !! mc_address c0 = None;
  li_once : disconnects (mc_peer c0) (life_manager l) =
    disconnects (mc_peer c0) mg0 ++ (if mc_stopped (life_client l) then [CbDisconnect (mc_peer c0)] else []);
  li_listed : (mc_address c0 ∈ addresses (mg_senders (life_manager l))) ↔ listed l;
  li_closed : mc_stopped (life_client l) = true ↔ is_Some (lf_closed l);
  li_phase ok : lf_closed l = Some (Listed ok) → lf_phase l = Listed ok;
  li_handler : mc_handler (life_client l) = true → mc_conn (life_client l) ≠ None;
  li_channel : mc_stopped (life_client l) = false → mc_conn (life_client l) ≠ None → mc_stopSyn (life_client l) = Some false;
}.

(** What any of these steps does: it writes to the connection or ends the handler, or it
    closes the client, which tells the manager. *)
Record client_effect (st st' : ClientState) : Prop := {
  ce_identity : client_cla st'.1 = client_cla st.1;
  ce_conn : mc_conn st'.1 = None ↔ mc_conn st.1 = None;
  ce_handler : mc_handler st'.1 = true → mc_handler st.1 = true;
  ce_closes : mc_stopped st'.1 = mc_stopped st.1 ∧ mc_stopSyn st'.1 = mc_stopSyn st.1 ∧ st'.2 = st.2 ∨
    mc_stopped st.1 = false ∧ mc_stopped st'.1 = true ∧ st'.2 = NotifyDisconnect (client_cla st.1) st.2;
}.

Lemma client_write_effect o bs st : client_effect st (client_write o bs st).2.
Proof.
  destruct st as [c mg]. unfold client_write. destruct (mc_conn c) as [w|] eqn:E; [|by split; auto].
  destruct (conn_write o bs w). split; simpl; rewrite ?E; auto. done.
Qed.

Lemma client_Close_effect st : client_effect st (client_Close st).2.
Proof.
  destruct st as [c mg]. unfold client_Close. destruct (mc_stopped c) eqn:Es; [by split; auto|].
  split; simpl; destruct (mc_stopSyn c) as [[]|]; simpl; try done; auto.
Qed.

(** Writing does not close. *)
Lemma effect_after st st1 st2 : client_effect st st1 → mc_stopped st1.1 = mc_stopped st.1 → mc_stopSyn st1.1 = mc_stopSyn st.1 → st1.2 = st.2 →
  client_effect st1 st2 → client_effect st st2.
Proof.
  intros [I1 C1' H1' _] Es Ech Em [I2 C2 H2' K]. split; [congruence|tauto|auto|]. rewrite Es, Ech, Em, I1 in K. exact K.
Qed.

Lemma client_write_quiet o bs st : let st' := (client_write o bs st).2 in
  mc_stopped st'.1 = mc_stopped st.1 ∧ mc_stopSyn st'.1 = mc_stopSyn st.1 ∧ st'.2 = st.2.
Proof. destruct st as [c mg]. unfold client_write. destruct (mc_conn c) as [w|]; [|done]. by destruct (conn_write o bs w). Qed.

Lemma then_close_effect o bs st : client_effect st (client_Close (client_write o bs st).2).2.
Proof. destruct (client_write_quiet o bs st) as (? & ? & ?). by eapply effect_after; [apply client_write_effect|..|apply client_Close_effect]. Qed.

Lemma client_Send_effect o1 o2 b st : client_effect st (client_Send o1 o2 b st).2.
Proof.
  unfold client_Send, send_body, lift_res, mbind, M_bind. destruct (Bundle_MarshalCbor b) as [[bs b']| |].
  2: { pose proof (client_Close_effect st) as Hc. by destruct (client_Close st) as [[] st']. }
  2: { by destruct st; split; auto. }
  pose proof (client_write_effect o1 (bundle_frame bs) st) as Hw. pose proof (client_write_quiet o1 (bundle_frame bs) st) as (Q1 & Q2 & Q3).
  pose proof (then_close_effect o1 (bundle_frame bs) st) as Hwc.
  destruct (client_write o1 (bundle_frame bs) st) as [[[]| |] st1]; simpl in *; [|by destruct (client_Close st1) as [[] st2]|done].
  pose proof (client_write_effect o2 (WriteByteStringLen 0) st1) as Hw2. pose proof (then_close_effect o2 (WriteByteStringLen 0) st1) as Hwc2.
  destruct (client_write o2 (WriteByteStringLen 0) st1) as [[[]| |] st2]; simpl in *; [by apply (effect_after st st1)| |by apply (effect_after st st1)].
  destruct (client_Close st2) as [[] st3]; by apply (effect_after st st1).
Qed.

Lemma client_step_effect st st' : client_step st st' → client_effect st st'.
Proof.
  destruct 1 as [o1 o2 b st|o st _ _|st Hh _|st _]; [apply client_Send_effect| |destruct st; split; simpl in *; auto; done|apply client_Close_effect].
  unfold handler_tick. pose proof (client_write_effect o (WriteByteStringLen 0) st) as Hw. pose proof (then_close_effect o (WriteByteStringLen 0) st) as Hwc.
  by destruct (client_write o (WriteByteStringLen 0) st) as [[[]| |] st1].
Qed.

(** What the client's life depends on in the manager. *)
Record same_view (address : string) (peer : EndpointID) (mg mg' : Manager) : Prop := {
  sv_removal : mg_pendingRemoval mg' !! address = mg_pendingRemoval mg !! address;
  sv_senders : (address ∈ addresses (mg_senders mg')) ↔ (address ∈ addresses (mg_senders mg));
  sv_disconnects : disconnects peer mg' = disconnects peer mg;
}.

Lemma disconnects_snoc peer mg mg' cb : mg_callbacks mg' = mg_callbacks mg ++ [cb] → disconnect_of peer cb = false → disconnects peer mg' = disconnects peer mg.
Proof. unfold disconnects. intros -> E. rewrite filter_app, filter_cons, decide_False by congruence. by rewrite filter_nil, app_nil_r. Qed.

Lemma addresses_snoc a cla (b : bool) l : cla_Address cla ≠ a → (a ∈ addresses (if b then l ++ [cla] else l)) ↔ (a ∈ addresses l).
Proof. intros Hne. destruct b; [|done]. rewrite fmap_app, elem_of_app. simpl. rewrite list_elem_of_singleton. split; [intros [|]; congruence|by left]. Qed.

Lemma others_same_view address peer mg mg' : others_step address peer mg mg' → same_view address peer mg mg'.
Proof.
  destruct 1 as [cla mg Ha|ok cla mg Ha|b mg|p mg|cla mg Ha Hp|start listen mg].
  - unfold registerAsync. by destruct (checkPresent cla mg).
  - split; [done|by apply addresses_snoc|done].
  - split; [done..|by eapply disconnects_snoc].
  - split; [done..|by eapply disconnects_snoc].
  - unfold NotifyDisconnect, begin_disconnect. destruct (mg_pendingRemoval mg !! cla_Address cla); [done|]. split; simpl.
    + by rewrite lookup_delete_ne, lookup_insert_ne.
    + destruct (cla_sender cla); [|done]. rewrite addresses_without, list_elem_of_filter. naive_solver.
    + destruct (cla_sender cla) eqn:Es; unfold finish_disconnect, disconnects; rewrite Es; simpl; [|done].
      rewrite filter_app, filter_cons, decide_False by (simpl; by rewrite bool_decide_eq_false_2). by rewrite filter_nil, app_nil_r.
  - by destruct start.
Qed.

(** The client's own disconnection. *)
Lemma own_disconnect c mg : mg_pendingRemoval mg !! mc_address c = None → let mg' := NotifyDisconnect (client_cla c) mg in
  mg_pendingRemoval mg' !! mc_address c = None ∧ (mc_address c ∉ addresses (mg_senders mg')) ∧
  disconnects (mc_peer c) mg' = disconnects (mc_peer c) mg ++ [CbDisconnect (mc_peer c)].
Proof.
  intros Hn. unfold NotifyDisconnect, begin_disconnect. simpl. rewrite Hn. simpl. split; [by rewrite lookup_delete_eq|]. split.
  - rewrite addresses_without, list_elem_of_filter. tauto.
  - unfold disconnects. simpl. rewrite filter_app, filter_cons, decide_True by (simpl; by rewrite bool_decide_eq_true_2). done.
Qed.

Lemma not_listed l : lf_phase l ≠ Listed true → ¬ listed l.
Proof. intros Hne [Heq _]. done. Qed.

Lemma life_run_inv c0 mg0 l st' : life_inv c0 mg0 l → client_effect (lf_state l) st' →
  life_inv c0 mg0 (mkLife st' (lf_phase l) (note_closed (life_client l) st'.1 (lf_phase l) (lf_closed l))).
Proof.
  intros [Hid Hrem Honce Hlist Hcl Hph Hhan Hch] [I C Hh K]. unfold note_closed.
  assert (mc_address (life_client l) = mc_address c0 ∧ mc_peer (life_client l) = mc_peer c0) as [Ha Hp] by (by injection Hid).
  assert (mc_handler st'.1 = true → mc_conn st'.1 ≠ None) as Hhan' by (intros Hx; rewrite C; auto).
  destruct K as [(Es & Ech & Em)|(Es & Es' & Em)].
  - rewrite Es, andb_negb_l. split; unfold listed in *; simpl; rewrite ?Es, ?Ech, ?Em; try done; [congruence|by rewrite C].
  - rewrite Es, Es' in *. simpl. destruct (own_disconnect (life_client l) (life_manager l)) as (D1 & D2 & D3); [by rewrite Ha|].
    rewrite Ha, Hp in *. split; unfold listed; simpl; rewrite ?Em, ?Es'; try done.
    + congruence.
    + by rewrite D3, Honce, app_nil_r.
    + split; [done|]. intros [Hl [?|Hne]]; [done|]. by rewrite Hl in Hne.
    + intros ok [= ->]. done.
Qed.

Lemma life_step_inv c0 mg0 l l' : life_inv c0 mg0 l → life_step l l' → life_inv c0 mg0 l'.
Proof.
  intros Hinv Hst. pose proof Hinv as [Hid Hrem Honce Hlist Hcl Hph Hhan Hch].
  assert (mc_address (life_client l) = mc_address c0 ∧ mc_peer (life_client l) = mc_peer c0) as [Ha Hp] by (by injection Hid).
  destruct Hst as [l Hu Hno|dial l st' r Hu Hd Hact|ok l Hu|l st' Hrun|l mg Ho].
  - pose proof (not_listed l ltac:(by rewrite Hu)) as Hnl.
    split; simpl; try done; unfold registerAsync; rewrite ?Hno; simpl; try done.
    + rewrite Hlist. split; [done|by intros [? _]].
    + intros ok Hx. apply Hph in Hx. congruence.
  - pose proof (not_listed l ltac:(by rewrite Hu)) as Hnl. destruct (lf_state l) as [c mg].
    assert (∀ ok, lf_closed l = Some (Listed ok) → Returned (is_ok r) = Listed ok) as Hph' by (intros ok Hx; apply Hph in Hx; congruence).
    assert (∀ c' mg', listed (mkLife (c', mg') (Returned (is_ok r)) (lf_closed l)) ↔ listed l) as Hl' by (intros c' mg'; split; [by intros [? _]|done]).
    destruct dial as [[]|e|]; [| |done]; injection Hact as <- <-; split; simpl in *; rewrite ?Hl'; try done.
    by rewrite (disconnects_snoc _ mg _ (CbConnect (mc_peer c))).
  - assert (lf_closed l ≠ Some (Listed true)) as Hne by (intros Hx; apply Hph in Hx; congruence).
    pose proof (not_listed l ltac:(by rewrite Hu)) as Hnl.
    split; simpl; try done.
    + rewrite andb_true_r. unfold listed. simpl. destruct ok; [|rewrite Hlist; split; [done|by intros [? _]]].
      rewrite fmap_app, elem_of_app. simpl. rewrite Ha, list_elem_of_singleton. split; [by auto|by right].
    + intros ok' Hx. apply Hph in Hx. congruence.
  - by apply life_run_inv, client_step_effect.
  - rewrite Ha, Hp in Ho. apply others_same_view in Ho as [V1 V2 V3].
    split; unfold listed in *; simpl; try done; by rewrite ?V1, ?V2, ?V3.
Qed.

(** C29: the life of an MTCP client in the manager: registration, activation and listing,
    sends, keepalives and failures, calls of [Close], and steps of other CLAs, in any
    order.  The manager is told of the client's disconnection once if the client was
    closed and never otherwise.  The client is among the senders from the moment the
    manager lists it until it is closed; and if it was closed before the manager got to
    list it, which is a race of [activateCLA] with the client's handler, it is listed all
    the same, and stays.  Neither a keepalive nor closing an activated client panics. *)
Theorem mtcp_disconnect_once address peer mg0 l :
  mg_pendingRemoval mg0 !! address = None → address ∉ addresses (mg_senders mg0) →
  life_reachable (mkLife (NewMTCPClient address peer, mg0) Unregistered None) l →
  disconnects peer (life_manager l) = disconnects peer mg0 ++ (if mc_stopped (life_client l) then [CbDisconnect peer] else []) ∧
  ((address ∈ addresses (mg_senders (life_manager l))) ↔
     lf_phase l = Listed true ∧ (mc_stopped (life_client l) = false ∨ lf_closed l ≠ Some (Listed true))) ∧
  (mc_stopped (life_client l) = true ↔ is_Some (lf_closed l)) ∧
  (mc_conn (life_client l) ≠ None → mc_stopped (life_client l) = false →
     (client_Close (lf_state l)).1 = Ok () ∧ ∀ o, (handler_tick o (lf_state l)).1 = Ok ()).
Proof.
  intros Hr Hs Hreach. assert (life_inv (NewMTCPClient address peer) mg0 l) as [Hid Hrem Honce Hlist Hcl Hph Hhan Hch].
  { induction Hreach as [|l l' _ IH Hst]; [|by eapply life_step_inv]. split; simpl; try done; [by rewrite app_nil_r|].
    split; [done|by intros [? _]]. }
  do 3 (split; [done|]). intros Hc Hstop. specialize (Hch Hstop Hc). destruct (lf_state l) as [c mg]. simpl in *.
  split; [unfold client_Close; rewrite Hstop; simpl; by rewrite Hch|]. intros o. unfold handler_tick, client_write.
  destruct (mc_conn c) as [w|]; [|done]. destruct o as [|n]; [done|]. unfold client_Close. simpl. rewrite Hstop. simpl. by rewrite Hch.
Qed.
End Life.

(** ** The server's life *)

Inductive server_reachable (serv0 : MTCPServer) : MTCPServer → Prop :=
  | sr_start : server_reachable serv0 serv0
  | sr_next serv serv' : server_reachable serv0 serv → server_step serv serv' → server_reachable serv0 serv'.

(** Once its deadline cannot be set, the accepting loop calls [Close], which waits for
    the loop: no step ever acknowledges, so no call of [Close] returns. *)
Theorem mtcp_server_deadlock serv serv' : ms_loop serv = InClose → ms_stopAck serv = false →
  server_reachable serv serv' → ms_loop serv' = InClose ∧ ms_stopAck serv' = false.
Proof.
  intros Hl Ha. induction 1 as [|serv1 serv2 _ [IHl IHa] Hs]; [done|]. destruct Hs as [|s s' E| |]; try congruence.
  unfold begin_Close in E. destruct (ms_stopSyn s); by simplify_eq/=.
Qed.

(** In every reachable server the acknowledgement is only given after a stop was
    asked for and the loop has ended; a [Close] of a running server whose loop is
    accepting is acknowledged by the loop's next round. *)
Theorem mtcp_server_close address eid serv : server_reachable (NewMTCPServer address eid) serv →
  (ms_stopAck serv = true → ms_stopSyn serv = true ∧ ms_loop serv = Ended ∧ ms_running serv = false) ∧
  (ms_loop serv = Looping → ms_stopSyn serv = true → ∀ deadline,
     ∃ serv', accept_round deadline serv = (Ok (), serv') ∧ ms_stopAck serv' = true ∧ ms_running serv' = false).
Proof.
  intros Hr. split.
  - induction Hr as [|serv1 serv2 _ IH Hs]; [done|]. destruct Hs as [listen s|s s' E|dl s s' El E|s El Ea].
    + destruct listen; simpl; [|done..]. intros Ha. destruct (IH Ha) as (_ & ? & _). congruence.
    + unfold begin_Close in E. destruct (ms_stopSyn s) eqn:Es; simplify_eq/=. intros Ha. destruct (IH Ha) as (? & _). congruence.
    + unfold accept_round in E. destruct (ms_stopSyn s) eqn:Es; [by simplify_eq/=|].
      intros Ha. assert (ms_stopAck s = true → False) as Hno by (intros Hs; destruct (IH Hs) as (? & _); congruence).
      destruct dl; unfold mbind, M_bind, begin_Close, modify in E; rewrite ?Es in E; simplify_eq/=; by destruct (Hno Ha).
    + destruct (IH Ea) as (_ & ? & _). congruence.
  - intros Hl Hs deadline. unfold accept_round. rewrite Hs. by eexists.
Qed.

(** ** Witnesses *)

Definition live_client : MTCPClient := mkClient (dtn "peer" "") "10.0.0.2:4556" (Some []) (Some false) false true.
Definition closed_client : MTCPClient := mkClient (dtn "peer" "") "10.0.0.2:4556" None None true false.

Lemma sample_writable : writable GetExtensionBlockManager sample_bundle.
Proof.
  split; [exact sample_bundle_wf|]. intros bs b' Hm.
  assert (Bundle_MarshalCbor sample_bundle = Ok (bs, b') → len bs = 89) as Hl; [|rewrite (Hl Hm); u64_lia].
  intros E. vm_compute in E. injection E as <- _. vm_compute. reflexivity.
Qed.

Lemma mtcp_delivery_witness :
  ∃ w c', run_client [Some sample_bundle; None; Some sample_bundle] (live_client, InitialiseCLAManager) = (Ok (), (c', InitialiseCLAManager)) ∧
    mc_conn c' = Some w ∧ Forall2 (λ b' b, erase_crc b' = erase_crc b) (serve GetExtensionBlockManager (λ _, 0) w) [sample_bundle; sample_bundle].
Proof.
  destruct (mtcp_delivery GetExtensionBlockManager (λ _, 0) [Some sample_bundle; None; Some sample_bundle] live_client InitialiseCLAManager)
    as (w & c' & Hr & Hw & _ & Hall).
  - reflexivity.
  - constructor; [exact sample_writable|constructor; [exact sample_writable|constructor]].
  - exists w, c'. split; [exact Hr|]. split; [exact Hw|]. apply Hall.
    constructor; [intros i; vm_compute; reflexivity|constructor; [intros i; vm_compute; reflexivity|constructor]].
Defined.

(** A client that is registered and activated, whose keepalive fails, and which the manager
    then lists. *)
Definition new_life : Life := mkLife (NewMTCPClient "10.0.0.2:4556" (dtn "peer" ""), InitialiseCLAManager) Unregistered None.
Definition registered_life : Life :=
  mkLife (life_client new_life, registerAsync (client_cla (life_client new_life)) InitialiseCLAManager) Activating None.
Definition activated_life : Life := mkLife (client_Activate (Ok ()) (lf_state registered_life)).2 (Returned true) None.
Definition closed_life : Life := mkLife (handler_tick (WFail 0) (lf_state activated_life)).2 (Returned true) (Some (Returned true)).
Definition early_client : Life :=
  mkLife (life_client closed_life, activateCLA true (client_cla (life_client closed_life)) (life_manager closed_life)) (Listed true) (Some (Returned true)).

Lemma mtcp_disconnect_once_witness :
  disconnects (dtn "peer" "") (life_manager early_client) = [CbDisconnect (dtn "peer" "")] ∧
  "10.0.0.2:4556" ∈ addresses (mg_senders (life_manager early_client)).
Proof.
  destruct (mtcp_disconnect_once "10.0.0.2:4556" (dtn "peer" "") InitialiseCLAManager early_client) as (Hd & Hl & _).
  - reflexivity.
  - apply not_elem_of_nil.
  - apply (lr_next _ closed_life); [apply (lr_next _ activated_life); [apply (lr_next _ registered_life); [apply (lr_next _ new_life); [apply lr_start|]|]|]|].
    + exact (l_register new_life eq_refl eq_refl).
    + apply (l_activate (Ok ()) registered_life (lf_state activated_life) (Ok ())); [reflexivity|discriminate|reflexivity].
    + apply (l_run activated_life (lf_state closed_life)), (c_tick (WFail 0) (lf_state activated_life)); [reflexivity|discriminate].
    + exact (l_list true closed_life eq_refl).
  - split; [exact Hd|]. apply Hl. split; [reflexivity|]. right. discriminate.
Defined.

Lemma mtcp_server_close_witness :
  ∃ serv', accept_round (Ok ()) (mkServer ":4556" (dtn "a" "") true true false Looping) = (Ok (), serv') ∧ ms_stopAck serv' = true.
Proof.
  destruct (mtcp_server_close ":4556" (dtn "a" "") (mkServer ":4556" (dtn "a" "") true true false Looping)) as [_ Hc].
  - eapply sr_next; [eapply sr_next; [apply sr_start|]|].
    + exact (s_start (Ok ()) (NewMTCPServer ":4556" (dtn "a" "")) eq_refl).
    + apply s_close. reflexivity.
  - destruct (Hc eq_refl eq_refl (Ok ())) as (serv' & Hr & Ha & _). exists serv'. split; [exact Hr|exact Ha].
Defined.
