(* ===== verification/Quicl.v ===== *)
(** * The QUICL convergence layer

    [pkg/cla/quicl]: a handshake exchanges the endpoint ids over one stream; afterwards
    every bundle is a stream of its own.  The outcomes of calls of the QUIC library are
    arguments; what is written to a stream and read from it are bytes. *)

From stdpp Require Import base tactics list strings gmap.
From Stdlib Require Import ZArith Lia Bool.
From S2P Require Import Prelude Cboring Flags Crc DtnTime Endpoint BundleId ExtensionBlocks Blocks.
From S2P Require Import Bundle Samples BundleCodec Cla Mtcp.
Local Open Scope Z_scope.

(** ** Errors *)

Definition UnknownError : Z := 1.
Definition ApplicationShutdown : Z := 2.
Definition LocalError : Z := 3.
Definition PeerError : Z := 4.
Definition ConnectionError : Z := 5.
Definition DataMarshalError : Z := 1.
Definition StreamTransmissionError : Z := 2.

Record HandshakeError := mkHandshakeError { he_Msg : string; he_Code : Z }.

(** The result of a call that fails with a handshake error. *)
Inductive hres (A : Type) :=
  | HOk (a : A)
  | HErr (e : HandshakeError)
  | HPanic.
Arguments HOk {A} a.
Arguments HErr {A} e.
Arguments HPanic {A}.

(** What a call of the QUIC library may fail with: an error that is a timeout of the
    network, one that the context's deadline caused, one with which the peer or this side
    closed the connection, or any other. *)
Inductive quic_error :=
  | NetTimeout
  | NetOther
  | DeadlineExceeded
  | ApplicationError (remote : bool)
  | OtherError.

Inductive quic_result (A : Type) :=
  | QOk (a : A)
  | QErr (e : quic_error).
Arguments QOk {A} a.
Arguments QErr {A} e.

(** ** Endpoints *)

(** [ep_connection] says whether there is a connection and [ep_closed] with which code it
    was closed. *)
Record Endpoint := mkEndpoint {
  ep_id : EndpointID;
  ep_peerId : EndpointID;
  ep_peerAddress : string;
  ep_connection : bool;
  ep_closed : option Z;
  ep_dialer : bool;
  ep_active : bool;
  ep_handshake : bool;
}.

Definition NewListenerEndpoint (id : EndpointID) (remoteAddr : string) : Endpoint := mkEndpoint id None remoteAddr true None false false false.
Definition NewDialerEndpoint (peerAddress : string) (id : EndpointID) : Endpoint := mkEndpoint id None peerAddress false None true false false.

Definition set_ep_peerId p ep := mkEndpoint (ep_id ep) p (ep_peerAddress ep) (ep_connection ep) (ep_closed ep) (ep_dialer ep) (ep_active ep) (ep_handshake ep).
Definition set_ep_connection ep := mkEndpoint (ep_id ep) (ep_peerId ep) (ep_peerAddress ep) true (ep_closed ep) (ep_dialer ep) (ep_active ep) (ep_handshake ep).
Definition set_ep_closed code ep := mkEndpoint (ep_id ep) (ep_peerId ep) (ep_peerAddress ep) (ep_connection ep) (Some code) (ep_dialer ep) (ep_active ep) (ep_handshake ep).
Definition set_ep_active ep := mkEndpoint (ep_id ep) (ep_peerId ep) (ep_peerAddress ep) (ep_connection ep) (ep_closed ep) (ep_dialer ep) true (ep_handshake ep).
Definition set_ep_handshake ep := mkEndpoint (ep_id ep) (ep_peerId ep) (ep_peerAddress ep) (ep_connection ep) (ep_closed ep) (ep_dialer ep) (ep_active ep) true.

(** An endpoint both receives and sends; its address is its peer's. *)
Definition endpoint_cla (ep : Endpoint) : Convergence := mkCLA (ep_peerAddress ep) true true (ep_peerId ep).

(** [Close]; there is no connection before a dialer's activation. *)
Definition endpoint_Close (ep : Endpoint) : res () * Endpoint :=
  if ep_connection ep then (Ok (), set_ep_closed ApplicationShutdown ep) else (Panic, ep).

Section Quicl.
Context `{Cboring} `{Crc16} `{GoMapRange} `{Ed25519}.

(** ** The handshake *)

(** The message of an error after [n] of the bytes of a frame were written: a
    [bufio.Writer] writes 4096 bytes as soon as there are more, then what is left at once if
    it is more than that again, and the rest when it is flushed. *)
Definition bufferSize : Z := 4096.
Definition send_error (frame : bytes) (n : nat) : string :=
  if (bufferSize <? len frame) && ((Z.of_nat n <? bufferSize) || (bufferSize <? len frame - bufferSize))
  then "error sending id" else "error flushing write-buffer".

(** [sendEndpointID]: what is written to the stream, and the result; [o] is the outcome of
    the writes. *)
Definition sendEndpointID (o : write_outcome) (ep : Endpoint) : hres () * bytes :=
  match EndpointID_MarshalCbor (ep_id ep) with
  | Err _ => (HErr (mkHandshakeError "error marshaling endpoint-id" LocalError), [])
  | Panic => (HPanic, [])
  | Ok buff =>
      let frame := WriteByteStringLen (len buff) ++ buff in
      match o with
      | WOk => (HOk (), frame)
      | WFail n => (HErr (mkHandshakeError (send_error frame n) ConnectionError), take n frame)
      end
  end.

(** [receiveEndpointID] on what can be read from the stream.  An end of the stream where
    the length should be counts as the length zero. *)
Definition receiveEndpointID (inp : bytes) (ep : Endpoint) : hres () * Endpoint :=
  let failed msg := (HErr (mkHandshakeError msg ConnectionError), ep) in
  match ReadByteStringLen inp with
  | (Panic, _) => (HPanic, ep)
  | (Err _, _) => failed "error reading id length"
  | (Ok length, r) =>
      if length =? 0 then failed "error reading id length" else
      match EndpointID_UnmarshalCbor r with
      | (Panic, _) => (HPanic, ep)
      | (Err _, _) => failed "error reading id"
      | (Ok id, _) => (HOk (), set_ep_peerId id ep)
      end
  end.

(** [handshakeDialer]: the stream's opening, the write, what the listener answers; with
    what was written. *)
Definition handshakeDialer (open : quic_result ()) (o : write_outcome) (inp : bytes) (ep : Endpoint) : hres () * Endpoint * bytes :=
  match open with
  | QErr _ => (HErr (mkHandshakeError "Error during stream initiation" ConnectionError), ep, [])
  | QOk _ =>
      match sendEndpointID o ep with
      | (HOk _, out) =>
          match receiveEndpointID inp ep with
          | (HOk _, ep) => (HOk (), set_ep_handshake ep, out)
          | (r, ep) => (r, ep, out)
          end
      | (r, out) => (r, ep, out)
      end
  end.

(** [handshakeListener]: the accepted stream, what the dialer sent, the write, and closing
    the stream. *)
Definition handshakeListener (accept : quic_result ()) (inp : bytes) (o : write_outcome) (close : quic_result ()) (ep : Endpoint) :
    hres () * Endpoint * bytes :=
  match accept with
  | QErr DeadlineExceeded => (HErr (mkHandshakeError "dialer took too long to initiate handshake" PeerError), ep, [])
  | QErr _ => (HErr (mkHandshakeError "unanticipated error happened" UnknownError), ep, [])
  | QOk _ =>
      match receiveEndpointID inp ep with
      | (HOk _, ep) =>
          match sendEndpointID o ep with
          | (HOk _, out) =>
              match close with
              | QOk _ => (HOk (), set_ep_handshake ep, out)
              | QErr _ => (HErr (mkHandshakeError "error closing handshake stream" ConnectionError), ep, out)
              end
          | (r, out) => (r, ep, out)
          end
      | (r, ep) => (r, ep, [])
      end
  end.

(** [Activate] after the connection is there: the handshake's result closes the connection
    or makes the endpoint active. *)
Definition finish_Activate (x : hres () * Endpoint * bytes) (mg : Manager) : res () * Endpoint * Manager * bytes :=
  match x with
  | (HOk _, ep, out) => (Ok (), set_ep_active ep, NotifyConnect (ep_peerId ep) mg, out)
  | (HErr e, ep, out) => (Err (errorf (he_Msg e)), set_ep_closed (he_Code e) ep, mg, out)
  | (HPanic, ep, out) => (Panic, ep, mg, out)
  end.

Definition Activate_dialer (dial open : quic_result ()) (o : write_outcome) (inp : bytes) (ep : Endpoint) (mg : Manager) :
    res () * Endpoint * Manager * bytes :=
  match dial with
  | QErr _ => (Err (errorf "dial"), ep, mg, [])
  | QOk _ => finish_Activate (handshakeDialer open o inp (set_ep_connection ep)) mg
  end.

Definition Activate_listener (accept : quic_result ()) (inp : bytes) (o : write_outcome) (close : quic_result ()) (ep : Endpoint) (mg : Manager) :
    res () * Endpoint * Manager * bytes :=
  finish_Activate (handshakeListener accept inp o close ep) mg.

(** ** Bundles *)

Definition is_timeout (e : quic_error) : bool := match e with NetTimeout => true | _ => false end.

Definition disconnect_on_timeout (e : quic_error) (ep : Endpoint) (mg : Manager) : Manager :=
  if is_timeout e then NotifyDisconnect (endpoint_cla ep) mg else mg.

(** [Send]: what is written to the bundle's stream, if one is opened; [write] is the outcome
    of writing and flushing.  The semaphore, which limits the number of concurrent calls, is
    taken and released within the call. *)
Definition endpoint_Send (open write : quic_result ()) (bndl : Bundle) (ep : Endpoint) (mg : Manager) : res () * Manager * option bytes :=
  if negb (ep_handshake ep) then (Err (errorf "Handshake not yet completed"), mg, None) else
  match Bundle_MarshalCbor bndl with
  | Err e => (Err e, mg, None)
  | Panic => (Panic, mg, None)
  | Ok (buff, _) =>
      match open with
      | QErr e => (Err (errorf "open stream"), disconnect_on_timeout e ep mg, None)
      | QOk _ =>
          match write with
          | QErr e => (Err (errorf "write"), disconnect_on_timeout e ep mg, None)
          | QOk _ => (Ok (), mg, Some buff)
          end
      end
  end.

(** [handleStream]: the bundle handed to the callback; [failure] is the network error that
    ended the stream, if reading failed for one.  Nothing recovers a panic. *)
Definition handleStream (ebm : ExtensionBlockManager) (now : Z) (inp : bytes) (failure : quic_error) (ep : Endpoint) (mg : Manager) :
    res (option Bundle) * Manager :=
  match Bundle_UnmarshalCbor ebm now (zero_bundle, inp) with
  | (Ok _, (bundle, _)) => (Ok (Some bundle), mg)
  | (Err _, _) => (Ok None, disconnect_on_timeout failure ep mg)
  | (Panic, _) => (Panic, mg)
  end.

(** [handleConnection] over the outcomes of [AcceptStream]: the streams for which a
    goroutine was started, whether the loop has ended, and the manager. *)
Fixpoint endpoint_handleConnection (accepts : list (quic_result bytes)) (ep : Endpoint) (mg : Manager) : list bytes * bool * Manager :=
  match accepts with
  | [] => ([], false, mg)
  | QOk stream :: accepts =>
      let '(streams, ended, mg) := endpoint_handleConnection accepts ep mg in (stream :: streams, ended, mg)
  | QErr (ApplicationError remote) :: _ => ([], true, if remote then NotifyDisconnect (endpoint_cla ep) mg else mg)
  | QErr e :: accepts =>
      if is_timeout e then ([], true, NotifyDisconnect (endpoint_cla ep) mg) else endpoint_handleConnection accepts ep mg
  end.

(** ** The listener *)

(** [ls_quicListener]: nil before [Start]. *)
Record Listener := mkListener {
  ls_listenAddress : string;
  ls_endpointID : EndpointID;
  ls_quicListener : bool;
  ls_running : bool;
}.

Definition NewQUICListener (listenAddress : string) (endpointID : EndpointID) : Listener := mkListener listenAddress endpointID false false.

Definition listener_Start (listen : quic_result ()) (l : Listener) : res () * Listener :=
  match listen with
  | QErr _ => (Err (errorf "listen"), l)
  | QOk _ => (Ok (), mkListener (ls_listenAddress l) (ls_endpointID l) true true)
  end.

Definition listener_Close (l : Listener) : res () * Listener :=
  (if ls_quicListener l then Ok () else Panic, mkListener (ls_listenAddress l) (ls_endpointID l) (ls_quicListener l) false).

(** What [Accept] returns: a connection from an address, the error of a closed listener, or
    another one. *)
Inductive accepted := AConn (remoteAddr : string) | AServerClosed | AOther.

(** [handle] over the outcomes of [Accept]: whether the loop has ended, and the manager. *)
Fixpoint listener_handle (accepts : list accepted) (l : Listener) (mg : Manager) : bool * Manager :=
  match accepts with
  | [] => (false, mg)
  | AServerClosed :: _ => (true, mg)
  | AOther :: accepts => listener_handle accepts l mg
  | AConn addr :: accepts => listener_handle accepts l (registerAsync (endpoint_cla (NewListenerEndpoint (ls_endpointID l) addr)) mg)
  end.
End Quicl.
