(* ===== verification/QuiclProps.v ===== *)
(** * Properties of the QUICL convergence layer *)

From stdpp Require Import base tactics list strings gmap.
From Stdlib Require Import ZArith Lia Bool.
From S2P Require Import Prelude Cboring Flags Crc DtnTime Endpoint BundleId ExtensionBlocks Blocks.
From S2P Require Import Bundle Samples BundleValid BundleCodec Cla Mtcp Quicl.
Local Open Scope Z_scope.

Section Props.
Context `{Cboring} `{Crc16} `{GoMapRange} `{Ed25519} `{!CboringLaws _}.

(** ** The handshake *)

(** The id written in a handshake. *)
Definition id_frame (buff : bytes) : bytes := WriteByteStringLen (len buff) ++ buff.

(** An endpoint id that can be written and read. *)
Definition announceable (id : EndpointID) : Prop :=
  EndpointID_wf id ∧ EndpointID_fits id ∧ ∀ buff, EndpointID_MarshalCbor id = Ok buff → is_u64 (len buff) ∧ len buff ≠ 0.

Lemma sendEndpointID_Ok ep : announceable (ep_id ep) →
  ∃ buff, EndpointID_MarshalCbor (ep_id ep) = Ok buff ∧ sendEndpointID WOk ep = (HOk (), id_frame buff).
Proof.
  intros (Hwf & _ & _). destruct (EndpointID_Marshal_wf _ Hwf) as (et & _ & Hm). eexists. split; [exact Hm|].
  unfold sendEndpointID. by rewrite Hm.
Qed.

Lemma receiveEndpointID_Ok id buff r ep : announceable id → EndpointID_MarshalCbor id = Ok buff →
  receiveEndpointID (id_frame buff ++ r) ep = (HOk (), set_ep_peerId id ep).
Proof.
  intros (Hwf & Hfit & Hl) Hm. destruct (Hl _ Hm) as [Hu Hz]. unfold receiveEndpointID, id_frame. rewrite <- (assoc_L (++)).
  rewrite bslen_rt by done. destruct (Z.eqb_spec (len buff) 0); [done|]. by rewrite (EndpointID_rt id buff r Hwf Hfit Hm).
Qed.

(** C16: if a dialer and a listener each read what the other has written and no call fails,
    both become active and each knows the other's endpoint id and tells its manager. *)
Theorem quicl_handshake dialer listener mgd mgl : announceable (ep_id dialer) → announceable (ep_id listener) →
  ∃ out_d out_l dialer' listener',
    Activate_dialer (QOk ()) (QOk ()) WOk out_l dialer mgd = (Ok (), dialer', NotifyConnect (ep_id listener) mgd, out_d) ∧
    Activate_listener (QOk ()) out_d WOk (QOk ()) listener mgl = (Ok (), listener', NotifyConnect (ep_id dialer) mgl, out_l) ∧
    ep_peerId dialer' = ep_id listener ∧ ep_peerId listener' = ep_id dialer ∧
    ep_active dialer' = true ∧ ep_active listener' = true ∧ ep_handshake dialer' = true ∧ ep_handshake listener' = true.
Proof.
  intros Hd Hl.
  destruct (sendEndpointID_Ok (set_ep_connection dialer) Hd) as (bd & Md & Sd).
  destruct (sendEndpointID_Ok (set_ep_peerId (ep_id dialer) listener) Hl) as (bl & Ml & Sl).
  exists (id_frame bd), (id_frame bl). eexists _, _. unfold Activate_dialer, Activate_listener, handshakeDialer, handshakeListener.
  rewrite Sd. rewrite <- (app_nil_r (id_frame bl)), (receiveEndpointID_Ok (ep_id listener) bl []) by done.
  rewrite <- (app_nil_r (id_frame bd)), (receiveEndpointID_Ok (ep_id dialer) bd []) by done. rewrite Sl, !app_nil_r. simpl.
  repeat split.
Qed.

(** An endpoint whose activation fails is not active and has not told the manager that
    it is connected, and the connection of a failed handshake is closed with the error's
    code. *)
Theorem quicl_activation_error x ep' mg mg' out e : finish_Activate x mg = (Err e, ep', mg', out) →
  mg' = mg ∧ ep_active ep' = ep_active x.1.2 ∧ ∃ herr, x.1.1 = HErr herr ∧ ep_closed ep' = Some (he_Code herr) ∧ e = errorf (he_Msg herr).
Proof. destruct x as [[[[]|herr|] ep] out']; simpl; [done| |done]. intros [= <- <- <- <-]. repeat split. by exists herr. Qed.

(** ** Bundles *)

(** C15: a well-formed bundle that is sent over an endpoint with a completed handshake, and
    is valid when the receiver reads it, arrives: the bytes of its stream make the receiver
    hand the same bundle, up to the CRC fields, to its callback. *)
Theorem quicl_delivery ebm now b ep mg ep2 mg2 failure : Bundle_wf ebm b → Bundle_CheckValid now b = Ok [] →
  ep_handshake ep = true →
  ∃ stream b', endpoint_Send (QOk ()) (QOk ()) b ep mg = (Ok (), mg, Some stream) ∧ erase_crc b' = erase_crc b ∧
    handleStream ebm now stream failure ep2 mg2 = (Ok (Some b'), mg2).
Proof.
  intros Hwf Hv Hh. destruct (Bundle_Marshal_wf ebm b Hwf) as (body & b' & Hm & He & Hu).
  eexists _, b'. unfold endpoint_Send, handleStream. rewrite Hh, Hm. simpl. split; [reflexivity|]. split; [done|].
  rewrite (Hu now [BreakCode] []) by apply CanonicalBlock_break. by rewrite (check_bundle_erase now b b' He Hv).
Qed.

(** The loop ends only when the connection is gone: every stream accepted before is
    handled, also after errors that are neither timeouts nor the connection's end. *)
Theorem quicl_streams_handled streams ep mg rest :
  (endpoint_handleConnection ((QOk <$> streams) ++ rest) ep mg).1.1 = streams ++ (endpoint_handleConnection rest ep mg).1.1.
Proof.
  induction streams as [|x streams IH]; [done|]. rewrite fmap_cons. simpl. rewrite <- IH.
  by destruct (endpoint_handleConnection ((QOk <$> streams) ++ rest) ep mg) as [[? ?] ?].
Qed.
(** A listener registers an endpoint for every connection it accepts until it is closed, and
    keeps the manager's lists free of duplicate addresses. *)
Theorem quicl_listener_registers addrs rest l mg : mg_inv mg →
  let mg' := (listener_handle ((AConn <$> addrs) ++ AServerClosed :: rest) l mg) in
  mg'.1 = true ∧ mg_inv mg'.2 ∧ mg_pendingStart mg ⊆ mg_pendingStart mg'.2 ∧
  ∀ addr, addr ∈ addrs → checkPresent (endpoint_cla (NewListenerEndpoint (ls_endpointID l) addr)) mg'.2 = true.
Proof.
  revert mg. enough (∀ mg, mg_inv mg → let mg' := (listener_handle ((AConn <$> addrs) ++ AServerClosed :: rest) l mg) in
    mg'.1 = true ∧ mg_inv mg'.2 ∧ mg_pendingStart mg ⊆ mg_pendingStart mg'.2 ∧ mg_receivers mg'.2 = mg_receivers mg ∧
    mg_senders mg'.2 = mg_senders mg ∧
    ∀ addr, addr ∈ addrs → checkPresent (endpoint_cla (NewListenerEndpoint (ls_endpointID l) addr)) mg'.2 = true) as Hgen
    by (intros mg Hi; destruct (Hgen mg Hi) as (? & ? & ? & _ & _ & ?); done).
  induction addrs as [|a addrs IH]; intros mg Hi; [cbv zeta; repeat split; try apply Hi; auto; intros addr Hin; by apply not_elem_of_nil in Hin|].
  rewrite fmap_cons. cbn [listener_handle app]. set (c := endpoint_cla (NewListenerEndpoint (ls_endpointID l) a)).
  destruct (IH (registerAsync c mg) (register_inv c mg Hi)) as (He & Hi' & Hp & Hr & Hs & Hc).
  assert (mg_receivers (registerAsync c mg) = mg_receivers mg ∧ mg_senders (registerAsync c mg) = mg_senders mg ∧
    mg_pendingStart mg ⊆ mg_pendingStart (registerAsync c mg)) as (Er & Es & Ep).
  { unfold registerAsync. destruct (checkPresent c mg); [done|]. repeat split. intros x Hx. apply elem_of_app. by left. }
  cbv zeta. split; [done|]. split; [done|]. split; [by etrans|]. split; [by rewrite Hr|]. split; [by rewrite Hs|].
  intros addr [->|Hin]%elem_of_cons; [|by apply Hc]. apply (checkPresent_mono c _ _ Hr Hs Hp). apply registerAsync_present.
Qed.
End Props.

(** ** Examples *)

(** A peer can bring the receiving daemon down: a bundle without a payload block makes
    validation panic, and nothing on the way recovers. *)
Theorem quicl_remote_panic : ∃ stream,
  (handleStream GetExtensionBlockManager 0 stream OtherError (NewDialerEndpoint "" None) InitialiseCLAManager).1 = Panic.
Proof.
  exists (IndefiniteArray :: match PrimaryBlock_MarshalCbor (sample_primary 0) with Ok (bs, _) => bs | _ => [] end ++ [BreakCode]).
  vm_compute. reflexivity.
Qed.

Lemma sample_announceable node : node = "a" ∨ node = "b" → announceable (dtn node "").
Proof.
  intros Hn. split; [|split].
  - destruct Hn as [->| ->]; vm_compute; auto.
  - destruct Hn as [->| ->]; vm_compute; split; congruence.
  - intros buff Hm. destruct Hn as [->| ->]; vm_compute in Hm; injection Hm as <-; split; vm_compute; (split; congruence) || congruence.
Qed.

Lemma quicl_handshake_witness :
  ∃ out_d out_l dialer' listener',
    Activate_dialer (QOk ()) (QOk ()) WOk out_l (NewDialerEndpoint "10.0.0.2:35037" (dtn "a" "")) InitialiseCLAManager =
      (Ok (), dialer', NotifyConnect (dtn "b" "") InitialiseCLAManager, out_d) ∧
    Activate_listener (QOk ()) out_d WOk (QOk ()) (NewListenerEndpoint (dtn "b" "") "10.0.0.1:4000") InitialiseCLAManager =
      (Ok (), listener', NotifyConnect (dtn "a" "") InitialiseCLAManager, out_l).
Proof.
  destruct (quicl_handshake (NewDialerEndpoint "10.0.0.2:35037" (dtn "a" "")) (NewListenerEndpoint (dtn "b" "") "10.0.0.1:4000")
    InitialiseCLAManager InitialiseCLAManager) as (od & ol & d & l & Hd & Hl & _).
  - apply sample_announceable. left. reflexivity.
  - apply sample_announceable. right. reflexivity.
  - exists od, ol, d, l. split; [exact Hd|exact Hl].
Defined.

Lemma quicl_activation_error_witness :
  ∃ ep, finish_Activate (handshakeDialer (QErr NetOther) WOk [] (NewDialerEndpoint "x" (dtn "a" ""))) InitialiseCLAManager =
    (Err (errorf "Error during stream initiation"), ep, InitialiseCLAManager, []) ∧ ep_active ep = false.
Proof.
  eexists. split; [reflexivity|].
  destruct (quicl_activation_error (handshakeDialer (QErr NetOther) WOk [] (NewDialerEndpoint "x" (dtn "a" "")))
    (set_ep_closed ConnectionError (NewDialerEndpoint "x" (dtn "a" ""))) InitialiseCLAManager InitialiseCLAManager []
    (errorf "Error during stream initiation") eq_refl) as (_ & Ha & _). exact Ha.
Defined.

Lemma quicl_delivery_witness :
  ∃ stream b', endpoint_Send (QOk ()) (QOk ()) sample_bundle (set_ep_handshake (NewDialerEndpoint "x" (dtn "a" ""))) InitialiseCLAManager =
    (Ok (), InitialiseCLAManager, Some stream) ∧ erase_crc b' = erase_crc sample_bundle ∧
    handleStream GetExtensionBlockManager 0 stream OtherError (NewDialerEndpoint "y" (dtn "b" "")) InitialiseCLAManager = (Ok (Some b'), InitialiseCLAManager).
Proof.
  apply (quicl_delivery GetExtensionBlockManager 0 sample_bundle).
  - exact sample_bundle_wf.
  - vm_compute. reflexivity.
  - reflexivity.
Defined.
