(* ===== verification/Dummy.v ===== *)
(** * The CLA for tests

    [pkg/cla/dummy_cla]: ends of a channel of serialised bundles.  The two ends that
    [NewDummyCLAPair] makes share one channel, so the channels live in a store and an end
    names its channel by its address; calls of [Send] that wait for a receiver, and the
    goroutines [handleReceive], are part of the state.  Every interleaving of their steps
    is an execution. *)

From stdpp Require Import base tactics list strings gmap relations.
From Stdlib Require Import ZArith Lia Bool.
From S2P Require Import Prelude Cboring Flags Crc DtnTime Endpoint BundleId ExtensionBlocks Blocks.
From S2P Require Import Bundle Samples BundleValid BundleCodec.
Local Open Scope Z_scope.

(** ** Data *)

Record DummyCLA := mkDummy {
  du_ownID : EndpointID;
  du_peerID : EndpointID;
  du_transferChannel : option nat;
  du_channelActive : bool;
}.

Definition set_du_channelActive v d := mkDummy (du_ownID d) (du_peerID d) (du_transferChannel d) v.

(** The ends, the channels with whether they are closed, the calls of [Send] that wait on a
    channel and the running [handleReceive] goroutines, by their ends; what the callbacks
    were given and by which end. *)
Record DummyWorld := mkDummyWorld {
  dw_clas : list DummyCLA;
  dw_channels : list bool;
  dw_sending : list (nat * bytes);
  dw_receiving : list nat;
  dw_received : list (nat * bytes);
  dw_callbacks : list (nat * Bundle);
}.

Definition empty_world : DummyWorld := mkDummyWorld [] [] [] [] [] [].

Definition set_dw_clas l w := mkDummyWorld l (dw_channels w) (dw_sending w) (dw_receiving w) (dw_received w) (dw_callbacks w).
Definition set_dw_channels l w := mkDummyWorld (dw_clas w) l (dw_sending w) (dw_receiving w) (dw_received w) (dw_callbacks w).
Definition set_dw_sending l w := mkDummyWorld (dw_clas w) (dw_channels w) l (dw_receiving w) (dw_received w) (dw_callbacks w).
Definition set_dw_receiving l w := mkDummyWorld (dw_clas w) (dw_channels w) (dw_sending w) l (dw_received w) (dw_callbacks w).

(** ** Operations *)

Definition NewSuperDummyCLA (peerID : EndpointID) : DummyCLA := mkDummy None peerID None false.

(** The addresses of the two ends are the next ones. *)
Definition NewDummyCLAPair (peerAID peerBID : EndpointID) (w : DummyWorld) : DummyWorld :=
  let transferChannel := length (dw_channels w) in
  set_dw_channels (dw_channels w ++ [false])
    (set_dw_clas (dw_clas w ++ [mkDummy peerAID peerBID (Some transferChannel) false;
                                mkDummy peerBID peerAID (Some transferChannel) false]) w).

Definition Dummy_Address (d : DummyCLA) : string := "dummycla://" +:+ (EndpointID_String (du_ownID d) +:+ "/").

(** A method of the end [i]; there is none at an address that was not allocated. *)
Definition on_end {A} (i : nat) (f : DummyCLA → M DummyWorld A) : M DummyWorld A := λ w,
  match dw_clas w !! i with Some d => f d w | None => (Panic, w) end.

Definition set_active (i : nat) (d : DummyCLA) (v : bool) : M DummyWorld () :=
  modify (λ w, set_dw_clas (<[i := set_du_channelActive v d]> (dw_clas w)) w).

Definition Dummy_Activate (i : nat) : M DummyWorld () := on_end i (λ d,
  set_active i d true;;
  modify (λ w, set_dw_receiving (dw_receiving w ++ [i]) w)).

(** Closing a channel that is [nil] or closed panics. *)
Definition close_channel (ch : option nat) : M DummyWorld () := λ w,
  match ch with
  | None => (Panic, w)
  | Some c =>
      match dw_channels w !! c with
      | Some false => (Ok (), set_dw_channels (<[c := true]> (dw_channels w)) w)
      | _ => (Panic, w)
      end
  end.

Definition Dummy_Close (i : nat) : M DummyWorld () := on_end i (λ d,
  set_active i d false;;
  if du_channelActive d then close_channel (du_transferChannel d) else mret ()).

Section Transfer.
Context `{Cboring} `{Crc16} `{GoMapRange} `{Ed25519}.
Context (ebm : ExtensionBlockManager) (now : Z).

(** [Send] up to its operation on the channel. *)
Definition Dummy_Send (i : nat) (bundle : Bundle) : M DummyWorld () := on_end i (λ d,
  '(bbytes, _) ← lift_res (Bundle_MarshalCbor bundle);
  if negb (du_channelActive d) then fail (errorf "shut down") else
  modify (λ w, set_dw_sending (dw_sending w ++ [(i, bbytes)]) w)).

(** What [handleReceive] does with the bytes it has received: the bundle goes to the
    callback if it can be parsed, and the loop goes on. *)
Definition handle_received (j : nat) (bbytes : bytes) (w : DummyWorld) : DummyWorld :=
  mkDummyWorld (dw_clas w) (dw_channels w) (dw_sending w) (dw_receiving w) (dw_received w ++ [(j, bbytes)])
    (dw_callbacks w ++ match ParseBundle ebm now bbytes with (Ok _, b) => [(j, b)] | _ => [] end).

Definition channel_of (w : DummyWorld) (i : nat) : option nat := d ← dw_clas w !! i; du_transferChannel d.

(** A waiting [Send] and a goroutine on the same open channel meet; a [Send] on a closed
    channel panics; a goroutine on a closed channel ends.  Nothing happens on the channel
    [nil]. *)
Definition meet (k r : nat) : M DummyWorld () := λ w,
  match dw_sending w !! k, dw_receiving w !! r with
  | Some (i, bbytes), Some j =>
      match channel_of w i with
      | Some c =>
          if bool_decide (channel_of w j = Some c ∧ dw_channels w !! c = Some false)
          then (Ok (), handle_received j bbytes (set_dw_sending (delete k (dw_sending w)) w))
          else (Err (errorf "blocked"), w)
      | None => (Err (errorf "blocked"), w)
      end
  | _, _ => (Err (errorf "blocked"), w)
  end.

Definition closed (w : DummyWorld) (i : nat) : bool :=
  match channel_of w i with Some c => bool_decide (dw_channels w !! c = Some true) | None => false end.

Definition resume_send (k : nat) : M DummyWorld () := λ w,
  match dw_sending w !! k with
  | Some (i, _) => if closed w i then (Panic, w) else (Err (errorf "blocked"), w)
  | None => (Err (errorf "blocked"), w)
  end.

Definition end_receive (r : nat) : M DummyWorld () := λ w,
  match dw_receiving w !! r with
  | Some j => if closed w j then (Ok (), set_dw_receiving (delete r (dw_receiving w)) w) else (Err (errorf "blocked"), w)
  | None => (Err (errorf "blocked"), w)
  end.

(** ** Executions *)

Inductive DummyCall :=
  | CallPair (a b : EndpointID)
  | CallActivate (i : nat)
  | CallClose (i : nat)
  | CallSend (i : nat) (b : Bundle)
  | StepMeet (k r : nat)
  | StepResume (k : nat)
  | StepEnd (r : nat).

Definition run_call (c : DummyCall) : M DummyWorld () :=
  match c with
  | CallPair a b => modify (NewDummyCLAPair a b)
  | CallActivate i => Dummy_Activate i
  | CallClose i => Dummy_Close i
  | CallSend i b => Dummy_Send i b
  | StepMeet k r => meet k r
  | StepResume k => resume_send k
  | StepEnd r => end_receive r
  end.

(** Executions without a panic, in any order of calls and steps, with the messages that
    calls of [Send] have put on a channel; a call that returns an error changes nothing. *)
Inductive exec : list bytes → DummyWorld → Prop :=
  | exec_start : exec [] empty_world
  | exec_send l w w' i b bs b' : exec l w → Dummy_Send i b w = (Ok (), w') → Bundle_MarshalCbor b = Ok (bs, b') →
      exec (l ++ [bs]) w'
  | exec_call l w w' c : exec l w → (∀ i b, c ≠ CallSend i b) → run_call c w = (Ok (), w') → exec l w'.
End Transfer.

(** ** The listener *)

Record DummyListener := mkDummyListener { dl_address : string; dl_running : bool }.

Definition NewDummyListener (address : string) : DummyListener := mkDummyListener address false.
Definition DummyListener_Start (l : DummyListener) : DummyListener := mkDummyListener (dl_address l) true.
Definition DummyListener_Close (l : DummyListener) : res () * DummyListener := (Ok (), l).

(** ** No loss, no duplicates *)

Section Delivery.
Context `{Cboring} `{Crc16} `{GoMapRange} `{Ed25519}.
Context (ebm : ExtensionBlockManager) (now : Z).

(** What the callback is given for a message. *)
Definition callback_of (x : nat * bytes) : list (nat * Bundle) :=
  match ParseBundle ebm now x.2 with (Ok _, b) => [(x.1, b)] | _ => [] end.

(** The messages accepted by [Send] are those received and those that wait. *)
Definition dummy_inv (l : list bytes) (w : DummyWorld) : Prop :=
  l ≡ₚ (dw_received w).*2 ++ (dw_sending w).*2 ∧ dw_callbacks w = dw_received w ≫= callback_of.

(** Calls that leave the messages alone. *)
Definition same_messages (w w' : DummyWorld) : Prop :=
  dw_sending w' = dw_sending w ∧ dw_received w' = dw_received w ∧ dw_callbacks w' = dw_callbacks w.

Lemma same_messages_inv l w w' : same_messages w w' → dummy_inv l w → dummy_inv l w'.
Proof. unfold dummy_inv. by intros (-> & -> & ->). Qed.

Lemma on_end_same {A} i (f : DummyCLA → M DummyWorld A) w : (∀ d, same_messages w (f d w).2) → same_messages w (on_end i f w).2.
Proof. intros Hf. unfold on_end. destruct (dw_clas w !! i); [apply Hf|done]. Qed.

Lemma close_same ch w : same_messages w (close_channel ch w).2.
Proof. unfold close_channel. repeat case_match; done. Qed.

Lemma meet_inv k r w w' l : dummy_inv l w → meet ebm now k r w = (Ok (), w') → dummy_inv l w'.
Proof.
  intros [Hl Hc]. unfold meet. destruct (dw_sending w !! k) as [[i bs]|] eqn:Ek; [|done].
  destruct (dw_receiving w !! r) as [j|]; [|done]. destruct (channel_of w i); [|done]. case_bool_decide; [|done].
  intros [= <-]. split; simpl.
  - rewrite fmap_app, Hl, <- (assoc_L (++)). apply Permutation_app_head. simpl.
    rewrite list_fmap_delete. apply delete_Permutation. by rewrite list_lookup_fmap, Ek.
  - rewrite bind_app, Hc. f_equal. simpl. by rewrite app_nil_r.
Qed.

Lemma exec_inv l w : exec ebm now l w → dummy_inv l w.
Proof.
  induction 1 as [|l w w' i b bs b' _ IH Hs Hm|l w w' c _ IH Hc Hr]; [by split| |].
  - unfold Dummy_Send, on_end in Hs. destruct (dw_clas w !! i) as [d|]; [|done]. unfold mbind, M_bind, lift_res in Hs. rewrite Hm in Hs.
    destruct (du_channelActive d); [|done]. injection Hs as <-. destruct IH as [Hl Hcb]. split; simpl; [|done].
    by rewrite fmap_app, Hl, <- (assoc_L (++)).
  - destruct c as [a b|i|i|i b|k r|k|r]; simpl in Hr.
    + injection Hr as <-. by eapply same_messages_inv.
    + change w' with (Ok (), w').2. rewrite <- Hr. eapply same_messages_inv; [|done]. by apply on_end_same.
    + change w' with (Ok (), w').2. rewrite <- Hr. eapply same_messages_inv; [|done]. apply on_end_same. intros d.
      unfold mbind, M_bind. simpl. case_match; [|done].
      exact (close_same (du_transferChannel d) (set_dw_clas (<[i := set_du_channelActive false d]> (dw_clas w)) w)).
    + by destruct (Hc i b).
    + by eapply meet_inv.
    + unfold resume_send in Hr. repeat case_match; done.
    + unfold end_receive in Hr. repeat case_match; try done. injection Hr as <-. by eapply same_messages_inv.
Qed.

(** C30: whatever the order of sending, receiving, activating and closing, the messages that
    [Send] has accepted are exactly those that were received and those that still wait;
    and a well-formed, valid bundle, once no call of [Send] waits, was given to a callback,
    up to CRC fields. *)
Theorem dummy_delivery `{!CboringLaws _} l w : exec ebm now l w →
  l ≡ₚ (dw_received w).*2 ++ (dw_sending w).*2 ∧
  ∀ b bs b', bs ∈ l → dw_sending w = [] → Bundle_MarshalCbor b = Ok (bs, b') → Bundle_wf ebm b → Bundle_CheckValid now b = Ok [] →
    ∃ j, (j, b') ∈ dw_callbacks w ∧ erase_crc b' = erase_crc b.
Proof.
  intros [Hl Hc]%exec_inv. split; [done|]. intros b bs b' Hin Hn Hm Hwf Hv.
  rewrite Hl, Hn, app_nil_r in Hin. apply list_elem_of_fmap in Hin as ([j bs'] & -> & Hin).
  destruct (Bundle_Marshal_wf ebm b Hwf) as (body & b2 & Hm' & He & Hu). rewrite Hm in Hm'. injection Hm' as -> ->.
  exists j. split; [|done]. rewrite Hc. apply list_elem_of_bind. exists (j, body ++ [BreakCode]). split; [|done].
  unfold callback_of, ParseBundle. simpl. rewrite (Hu now _ [] (CanonicalBlock_break ebm [])). erewrite check_bundle_erase by done. by left.
Qed.

(** Both ends of a pair close their common channel: if both are active, the second call
    of [Close] panics. *)
Theorem dummy_close_both_panics i j d d' c w : i ≠ j → dw_clas w !! i = Some d → dw_clas w !! j = Some d' →
  du_transferChannel d = Some c → du_transferChannel d' = Some c → du_channelActive d = true → du_channelActive d' = true →
  dw_channels w !! c = Some false → ∃ w', Dummy_Close i w = (Ok (), w') ∧ (Dummy_Close j w').1 = Panic.
Proof.
  intros Hne Hi Hj Hc Hc' Ha Ha' Ho. unfold Dummy_Close, on_end. rewrite Hi. unfold mbind, M_bind. simpl. rewrite Ha, Hc. simpl.
  rewrite Ho. eexists. split; [reflexivity|]. simpl. rewrite list_lookup_insert_ne, Hj by done. simpl. rewrite Ha', Hc'. simpl.
  by rewrite list_lookup_insert_eq by (by apply lookup_lt_Some in Ho).
Qed.
End Delivery.

(** ** A pair *)

Definition sample_calls (c : list DummyCall) : DummyWorld :=
  fold_left (λ w c, (run_call GetExtensionBlockManager 0 c w).2) c empty_world.

Definition sent_world : DummyWorld :=
  sample_calls [CallPair (dtn "a" "") (dtn "b" ""); CallActivate 0; CallActivate 1; CallSend 0 sample_bundle].

(** The ends share one channel, so that the sender may receive its own bundle. *)
Example dummy_self_receive :
  (dw_callbacks (run_call GetExtensionBlockManager 0 (StepMeet 0 0) sent_world).2).*1 = [0%nat] ∧
  (dw_callbacks (run_call GetExtensionBlockManager 0 (StepMeet 0 1) sent_world).2).*1 = [1%nat].
Proof. split; vm_compute; reflexivity. Qed.

Lemma sent_world_exec bs b' : Bundle_MarshalCbor sample_bundle = Ok (bs, b') → exec GetExtensionBlockManager 0 [bs] sent_world.
Proof.
  intros Hm. eapply (exec_send _ _ [] (sample_calls [CallPair (dtn "a" "") (dtn "b" ""); CallActivate 0; CallActivate 1]) _ 0 sample_bundle bs b').
  - apply (exec_call _ _ _ (sample_calls [CallPair (dtn "a" "") (dtn "b" ""); CallActivate 0]) _ (CallActivate 1)); [|done|vm_compute; reflexivity].
    apply (exec_call _ _ _ (sample_calls [CallPair (dtn "a" "") (dtn "b" "")]) _ (CallActivate 0)); [|done|vm_compute; reflexivity].
    apply (exec_call _ _ _ empty_world _ (CallPair (dtn "a" "") (dtn "b" ""))); [constructor|done|vm_compute; reflexivity].
  - vm_compute. reflexivity.
  - exact Hm.
Qed.

Lemma dummy_delivery_witness :
  ∃ j b', (j, b') ∈ dw_callbacks (run_call GetExtensionBlockManager 0 (StepMeet 0 1) sent_world).2 ∧ erase_crc b' = erase_crc sample_bundle.
Proof.
  destruct (Bundle_MarshalCbor sample_bundle) as [[bs b']| |] eqn:Hm; [|vm_compute in Hm; discriminate Hm..].
  destruct (dummy_delivery GetExtensionBlockManager 0 [bs] (run_call GetExtensionBlockManager 0 (StepMeet 0 1) sent_world).2) as [_ Hd].
  - apply (exec_call _ _ _ sent_world _ (StepMeet 0 1)); [exact (sent_world_exec bs b' Hm)|discriminate|vm_compute; reflexivity].
  - destruct (Hd sample_bundle bs b') as [j Hj].
    + left.
    + vm_compute. reflexivity.
    + exact Hm.
    + exact sample_bundle_wf.
    + vm_compute. reflexivity.
    + exists j, b'. exact Hj.
Defined.

Lemma dummy_close_both_panics_witness : ∃ w', Dummy_Close 0 sent_world = (Ok (), w') ∧ (Dummy_Close 1 w').1 = Panic.
Proof.
  apply (dummy_close_both_panics 0 1 (mkDummy (dtn "a" "") (dtn "b" "") (Some 0%nat) true) (mkDummy (dtn "b" "") (dtn "a" "") (Some 0%nat) true) 0);
    vm_compute; first [reflexivity|discriminate].
Defined.
