(* ===== verification/Discovery.v ===== *)
(** * Peer discovery

    [pkg/discovery]: nodes announce their convergence layers in UDP multicast packets; a
    node that receives an announcement connects to the announced layer.  The multicast
    library calls [notify] with each packet. *)

From stdpp Require Import base tactics list strings gmap.
From Stdlib Require Import ZArith Lia Bool.
From S2P Require Import Prelude Cboring GoStrings DtnTime Endpoint BundleId ExtensionBlocks Blocks Bundle Samples.
From S2P Require Import Cla Mtcp Quicl.
Local Open Scope Z_scope.

Record Announcement := mkAnnouncement { an_Type : Z; an_Endpoint : EndpointID; an_Port : Z }.

(** ** The CBOR form *)

Section Codec.
Context `{Cboring}.

Definition Announcement_MarshalCbor (a : Announcement) : res bytes :=
  match EndpointID_MarshalCbor (an_Endpoint a) with
  | Ok eid => Ok (WriteArrayLength 3 ++ WriteUInt (an_Type a) ++ eid ++ WriteUInt (an_Port a))
  | Err _ => Err (errorf "marshalling endpoint failed")
  | Panic => Panic
  end.

Definition Announcement_UnmarshalCbor : reader Announcement :=
  l ← ReadArrayLength;
  if negb (l =? 3) then fail (errorf "wrong array length") else
  claType ← ReadUInt;
  lift_res (CLAType_CheckValid claType);;
  eid ← wrap_err "unmarshalling endpoint failed" EndpointID_UnmarshalCbor;
  port ← ReadUInt;
  mret (mkAnnouncement claType eid port).

Fixpoint marshal_announcements (l : list Announcement) : res bytes :=
  match l with
  | [] => Ok []
  | a :: l =>
      match Announcement_MarshalCbor a with
      | Ok bs => rest ← marshal_announcements l; Ok (bs ++ rest)
      | Err _ => Err (errorf "marshalling Announcement failed")
      | Panic => Panic
      end
  end.

Definition MarshalAnnouncements (l : list Announcement) : res bytes :=
  bs ← marshal_announcements l; Ok (WriteArrayLength (len l) ++ bs).

Fixpoint unmarshal_announcements (n : nat) : reader (list Announcement) :=
  match n with
  | O => mret []
  | S n =>
      a ← wrap_err "unmarshalling Announcement failed" Announcement_UnmarshalCbor;
      l ← unmarshal_announcements n;
      mret (a :: l)
  end.

(** [make] of a slice of announcements, of 32 bytes each, panics beyond the address
    space. *)
Definition make_announcements_ok (n : Z) : bool := (0 <=? wrap_i64 n) && (wrap_i64 n * 32 <=? 2 ^ 48).

Definition UnmarshalAnnouncements (data : bytes) : res (list Announcement) :=
  let m := l ← ReadArrayLength;
           if negb (make_announcements_ok l) then panic else unmarshal_announcements (Z.to_nat l) in
  (m data).1.
End Codec.

(** ** The manager *)

(** [fmt.Sprintf("%s:%d", addr, port)] *)
Definition host_port (addr : string) (port : Z) : string := addr +:+ (":" +:+ fmt_d port).

(** The convergence an announcement from [addr] leads to, for the node [nodeId]. *)
Definition announced_cla (nodeId : EndpointID) (a : Announcement) (addr : string) : option Convergence :=
  if an_Type a =? MTCP then Some (client_cla (NewMTCPClient (host_port addr (an_Port a)) (an_Endpoint a))) else
  if an_Type a =? QUICL then Some (endpoint_cla (NewDialerEndpoint (host_port addr (an_Port a)) nodeId)) else None.

Definition handleDiscovery (nodeId : EndpointID) (a : Announcement) (addr : string) (mg : Manager) : Manager :=
  if SameNode nodeId (an_Endpoint a) then mg else
  match announced_cla nodeId a addr with
  | None => mg
  | Some conv => if checkPresent conv mg then mg else registerAsync conv mg
  end.

Section Notify.
Context `{Cboring}.

(** [notify]: the goroutines it starts, as the announcements to handle. *)
Definition notify (payload : bytes) (addr : string) : res (list (Announcement * string)) :=
  match UnmarshalAnnouncements payload with
  | Ok l => Ok ((λ a, (a, addr)) <$> l)
  | Err _ => Ok []
  | Panic => Panic
  end.

Definition notify6 (payload : bytes) (addr : string) : res (list (Announcement * string)) :=
  notify payload ("[" +:+ (addr +:+ "]")).
(** The manager's state: which of the two channels exist, and the packet that is sent
    over and over. *)
Record DiscoveryManager := mkDiscoveryManager {
  dc_NodeId : EndpointID;
  dc_stopChan4 : bool;
  dc_stopChan6 : bool;
  dc_payload : bytes;
}.

(** [InitialiseManager]; [discover v6] is what [peerdiscovery.Discover] for an IP version
    returned within a second, [Ok] if it had not returned by then. *)
Definition InitialiseManager (nodeId : EndpointID) (announcements : list Announcement) (ipv4 ipv6 : bool) (discover : bool → res ()) :
    res DiscoveryManager :=
  msg ← MarshalAnnouncements announcements;
  (if ipv4 then discover false else Ok ());;
  (if ipv6 then discover true else Ok ());;
  Ok (mkDiscoveryManager nodeId ipv4 ipv6 msg).

(** [shutdown]: the channels a value is sent to. *)
Definition discovery_shutdown (m : DiscoveryManager) : list Z :=
  (if dc_stopChan4 m then [4] else []) ++ (if dc_stopChan6 m then [6] else []).
End Notify.

(** The goroutines in the order in which they run; the registrations they ask for are made
    one at a time. *)
Definition run_discoveries (nodeId : EndpointID) (tasks : list (Announcement * string)) (mg : Manager) : Manager :=
  foldl (λ mg '(a, addr), handleDiscovery nodeId a addr mg) mg tasks.

(** ** Round trip *)

Definition Announcement_wf (a : Announcement) : Prop :=
  is_u64 (an_Type a) ∧ CLAType_CheckValid (an_Type a) = Ok () ∧ EndpointID_wf (an_Endpoint a) ∧ EndpointID_fits (an_Endpoint a) ∧ is_u64 (an_Port a).

Section Roundtrip.
Context `{Cboring} `{!CboringLaws _}.

Lemma Announcement_rt a r : Announcement_wf a →
  ∃ bs, Announcement_MarshalCbor a = Ok bs ∧ Announcement_UnmarshalCbor (bs ++ r) = (Ok a, r).
Proof.
  intros (Ht & Hc & Hw & Hf & Hp). destruct (EndpointID_Marshal_wf _ Hw) as (et & _ & Hm).
  generalize dependent (WriteArrayLength 2 ++ WriteUInt (SchemeNo et) ++ EndpointType_MarshalCbor et). intros e Hm.
  unfold Announcement_MarshalCbor. rewrite Hm. eexists. split; [reflexivity|]. unfold Announcement_UnmarshalCbor.
  rewrite <- !(assoc_L (++)). mstep by (apply array_rt; u64_lia). mif. mstep by (by apply uint_rt).
  mstep by (unfold lift_res; by rewrite Hc). mstep by (apply wrap_err_ok; by apply EndpointID_rt).
  mstep by (by apply uint_rt). by destruct a.
Qed.

Lemma announcements_rt l r : Forall Announcement_wf l →
  ∃ bs, marshal_announcements l = Ok bs ∧ unmarshal_announcements (length l) (bs ++ r) = (Ok l, r).
Proof.
  induction 1 as [|a l Ha Hl (bs & Hm & Hu)]; [by exists []|].
  destruct (Announcement_rt a (bs ++ r) Ha) as (b1 & Hm1 & Hu1). exists (b1 ++ bs). simpl. rewrite Hm1, Hm. split; [done|].
  rewrite <- (assoc_L (++)). mstep by (by apply wrap_err_ok). by mstep by exact Hu.
Qed.

(** The announcements of a node, written into a packet and read from it, are the same
    announcements, for lists that fit the address space. *)
Theorem announcements_roundtrip l : Forall Announcement_wf l → len l * 32 ≤ 2 ^ 48 →
  ∃ bs, MarshalAnnouncements l = Ok bs ∧ UnmarshalAnnouncements bs = Ok l.
Proof.
  intros Hl Hn. destruct (announcements_rt l [] Hl) as (bs & Hm & Hu). rewrite app_nil_r in Hu.
  assert (0 ≤ len l) by (unfold len; lia). assert (2 ^ 48 < two63) by (vm_compute; reflexivity).
  unfold MarshalAnnouncements. rewrite Hm. eexists. split; [reflexivity|]. unfold UnmarshalAnnouncements. cbv zeta.
  mstep by (apply array_rt; unfold is_u64; u64_lia). unfold make_announcements_ok. rewrite wrap_i64_id by u64_lia.
  destruct (Z.leb_spec 0 (len l)); [|lia]. destruct (Z.leb_spec (len l * 32) (2 ^ 48)); [|lia]. simpl.
  unfold len. by rewrite Nat2Z.id, Hu.
Qed.
End Roundtrip.


(** ** Registration *)

(** What handling announcements may do to the manager: only new CLAs to be started, each of
    them announced by another node. *)
Record discovered (nodeId : EndpointID) (tasks : list (Announcement * string)) (mg mg' : Manager) : Prop := {
  di_receivers : mg_receivers mg' = mg_receivers mg;
  di_senders : mg_senders mg' = mg_senders mg;
  di_removal : mg_pendingRemoval mg' = mg_pendingRemoval mg;
  di_callbacks : mg_callbacks mg' = mg_callbacks mg;
  di_keep : mg_pendingStart mg ⊆ mg_pendingStart mg';
  di_new c : c ∈ mg_pendingStart mg' → c ∈ mg_pendingStart mg ∨
    ∃ a addr, (a, addr) ∈ tasks ∧ SameNode nodeId (an_Endpoint a) = false ∧ announced_cla nodeId a addr = Some c;
}.

Lemma handleDiscovery_discovered nodeId a addr mg : discovered nodeId [(a, addr)] mg (handleDiscovery nodeId a addr mg).
Proof.
  unfold handleDiscovery. destruct (SameNode _ _) eqn:Es; [by split; auto|].
  destruct (announced_cla nodeId a addr) as [conv|] eqn:Ea; [|by split; auto].
  destruct (checkPresent conv mg) eqn:Ep; [by split; auto|]. unfold registerAsync. rewrite Ep. split; simpl; try done.
  - intros c Hc. apply elem_of_app. by left.
  - intros c [Hc| ->%list_elem_of_singleton]%elem_of_app; [by left|]. right. exists a, addr. split; [by apply list_elem_of_singleton|done].
Qed.

Lemma discovered_trans nodeId t1 t2 mg1 mg2 mg3 : discovered nodeId t1 mg1 mg2 → discovered nodeId t2 mg2 mg3 →
  discovered nodeId (t1 ++ t2) mg1 mg3.
Proof.
  intros [A1 A2 A3 A4 A5 A6] [B1 B2 B3 B4 B5 B6]. split; [by rewrite B1|by rewrite B2|by rewrite B3|by rewrite B4|by etrans|].
  intros c [Hc|(a & addr & Hin & Hr)]%B6; [destruct (A6 c Hc) as [?|(a & addr & Hin & Hr)]; [by left|]|]; right; exists a, addr;
    (split; [apply elem_of_app; auto|done]).
Qed.

Lemma handleDiscovery_inv nodeId a addr mg : mg_inv mg → mg_inv (handleDiscovery nodeId a addr mg).
Proof.
  intros Hi. unfold handleDiscovery. destruct (SameNode _ _); [done|]. destruct (announced_cla _ _ _) as [conv|]; [|done].
  destruct (checkPresent conv mg); [done|by apply register_inv].
Qed.

(** C28: handling the announcements of a packet, in whatever order the goroutines run, adds
    only CLAs that other nodes announced to those being started, keeps the manager's lists
    free of duplicate addresses, and afterwards every announced CLA of a supported type is
    being started or active. *)
Theorem discovery_registers nodeId tasks mg : mg_inv mg →
  let mg' := run_discoveries nodeId tasks mg in
  mg_inv mg' ∧ discovered nodeId tasks mg mg' ∧
  ∀ a addr conv, (a, addr) ∈ tasks → SameNode nodeId (an_Endpoint a) = false → announced_cla nodeId a addr = Some conv →
    checkPresent conv mg' = true.
Proof.
  revert mg. induction tasks as [|[a addr] tasks IH]; intros mg Hi.
  { cbv zeta. split; [done|]. split; [by split; auto|]. intros a addr conv Hin. by apply not_elem_of_nil in Hin. }
  destruct (IH (handleDiscovery nodeId a addr mg) (handleDiscovery_inv _ _ _ _ Hi)) as (Hi' & Hd' & Hp').
  change (run_discoveries nodeId ((a, addr) :: tasks) mg) with (run_discoveries nodeId tasks (handleDiscovery nodeId a addr mg)).
  cbv zeta. split; [done|]. split; [exact (discovered_trans _ [_] _ _ _ _ (handleDiscovery_discovered nodeId a addr mg) Hd')|].
  intros a' addr' conv [[= -> ->]|Hin]%elem_of_cons Hs Ha; [|by eapply Hp'].
  destruct Hd' as [D1 D2 _ _ D5 _]. apply (checkPresent_mono conv _ _ D1 D2 D5).
  unfold handleDiscovery. rewrite Hs, Ha. destruct (checkPresent conv mg) eqn:Ep; [done|]. apply registerAsync_present.
Qed.

(** ** Examples *)

Definition peer_announcement : Announcement := mkAnnouncement MTCP (dtn "peer" "") 4556.

Lemma announcements_roundtrip_witness :
  ∃ bs, MarshalAnnouncements [peer_announcement] = Ok bs ∧ UnmarshalAnnouncements bs = Ok [peer_announcement].
Proof.
  apply (announcements_roundtrip [peer_announcement]).
  - constructor; [|constructor]. vm_compute. repeat split; congruence.
  - vm_compute. discriminate.
Defined.

Lemma discovery_registers_witness :
  checkPresent (client_cla (NewMTCPClient "10.0.0.2:4556" (dtn "peer" "")))
    (run_discoveries (dtn "me" "") [(peer_announcement, "10.0.0.2")] InitialiseCLAManager) = true.
Proof.
  destruct (discovery_registers (dtn "me" "") [(peer_announcement, "10.0.0.2")] InitialiseCLAManager) as (_ & _ & Hp).
  - constructor; simpl; [constructor|constructor|constructor| |split; constructor].
    intros c Hc. apply not_elem_of_nil in Hc. destruct Hc.
  - apply (Hp peer_announcement "10.0.0.2"); [left|vm_compute; reflexivity|vm_compute; reflexivity].
Defined.

(** A packet of nine bytes that claims 2^63 announcements makes [notify] panic. *)
Theorem announcement_length_panics : ∃ payload, length payload = 9%nat ∧ notify payload "10.0.0.2" = Panic.
Proof. exists (Byte.x9b :: be_bytes 8 (2 ^ 63)). split; vm_compute; reflexivity. Qed.
