(* ===== verification/Routing.v ===== *)
(** * Routing algorithms

    [pkg/routing/algorithm.go], [epidemic.go] and [spray_and_wait.go].  The
    interface [Algorithm] is a class; what bundle processing relies on is
    [AlgorithmLaws], which both algorithms satisfy. *)

From stdpp Require Import base tactics list strings gmap.
From Stdlib Require Import ZArith Lia Bool.
From S2P Require Import Prelude Cboring GoSort Flags Crc DtnTime Endpoint BundleId ExtensionBlocks Blocks.
From S2P Require Import Bundle Samples BundleCodec Descriptor Store StoreInv StoreHistory Cla.
Local Open Scope Z_scope.

Definition AlgorithmEpidemic : Z := 1.
Definition AlgorithmSprayAndWait : Z := 2.

Definition AlgorithmEnumFromString (name : string) : res Z :=
  let name := ToLower name in
  if bool_decide (name = "epidemic") then Ok AlgorithmEpidemic else
  if bool_decide (name = "spray&wait") then Ok AlgorithmSprayAndWait else Err (errorf "is not a valid algorithm name").

(** ** Selecting peers *)

(** [filterPeers]: the senders whose peer is not among the known holders. *)
Definition filterPeers (bd : BundleDescriptor) (clas : list Convergence) : list Convergence :=
  match GetKnownHolders bd with
  | Ok sentEids => filter (λ cs, existsb (λ eid, bool_decide (cla_PeerEndpointID cs = eid)) sentEids = false) clas
  | _ => []
  end.

(** [uniquePeers]: the first sender for every peer; [endpoints] are the peers seen
    so far. *)
Fixpoint unique_from (endpoints : list EndpointID) (peers : list Convergence) : list Convergence :=
  match peers with
  | [] => []
  | sender :: peers =>
      if bool_decide (cla_PeerEndpointID sender ∈ endpoints) then unique_from endpoints peers
      else sender :: unique_from (cla_PeerEndpointID sender :: endpoints) peers
  end.

Definition uniquePeers (peers : list Convergence) : list Convergence := unique_from [] peers.

(** ** Removing blocks through pointers

    [selectBinarySpray] holds pointers into the slice of extension blocks while
    [RemoveExtensionBlockByBlockNumber] shifts the slice's elements.  The slice is
    the first [n] elements of its backing array [arr]. *)

Fixpoint index_of (blockNumber : Z) (l : list CanonicalBlock) : option nat :=
  match l with
  | [] => None
  | cb :: l => if cb_BlockNumber cb =? blockNumber then Some 0%nat else S <$> index_of blockNumber l
  end.

(** [append(s[:i], s[i+1:]...)] moves the tail down and leaves the last element
    where it was. *)
Definition remove_in_place (blockNumber : Z) (arr : list CanonicalBlock) (n : nat) : list CanonicalBlock * nat :=
  match index_of blockNumber (take n arr) with
  | None => (arr, n)
  | Some i => (take i arr ++ drop (S i) (take n arr) ++ drop (n - 1) arr, (n - 1)%nat)
  end.

(** The loop over the pointers [ptrs], which are positions in the array. *)
Fixpoint remove_through (ptrs : list nat) (arr : list CanonicalBlock) (n : nat) : list CanonicalBlock * nat :=
  match ptrs with
  | [] => (arr, n)
  | p :: ptrs =>
      match arr !! p with
      | None => remove_through ptrs arr n
      | Some block => let '(arr, n) := remove_in_place (cb_BlockNumber block) arr n in remove_through ptrs arr n
      end
  end.

Definition remove_spray_blocks (b : Bundle) : res Bundle :=
  match ExtensionBlocksByType b BlockTypeBinarySprayBlock with
  | Panic => Panic
  | Err _ => Ok b
  | Ok blocks =>
      let '(arr, n) := remove_through blocks.*1 (b_ExtensionBlocks b) (length (b_ExtensionBlocks b)) in
      Ok (set_b_ExtensionBlocks (take n arr) b)
  end.

Section Routing.
Context `{Cboring} `{Crc16} `{GoMapRange} `{Ed25519} `{Badgerhold} `{Sha256}.
Context (ebm : ExtensionBlockManager).

(** ** The interface *)

(** A bundle descriptor is passed as its address; [rnd] and [now] are the random
    number and the time a call may read. *)
Class Algorithm := {
  NotifyNewBundle : nat → Bundle → M BundleStore ();
  NotifyReceivedBundle : nat → Bundle → M BundleStore ();
  SelectPeersForForwarding : nat → Z → nat → list Convergence → M BundleStore (list Convergence * option Bundle);
}.

(** The descriptors before and after a call differ at most in the metadata. *)
Definition same_constraints (s s' : BundleStore) : Prop :=
  ∀ loc, (λ d, (d_retentionConstraints d, d_retain d, d_dispatch d, d_deleted d, d_shouldDelete d)) <$> st_heap s' !! loc =
         (λ d, (d_retentionConstraints d, d_retain d, d_dispatch d, d_deleted d, d_shouldDelete d)) <$> st_heap s !! loc.

(** An algorithm only picks senders it was offered whose peer is not known to have
    the bundle, picks none for a deleted bundle, changes the store by nothing but
    the store's operations, and leaves constraints alone. *)
Class AlgorithmLaws (A : Algorithm) : Prop := {
  select_sound rnd now loc peers s sel b s' bd :
    SelectPeersForForwarding rnd now loc peers s = (Ok (sel, b), s') → st_heap s !! loc = Some bd →
    ∀ cs, cs ∈ sel → cs ∈ peers ∧ d_deleted bd = false ∧
      cla_PeerEndpointID cs ∉ m_KnownHolders (d_metadata bd);
  select_steps rnd now loc peers s : store_steps s (SelectPeersForForwarding rnd now loc peers s).2;
  select_frame rnd now loc peers s : same_constraints s (SelectPeersForForwarding rnd now loc peers s).2;
  notify_new_steps loc b s : store_steps s (NotifyNewBundle loc b s).2;
  notify_frame (new : bool) loc b s : same_constraints s ((if new then NotifyNewBundle else NotifyReceivedBundle) loc b s).2;
  notify_received_steps loc b s : store_steps s (NotifyReceivedBundle loc b s).2;
}.

(** ** Epidemic routing *)

Definition EpidemicRouting : Algorithm := {|
  NotifyNewBundle := λ _ _, mret ();
  NotifyReceivedBundle := λ _ _, mret ();
  SelectPeersForForwarding := λ rnd now loc peers s,
    match st_heap s !! loc with
    | None => (Panic, s)
    | Some bd => (Ok (filterPeers bd peers, None), s)
    end;
|}.

(** ** Spray and wait *)

Definition sprayBundleCopiesKey : string := "spray_and_wait/copies".

(** [setSprayCopies]; an error is only logged. *)
Definition setSprayCopies (loc : nat) (copies : Z) : M BundleStore () := λ s,
  match bd_SetMiscData sprayBundleCopiesKey (VUint64 copies) loc s with
  | (Panic, s) => (Panic, s)
  | (_, s) => (Ok (), s)
  end.

(** [getSprayCopies]; the type assertion panics on a value of another type. *)
Definition getSprayCopies (loc : nat) : M BundleStore (option Z) := λ s,
  match st_heap s !! loc with
  | None => (Panic, s)
  | Some bd =>
      match GetMiscData bd sprayBundleCopiesKey with
      | None => (Ok None, s)
      | Some (VUint64 copies) => (Ok (Some copies), s)
      | Some _ => (Panic, s)
      end
  end.

Record SprayAndWait := NewSprayAndWait { sw_copies : Z; sw_binary : bool }.

Definition spray_NotifyNewBundle (router : SprayAndWait) (loc : nat) (_ : Bundle) : M BundleStore () :=
  setSprayCopies loc (sw_copies router).

(** The type assertion on the block's value panics unless it is a
    [BinarySprayBlock]. *)
Definition spray_NotifyReceivedBundle (loc : nat) (bundle : Bundle) : M BundleStore () :=
  match ExtensionBlockByType bundle BlockTypeBinarySprayBlock with
  | Panic => panic
  | Err _ => setSprayCopies loc 0
  | Ok (_, block) =>
      match cb_Value block with
      | Some (BinarySprayBlock copies) => setSprayCopies loc copies
      | _ => panic
      end
  end.

Definition selectBasicSpray (loc : nat) (copies : Z) (peers : list Convergence) : M BundleStore (list Convergence) :=
  let nPeers := len peers in
  let '(remainingCopies, selectedPeers) :=
    if nPeers <=? copies then (copies - nPeers, peers) else (0, take (Z.to_nat copies) peers) in
  setSprayCopies loc remainingCopies;;
  mret selectedPeers.

(** The copies given away and kept in binary mode. *)
Definition split_copies (copies : Z) : Z * Z :=
  let sendCopies := copies / 2 in
  let retainedCopies := copies / 2 in
  (sendCopies, if negb (copies mod 2 =? 0) then retainedCopies + 1 else retainedCopies).

(** [rand.Intn(len(peers))] picks an index. *)
Definition pick (rnd : nat) (peers : list Convergence) : res Convergence :=
  match peers !! (rnd `mod` length peers)%nat with Some p => Ok p | None => Panic end.

Definition selectBinarySpray (rnd : nat) (now : Z) (loc : nat) (copies : Z) (peers : list Convergence) :
    M BundleStore (list Convergence * option Bundle) := λ s,
  let '(sendCopies, retainedCopies) := split_copies copies in
  match Load ebm now loc s with
  | Panic => (Panic, s)
  | Err _ => (Ok ([], None), s)
  | Ok bundle =>
      match remove_spray_blocks bundle with
      | Panic => (Panic, s)
      | Err _ => (Ok ([], None), s)
      | Ok bundle =>
          match AddExtensionBlock bundle (NewCanonicalBlock 0 0 (BinarySprayBlock sendCopies)) with
          | Panic => (Panic, s)
          | Err _ => (Ok ([], None), s)
          | Ok bundle =>
              (peer ← lift_res (pick rnd peers);
               setSprayCopies loc retainedCopies;;
               mret ([peer], Some bundle)) s
          end
      end
  end.

(** The copies left for a bundle, with the default stored if there are none. *)
Definition spray_copies (router : SprayAndWait) (loc : nat) : M BundleStore Z :=
  saved ← getSprayCopies loc;
  match saved with
  | Some copies => mret copies
  | None => setSprayCopies loc (sw_copies router);; mret (sw_copies router)
  end.

Definition spray_Select (router : SprayAndWait) (rnd : nat) (now : Z) (loc : nat) (peers : list Convergence) :
    M BundleStore (list Convergence * option Bundle) :=
  copies ← spray_copies router loc;
  if negb (sw_binary router) && negb (0 <? copies) then mret ([], None) else
  if sw_binary router && negb (1 <? copies) then mret ([], None) else
  λ s,
    match st_heap s !! loc with
    | None => (Panic, s)
    | Some bd =>
        let peers := filterPeers bd peers in
        if negb (0 <? len peers) then (Ok ([], None), s) else
        if sw_binary router then selectBinarySpray rnd now loc copies peers s
        else (selected ← selectBasicSpray loc copies peers; mret (selected, None)) s
    end.

Definition SprayRouting (router : SprayAndWait) : Algorithm := {|
  NotifyNewBundle := spray_NotifyNewBundle router;
  NotifyReceivedBundle := spray_NotifyReceivedBundle;
  SelectPeersForForwarding := spray_Select router;
|}.
End Routing.
