(* ===== verification/RoutingProps.v ===== *)
(** * Properties of the routing algorithms *)

From stdpp Require Import base tactics list strings gmap.
From Stdlib Require Import ZArith Lia Bool.
From S2P Require Import Prelude Cboring GoSort Flags Crc DtnTime Endpoint BundleId ExtensionBlocks Blocks.
From S2P Require Import Bundle Samples BundleValid BundleCodec Descriptor Store StoreInv StoreHistory.
From S2P Require Import StoreExamples Cla Routing.
Local Open Scope Z_scope.

(** ** Selecting peers *)

Lemma existsb_holder (e : EndpointID) l : existsb (λ eid, bool_decide (e = eid)) l = false ↔ e ∉ l.
Proof.
  rewrite <- not_true_iff_false, existsb_exists. split.
  - intros Hn Hin. apply Hn. exists e. split; [by apply list_elem_of_In|by apply bool_decide_eq_true].
  - intros Hn (x & Hx & ->%bool_decide_eq_true). apply Hn. by apply list_elem_of_In.
Qed.

Lemma elem_of_filterPeers bd clas cs : cs ∈ filterPeers bd clas ↔
  cs ∈ clas ∧ d_deleted bd = false ∧ cla_PeerEndpointID cs ∉ m_KnownHolders (d_metadata bd).
Proof.
  unfold filterPeers, GetKnownHolders. destruct (d_deleted bd).
  - split; [intros Hn; by apply not_elem_of_nil in Hn|by intros (_ & ? & _)].
  - rewrite list_elem_of_filter, existsb_holder. tauto.
Qed.

(** Epidemic routing forwards a bundle to exactly those peers that are not
    known to have it, and to none once the bundle is deleted. *)
Theorem epidemic_spec `{Cboring} `{Crc16} `{GoMapRange} `{Ed25519} `{Badgerhold} `{Sha256} rnd now loc peers s bd :
  st_heap s !! loc = Some bd →
  ∃ sel, SelectPeersForForwarding (Algorithm := EpidemicRouting) rnd now loc peers s = (Ok (sel, None), s) ∧
    ∀ cs, cs ∈ sel ↔ cs ∈ peers ∧ d_deleted bd = false ∧ cla_PeerEndpointID cs ∉ m_KnownHolders (d_metadata bd).
Proof. intros E. exists (filterPeers bd peers). simpl. rewrite E. split; [done|]. apply elem_of_filterPeers. Qed.

Definition peer_a : Convergence := mkCLA "a" true true (dtn "a" "").
Definition peer_b : Convergence := mkCLA "b" true true (dtn "b" "").
Definition with_holder (e : EndpointID) : BundleStore := (bd_AddKnownHolder [e] 0 one_bundle).2.

Lemma epidemic_spec_witness :
  ∃ sel, SelectPeersForForwarding (Algorithm := EpidemicRouting) 0 0 0 [peer_a; peer_b] (with_holder (dtn "a" "")) =
    (Ok (sel, None), with_holder (dtn "a" "")) ∧ peer_b ∈ sel ∧ peer_a ∉ sel.
Proof.
  destruct (st_heap (with_holder (dtn "a" "")) !! 0%nat) as [bd|] eqn:E; [|vm_compute in E; discriminate E].
  destruct (epidemic_spec 0 0 0 [peer_a; peer_b] _ bd E) as (sel & Hsel & Hin).
  exists sel. split; [exact Hsel|]. vm_compute in E. injection E as <-.
  rewrite !Hin. simpl. split.
  - split; [right; left|]. split; [reflexivity|]. apply (bool_decide_unpack _). vm_compute. exact I.
  - intros (_ & _ & Hn). apply Hn. apply (bool_decide_unpack _). vm_compute. exact I.
Defined.

(** ** One sender per peer *)

Lemma unique_from_spec seen peers :
  unique_from seen peers `sublist_of` peers ∧
  NoDup (cla_PeerEndpointID <$> unique_from seen peers) ∧
  (∀ e, e ∈ cla_PeerEndpointID <$> unique_from seen peers ↔ e ∈ cla_PeerEndpointID <$> peers ∧ e ∉ seen).
Proof.
  revert seen. induction peers as [|p peers IH]; intros seen; cbn [unique_from].
  { split; [constructor|]. split; [constructor|]. intros e. rewrite elem_of_nil. tauto. }
  case_bool_decide as Hp.
  - destruct (IH seen) as (Hs & Hnd & He). split; [by constructor|]. split; [done|]. intros e. rewrite He, fmap_cons, elem_of_cons.
    split; [tauto|]. intros [[->|?] ?]; [done|tauto].
  - destruct (IH (cla_PeerEndpointID p :: seen)) as (Hs & Hnd & He). split; [by constructor|]. split.
    + rewrite fmap_cons. apply NoDup_cons. split; [|done]. rewrite He. intros [_ Hn]. apply Hn. by left.
    + intros e. rewrite !fmap_cons, !elem_of_cons, He, not_elem_of_cons. destruct (decide (e = cla_PeerEndpointID p)) as [->|]; tauto.
Qed.

(** [uniquePeers] keeps one sender, the first, for every peer and changes
    neither the order nor the set of peers. *)
Theorem uniquePeers_spec peers :
  uniquePeers peers `sublist_of` peers ∧ NoDup (cla_PeerEndpointID <$> uniquePeers peers) ∧
  ∀ e, e ∈ cla_PeerEndpointID <$> uniquePeers peers ↔ e ∈ cla_PeerEndpointID <$> peers.
Proof.
  destruct (unique_from_spec [] peers) as (Hs & Hnd & He). split; [done|]. split; [done|]. intros e.
  unfold uniquePeers. rewrite He. split; [tauto|]. intros Hp. split; [done|]. apply not_elem_of_nil.
Qed.

Section Props.
Context `{Cboring} `{Crc16} `{GoMapRange} `{Ed25519} `{Badgerhold} `{!BadgerholdLaws _} `{Sha256}.
Context (ebm : ExtensionBlockManager).

(** ** The interface's laws *)

Lemma same_constraints_refl s : same_constraints s s.
Proof. by intros loc. Qed.
Lemma same_constraints_trans s1 s2 s3 : same_constraints s1 s2 → same_constraints s2 s3 → same_constraints s1 s3.
Proof. intros H12 H23 loc. by rewrite H23, H12. Qed.

(** What [setSprayCopies] does to a descriptor. *)
Definition sprayed (copies : Z) (bd : BundleDescriptor) : BundleDescriptor :=
  set_misc sprayBundleCopiesKey (VUint64 copies) bd.

Lemma setSprayCopies_spec loc copies s bd : st_heap s !! loc = Some bd →
  ∃ s', setSprayCopies loc copies s = (Ok (), s') ∧ st_heap s' = <[loc := sprayed copies bd]> (st_heap s) ∧
    st_files s' = st_files s ∧ store_steps s s'.
Proof.
  intros E. unfold setSprayCopies. pose proof (store_steps_one _ _ (do_SetMiscData sprayBundleCopiesKey (VUint64 copies) loc s)) as Hinv.
  unfold bd_SetMiscData, updateBundleMetadata in *. rewrite E in *.
  destruct (db_Update _ _ _) as [r d] eqn:Eu. simpl in Hinv.
  assert (r ≠ Panic) as Hr.
  { destruct (decide (r = Ok ())) as [->|Hr]; [done|]. by destruct (db_Update_fails _ _ _ _ _ Eu Hr). }
  destruct r; [eexists|eexists|done]; (split; [done|]); simpl; auto.
Qed.

Lemma setSprayCopies_steps loc copies s : store_steps s (setSprayCopies loc copies s).2.
Proof.
  unfold setSprayCopies. pose proof (do_SetMiscData sprayBundleCopiesKey (VUint64 copies) loc s) as Hs.
  destruct (bd_SetMiscData _ _ _ s) as [[] s']; by apply store_steps_one.
Qed.

Lemma set_spray_constraints loc copies s s' bd : st_heap s !! loc = Some bd →
  st_heap s' = <[loc := sprayed copies bd]> (st_heap s) → same_constraints s s'.
Proof.
  intros E Hs l. rewrite Hs. destruct (decide (l = loc)) as [->|].
  - rewrite list_lookup_insert_eq by (by eapply lookup_lt_Some). by rewrite E.
  - by rewrite list_lookup_insert_ne.
Qed.

Lemma setSprayCopies_frame loc copies s : same_constraints s (setSprayCopies loc copies s).2.
Proof.
  destruct (st_heap s !! loc) as [bd|] eqn:E.
  - destruct (setSprayCopies_spec loc copies s bd E) as (s' & -> & Hh & _). by eapply set_spray_constraints.
  - unfold setSprayCopies, bd_SetMiscData. rewrite E. apply same_constraints_refl.
Qed.

#[global] Instance epidemic_laws : AlgorithmLaws EpidemicRouting.
Proof.
  constructor; simpl.
  - intros rnd now loc peers s sel b s' bd Hs E. rewrite E in Hs. simplify_eq. intros cs Hcs. by apply elem_of_filterPeers.
  - intros rnd now loc peers s. destruct (st_heap s !! loc); apply steps_refl.
  - intros rnd now loc peers s. destruct (st_heap s !! loc); apply same_constraints_refl.
  - intros. apply steps_refl.
  - intros [] loc b s; apply same_constraints_refl.
  - intros. apply steps_refl.
Qed.

(** The state in which the copies have been looked up: at most the default was
    stored, the holders are unchanged. *)
Lemma spray_copies_spec router loc s bd r s' : st_heap s !! loc = Some bd → spray_copies router loc s = (r, s') →
  store_steps s s' ∧ same_constraints s s' ∧ st_files s' = st_files s ∧
  ∃ bd', st_heap s' !! loc = Some bd' ∧ d_deleted bd' = d_deleted bd ∧
    m_KnownHolders (d_metadata bd') = m_KnownHolders (d_metadata bd) ∧
    m_SerialisedFileName (d_metadata bd') = m_SerialisedFileName (d_metadata bd) ∧
    (∀ copies, r = Ok copies → GetMiscData bd' sprayBundleCopiesKey = Some (VUint64 copies)).
Proof.
  intros E. unfold spray_copies, getSprayCopies. unfold mbind, M_bind. rewrite E.
  destruct (GetMiscData bd sprayBundleCopiesKey) as [[n|]|] eqn:Em.
  - intros [= <- <-]. split; [apply steps_refl|]. split; [apply same_constraints_refl|]. split; [done|].
    exists bd. do 4 (split; [done|]). by intros copies [= <-].
  - intros [= <- <-]. split; [apply steps_refl|]. split; [apply same_constraints_refl|]. split; [done|]. by exists bd.
  - destruct (setSprayCopies_spec loc (sw_copies router) s bd E) as (s2 & Hset & Hh & Hfl & Hi).
    rewrite Hset. intros [= <- <-]. split; [done|]. split; [by eapply set_spray_constraints|]. split; [done|].
    exists (sprayed (sw_copies router) bd). split; [rewrite Hh; apply list_lookup_insert_eq; by eapply lookup_lt_Some|].
    do 3 (split; [done|]). intros copies [= <-]. unfold GetMiscData. simpl. by rewrite lookup_insert_eq.
Qed.

Lemma selectBasicSpray_spec loc copies peers s bd : st_heap s !! loc = Some bd → 0 ≤ copies →
  ∃ remaining sel s', selectBasicSpray loc copies peers s = (Ok sel, s') ∧
    st_heap s' = <[loc := sprayed remaining bd]> (st_heap s) ∧ store_steps s s' ∧
    0 ≤ remaining ∧ remaining + len sel = copies ∧ sel `prefix_of` peers.
Proof.
  intros E Hc. unfold selectBasicSpray. destruct (Z.leb_spec (len peers) copies).
  - destruct (setSprayCopies_spec loc (copies - len peers) s bd E) as (s' & Hset & Hh & _ & Hi).
    exists (copies - len peers), peers, s'. unfold mbind, M_bind. rewrite Hset. do 3 (split; [done|]).
    split; [lia|]. split; [lia|done].
  - destruct (setSprayCopies_spec loc 0 s bd E) as (s' & Hset & Hh & _ & Hi).
    exists 0, (take (Z.to_nat copies) peers), s'. unfold mbind, M_bind. rewrite Hset. do 3 (split; [done|]).
    split; [lia|]. split; [unfold len in *; rewrite length_take; lia|]. apply prefix_take.
Qed.

Lemma selectBinarySpray_spec rnd now loc copies peers s bd r s' : st_heap s !! loc = Some bd →
  selectBinarySpray ebm rnd now loc copies peers s = (r, s') →
  (s' = s ∧ ∀ sel b, r = Ok (sel, b) → sel = []) ∨
  ∃ peer b0 b1 b, r = Ok ([peer], Some b) ∧ peer ∈ peers ∧ Load ebm now loc s = Ok b0 ∧ remove_spray_blocks b0 = Ok b1 ∧
    AddExtensionBlock b1 (NewCanonicalBlock 0 0 (BinarySprayBlock (split_copies copies).1)) = Ok b ∧
    st_heap s' = <[loc := sprayed (split_copies copies).2 bd]> (st_heap s) ∧ store_steps s s'.
Proof.
  intros E. unfold selectBinarySpray. destruct (split_copies copies) as [send retain]. cbn [fst snd].
  destruct (Load ebm now loc s) as [b0| |] eqn:El; [|intros [= <- <-]; left; split; [done|intros; by simplify_eq]..].
  destruct (remove_spray_blocks b0) as [b1| |] eqn:Er; [|intros [= <- <-]; left; split; [done|intros; by simplify_eq]..].
  destruct (AddExtensionBlock b1 _) as [b| |] eqn:Ea; [|intros [= <- <-]; left; split; [done|intros; by simplify_eq]..].
  unfold mbind, M_bind, lift_res, pick. destruct (peers !! _) as [peer|] eqn:Ep.
  - destruct (setSprayCopies_spec loc retain s bd E) as (s2 & Hset & Hh & _ & Hi). rewrite Hset. intros [= <- <-].
    right. exists peer, b0, b1, b. split; [done|]. split; [by eapply list_elem_of_lookup_2|]. done.
  - intros [= <- <-]. left. split; [done|]. intros; by simplify_eq.
Qed.

(** The outcomes of [SelectPeersForForwarding] in spray routing: nothing is
    selected and at most the default was stored, or one of the two modes ran on
    the filtered peers. *)
Lemma spray_Select_cases router rnd now loc peers s bd r s' : st_heap s !! loc = Some bd →
  spray_Select ebm router rnd now loc peers s = (r, s') →
  ∃ s1 bd1 rc, spray_copies router loc s = (rc, s1) ∧ st_heap s1 !! loc = Some bd1 ∧
    ((s' = s1 ∧ ∀ sel b, r = Ok (sel, b) → sel = []) ∨
     (∃ copies, rc = Ok copies ∧ sw_binary router = false ∧ 0 < copies ∧
        (selected ← selectBasicSpray loc copies (filterPeers bd1 peers); mret (selected, None)) s1 = (r, s')) ∨
     (∃ copies, rc = Ok copies ∧ sw_binary router = true ∧ 1 < copies ∧
        selectBinarySpray ebm rnd now loc copies (filterPeers bd1 peers) s1 = (r, s'))).
Proof.
  intros E. unfold spray_Select. destruct (spray_copies router loc s) as [rc s1] eqn:Ec.
  destruct (spray_copies_spec router loc s bd rc s1 E Ec) as (_ & _ & _ & bd1 & E1 & _).
  unfold mbind at 1, M_bind at 1. rewrite Ec. intros Hr. exists s1, bd1, rc. split; [done|]. split; [done|].
  destruct rc as [copies|e|]; [|left; simplify_eq; split; [done|intros; by simplify_eq]..].
  destruct (sw_binary router) eqn:Eb; simpl in Hr.
  - destruct (Z.ltb_spec 1 copies); simpl in Hr; [|left; unfold mret, M_ret in Hr; simplify_eq; split; [done|intros; by simplify_eq]].
    rewrite E1 in Hr. destruct (0 <? len _); simpl in Hr; [right; right; eauto|].
    left. simplify_eq. split; [done|]. intros; by simplify_eq.
  - destruct (Z.ltb_spec 0 copies); simpl in Hr; [|left; unfold mret, M_ret in Hr; simplify_eq; split; [done|intros; by simplify_eq]].
    rewrite E1 in Hr. destruct (0 <? len _); simpl in Hr; [right; left; eauto 10|].
    left. simplify_eq. split; [done|]. intros; by simplify_eq.
Qed.

Lemma filterPeers_same bd bd1 peers : d_deleted bd1 = d_deleted bd →
  m_KnownHolders (d_metadata bd1) = m_KnownHolders (d_metadata bd) → filterPeers bd1 peers = filterPeers bd peers.
Proof. intros Hd Hh. unfold filterPeers, GetKnownHolders. by rewrite Hd, Hh. Qed.

Lemma basic_run loc copies peers s bd r s' : st_heap s !! loc = Some bd → 0 ≤ copies →
  (selected ← selectBasicSpray loc copies peers; mret (selected, None : option Bundle)) s = (r, s') →
  ∃ remaining sel, r = Ok (sel, None) ∧ st_heap s' = <[loc := sprayed remaining bd]> (st_heap s) ∧
    store_steps s s' ∧ 0 ≤ remaining ∧ remaining + len sel = copies ∧ sel `prefix_of` peers.
Proof.
  intros E Hc Hr. destruct (selectBasicSpray_spec loc copies peers s bd E Hc) as (rem & sel & s2 & Hb & Hh & Hi & Hrem & Hsum & Hpre).
  unfold mbind, M_bind, mret, M_ret in Hr. rewrite Hb in Hr. simplify_eq. eauto 10.
Qed.

#[global] Instance spray_laws router : AlgorithmLaws (SprayRouting ebm router).
Proof.
  constructor; simpl.
  - intros rnd now loc peers s sel b s' bd Hs E cs Hcs.
    destruct (spray_Select_cases router rnd now loc peers s bd _ s' E Hs) as (s1 & bd1 & rc & Ec & E1 & Hcase).
    destruct (spray_copies_spec router loc s bd rc s1 E Ec) as (_ & _ & _ & bd' & E1' & Hd & Hh & _).
    rewrite E1 in E1'. injection E1' as <-. rewrite (filterPeers_same bd bd1) in Hcase by done.
    apply elem_of_filterPeers. destruct Hcase as [[_ Hnil]|[(copies & _ & _ & Hc & Hb)|(copies & _ & _ & Hc & Hb)]].
    + rewrite (Hnil sel b eq_refl) in Hcs. by apply not_elem_of_nil in Hcs.
    + destruct (basic_run _ _ _ _ _ _ _ E1 (Z.lt_le_incl _ _ Hc) Hb) as (rem & sel' & Heq & _ & _ & _ & _ & Hp). simplify_eq.
      destruct Hp as [k ->]. apply elem_of_app. by left.
    + destruct (selectBinarySpray_spec _ _ _ _ _ _ _ _ _ E1 Hb) as [[_ Hnil]|(peer & b0 & b1 & b2 & Heq & Hin & _)].
      * rewrite (Hnil sel b eq_refl) in Hcs. by apply not_elem_of_nil in Hcs.
      * simplify_eq. by apply list_elem_of_singleton in Hcs as ->.
  - intros rnd now loc peers s. destruct (st_heap s !! loc) as [bd|] eqn:E.
    2:{ unfold spray_Select, spray_copies, getSprayCopies, mbind, M_bind. rewrite E. apply steps_refl. }
    destruct (spray_Select ebm router rnd now loc peers s) as [r s'] eqn:Er.
    destruct (spray_Select_cases router rnd now loc peers s bd r s' E Er) as (s1 & bd1 & rc & Ec & E1 & Hcase).
    destruct (spray_copies_spec router loc s bd rc s1 E Ec) as (Hi & _).
    destruct Hcase as [[-> _]|[(copies & _ & _ & Hc & Hb)|(copies & _ & _ & Hc & Hb)]]; [done| |].
    + destruct (basic_run _ _ _ _ _ _ _ E1 (Z.lt_le_incl _ _ Hc) Hb) as (rem & sel' & _ & _ & Hi2 & _).
      by eapply store_steps_trans.
    + destruct (selectBinarySpray_spec _ _ _ _ _ _ _ _ _ E1 Hb) as [[-> _]|(? & ? & ? & ? & _ & _ & _ & _ & _ & _ & Hi2)];
      [done|by eapply store_steps_trans].
  - intros rnd now loc peers s. destruct (st_heap s !! loc) as [bd|] eqn:E.
    2:{ unfold spray_Select, spray_copies, getSprayCopies, mbind, M_bind. rewrite E. apply same_constraints_refl. }
    destruct (spray_Select ebm router rnd now loc peers s) as [r s'] eqn:Er.
    destruct (spray_Select_cases router rnd now loc peers s bd r s' E Er) as (s1 & bd1 & rc & Ec & E1 & Hcase).
    destruct (spray_copies_spec router loc s bd rc s1 E Ec) as (_ & Hsame & _).
    destruct Hcase as [[-> _]|[(copies & _ & _ & Hc & Hb)|(copies & _ & _ & Hc & Hb)]]; [done| |].
    + destruct (basic_run _ _ _ _ _ _ _ E1 (Z.lt_le_incl _ _ Hc) Hb) as (rem & sel' & _ & Hh & _).
      eapply same_constraints_trans; [done|]. by eapply set_spray_constraints.
    + destruct (selectBinarySpray_spec _ _ _ _ _ _ _ _ _ E1 Hb) as [[-> _]|(? & ? & ? & ? & _ & _ & _ & _ & _ & Hh & _)]; [done|].
      eapply same_constraints_trans; [done|]. by eapply set_spray_constraints.
  - intros loc b s. apply setSprayCopies_steps.
  - intros [] loc b s; [apply setSprayCopies_frame|]. unfold spray_NotifyReceivedBundle.
    destruct (ExtensionBlockByType _ _) as [[j cb]| |]; [|apply setSprayCopies_frame|apply same_constraints_refl].
    destruct (cb_Value cb) as [[]|]; try apply same_constraints_refl. apply setSprayCopies_frame.
  - intros loc b s. unfold spray_NotifyReceivedBundle. destruct (ExtensionBlockByType _ _) as [[j cb]| |];
      [|apply setSprayCopies_steps|apply steps_refl].
    destruct (cb_Value cb) as [[]|]; try apply steps_refl. apply setSprayCopies_steps.
Qed.

(** ** Spray and wait never creates copies *)

(** The number of copies a descriptor stands for. *)
Definition copies_of (bd : BundleDescriptor) : option Z :=
  match GetMiscData bd sprayBundleCopiesKey with Some (VUint64 n) => Some n | _ => None end.

Lemma copies_sprayed n bd : copies_of (sprayed n bd) = Some n.
Proof. unfold copies_of, GetMiscData. simpl. by rewrite lookup_insert_eq. Qed.

Lemma spray_copies_saved router loc s bd n : st_heap s !! loc = Some bd → copies_of bd = Some n →
  spray_copies router loc s = (Ok n, s).
Proof.
  intros E Hn. unfold spray_copies, getSprayCopies, mbind, M_bind. rewrite E. unfold copies_of in Hn.
  destruct (GetMiscData bd _) as [[]|]; by simplify_eq.
Qed.

Lemma sprayed_lookup s s' loc bd n : st_heap s !! loc = Some bd → st_heap s' = <[loc := sprayed n bd]> (st_heap s) →
  st_heap s' !! loc = Some (sprayed n bd).
Proof. intros E ->. apply list_lookup_insert_eq. by eapply lookup_lt_Some. Qed.

(** In basic mode the copies are conserved: every selected peer takes one of
    the copies the bundle had left, the rest is what the node keeps, and once no
    copy is left nobody is selected. *)
Theorem spray_basic_conserves router rnd now loc peers s bd n sel b s' :
  st_heap s !! loc = Some bd → copies_of bd = Some n → 0 ≤ n → sw_binary router = false →
  spray_Select ebm router rnd now loc peers s = (Ok (sel, b), s') →
  ∃ bd' m, st_heap s' !! loc = Some bd' ∧ copies_of bd' = Some m ∧ 0 ≤ m ∧ m + len sel = n.
Proof.
  intros E Hn Hpos Hmode Hs.
  destruct (spray_Select_cases router rnd now loc peers s bd _ s' E Hs) as (s1 & bd1 & rc & Ec & E1 & Hcase).
  rewrite (spray_copies_saved router loc s bd n E Hn) in Ec. injection Ec as <- <-. rewrite E in E1. injection E1 as <-.
  destruct Hcase as [[-> Hnil]|[(copies & Heq & _ & Hc & Hb)|(copies & _ & Hm & _)]]; [| |congruence].
  - rewrite (Hnil sel b eq_refl). exists bd, n. unfold len. simpl. split; [done|]. split; [done|]. lia.
  - apply Ok_inj in Heq as <-.
    destruct (basic_run _ _ _ _ _ _ _ E (Z.lt_le_incl _ _ Hc) Hb) as (rem & sel' & Heq & Hh & _ & Hrem & Hsum & _).
    simplify_eq. exists (sprayed rem bd), rem. split; [by eapply sprayed_lookup|]. split; [apply copies_sprayed|done].
Qed.

Lemma split_copies_sum n : 0 ≤ n → (split_copies n).1 + (split_copies n).2 = n ∧ 0 ≤ (split_copies n).1 ≤ (split_copies n).2.
Proof.
  intros Hn. unfold split_copies. simpl. pose proof (Z.div_mod n 2 ltac:(lia)). pose proof (Z.mod_pos_bound n 2 ltac:(lia)).
  destruct (Z.eqb_spec (n mod 2) 0); simpl; lia.
Qed.

(** C36: in binary mode one peer is selected at a time; the bundle it gets carries
    half of the copies, rounded down but at least one, and the node keeps the
    other half. *)
Theorem spray_binary_conserves router rnd now loc peers s bd n sel b s' :
  st_heap s !! loc = Some bd → copies_of bd = Some n → 0 ≤ n → sw_binary router = true →
  spray_Select ebm router rnd now loc peers s = (Ok (sel, b), s') →
  (sel = [] ∧ s' = s) ∨
  ∃ peer b' bd' send m num, sel = [peer] ∧ b = Some b' ∧ st_heap s' !! loc = Some bd' ∧ copies_of bd' = Some m ∧
    send + m = n ∧ 0 < send ≤ m ∧
    mkCanonical num 0 CRCNo [] (Some (BinarySprayBlock send)) ∈ b_ExtensionBlocks b'.
Proof.
  intros E Hn Hpos Hmode Hs.
  destruct (spray_Select_cases router rnd now loc peers s bd _ s' E Hs) as (s1 & bd1 & rc & Ec & E1 & Hcase).
  rewrite (spray_copies_saved router loc s bd n E Hn) in Ec. injection Ec as <- <-. rewrite E in E1. injection E1 as <-.
  destruct Hcase as [[-> Hnil]|[(copies & _ & Hm & _)|(copies & Heq & _ & Hc & Hb)]]; [|congruence|].
  { left. split; [by eapply Hnil|done]. }
  apply Ok_inj in Heq as <-.
  destruct (selectBinarySpray_spec _ _ _ _ _ _ _ _ _ E Hb) as [[-> Hnil]|(peer & b0 & b1 & b2 & Heq & Hin & _ & _ & Ha & Hh & _)].
  { left. split; [by eapply Hnil|done]. }
  right. simplify_eq. destruct (split_copies_sum n Hpos) as [Hsum Hhalf].
  destruct (AddExtensionBlock_Ok b1 (NewCanonicalBlock 0 0 (BinarySprayBlock (split_copies n).1)) _ eq_refl)
    as (b3 & Ha2 & _ & _ & Hperm & _). rewrite Ha in Ha2. injection Ha2 as <-.
  eexists peer, b2, _, (split_copies n).1, (split_copies n).2, _. do 2 (split; [done|]).
  split; [by eapply sprayed_lookup|]. split; [apply copies_sprayed|]. split; [done|].
  split; [|rewrite Hperm; by left].
  unfold split_copies in *. simpl in *. assert (1 ≤ n / 2) by (apply Z.div_le_lower_bound; lia). lia.
Qed.
End Props.

(** ** Replacing the spray block *)

Lemma index_of_None n l : index_of n l = None → remove_block_number n l = l.
Proof.
  induction l as [|c l IH]; simpl; [done|]. destruct (cb_BlockNumber c =? n); [done|].
  destruct (index_of n l); [done|]. intros _. by rewrite IH.
Qed.

Lemma index_of_Some n l i : index_of n l = Some i → (i < length l)%nat ∧ remove_block_number n l = take i l ++ drop (S i) l.
Proof.
  revert i. induction l as [|c l IH]; intros i; simpl; [done|]. destruct (cb_BlockNumber c =? n).
  { intros [= <-]. simpl. split; [lia|done]. }
  destruct (index_of n l) as [j|]; [|done]. intros [= <-]. destruct (IH j eq_refl) as [Hl ->]. split; [lia|done].
Qed.

(** Removing one block in place is [RemoveExtensionBlockByBlockNumber]. *)
Lemma remove_in_place_whole n l : let '(arr, k) := remove_in_place n l (length l) in take k arr = remove_block_number n l.
Proof.
  unfold remove_in_place. rewrite firstn_all. destruct (index_of n l) as [i|] eqn:E.
  - destruct (index_of_Some _ _ _ E) as [Hl ->]. rewrite app_assoc, take_app_le, firstn_all2; try done;
      rewrite length_app, length_take, length_drop; lia.
  - by rewrite firstn_all, index_of_None.
Qed.

Lemma remove_filter t l cb : NoDup (block_numbers l) → filter (λ cb, has_type t cb = true) l = [cb] →
  remove_block_number (cb_BlockNumber cb) l = filter (λ cb, has_type t cb = false) l.
Proof.
  induction l as [|c l IH]; [done|]. rewrite fmap_cons, NoDup_cons, !filter_cons. intros [Hc Hnd]. simpl.
  destruct (has_type t c) eqn:Et.
  - rewrite decide_True, decide_False by done. intros [= -> Hnil]. rewrite Z.eqb_refl.
    clear -Hnil. induction l as [|x l IH]; [done|]. rewrite filter_cons in Hnil. rewrite filter_cons.
    destruct (has_type t x); [done|]. rewrite decide_False in Hnil by done. rewrite decide_True by done. f_equal. auto.
  - rewrite decide_False, decide_True by done. intros Hf.
    assert (cb ∈ l) as Hin.
    { assert (cb ∈ filter (λ cb, has_type t cb = true) l) as Hx by (rewrite Hf; by left). by apply list_elem_of_filter in Hx as [_ ?]. }
    destruct (Z.eqb_spec (cb_BlockNumber c) (cb_BlockNumber cb)) as [Heq|_].
    { destruct Hc. rewrite Heq. by apply list_elem_of_fmap_2. }
    f_equal. by apply IH.
Qed.

(** From a bundle with distinct block numbers and one spray block, binary
    spray removes that block and nothing else. *)
Theorem remove_single_spray_block b cb :
  NoDup (block_numbers (b_ExtensionBlocks b)) → all_valued (b_ExtensionBlocks b) →
  filter (λ cb, has_type BlockTypeBinarySprayBlock cb = true) (b_ExtensionBlocks b) = [cb] →
  remove_spray_blocks b =
    Ok (set_b_ExtensionBlocks (filter (λ cb, has_type BlockTypeBinarySprayBlock cb = false) (b_ExtensionBlocks b)) b).
Proof.
  intros Hnd Hv Hf. unfold remove_spray_blocks, ExtensionBlocksByType.
  destruct (blocks_of_type_total BlockTypeBinarySprayBlock 0 _ Hv) as [cbs E]. rewrite E.
  destruct (blocks_of_type_Ok _ _ _ _ E) as (_ & Hs & Hin). rewrite Hf in Hs.
  destruct cbs as [|[i c] [|]]; try done. injection Hs as ->. simpl.
  destruct (proj1 (Hin i cb) ltac:(by left)) as (_ & Hi & _). rewrite Nat.sub_0_r in Hi. rewrite Hi.
  pose proof (remove_in_place_whole (cb_BlockNumber cb) (b_ExtensionBlocks b)) as Hw.
  destruct (remove_in_place _ _ _) as [arr n]. by rewrite Hw, (remove_filter BlockTypeBinarySprayBlock).
Qed.

Definition spray_block (num copies : Z) : CanonicalBlock := mkCanonical num 0 CRCNo [] (Some (BinarySprayBlock copies)).

Lemma remove_single_spray_block_witness :
  remove_spray_blocks (mkBundle (sample_primary 0) [hop_block 2 16 3; spray_block 3 8; age_block 4 1] (payload_block "x")) =
    Ok (mkBundle (sample_primary 0) [hop_block 2 16 3; age_block 4 1] (payload_block "x")).
Proof.
  apply (remove_single_spray_block (mkBundle (sample_primary 0) [hop_block 2 16 3; spray_block 3 8; age_block 4 1] (payload_block "x"))
    (spray_block 3 8)).
  - apply (bool_decide_unpack _). vm_compute. exact I.
  - repeat constructor; eexists; reflexivity.
  - reflexivity.
Defined.

(** With two spray blocks the pointers are stale after the first removal: the
    hop count block is removed instead of the second spray block. *)
Theorem two_spray_blocks_damage :
  remove_spray_blocks (mkBundle (sample_primary 0) [spray_block 2 8; spray_block 3 4; hop_block 4 16 3] (payload_block "x")) =
    Ok (mkBundle (sample_primary 0) [spray_block 3 4] (payload_block "x")).
Proof. reflexivity. Qed.

(** ** Received spray blocks *)

(** A bundle as binary spray sends it, and as a node parses it. *)
Definition sprayed_bundle : Bundle :=
  mkBundle (sample_primary 0) [spray_block 2 8; age_block 3 1500] (payload_block "hello").
Definition received_bundle : Bundle :=
  match Bundle_MarshalCbor sprayed_bundle with
  | Ok (bs, _) => (ParseBundle GetExtensionBlockManager 0 bs).2
  | _ => zero_bundle
  end.

(** The registry does not know the spray block's type code, so a received
    spray block is a generic block; the type assertion in
    [NotifyReceivedBundle] then panics.  A bundle a node sends in binary mode is
    valid for the receiver and stops it. *)
Theorem received_spray_block_panics loc s :
  GetExtensionBlockManager !! BlockTypeBinarySprayBlock = None ∧
  Bundle_CheckValid 0 received_bundle = Ok [] ∧
  (spray_NotifyReceivedBundle loc received_bundle s).1 = Panic.
Proof. split; [|split]; vm_compute; reflexivity. Qed.

(** ** Examples *)

Definition spray_store (n : Z) : BundleStore := (setSprayCopies 0 n one_bundle).2.

Lemma spray_basic_conserves_witness :
  ∃ bd' m, st_heap (spray_Select GetExtensionBlockManager (NewSprayAndWait 5 false) 0 0 0 [peer_a; peer_b] (spray_store 3)).2 !! 0%nat = Some bd' ∧
    copies_of bd' = Some m ∧ m + 2 = 3.
Proof.
  destruct (st_heap (spray_store 3) !! 0%nat) as [bd|] eqn:E; [|vm_compute in E; discriminate E].
  destruct (spray_Select GetExtensionBlockManager (NewSprayAndWait 5 false) 0 0 0 [peer_a; peer_b] (spray_store 3)) as [r s'] eqn:Es.
  assert (Hr : (spray_Select GetExtensionBlockManager (NewSprayAndWait 5 false) 0 0 0 [peer_a; peer_b] (spray_store 3)).1 =
    Ok ([peer_a; peer_b], None)) by (vm_compute; reflexivity).
  rewrite Es in Hr. cbn [fst] in Hr. subst r. cbn [snd].
  destruct (spray_basic_conserves GetExtensionBlockManager (NewSprayAndWait 5 false) 0 0 0 [peer_a; peer_b] (spray_store 3) bd 3 [peer_a; peer_b] None s' E)
    as (bd' & m & Hl & Hc & _ & Hsum); [|lia|reflexivity|exact Es|].
  - vm_compute in E. injection E as <-. vm_compute. reflexivity.
  - exists bd', m. split; [exact Hl|]. split; [exact Hc|exact Hsum].
Defined.

Lemma spray_binary_conserves_witness :
  ∃ send m, send + m = 5 ∧ 0 < send ≤ m ∧
    (spray_Select GetExtensionBlockManager (NewSprayAndWait 5 true) 1 0 0 [peer_a; peer_b] (spray_store 5)).1 ≠ Ok ([], None).
Proof.
  destruct (st_heap (spray_store 5) !! 0%nat) as [bd|] eqn:E; [|vm_compute in E; discriminate E].
  destruct (spray_Select GetExtensionBlockManager (NewSprayAndWait 5 true) 1 0 0 [peer_a; peer_b] (spray_store 5)) as [r s'] eqn:Es.
  assert (Hr : ∃ b, (spray_Select GetExtensionBlockManager (NewSprayAndWait 5 true) 1 0 0 [peer_a; peer_b] (spray_store 5)).1 =
    Ok ([peer_b], Some b)) by (eexists; vm_compute; reflexivity).
  rewrite Es in Hr. cbn [fst] in Hr. destruct Hr as [b ->]. cbn [fst].
  destruct (spray_binary_conserves GetExtensionBlockManager (NewSprayAndWait 5 true) 1 0 0 [peer_a; peer_b] (spray_store 5) bd 5 [peer_b] (Some b) s' E)
    as [[Hnil _]|(peer & b' & bd' & send & m & num & _ & _ & _ & _ & Hsum & Hle & _)];
    [vm_compute in E; injection E as <-; vm_compute; reflexivity|lia|reflexivity|exact Es|discriminate Hnil|].
  exists send, m. split; [exact Hsum|]. split; [exact Hle|]. discriminate.
Defined.
