(* ===== verification/Config.v ===== *)
(** * The daemon's configuration

    [cmd/dtnd/config.go]: from the decoded TOML file to the configuration.  The decoding
    itself and the names of the log levels belong to libraries. *)

From stdpp Require Import base tactics list strings gmap.
From Stdlib Require Import ZArith Lia Bool Ascii.
From S2P Require Import Prelude GoStrings GoTime DtnTime Endpoint BundleId ExtensionBlocks Blocks Bundle Samples.
From S2P Require Import Cla Discovery Routing.
Local Open Scope Z_scope.

(** ** Go's address and number syntax *)

(** Cut at the last occurrence of [c]. *)
Fixpoint split_last (c : ascii) (s : string) : option (string * string) :=
  match s with
  | EmptyString => None
  | String a s' =>
      match split_last c s' with
      | Some (l, r) => Some (String a l, r)
      | None => if bool_decide (a = c) then Some (EmptyString, s') else None
      end
  end.

Definition has_char (c : ascii) (s : string) : bool := negb (string_forall (not_char c) s).

(** The last checks of [net.SplitHostPort]: no bracket in [s1], resp. [s2]. *)
Definition brackets_ok {A} (s1 s2 : string) (x : A) : res A :=
  if has_char "[" s1 then Err (errorf "unexpected '[' in address") else
  if has_char "]" s2 then Err (errorf "unexpected ']' in address") else Ok x.

(** [net.SplitHostPort] *)
Definition SplitHostPort (hostport : string) : res (string * string) :=
  match split_last ":" hostport with
  | None => Err (errorf "missing port in address")
  | Some (before, port) =>
      match hostport with
      | String "[" rest =>
          match split_first "]" rest with
          | (_, None) => Err (errorf "missing ']' in address")
          | (host, Some EmptyString) => Err (errorf "missing port in address")
          | (host, Some (String a after)) =>
              if (String.length host + 2 =? String.length before)%nat then brackets_ok rest (String a after) (host, port)
              else if bool_decide (a = ":"%char) then Err (errorf "too many colons in address")
              else Err (errorf "missing port in address")
          end
      | _ =>
          if has_char ":" before then Err (errorf "too many colons in address")
          else brackets_ok hostport hostport (before, port)
      end
  end.

(** [strconv.Atoi] *)
Definition Atoi (s : string) : res Z :=
  let '(neg, digits) := match s with
                        | String "-" s => (true, s)
                        | String "+" s => (false, s)
                        | _ => (false, s)
                        end in
  if negb (nonempty digits) then Err (errorf "invalid syntax") else
  match dec_value 0 digits with
  | None => Err (errorf "invalid syntax")
  | Some v =>
      let v := if (neg : bool) then - v else v in
      if (- two63 <=? v) && (v <? two63) then Ok v else Err (errorf "value out of range")
  end.

(** ** The file *)

Record storeConfig := mkStoreConfig { sc_Path : string }.
Record RoutingSprayConfig := mkSprayConfig { rs_Binary : bool; rs_Copies : Z }.
Record tomlRoutingConfig := mkTomlRouting { tr_Algorithm : string; tr_Spray : RoutingSprayConfig }.
Record listenerTomlConfig := mkTomlListener { tl_Type : string; tl_Address : string }.
Record agentsConfig := mkAgents { ag_REST_Address : string; ag_UNIX_Socket : string; ag_REC_Socket : string }.
Record cronTomlConfig := mkTomlCron { tn_Dispatch : string; tn_GC : string }.

Record tomlConfig := mkToml {
  t_NodeID : string;
  t_LogLevel : string;
  t_Store : storeConfig;
  t_Routing : tomlRoutingConfig;
  t_Listener : list listenerTomlConfig;
  t_Agents : agentsConfig;
  t_Cron : cronTomlConfig;
}.

(** ** The configuration *)

Record routingConfig := mkRouting { ro_Algorithm : Z; ro_Spray : RoutingSprayConfig }.
Record ListenerConfig := mkListenerConfig { li_Type : Z; li_Address : string; li_EndpointId : EndpointID }.
Record cronConfig := mkCron { cr_Dispatch : Z; cr_GC : Z }.

Record config := mkConfig {
  c_NodeID : EndpointID;
  c_LogLevel : Z;
  c_Store : storeConfig;
  c_Routing : routingConfig;
  c_Listener : list ListenerConfig;
  c_Agents : agentsConfig;
  c_Discovery : list Announcement;
  c_Cron : cronConfig;
}.

(** [NewConfigError] around the error of a call. *)
Definition ConfigError {A} (message : string) (r : res A) : res A :=
  match r with Err _ => Err (errorf ("Error during config parsing: " +:+ message)) | x => x end.

Definition parseListenPort (endpoint : string) : res Z :=
  '(_, portStr) ← SplitHostPort endpoint;
  Atoi portStr.

(** The loop over the listeners. *)
Fixpoint parse_listeners (nodeID : EndpointID) (l : list listenerTomlConfig) : res (list ListenerConfig * list Announcement) :=
  match l with
  | [] => Ok ([], [])
  | listener :: l =>
      claType ← ConfigError "Error parsing Listener Type" (TypeFromString (tl_Type listener));
      port ← ConfigError "Error parsing listener port" (parseListenPort (tl_Address listener));
      '(ls, ds) ← parse_listeners nodeID l;
      Ok (mkListenerConfig claType (tl_Address listener) nodeID :: ls, mkAnnouncement claType nodeID (wrap_u64 port) :: ds)
  end.

(** [parse] after [toml.DecodeFile], whose result is [decoded]; [ParseLevel] is the
    logging library's. *)
Definition parse (ParseLevel : string → res Z) (decoded : res tomlConfig) : res config :=
  tomlConf ← ConfigError "Error parsing toml" decoded;
  nodeID ← ConfigError "Error parsing NodeID" (NewEndpointID (t_NodeID tomlConf));
  logLevel ← ConfigError "Error parsing log level" (ParseLevel (t_LogLevel tomlConf));
  algorithm ← ConfigError "Error parsing routing Algorithm" (AlgorithmEnumFromString (tr_Algorithm (t_Routing tomlConf)));
  '(listeners, announcements) ← parse_listeners nodeID (t_Listener tomlConf);
  dispatchTime ← ConfigError "Error parsing dispatch period" (ParseDuration (tn_Dispatch (t_Cron tomlConf)));
  gcTime ← ConfigError "Error parsing gc period" (ParseDuration (tn_GC (t_Cron tomlConf)));
  Ok (mkConfig nodeID logLevel (t_Store tomlConf) (mkRouting algorithm (tr_Spray (t_Routing tomlConf))) listeners
        (t_Agents tomlConf) announcements (mkCron dispatchTime gcTime)).

(** ** What a configuration is *)

Definition listener_parsed (nodeID : EndpointID) (tl : listenerTomlConfig) (x : ListenerConfig * Announcement) : Prop :=
  ∃ claType port, TypeFromString (tl_Type tl) = Ok claType ∧ parseListenPort (tl_Address tl) = Ok port ∧
    x = (mkListenerConfig claType (tl_Address tl) nodeID, mkAnnouncement claType nodeID (wrap_u64 port)).

Lemma ConfigError_Ok {A} msg (r : res A) a : ConfigError msg r = Ok a ↔ r = Ok a.
Proof. by destruct r. Qed.

Lemma res_bind_Ok {A B} (r : res A) (f : A → res B) b : (x ← r; f x) = Ok b ↔ ∃ a, r = Ok a ∧ f a = Ok b.
Proof. destruct r; simpl; naive_solver. Qed.

Lemma parse_listeners_Ok nodeID l ls ds : parse_listeners nodeID l = Ok (ls, ds) ↔
  ∃ ps, Forall2 (listener_parsed nodeID) l ps ∧ ls = ps.*1 ∧ ds = ps.*2.
Proof.
  revert ls ds. induction l as [|tl l IH]; intros ls ds; simpl.
  { split; [intros [= <- <-]; by exists []|]. intros (ps & Hps%Forall2_nil_inv_l & -> & ->). by subst. }
  setoid_rewrite res_bind_Ok. setoid_rewrite res_bind_Ok. setoid_rewrite ConfigError_Ok. split.
  - intros (ty & Hty & port & Hport & Hr). destruct (parse_listeners nodeID l) as [[ls' ds']| |]; [|done..].
    destruct (proj1 (IH ls' ds') eq_refl) as (ps & Hps & -> & ->). injection Hr as <- <-.
    exists ((mkListenerConfig ty (tl_Address tl) nodeID, mkAnnouncement ty nodeID (wrap_u64 port)) :: ps).
    split; [|done]. constructor; [|done]. by exists ty, port.
  - intros (ps & Hps & -> & ->). apply Forall2_cons_inv_l in Hps as (x & ps' & (ty & port & Hty & Hport & ->) & Hps & ->).
    exists ty. split; [done|]. exists port. split; [done|]. rewrite (proj2 (IH ps'.*1 ps'.*2)) by by exists ps'. done.
Qed.

(** A configuration is accepted exactly if every part of it can be parsed, and it then
    has one listener and one announcement of the node's id for every listener of the file,
    in the same order. *)
Theorem config_accepted ParseLevel t conf : parse ParseLevel (Ok t) = Ok conf ↔
  ∃ alg d g ps, NewEndpointID (t_NodeID t) = Ok (c_NodeID conf) ∧ ParseLevel (t_LogLevel t) = Ok (c_LogLevel conf) ∧
    AlgorithmEnumFromString (tr_Algorithm (t_Routing t)) = Ok alg ∧ ParseDuration (tn_Dispatch (t_Cron t)) = Ok d ∧
    ParseDuration (tn_GC (t_Cron t)) = Ok g ∧ Forall2 (listener_parsed (c_NodeID conf)) (t_Listener t) ps ∧
    conf = mkConfig (c_NodeID conf) (c_LogLevel conf) (t_Store t) (mkRouting alg (tr_Spray (t_Routing t))) ps.*1 (t_Agents t) ps.*2 (mkCron d g).
Proof.
  unfold parse. simpl. repeat setoid_rewrite res_bind_Ok. setoid_rewrite ConfigError_Ok. split.
  - intros (node & Hn & lvl & Hl & alg & Ha & [ls ds] & (ps & Hps & -> & ->)%parse_listeners_Ok & Hr).
    repeat setoid_rewrite res_bind_Ok in Hr. setoid_rewrite ConfigError_Ok in Hr. destruct Hr as (d & Hd & g & Hg & [= <-]).
    exists alg, d, g, ps. done.
  - intros (alg & d & g & ps & Hn & Hl & Ha & Hd & Hg & Hps & ->). exists (c_NodeID conf). split; [done|].
    exists (c_LogLevel conf). split; [done|]. exists alg. split; [done|]. exists (ps.*1, ps.*2).
    split; [apply parse_listeners_Ok; by exists ps|]. by rewrite Hd, Hg.
Qed.

(** The announcements of an accepted configuration can be sent, and its algorithm is the
    one named in the file. *)
Lemma config_parts ParseLevel t conf : parse ParseLevel (Ok t) = Ok conf → EndpointID_fits (c_NodeID conf) →
  Forall Announcement_wf (c_Discovery conf) ∧
  ∃ alg, AlgorithmEnumFromString (tr_Algorithm (t_Routing t)) = Ok alg ∧ ro_Algorithm (c_Routing conf) = alg.
Proof.
  intros Hp Hf. assert (∃ ps, NewEndpointID (t_NodeID t) = Ok (c_NodeID conf) ∧
    Forall2 (listener_parsed (c_NodeID conf)) (t_Listener t) ps ∧ c_Discovery conf = ps.*2 ∧
    AlgorithmEnumFromString (tr_Algorithm (t_Routing t)) = Ok (ro_Algorithm (c_Routing conf))) as (ps & Hn & Hps & -> & Halg).
  { unfold parse in Hp. simpl in Hp. repeat setoid_rewrite res_bind_Ok in Hp. setoid_rewrite ConfigError_Ok in Hp.
    destruct Hp as (node & Hn & lvl & Hl & alg & Ha & [ls ds] & (ps & Hps & -> & ->)%parse_listeners_Ok & Hr).
    repeat setoid_rewrite res_bind_Ok in Hr. destruct Hr as (d & Hd & g & Hg & [= <-]). by exists ps. }
  apply NewEndpointID_Ok in Hn as [Hwf _]. split; [|by eexists].
  induction Hps as [|tl x l ps (ty & port & Hty & _ & ->) _ IH]; [constructor|]. rewrite fmap_cons. constructor; [|done].
  assert (is_u64 ty ∧ CLAType_CheckValid ty = Ok ()) as [? ?].
  { unfold TypeFromString in Hty. repeat case_bool_decide; simplify_eq; unfold TCPCLv4, MTCP, QUICL; split; (u64_lia || reflexivity). }
  split_and!; try done; simpl. apply wrap_u64_range.
Qed.

(** ** Addresses with a port *)

Lemma string_app_cons a s t : String a s +:+ t = String a (s +:+ t).
Proof. done. Qed.

Lemma split_last_none c t : string_forall (not_char c) t = true → split_last c t = None.
Proof.
  induction t as [|a t IH]; [done|]. simpl. unfold not_char at 1. intros [Ha Ht]%andb_true_iff. rewrite IH by done.
  by destruct (bool_decide (a = c)).
Qed.

Lemma split_last_app c s t : string_forall (not_char c) t = true → split_last c (s +:+ String c t) = Some (s, t).
Proof.
  intros Ht. induction s as [|a s IH]; [|rewrite string_app_cons; simpl; by rewrite IH].
  change (EmptyString +:+ String c t) with (String c t). simpl. rewrite split_last_none by done. by rewrite bool_decide_eq_true_2.
Qed.

(** A name without the characters that separate the parts of an address. *)
Definition plain_host (host : string) : Prop :=
  string_forall (not_char ":") host = true ∧ string_forall (not_char "[") host = true ∧ string_forall (not_char "]") host = true.

Lemma SplitHostPort_join host port : plain_host host → plain_host port → SplitHostPort (host +:+ String ":" port) = Ok (host, port).
Proof.
  intros (Hc & Ho & Hcl) (Pc & Po & Pcl). unfold SplitHostPort. rewrite split_last_app by done.
  assert (has_char ":" host = false) as H1 by (unfold has_char; by rewrite Hc).
  assert (brackets_ok (host +:+ String ":" port) (host +:+ String ":" port) (host, port) = Ok (host, port)) as H2.
  { unfold brackets_ok, has_char. rewrite !string_forall_app. simpl. by rewrite Ho, Hcl, Po, Pcl. }
  destruct host as [|a host]; [by rewrite H1, H2|]. rewrite string_app_cons in *.
  assert (a ≠ "["%char) as Ha. { simpl in Ho. unfold not_char at 1 in Ho. intros ->. by rewrite bool_decide_eq_true_2 in Ho. }
  destruct a as [[] [] [] [] [] [] [] []]; try (by rewrite H1, H2). by destruct Ha.
Qed.

Lemma Atoi_fmt_d n : 0 ≤ n < two63 → Atoi (fmt_d n) = Ok n.
Proof.
  intros Hn. assert (is_u64 n) as Hu by u64_lia. pose proof (ParseUint_fmt_d n Hu) as Hp. unfold ParseUint in Hp.
  pose proof (fmt_d_digits n) as Hd. pose proof (fmt_d_nonempty n) as Hne. unfold Atoi.
  destruct (fmt_d n) as [|a s] eqn:E; [done|]. rewrite Hne in Hp. simpl in Hd. apply andb_true_iff in Hd as [Ha _].
  assert (∀ T (x y z : T), match a with "-"%char => x | "+"%char => y | _ => z end = z) as Hm.
  { intros T x y z. destruct a as [[] [] [] [] [] [] [] []]; (reflexivity || (vm_compute in Ha; discriminate)). }
  rewrite Hm. rewrite Hne. simpl negb. cbv iota. destruct (dec_value 0 (String a s)) as [v|]; [|done].
  destruct (v <? two64); [|done]. injection Hp as ->.
  destruct (Z.leb_spec (- two63) n); [|u64_lia]. destruct (Z.ltb_spec n two63); [|u64_lia]. done.
Qed.

(** The port of an address in the form in which discovery writes it is read back. *)
Theorem listen_port_roundtrip addr port : plain_host addr → 0 ≤ port < two63 → parseListenPort (host_port addr port) = Ok port.
Proof.
  intros Ha Hp. unfold parseListenPort, host_port. change (":" +:+ fmt_d port) with (String ":" (fmt_d port)).
  rewrite SplitHostPort_join; [by apply Atoi_fmt_d|done|]. by split_and!; apply fmt_d_not_char.
Qed.

Lemma listen_port_roundtrip_witness : parseListenPort (host_port "10.0.0.2" 4556) = Ok 4556.
Proof. apply (listen_port_roundtrip "10.0.0.2" 4556); [vm_compute; auto|vm_compute; split; congruence]. Defined.
