(* ===== verification/Mailbox.v ===== *)
(** * Mailboxes

    [pkg/application_agent/mailbox.go] and [mailbox_bank.go].  A mailbox holds the
    ids of the bundles delivered to it; the bundles stay in the store, which these
    methods only read.  Each method holds the mailbox's lock for its whole body.
    Where a method ranges over the map of messages, the order the runtime takes is
    an argument. *)

From stdpp Require Import base tactics list strings gmap.
From Stdlib Require Import ZArith Lia Bool.
From S2P Require Import Prelude Cboring GoSort Flags Crc DtnTime Endpoint BundleId ExtensionBlocks Blocks.
From S2P Require Import Bundle Samples BundleCodec Descriptor Store StoreInv StoreExamples.
Local Open Scope Z_scope.

Definition AlreadyDeliveredError : error := errorf "Bundle already in mailbox".
Definition NoSuchBundleInMailbox : error := errorf "No Bundle with id in mailbox".
Definition IDAlreadyRegisteredError : error := errorf "ID has already been registered".
Definition NoSuchIDError : error := errorf "No such ID has been registered".

(** The value of an id says whether its bundle has been retrieved. *)
Abbreviation Mailbox := (gmap BundleID bool).

Definition NewMailbox : Mailbox := ∅.

(** [order] is an order in which Go may range over [m]. *)
Definition range_order {A} (m : gmap BundleID A) (order : list BundleID) : Prop := order ≡ₚ (map_to_list m).*1.

Definition Mailbox_List (mb : Mailbox) (order : list BundleID) : list BundleID := order.

Definition Mailbox_ListNew (mb : Mailbox) (order : list BundleID) : list BundleID :=
  filter (λ bid, mb !! bid = Some false) order.

Definition Mailbox_Delete (bid : BundleID) (mb : Mailbox) : Mailbox := delete bid mb.
Definition Mailbox_Clear (mb : Mailbox) : Mailbox := ∅.

Section Mailbox.
Context `{Cboring} `{Crc16} `{GoMapRange} `{Ed25519} `{Badgerhold} `{Sha256}.
Context (ebm : ExtensionBlockManager) (now : Z).

(** [Deliver] of the bundle whose descriptor is at [loc]. *)
Definition Mailbox_Deliver (loc : nat) (s : BundleStore) : M Mailbox () := λ mb,
  match st_heap s !! loc with
  | None => (Panic, mb)
  | Some bd =>
      let bid := m_ID (d_metadata bd) in
      match mb !! bid with
      | Some _ => (Err AlreadyDeliveredError, mb)
      | None =>
          match GetBundleDescriptor bid s with
          | Ok _ => (Ok (), <[bid := false]> mb)
          | Err e => (Err e, mb)
          | Panic => (Panic, mb)
          end
      end
  end.

Definition Mailbox_Get (bid : BundleID) (remove : bool) (s : BundleStore) : M Mailbox Bundle := λ mb,
  match mb !! bid with
  | None => (Err NoSuchBundleInMailbox, mb)
  | Some _ =>
      match (loc ← GetBundleDescriptor bid s; Load ebm now loc s) with
      | Ok bndl => (Ok bndl, if remove then delete bid mb else <[bid := true]> mb)
      | Err e => (Err e, mb)
      | Panic => (Panic, mb)
      end
  end.

(** The loop of [GetAll] and [GetNew] ([onlyNew]); Go's two results are the
    bundles and the error, and which bundles come with an error depends on the call
    that failed. *)
Fixpoint get_loop (onlyNew : bool) (s : BundleStore) (order : list BundleID) (bndls : list Bundle) :
    M Mailbox (list Bundle * option error) := λ mb,
  match order with
  | [] => (Ok (bndls, None), mb)
  | bid :: order =>
      if onlyNew && bool_decide (mb !! bid = Some true) then get_loop onlyNew s order bndls mb else
      match GetBundleDescriptor bid s with
      | Panic => (Panic, mb)
      | Err e => (Ok ([], Some e), mb)
      | Ok loc =>
          match Load ebm now loc s with
          | Panic => (Panic, mb)
          | Err e => (Ok (bndls, Some e), mb)
          | Ok bndl => get_loop onlyNew s order (bndls ++ [bndl]) (<[bid := true]> mb)
          end
      end
  end.

Definition get_bundles (onlyNew remove : bool) (s : BundleStore) (order : list BundleID) :
    M Mailbox (list Bundle * option error) := λ mb,
  match get_loop onlyNew s order [] mb with
  | (Ok (bndls, None), mb) => (Ok (bndls, None), if remove then Mailbox_Clear mb else mb)
  | x => x
  end.

Definition Mailbox_GetAll := get_bundles false.
Definition Mailbox_GetNew := get_bundles true.

(** [GC] keeps the messages whose bundle the store still has. *)
Definition in_store (s : BundleStore) (bid : BundleID) : bool :=
  match GetBundleDescriptor bid s with
  | Ok loc => match st_heap s !! loc with Some bd => negb (Deleted bd) | None => false end
  | _ => false
  end.

Definition Mailbox_GC (s : BundleStore) (mb : Mailbox) : Mailbox := filter (λ '(bid, _), in_store s bid = true) mb.

(** ** The bank *)

Record MailboxBank := mkBank { mb_registeredIDs : list EndpointID; mb_mailboxes : gmap EndpointID Mailbox }.

Definition NewMailboxBank : MailboxBank := mkBank [] ∅.

Definition Bank_Register (eid : EndpointID) : M MailboxBank () := λ bank,
  match mb_mailboxes bank !! eid with
  | Some _ => (Err IDAlreadyRegisteredError, bank)
  | None => (Ok (), mkBank (mb_registeredIDs bank ++ [eid]) (<[eid := NewMailbox]> (mb_mailboxes bank)))
  end.

Definition Bank_Unregister (eid : EndpointID) : M MailboxBank () := λ bank,
  match mb_mailboxes bank !! eid with
  | None => (Err NoSuchIDError, bank)
  | Some _ => (Ok (), mkBank (filter (λ reid, reid ≠ eid) (mb_registeredIDs bank)) (delete eid (mb_mailboxes bank)))
  end.

Definition RegisteredIDs (bank : MailboxBank) : list EndpointID := mb_registeredIDs bank.

(** [GetMailbox] followed by a method of the mailbox it returns. *)
Definition with_mailbox {A} (eid : EndpointID) (m : M Mailbox A) : M MailboxBank A := λ bank,
  match mb_mailboxes bank !! eid with
  | None => (Err NoSuchIDError, bank)
  | Some mb => let '(r, mb) := m mb in (r, mkBank (mb_registeredIDs bank) (<[eid := mb]> (mb_mailboxes bank)))
  end.

Definition Bank_Deliver (loc : nat) (s : BundleStore) : M MailboxBank () := λ bank,
  match st_heap s !! loc with
  | None => (Panic, bank)
  | Some bd =>
      match Metadata bd with
      | Ok m => with_mailbox (m_Destination m) (Mailbox_Deliver loc s) bank
      | Err e => (Err e, bank)
      | Panic => (Panic, bank)
      end
  end.

(** [GC]; the mailboxes' goroutines do not touch one another's state. *)
Definition Bank_GC (s : BundleStore) (bank : MailboxBank) : MailboxBank :=
  mkBank (mb_registeredIDs bank) (Mailbox_GC s <$> mb_mailboxes bank).
End Mailbox.
