(* ===== verification/MailboxProps.v ===== *)
(** * Properties of mailboxes

    What delivery, retrieval and garbage collection of mailboxes promise to the
    application agents. *)

From stdpp Require Import base tactics list strings gmap.
From Stdlib Require Import ZArith Lia Bool.
From S2P Require Import Prelude Cboring GoSort Flags Crc DtnTime Endpoint BundleId ExtensionBlocks Blocks.
From S2P Require Import Bundle Samples BundleCodec Descriptor Store StoreInv StoreExamples Mailbox.
Local Open Scope Z_scope.

Lemma range_order_elem {A} (m : gmap BundleID A) order bid : range_order m order → bid ∈ order ↔ is_Some (m !! bid).
Proof.
  intros Ho. unfold range_order in Ho. rewrite Ho, list_elem_of_fmap. split.
  - intros ([k x] & -> & Hx%elem_of_map_to_list). by exists x.
  - intros [x Hx]. exists (bid, x). by rewrite elem_of_map_to_list.
Qed.

Lemma range_order_NoDup {A} (m : gmap BundleID A) order : range_order m order → NoDup order.
Proof. intros Ho. unfold range_order in Ho. rewrite Ho. apply NoDup_fst_map_to_list. Qed.

Lemma range_order_exists {A} (m : gmap BundleID A) : ∃ order, range_order m order.
Proof. exists (map_to_list m).*1. unfold range_order. reflexivity. Qed.

(** ** Retrieval *)

(** The messages a call retrieves, in the order of the loop. *)
Definition wanted (onlyNew : bool) (mb : Mailbox) (order : list BundleID) : list BundleID :=
  filter (λ bid, negb (onlyNew && bool_decide (mb !! bid = Some true)) = true) order.

Definition mark (l : list BundleID) (mb : Mailbox) : Mailbox := foldr (λ bid, <[bid := true]>) mb l.

Lemma lookup_mark l mb bid : mark l mb !! bid = if decide (bid ∈ l) then Some true else mb !! bid.
Proof.
  induction l as [|x l IH].
  - by rewrite decide_False by (by intros ?%not_elem_of_nil).
  - change (mark (x :: l) mb) with (<[x := true]> (mark l mb)). destruct (decide (bid = x)) as [->|Hne].
    + by rewrite lookup_insert_eq, decide_True by (by left).
    + rewrite lookup_insert_ne, IH by done. destruct (decide (bid ∈ l)) as [Hin|Hin].
      * by rewrite decide_True by (by right).
      * by rewrite decide_False by (by rewrite elem_of_cons; intros [?|?]).
Qed.

Lemma wanted_ext onlyNew mb mb' order : (∀ bid, bid ∈ order → mb !! bid = mb' !! bid) →
  wanted onlyNew mb order = wanted onlyNew mb' order.
Proof.
  unfold wanted. induction order as [|bid order IH]; intros E; [done|]. rewrite !filter_cons, (E bid) by (by left).
  rewrite IH; [done|]. intros bid' Hin. apply E. by right.
Qed.

Section Props.
Context `{Cboring} `{Crc16} `{GoMapRange} `{Ed25519} `{Badgerhold} `{Sha256}.
Context (ebm : ExtensionBlockManager) (now : Z).

(** The bundle of a message. *)
Definition fetch (s : BundleStore) (bid : BundleID) : res Bundle := loc ← GetBundleDescriptor bid s; Load ebm now loc s.

Lemma get_loop_spec onlyNew s order : NoDup order → ∀ acc mb bs,
  Forall2 (λ bid b, fetch s bid = Ok b) (wanted onlyNew mb order) bs →
  get_loop ebm now onlyNew s order acc mb = (Ok (acc ++ bs, None), mark (reverse (wanted onlyNew mb order)) mb).
Proof.
  induction 1 as [|bid order Hnin Hnd IH]; intros acc mb bs Hf.
  { apply Forall2_nil_inv_l in Hf as ->. simpl. by rewrite app_nil_r. }
  unfold wanted in *. rewrite filter_cons in *. cbn [get_loop].
  destruct (onlyNew && bool_decide (mb !! bid = Some true)) eqn:Ew.
  { rewrite decide_False by done. rewrite decide_False in Hf by done. by apply IH. }
  rewrite decide_True by done. rewrite decide_True in Hf by done. apply Forall2_cons_inv_l in Hf as (b & bs' & Hb & Hf & ->).
  unfold fetch in Hb. destruct (GetBundleDescriptor bid s) as [loc| |]; [|done..]. simpl in Hb. rewrite Hb.
  assert (wanted onlyNew mb order = wanted onlyNew (<[bid := true]> mb) order) as Ewant.
  { apply wanted_ext. intros bid' Hin. rewrite lookup_insert_ne; [done|]. by intros ->. }
  unfold wanted in Ewant. rewrite (IH (acc ++ [b]) (<[bid := true]> mb) bs') by (by rewrite <- Ewant).
  rewrite <- Ewant, <- (assoc app). simpl. f_equal. rewrite reverse_cons. unfold mark. by rewrite foldr_app.
Qed.

(** If every message a call of [GetAll] or [GetNew] selects can be loaded, the
    call returns the bundle of each selected message exactly once, in the order of
    the loop, and no error.  Afterwards the mailbox is empty if [remove] is set;
    otherwise it has the same messages, all of them retrieved. *)
Theorem mailbox_get_spec onlyNew remove s order mb bs :
  range_order mb order →
  Forall2 (λ bid b, fetch s bid = Ok b) (wanted onlyNew mb order) bs →
  ∃ mb', get_bundles ebm now onlyNew remove s order mb = (Ok (bs, None), mb') ∧
    (∀ bid, bid ∈ wanted onlyNew mb order ↔ is_Some (mb !! bid) ∧ (onlyNew = true → mb !! bid = Some false)) ∧
    mb' = (if remove then ∅ else (λ _, true) <$> mb).
Proof.
  intros Ho Hf. unfold get_bundles. rewrite (get_loop_spec _ _ _ (range_order_NoDup _ _ Ho) [] mb bs Hf).
  eexists. split; [reflexivity|].
  assert (∀ bid, bid ∈ wanted onlyNew mb order ↔ is_Some (mb !! bid) ∧ (onlyNew = true → mb !! bid = Some false)) as Hw.
  { intros bid. unfold wanted. rewrite list_elem_of_filter, (range_order_elem mb) by done.
    destruct (mb !! bid) as [[]|] eqn:E, onlyNew; simpl; rewrite ?bool_decide_eq_true_2, ?bool_decide_eq_false_2 by done;
      naive_solver. }
  split; [exact Hw|]. destruct remove; [done|]. apply map_eq. intros bid.
  rewrite lookup_mark, lookup_fmap. destruct (decide _) as [Hin|Hin]; rewrite elem_of_reverse, Hw in Hin.
  - by destruct Hin as [[x ->] _].
  - destruct (mb !! bid) as [[]|] eqn:E; simpl; [done| |done]. destruct Hin. naive_solver.
Qed.

(** ** Garbage collection *)

Lemma in_store_fetch s bid : core_inv s → files_inv s → in_store s bid = true →
  fetch s bid = Panic ∨ ∃ b, fetch s bid = Ok b.
Proof.
  intros Hs Hf. unfold in_store, fetch, GetBundleDescriptor. destruct (st_bundles s !! bid) as [loc|] eqn:Eb; [|done].
  destruct (ci_map s Hs _ _ Eb) as (bd & El & Hid). rewrite El. destruct (Deleted bd) eqn:Ed; [done|]. intros _.
  unfold Load, loadEntireBundle. simpl. rewrite El. unfold Deleted in Ed. rewrite Ed.
  destruct (ci_heap s Hs _ _ El) as (_ & [_ Hname] & _). rewrite Hname, Hid.
  destruct (Hf bid) as [bs ->]; [by eexists|]. destruct (ParseBundle ebm now bs) as [[] b]; eauto.
Qed.

Lemma get_loop_no_error onlyNew s order : (∀ bid, bid ∈ order → fetch s bid = Panic ∨ ∃ b, fetch s bid = Ok b) →
  ∀ acc mb, (get_loop ebm now onlyNew s order acc mb).1 = Panic ∨ ∃ bs, (get_loop ebm now onlyNew s order acc mb).1 = Ok (bs, None).
Proof.
  induction order as [|bid order IH]; intros Hall acc mb; [by eauto|]. simpl.
  assert (∀ bid', bid' ∈ order → fetch s bid' = Panic ∨ ∃ b, fetch s bid' = Ok b) as Hrest by (intros; apply Hall; by right).
  destruct (onlyNew && _); [by apply IH|]. specialize (Hall bid ltac:(by left)). unfold fetch in Hall.
  destruct (GetBundleDescriptor bid s) as [loc| |]; simpl in Hall; [|naive_solver..].
  destruct (Load ebm now loc s); [by apply IH|naive_solver..].
Qed.

(** Right after garbage collection of a mailbox over a consistent store, every
    message left has a bundle that is not deleted, and retrieving messages cannot
    return an error. *)
Theorem mailbox_gc_fetchable onlyNew remove s mb order :
  core_inv s → files_inv s → range_order (Mailbox_GC s mb) order →
  (∀ bid, bid ∈ order → ∃ loc, GetBundleDescriptor bid s = Ok loc) ∧
  ((get_bundles ebm now onlyNew remove s order (Mailbox_GC s mb)).1 = Panic ∨
   ∃ bs, (get_bundles ebm now onlyNew remove s order (Mailbox_GC s mb)).1 = Ok (bs, None)).
Proof.
  intros Hs Hf Ho.
  assert (∀ bid, bid ∈ order → in_store s bid = true) as Hin.
  { intros bid. rewrite (range_order_elem _ _ _ Ho). intros [x Hx]. by apply map_lookup_filter_Some in Hx as [_ Hx]. }
  split.
  - intros bid Hb%Hin. unfold in_store in Hb. destruct (GetBundleDescriptor bid s) as [loc| |]; [by exists loc|done..].
  - destruct (get_loop_no_error onlyNew s order (λ bid Hb, in_store_fetch s bid Hs Hf (Hin bid Hb)) [] (Mailbox_GC s mb)) as [E|[bs E]];
      unfold get_bundles; destruct (get_loop _ _ _ _ _ _ _) as [r mb']; simpl in E; subst r; eauto.
Qed.

(** ** Delivery *)

(** Delivery of a live bundle of a consistent store to a bank: without a
    mailbox for its destination nothing happens; otherwise the destination's
    mailbox, and no other, gets the bundle's id as a message not yet retrieved,
    unless it has it already, so a bundle is delivered at most once. *)
Theorem bank_deliver_spec s loc bd bank :
  core_inv s → st_heap s !! loc = Some bd → d_deleted bd = false →
  let id := m_ID (d_metadata bd) in
  let dst := m_Destination (d_metadata bd) in
  match mb_mailboxes bank !! dst with
  | None => Bank_Deliver loc s bank = (Err NoSuchIDError, bank)
  | Some mb =>
      ∃ bank', mb_registeredIDs bank' = mb_registeredIDs bank ∧
        (∀ eid, eid ≠ dst → mb_mailboxes bank' !! eid = mb_mailboxes bank !! eid) ∧
        match mb !! id with
        | None => Bank_Deliver loc s bank = (Ok (), bank') ∧ mb_mailboxes bank' !! dst = Some (<[id := false]> mb) ∧
            ∃ bank'', Bank_Deliver loc s bank' = (Err AlreadyDeliveredError, bank'')
        | Some _ => Bank_Deliver loc s bank = (Err AlreadyDeliveredError, bank') ∧ mb_mailboxes bank' !! dst = Some mb
        end
  end.
Proof.
  intros Hs El Ed id dst.
  assert (GetBundleDescriptor id s = Ok loc) as Hg.
  { destruct (ci_heap s Hs _ _ El) as (_ & _ & Hlive). unfold GetBundleDescriptor, Deleted, id. by rewrite (Hlive Ed), El, Ed. }
  unfold Bank_Deliver, Metadata, with_mailbox. rewrite El, Ed. fold dst.
  destruct (mb_mailboxes bank !! dst) as [mb|] eqn:Em; [|done].
  unfold Mailbox_Deliver. rewrite El. fold id. destruct (mb !! id) as [x|] eqn:Ei.
  - eexists. split; [|split; [|split; [reflexivity|]]]; simpl; [done| |by rewrite lookup_insert_eq].
    intros eid Hne. by rewrite lookup_insert_ne.
  - rewrite Hg. eexists. split; [|split; [|split; [reflexivity|split]]]; simpl; [done| |by rewrite lookup_insert_eq|].
    + intros eid Hne. by rewrite lookup_insert_ne.
    + rewrite lookup_insert_eq. simpl. rewrite lookup_insert_eq. by eexists.
Qed.

(** ** The bank's two fields agree *)

Inductive bank_step : MailboxBank → MailboxBank → Prop :=
  | do_Register eid bank : bank_step bank (Bank_Register eid bank).2
  | do_Unregister eid bank : bank_step bank (Bank_Unregister eid bank).2
  | do_mailbox {A} eid (m : M Mailbox A) bank : bank_step bank (with_mailbox eid m bank).2
  | do_Deliver loc s bank : bank_step bank (Bank_Deliver loc s bank).2
  | do_GC s bank : bank_step bank (Bank_GC s bank).

Inductive bank_reachable : MailboxBank → Prop :=
  | bank_new : bank_reachable NewMailboxBank
  | bank_next bank bank' : bank_reachable bank → bank_step bank bank' → bank_reachable bank'.

Definition bank_inv (bank : MailboxBank) : Prop :=
  NoDup (mb_registeredIDs bank) ∧ ∀ eid, eid ∈ mb_registeredIDs bank ↔ is_Some (mb_mailboxes bank !! eid).

Lemma with_mailbox_inv {A} eid (m : M Mailbox A) bank : bank_inv bank → bank_inv (with_mailbox eid m bank).2.
Proof.
  intros [Hnd Hd]. unfold with_mailbox. destruct (mb_mailboxes bank !! eid) as [mb|] eqn:E; [|done].
  destruct (m mb) as [r mb']. split; [done|]. intros eid'. simpl. rewrite Hd, lookup_insert_is_Some.
  destruct (decide (eid = eid')) as [->|]; [rewrite E|]; naive_solver.
Qed.

Lemma bank_step_inv bank bank' : bank_inv bank → bank_step bank bank' → bank_inv bank'.
Proof.
  intros Hi Hstep. destruct Hstep as [eid bank0|eid bank0|A eid m bank0|loc s bank0|s bank0]; try by apply with_mailbox_inv.
  - destruct Hi as [Hnd Hd]. unfold Bank_Register. destruct (mb_mailboxes _ !! eid) eqn:E; [done|].
    assert (eid ∉ mb_registeredIDs bank0) as Hn by (rewrite Hd, E; by intros [? ?]).
    split; simpl.
    + apply NoDup_app. split; [done|]. split; [|apply NoDup_singleton]. intros x Hx ->%list_elem_of_singleton. done.
    + intros eid'. rewrite elem_of_app, list_elem_of_singleton, lookup_insert_is_Some, Hd.
      destruct (decide (eid' = eid)); naive_solver.
  - destruct Hi as [Hnd Hd]. unfold Bank_Unregister. destruct (mb_mailboxes _ !! eid) eqn:E; [|done].
    split; simpl; [by apply NoDup_filter|]. intros eid'. rewrite list_elem_of_filter, lookup_delete_is_Some, Hd. naive_solver.
  - unfold Bank_Deliver. destruct (st_heap s !! loc) as [bd|]; [|done]. destruct (Metadata bd); [|done..]. by apply with_mailbox_inv.
  - destruct Hi as [Hnd Hd]. split; [done|]. intros eid. simpl. by rewrite lookup_fmap, fmap_is_Some, Hd.
Qed.

(** In every bank that registrations, deregistrations, deliveries, retrievals
    and garbage collection can reach, the list of registered endpoints has no
    duplicates and lists exactly the endpoints that have a mailbox. *)
Theorem bank_registered bank : bank_reachable bank →
  NoDup (RegisteredIDs bank) ∧ ∀ eid, eid ∈ RegisteredIDs bank ↔ is_Some (mb_mailboxes bank !! eid).
Proof.
  induction 1 as [|bank bank' _ IH Hstep]; [|exact (bank_step_inv _ _ IH Hstep)].
  split; [apply NoDup_nil_2|]. intros eid. simpl. rewrite lookup_empty. split; [by intros ?%not_elem_of_nil|by intros []].
Qed.
End Props.

(** ** Examples *)

Definition sample_id : BundleID := Bundle_ID sample_bundle.
Definition inbox : Mailbox := <[sample_id := false]> ∅.

Lemma mailbox_get_spec_witness :
  ∃ b mb', get_bundles GetExtensionBlockManager 0 true false one_bundle [sample_id] inbox = (Ok ([b], None), mb') ∧
    mb' !! sample_id = Some true.
Proof.
  destruct (fetch GetExtensionBlockManager 0 one_bundle sample_id) as [b| |] eqn:E; [|vm_compute in E; discriminate E..].
  destruct (mailbox_get_spec GetExtensionBlockManager 0 true false one_bundle [sample_id] inbox [b]) as (mb' & Hg & _ & Hm).
  - unfold range_order. vm_compute. reflexivity.
  - constructor; [exact E|constructor].
  - exists b, mb'. split; [exact Hg|]. subst mb'. vm_compute. reflexivity.
Defined.

Lemma mailbox_gc_fetchable_witness :
  ∃ bs, (get_bundles GetExtensionBlockManager 0 false true one_bundle [sample_id] (Mailbox_GC one_bundle inbox)).1 = Ok (bs, None).
Proof.
  destruct (mailbox_gc_fetchable GetExtensionBlockManager 0 false true one_bundle inbox [sample_id]) as [_ [Hp|Hok]].
  - apply InsertBundle_inv, empty_store_inv.
  - intros id Hid. exists match Bundle_MarshalCbor sample_bundle with Ok (bs, _) => bs | _ => [] end.
    assert (id = sample_id) as ->.
    { destruct Hid as [loc Hid]. change (st_bundles one_bundle) with (<[sample_id := 0%nat]> (∅ : gmap BundleID nat)) in Hid.
      apply lookup_insert_Some in Hid as [[<- _]|[_ Hid]]; [reflexivity|]. rewrite lookup_empty in Hid. discriminate Hid. }
    vm_compute. reflexivity.
  - unfold range_order. vm_compute. reflexivity.
  - vm_compute in Hp. discriminate Hp.
  - exact Hok.
Defined.

Definition sample_bank : MailboxBank := (Bank_Register (dtn "dst" "in") NewMailboxBank).2.

Lemma bank_deliver_spec_witness :
  ∃ bank', Bank_Deliver 0 one_bundle sample_bank = (Ok (), bank') ∧
    mb_mailboxes bank' !! dtn "dst" "in" = Some inbox ∧
    (Bank_Deliver 0 one_bundle bank').1 = Err AlreadyDeliveredError.
Proof.
  destruct (st_heap one_bundle !! 0%nat) as [bd|] eqn:E; [|vm_compute in E; discriminate E].
  assert (core_inv one_bundle) as Hi by apply InsertBundle_inv, empty_store_inv.
  assert (d_deleted bd = false ∧ m_Destination (d_metadata bd) = dtn "dst" "in" ∧ m_ID (d_metadata bd) = sample_id) as (Hd & Hdst & Hid)
    by (vm_compute in E; injection E as <-; split; [reflexivity|split; vm_compute; reflexivity]).
  pose proof (bank_deliver_spec one_bundle 0 bd sample_bank Hi E Hd) as Hs. cbv zeta in Hs. rewrite Hdst, Hid in Hs.
  assert (mb_mailboxes sample_bank !! dtn "dst" "in" = Some ∅) as Hm by (vm_compute; reflexivity).
  rewrite Hm, lookup_empty in Hs. destruct Hs as (bank' & _ & _ & Hdel & Hl & bank'' & Hdel2).
  exists bank'. split; [exact Hdel|]. split; [exact Hl|]. rewrite Hdel2. reflexivity.
Defined.

Lemma bank_registered_witness : RegisteredIDs sample_bank = [dtn "dst" "in"] ∧ NoDup (RegisteredIDs sample_bank).
Proof.
  split; [reflexivity|]. apply (bank_registered sample_bank).
  apply (bank_next NewMailboxBank); [apply bank_new|]. apply (do_Register (dtn "dst" "in") NewMailboxBank).
Defined.

(** One message whose bundle the store has lost makes [GetAll] return no
    bundle, also none of those loaded before, which are marked as retrieved
    nevertheless.  The comment promises the bundles loaded before the error. *)
Theorem GetAll_error_loses_bundles :
  let lost := mkBundleID (dtn "src" "") (mkTimestamp 0 9) false 0 0 in
  let run := get_bundles GetExtensionBlockManager 0 false true one_bundle [sample_id; lost] (<[lost := false]> inbox) in
  run.1 = Ok ([], Some NoSuchBundleError) ∧ run.2 !! sample_id = Some true ∧
  is_ok (fetch GetExtensionBlockManager 0 one_bundle sample_id) = true.
Proof. split; [|split]; vm_compute; reflexivity. Qed.
