(* ===== verification/AgentManager.v ===== *)
(** * Application agents and their manager

    [pkg/application_agent/agent_manager.go] and the parts of the three agents
    ([rest_agent], [unix_agent], [rec_agent]) the manager uses.  Their request
    handlers are in [Agents]. *)

From stdpp Require Import base tactics list strings gmap.
From Stdlib Require Import ZArith Lia Bool.
From S2P Require Import Prelude Cboring GoSort Flags Crc DtnTime Endpoint BundleId ExtensionBlocks Blocks.
From S2P Require Import Bundle Samples BundleCodec IdKeeper Descriptor Store StoreInv StoreExamples.
From S2P Require Import Mailbox MailboxProps.
Local Open Scope Z_scope.

(** ** The agents' state *)

Record RestAgent := mkRest {
  ra_listenAddress : string;
  ra_clients : gmap string EndpointID;
  ra_mailboxes : MailboxBank;
}.

Record UNIXAgent := mkUnix {
  ua_listenAddress : string;
  ua_mailboxes : MailboxBank;
}.

Record RECAgent := mkREC {
  rec_listenAddress : string;
  rec_mailboxes : MailboxBank;
  rec_broadcastAddress : EndpointID;
  rec_multicastAddresses : gmap Z EndpointID;
}.

Definition NewRestAgent (listenAddress : string) : RestAgent := mkRest listenAddress ∅ NewMailboxBank.
Definition NewUNIXAgent (listenAddress : string) : UNIXAgent := mkUnix listenAddress NewMailboxBank.

Definition NTypeBroker : Z := 1.
Definition NTypeExecutor : Z := 2.
Definition NTypeDataStore : Z := 3.
Definition NTypeClient : Z := 4.

Definition RECBroadcastAddress : string := "dtn://rec.all/~".
Definition RECBrokerMulticastAddress : string := "dtn://rec.broker/~".
Definition RECDataStoreMulticastAddress : string := "dtn://rec.store/~".
Definition RECExecutorMulticastAddress : string := "dtn://rec.executor/~".
Definition RECClientMulticastAddress : string := "dtn://rec.client/~".

Definition register_all (eids : list EndpointID) (bank : MailboxBank) : MailboxBank :=
  foldl (λ bank eid, (Bank_Register eid bank).2) bank eids.

Definition NewRECAgent (listenAddress : string) : res RECAgent :=
  broadcastAddr ← MustNewEndpointID RECBroadcastAddress;
  brokerAddr ← MustNewEndpointID RECBrokerMulticastAddress;
  storeAddr ← MustNewEndpointID RECDataStoreMulticastAddress;
  executorAddress ← MustNewEndpointID RECExecutorMulticastAddress;
  clientAddress ← MustNewEndpointID RECClientMulticastAddress;
  Ok (mkREC listenAddress
        (register_all [broadcastAddr; brokerAddr; storeAddr; executorAddress; clientAddress] NewMailboxBank)
        broadcastAddr
        (<[NTypeClient := clientAddress]> (<[NTypeDataStore := storeAddr]>
          (<[NTypeExecutor := executorAddress]> (<[NTypeBroker := brokerAddr]> ∅))))).

(** ** The interface [ApplicationAgent] *)

Inductive ApplicationAgent :=
  | ARest (ra : RestAgent)
  | AUnix (ua : UNIXAgent)
  | ARec (rec : RECAgent).

Definition Agent_Name (a : ApplicationAgent) : string :=
  match a with
  | ARest ra => "RestAgent(" +:+ ra_listenAddress ra +:+ ")"
  | AUnix ua => "UNIXAgent(" +:+ ua_listenAddress ua +:+ ")"
  | ARec rec => "RECAgent(" +:+ rec_listenAddress rec +:+ ")"
  end.

Definition Agent_mailboxes (a : ApplicationAgent) : MailboxBank :=
  match a with ARest ra => ra_mailboxes ra | AUnix ua => ua_mailboxes ua | ARec rec => rec_mailboxes rec end.

Definition set_mailboxes (bank : MailboxBank) (a : ApplicationAgent) : ApplicationAgent :=
  match a with
  | ARest ra => ARest (mkRest (ra_listenAddress ra) (ra_clients ra) bank)
  | AUnix ua => AUnix (mkUnix (ua_listenAddress ua) bank)
  | ARec rec => ARec (mkREC (rec_listenAddress rec) bank (rec_broadcastAddress rec) (rec_multicastAddresses rec))
  end.

(** The REST agent ranges over its clients, in the order [order], with a callback
    that returns [false], which ends the range after the first one. *)
Definition Agent_Endpoints (order : list string) (a : ApplicationAgent) : list EndpointID :=
  match a with
  | ARest ra => match order with [] => [] | uuid :: _ => option_list (ra_clients ra !! uuid) end
  | AUnix ua => RegisteredIDs (ua_mailboxes ua)
  | ARec rec => RegisteredIDs (rec_mailboxes rec)
  end.

Section Manager.
Context `{Cboring} `{Crc16} `{GoMapRange} `{Ed25519} `{Badgerhold} `{Sha256}.

Definition Agent_Deliver (loc : nat) (s : BundleStore) : M ApplicationAgent () := λ a,
  let '(r, bank) := Bank_Deliver loc s (Agent_mailboxes a) in (r, set_mailboxes bank a).

Definition Agent_GC (s : BundleStore) (a : ApplicationAgent) : ApplicationAgent :=
  set_mailboxes (Bank_GC s (Agent_mailboxes a)) a.

(** ** The manager *)

Definition AgentAlreadyRegisteredError : error := errorf "Agent has already been registered".
Definition NoSuchAgentError : error := errorf "No such agent registered".

Abbreviation Agents := (gmap string ApplicationAgent).

Definition InitialiseApplicationAgentManager : Agents := ∅.

(** [RegisterAgent]; [start] is what the agent's [Start] returns. *)
Definition RegisterAgent (start : res ()) (newAgent : ApplicationAgent) : M Agents () := λ agents,
  match agents !! Agent_Name newAgent with
  | Some _ => (Err AgentAlreadyRegisteredError, agents)
  | None =>
      match start with
      | Ok _ => (Ok (), <[Agent_Name newAgent := newAgent]> agents)
      | Err e => (Err e, agents)
      | Panic => (Panic, agents)
      end
  end.

Definition UnregisterAgent (agentName : string) : M Agents () := λ agents,
  match agents !! agentName with
  | None => (Err NoSuchAgentError, agents)
  | Some _ => (Ok (), delete agentName agents)
  end.

(** [Delivery] ranges over the agents in the order [order]; their errors are
    logged. *)
Fixpoint Delivery (order : list string) (loc : nat) (s : BundleStore) : M Agents () := λ agents,
  match order with
  | [] => (Ok (), agents)
  | name :: order =>
      match agents !! name with
      | None => Delivery order loc s agents
      | Some a =>
          match Agent_Deliver loc s a with
          | (Panic, a) => (Panic, <[name := a]> agents)
          | (_, a) => Delivery order loc s (<[name := a]> agents)
          end
      end
  end.

(** [Send]: the id keeper numbers the bundle, and the bundle goes to the callback. *)
Definition Manager_Send (bndl : Bundle) (idk : IdKeeper) : IdKeeper * Bundle := IdKeeper_Update idk bndl.

Definition Manager_GC (s : BundleStore) (agents : Agents) : Agents := Agent_GC s <$> agents.

Definition Manager_shutdown (agents : Agents) : Agents := ∅.

(** [GetEndpoints] ranges over the agents in the order [order]; [clients] is the order a
    REST agent ranges over its clients in. *)
Definition GetEndpoints (order : list string) (clients : string → list string) (agents : Agents) : list EndpointID :=
  order ≫= λ name, match agents !! name with Some agent => Agent_Endpoints (clients name) agent | None => [] end.

(** [bagContainsEndpoint] of [agent.go], which collects [eids] in a set first. *)
Definition bagContainsEndpoint (bag eids : list EndpointID) : bool :=
  let matches : gset EndpointID := list_to_set eids in existsb (λ eid, bool_decide (eid ∈ matches)) bag.

(** ** Endpoints of the node *)

(** The test is for a common endpoint; it is not inclusion. *)
Lemma bagContainsEndpoint_spec bag eids : bagContainsEndpoint bag eids = true ↔ ∃ eid, eid ∈ bag ∧ eid ∈ eids.
Proof.
  unfold bagContainsEndpoint. rewrite existsb_exists.
  setoid_rewrite bool_decide_eq_true. setoid_rewrite list_elem_of_In. setoid_rewrite elem_of_list_to_set.
  by setoid_rewrite list_elem_of_In.
Qed.

(** Without REST agents, and with banks that list their mailboxes, the endpoints of the
    node are those that some agent has a mailbox for, so [bagContainsEndpoint] finds the
    destinations that [Delivery] can serve. *)
Theorem endpoints_have_mailboxes order clients agents eids : order ≡ₚ (map_to_list agents).*1 →
  (∀ name a, agents !! name = Some a → bank_inv (Agent_mailboxes a) ∧ ∀ ra, a ≠ ARest ra) →
  bagContainsEndpoint (GetEndpoints order clients agents) eids = true ↔
  ∃ eid name a, eid ∈ eids ∧ agents !! name = Some a ∧ is_Some (mb_mailboxes (Agent_mailboxes a) !! eid).
Proof.
  intros Ho Ha. rewrite bagContainsEndpoint_spec. unfold GetEndpoints. setoid_rewrite list_elem_of_bind. setoid_rewrite Ho.
  assert (∀ name a eid, agents !! name = Some a →
    eid ∈ Agent_Endpoints (clients name) a ↔ is_Some (mb_mailboxes (Agent_mailboxes a) !! eid)) as He.
  { intros name a eid Hn. destruct (Ha name a Hn) as [[_ Hb] Hr]. destruct a; [by destruct (Hr ra)|apply Hb..]. }
  split.
  - intros (eid & (name & Hin & _) & Hs). destruct (agents !! name) as [a|] eqn:En; [|by apply not_elem_of_nil in Hin].
    exists eid, name, a. split_and!; [done..|]. by apply (He name a).
  - intros (eid & name & a & Hs & En & Hm). exists eid. split; [|done]. exists name. rewrite En.
    split; [by apply (He name a)|]. apply list_elem_of_fmap. exists (name, a). split; [done|by apply elem_of_map_to_list].
Qed.

(** ** Delivery reaches every agent *)

Lemma Agent_Deliver_total s loc bd a : core_inv s → st_heap s !! loc = Some bd → (Agent_Deliver loc s a).1 ≠ Panic.
Proof.
  intros Hs El. unfold Agent_Deliver, Bank_Deliver. rewrite El. unfold Metadata.
  destruct (d_deleted bd); [done|]. unfold with_mailbox.
  destruct (mb_mailboxes _ !! _) as [mb|]; [|done]. unfold Mailbox_Deliver. rewrite El.
  destruct (mb !! _); [done|]. unfold GetBundleDescriptor.
  destruct (st_bundles s !! _) as [loc'|] eqn:Eb; [|done].
  destruct (ci_map s Hs _ _ Eb) as (bd' & -> & _). by destruct (Deleted bd').
Qed.

(** An agent with a mailbox for the destination has the id there afterwards. *)
Lemma Agent_Deliver_mailbox s loc bd a : core_inv s → st_heap s !! loc = Some bd → d_deleted bd = false →
  Agent_Name (Agent_Deliver loc s a).2 = Agent_Name a ∧
  match mb_mailboxes (Agent_mailboxes a) !! m_Destination (d_metadata bd) with
  | None => (Agent_Deliver loc s a).2 = a
  | Some mb =>
      mb_mailboxes (Agent_mailboxes (Agent_Deliver loc s a).2) !! m_Destination (d_metadata bd) =
        Some (match mb !! m_ID (d_metadata bd) with
              | None => <[m_ID (d_metadata bd) := false]> mb
              | Some _ => mb
              end)
  end.
Proof.
  intros Hs El Ed. unfold Agent_Deliver, Bank_Deliver, Metadata, with_mailbox. rewrite El, Ed.
  destruct (mb_mailboxes (Agent_mailboxes a) !! m_Destination (d_metadata bd)) as [mb|] eqn:Em; [|by destruct a as [[]|[]|[]]].
  unfold Mailbox_Deliver. rewrite El.
  assert (GetBundleDescriptor (m_ID (d_metadata bd)) s = Ok loc) as ->.
  { destruct (ci_heap s Hs _ _ El) as (_ & _ & Hlive). unfold GetBundleDescriptor, Deleted. by rewrite (Hlive Ed), El, Ed. }
  split; [by destruct (mb !! _), a|]. destruct (mb !! m_ID (d_metadata bd)); destruct a; simpl; by rewrite lookup_insert_eq.
Qed.

Lemma Delivery_result order loc s bd agents : core_inv s → st_heap s !! loc = Some bd → NoDup order →
  (Delivery order loc s agents).1 = Ok () ∧
  ∀ name, (Delivery order loc s agents).2 !! name =
    if decide (name ∈ order) then (λ a, (Agent_Deliver loc s a).2) <$> agents !! name else agents !! name.
Proof.
  intros Hs El Hnd. revert agents. induction Hnd as [|x order Hx Hnd IH]; intros agents.
  { split; [done|]. intros name. by rewrite decide_False by (by intros ?%not_elem_of_nil). }
  cbn [Delivery]. destruct (agents !! x) as [a|] eqn:Ex.
  - pose proof (Agent_Deliver_total s loc bd a Hs El) as Hp.
    destruct (Agent_Deliver loc s a) as [r a'] eqn:Ed. simpl in Hp.
    assert (match r with Ok _ => Delivery order loc s (<[x := a']> agents) | Err _ => Delivery order loc s (<[x := a']> agents)
      | Panic => (Panic, <[x := a']> agents) end = Delivery order loc s (<[x := a']> agents)) as -> by (by destruct r).
    destruct (IH (<[x := a']> agents)) as [-> Hl]. split; [done|]. intros name. rewrite Hl.
    destruct (decide (name = x)) as [->|Hne].
    + rewrite decide_False by done. rewrite decide_True by (by left). by rewrite lookup_insert_eq, Ex; simpl; rewrite Ed.
    + rewrite lookup_insert_ne by done. apply decide_ext. rewrite elem_of_cons. naive_solver.
  - destruct (IH agents) as [-> Hl]. split; [done|]. intros name. rewrite Hl.
    destruct (decide (name = x)) as [->|Hne].
    + rewrite decide_False by done. rewrite decide_True by (by left). by rewrite Ex.
    + apply decide_ext. rewrite elem_of_cons. naive_solver.
Qed.

(** C37: in any order of the agents, delivery of a stored bundle returns and offers
    it to every registered agent: one whose bank has a mailbox for the destination,
    without the bundle's id, has the id there afterwards as not retrieved; the set
    of agents does not change. *)
Theorem delivery_complete order loc s bd agents :
  core_inv s → st_heap s !! loc = Some bd → d_deleted bd = false → order ≡ₚ (map_to_list agents).*1 →
  ∃ agents', Delivery order loc s agents = (Ok (), agents') ∧
    ∀ name, match agents !! name with
            | None => agents' !! name = None
            | Some a => ∃ a', agents' !! name = Some a' ∧ Agent_Name a' = Agent_Name a ∧
                match mb_mailboxes (Agent_mailboxes a) !! m_Destination (d_metadata bd) with
                | None => a' = a
                | Some mb =>
                    mb_mailboxes (Agent_mailboxes a') !! m_Destination (d_metadata bd) =
                      Some (match mb !! m_ID (d_metadata bd) with
                            | None => <[m_ID (d_metadata bd) := false]> mb
                            | Some _ => mb
                            end)
                end
            end.
Proof.
  intros Hs El Ed Ho.
  assert (∀ name, name ∈ order ↔ is_Some (agents !! name)) as Hin.
  { intros name. rewrite Ho, list_elem_of_fmap. split.
    - intros ([k x] & -> & Hx%elem_of_map_to_list). by exists x.
    - intros [x Hx]. exists (name, x). by rewrite elem_of_map_to_list. }
  assert (NoDup order) as Hnd by (rewrite Ho; apply NoDup_fst_map_to_list).
  destruct (Delivery_result order loc s bd agents Hs El Hnd) as [Hr Hl].
  destruct (Delivery order loc s agents) as [r agents']. simpl in Hr, Hl. subst r.
  exists agents'. split; [done|]. intros name. rewrite Hl.
  destruct (agents !! name) as [a|] eqn:Ea; [|by case_decide].
  rewrite decide_True by (rewrite Hin, Ea; by eexists).
  eexists. split; [reflexivity|]. by apply Agent_Deliver_mailbox.
Qed.
End Manager.

(** ** Examples *)

Definition unix_agent : ApplicationAgent := AUnix (mkUnix "/tmp/dtn" sample_bank).
Definition sample_agents : gmap string ApplicationAgent := <[Agent_Name unix_agent := unix_agent]> ∅.

Lemma delivery_complete_witness :
  ∃ agents' a', Delivery [Agent_Name unix_agent] 0 one_bundle sample_agents = (Ok (), agents') ∧
    agents' !! Agent_Name unix_agent = Some a' ∧ mb_mailboxes (Agent_mailboxes a') !! dtn "dst" "in" = Some inbox.
Proof.
  destruct (st_heap one_bundle !! 0%nat) as [bd|] eqn:E; [|vm_compute in E; discriminate E].
  assert (d_deleted bd = false ∧ m_Destination (d_metadata bd) = dtn "dst" "in" ∧ m_ID (d_metadata bd) = sample_id) as (Hd & Hdst & Hid)
    by (vm_compute in E; injection E as <-; split; [reflexivity|split; vm_compute; reflexivity]).
  destruct (delivery_complete [Agent_Name unix_agent] 0 one_bundle bd sample_agents
    (InsertBundle_inv _ _ _ empty_store_inv) E Hd) as (agents' & Hdel & Hall).
  { vm_compute. reflexivity. }
  specialize (Hall (Agent_Name unix_agent)). rewrite Hdst, Hid in Hall.
  assert (sample_agents !! Agent_Name unix_agent = Some unix_agent) as Ha by (vm_compute; reflexivity). rewrite Ha in Hall.
  destruct Hall as (a' & Hl & _ & Hm). exists agents', a'. split; [exact Hdel|]. split; [exact Hl|].
  assert (mb_mailboxes (Agent_mailboxes unix_agent) !! dtn "dst" "in" = Some ∅) as Hmb by (vm_compute; reflexivity).
  rewrite Hmb, lookup_empty in Hm. exact Hm.
Defined.

Definition two_clients : RestAgent :=
  mkRest ":8080" (<["u1" := dtn "a" "in"]> (<["u2" := dtn "b" "in"]> ∅)) NewMailboxBank.

(** [Endpoints] of the REST agent lists the endpoint of one client only, the
    one that its range meets first. *)
Theorem rest_endpoints_first_only :
  Agent_Endpoints ["u1"; "u2"] (ARest two_clients) = [dtn "a" "in"] ∧
  Agent_Endpoints ["u2"; "u1"] (ARest two_clients) = [dtn "b" "in"].
Proof. split; vm_compute; reflexivity. Qed.

(** The REC agent starts: its addresses are endpoints, and each has a mailbox. *)
Example NewRECAgent_starts :
  (λ rec, length (RegisteredIDs (rec_mailboxes rec))) <$> NewRECAgent "/tmp/rec" = Ok 5%nat.
Proof. vm_compute. reflexivity. Qed.

Lemma endpoints_have_mailboxes_witness :
  bagContainsEndpoint (GetEndpoints [Agent_Name unix_agent] (λ _, []) sample_agents) [dtn "dst" "in"] = true.
Proof.
  apply (endpoints_have_mailboxes [Agent_Name unix_agent] (λ _, []) sample_agents [dtn "dst" "in"]).
  - vm_compute. reflexivity.
  - unfold sample_agents. intros name a [[_ <-]|[_ Hl]]%lookup_insert_Some; [|by rewrite lookup_empty in Hl]. split; [|done].
    apply (bank_step_inv NewMailboxBank).
    + split; [apply NoDup_nil_2|]. intros eid. simpl. rewrite lookup_empty. split; [by intros ?%not_elem_of_nil|by intros []].
    + apply (do_Register (dtn "dst" "in")).
  - exists (dtn "dst" "in"), (Agent_Name unix_agent), unix_agent. split; [by left|]. split; [vm_compute; reflexivity|].
    exists ∅. vm_compute. reflexivity.
Defined.
