(* ===== verification/Daemon.v ===== *)
(** * The daemon

    [cmd/dtnd/main.go]: the start of the components, their shutdown, and the periodic
    jobs.  A component's singleton is an optional value.  [Panic] ends the process, as a
    panic and [log.Fatal] do. *)

From stdpp Require Import base tactics list strings gmap.
From Stdlib Require Import ZArith Lia Bool.
From S2P Require Import Prelude Cboring GoSort GoStrings GoTime Flags Crc DtnTime Endpoint BundleId ExtensionBlocks Blocks.
From S2P Require Import Bundle Samples BundleCodec IdKeeper Descriptor Store StoreInv StoreExamples Cla Mtcp Quicl Discovery.
From S2P Require Import Routing Mailbox AgentManager Config.
Local Open Scope Z_scope.

(** ** State *)

Inductive algorithm_choice := Epidemic | SprayAndWait (copies : Z) (binary : bool).

(** What the scheduler calls periodically. *)
Inductive job := DispatchJob (interval : Z) | GCJob (interval : Z).

Section Daemon.
Context `{Cboring} `{Crc16} `{GoMapRange} `{Ed25519} `{Badgerhold} `{Sha256}.

Abbreviation Agents := (gmap string ApplicationAgent).

Record Daemon := mkDaemon {
  dm_store : option BundleStore;
  dm_idKeeper : option IdKeeper;
  dm_routing : option algorithm_choice;
  dm_agents : option Agents;
  dm_cla : option Manager;
  dm_discovery : option DiscoveryManager;
  dm_servers : list MTCPServer;
  dm_quicl : list Listener;
  dm_jobs : list job;
}.

Definition NewProcess : Daemon := mkDaemon None None None None None None [] [] [].

Definition set_dm_store v d := mkDaemon v (dm_idKeeper d) (dm_routing d) (dm_agents d) (dm_cla d) (dm_discovery d) (dm_servers d) (dm_quicl d) (dm_jobs d).
Definition set_dm_idKeeper v d := mkDaemon (dm_store d) v (dm_routing d) (dm_agents d) (dm_cla d) (dm_discovery d) (dm_servers d) (dm_quicl d) (dm_jobs d).
Definition set_dm_routing v d := mkDaemon (dm_store d) (dm_idKeeper d) v (dm_agents d) (dm_cla d) (dm_discovery d) (dm_servers d) (dm_quicl d) (dm_jobs d).
Definition set_dm_agents v d := mkDaemon (dm_store d) (dm_idKeeper d) (dm_routing d) v (dm_cla d) (dm_discovery d) (dm_servers d) (dm_quicl d) (dm_jobs d).
Definition set_dm_cla v d := mkDaemon (dm_store d) (dm_idKeeper d) (dm_routing d) (dm_agents d) v (dm_discovery d) (dm_servers d) (dm_quicl d) (dm_jobs d).
Definition set_dm_discovery v d := mkDaemon (dm_store d) (dm_idKeeper d) (dm_routing d) (dm_agents d) (dm_cla d) v (dm_servers d) (dm_quicl d) (dm_jobs d).
Definition set_dm_servers v d := mkDaemon (dm_store d) (dm_idKeeper d) (dm_routing d) (dm_agents d) (dm_cla d) (dm_discovery d) v (dm_quicl d) (dm_jobs d).
Definition set_dm_quicl v d := mkDaemon (dm_store d) (dm_idKeeper d) (dm_routing d) (dm_agents d) (dm_cla d) (dm_discovery d) (dm_servers d) v (dm_jobs d).
Definition set_dm_jobs v d := mkDaemon (dm_store d) (dm_idKeeper d) (dm_routing d) (dm_agents d) (dm_cla d) (dm_discovery d) (dm_servers d) (dm_quicl d) v.

(** What the start meets outside the program: opening the store's directory and what is
    found there, the sockets of the agents and of the listener at a position, the
    multicast library and the scheduler. *)
Record Environment := mkEnvironment {
  e_open : res ();
  e_db : db;
  e_files : gmap string bytes;
  e_unix : res ();
  e_rec : res ();
  e_listen : nat → res ();
  e_discover : bool → res ();
  e_scheduler : res ();
  e_job : job → res ();
}.

(** ** The start *)

(** The daemon and the messages of the startup errors so far. *)
Abbreviation Startup := (M (Daemon * list string)).

Definition report (msg : string) : Startup () := λ '(d, errs), (Ok (), (d, errs ++ [msg])).

(** A call whose error is reported. *)
Definition reported (msg : string) (m : M Daemon ()) : Startup () := λ '(d, errs),
  match m d with
  | (Ok _, d) => (Ok (), (d, errs))
  | (Err _, d) => (Ok (), (d, errs ++ [msg]))
  | (Panic, d) => (Panic, (d, errs))
  end.

(** A call that has no error, or whose error is fatal. *)
Definition fatal (m : M Daemon ()) : Startup () := λ '(d, errs),
  match m d with
  | (Ok _, d) => (Ok (), (d, errs))
  | (_, d) => (Panic, (d, errs))
  end.

(** A method of a singleton; without the singleton [log.Fatal] ends the process. *)
Definition on_agents {A} (m : M Agents A) : M Daemon A := λ d,
  match dm_agents d with
  | None => (Panic, d)
  | Some a => let '(r, a) := m a in (r, set_dm_agents (Some a) d)
  end.

Definition on_cla {A} (m : M Manager A) : M Daemon A := λ d,
  match dm_cla d with
  | None => (Panic, d)
  | Some mg => let '(r, mg) := m mg in (r, set_dm_cla (Some mg) d)
  end.

Definition start_store (nodeID : EndpointID) (env : Environment) : M Daemon () := λ d,
  match dm_store d with
  | Some _ => (Panic, d)
  | None =>
      match (e_open env;; InitialiseStore nodeID (e_db env) (e_files env)) with
      | Ok s => (Ok (), set_dm_store (Some s) d)
      | Err e => (Err e, d)
      | Panic => (Panic, d)
      end
  end.

Definition start_idKeeper : M Daemon () := λ d,
  match dm_idKeeper d with Some _ => (Panic, d) | None => (Ok (), set_dm_idKeeper (Some ∅) d) end.

(** The choice of the algorithm, and [InitialiseAlgorithm], for which [nil] is fatal. *)
Definition start_routing (conf : routingConfig) : Startup () := λ '(d, errs),
  let choice := if ro_Algorithm conf =? AlgorithmEpidemic then Some Epidemic else
                if ro_Algorithm conf =? AlgorithmSprayAndWait then Some (SprayAndWait (rs_Copies (ro_Spray conf)) (rs_Binary (ro_Spray conf)))
                else None in
  match dm_routing d, choice with
  | None, Some a => (Ok (), (set_dm_routing (Some a) d, errs))
  | _, _ => (Panic, (d, errs))
  end.

Definition start_agents (conf : agentsConfig) (env : Environment) : Startup () :=
  reported "Error initialising Application Agent Manager" (modify (set_dm_agents (Some InitialiseApplicationAgentManager)));;
  (if nonempty (ag_REST_Address conf) then
     reported "Error registering REST application agent" (on_agents (RegisterAgent (Ok ()) (ARest (NewRestAgent (ag_REST_Address conf)))))
   else mret ());;
  (if nonempty (ag_UNIX_Socket conf) then
     reported "Error registering UNIX application agent" (on_agents (RegisterAgent (e_unix env) (AUnix (NewUNIXAgent (ag_UNIX_Socket conf)))))
   else mret ());;
  (if nonempty (ag_REC_Socket conf) then
     fatal (recAgent ← lift_res (NewRECAgent (ag_REC_Socket conf)); on_agents (RegisterAgent (e_rec env) (ARec recAgent)))
   else mret ()).

Definition to_quic (r : res ()) : quic_result () := match r with Ok _ => QOk () | _ => QErr OtherError end.

(** What the manager sees of an MTCP server: it receives and does not send. *)
Definition server_cla (srv : MTCPServer) : Convergence := mkCLA (server_Address srv) true false None.

(** One round of the loop over the listeners: the object is created, an MTCP server is also
    registered as a CLA, and the listener is started and registered. *)
Definition start_listener (start : res ()) (lst : ListenerConfig) : Startup () :=
  let failed := "Error starting convergence listener" in
  if li_Type lst =? Dummy then reported failed (on_cla (RegisterListener (Ok ()) (li_Address lst))) else
  if li_Type lst =? MTCP then
    let srv := NewMTCPServer (li_Address lst) (li_EndpointId lst) in
    fatal (on_cla (modify (registerAsync (server_cla srv))));;
    fatal (modify (λ d, set_dm_servers (dm_servers d ++ [(server_Start start srv).2]) d));;
    reported failed (on_cla (RegisterListener (server_Start start srv).1 (server_Address srv)))
  else
  if li_Type lst =? QUICL then
    let '(r, l) := listener_Start (to_quic start) (NewQUICListener (li_Address lst) (li_EndpointId lst)) in
    fatal (modify (λ d, set_dm_quicl (dm_quicl d ++ [l]) d));;
    reported failed (on_cla (RegisterListener r (li_Address lst)))
  else report "not valid convergence listener type".

Fixpoint start_listeners (listen : nat → res ()) (i : nat) (l : list ListenerConfig) : Startup () :=
  match l with
  | [] => mret ()
  | lst :: l => start_listener (listen i) lst;; start_listeners listen (S i) l
  end.

(** [GetAlgorithmSingleton] and [InitialiseCLAManager] are fatal without, resp. with, their
    singleton. *)
Definition start_cla : M Daemon () := λ d,
  match dm_routing d, dm_cla d with
  | Some _, None => (Ok (), set_dm_cla (Some InitialiseCLAManager) d)
  | _, _ => (Panic, d)
  end.

Definition start_discovery (conf : config) (env : Environment) : M Daemon () := λ d,
  match dm_discovery d, dm_cla d with
  | None, Some _ =>
      match InitialiseManager (c_NodeID conf) (c_Discovery conf) true false (e_discover env) with
      | Ok m => (Ok (), set_dm_discovery (Some m) d)
      | Err e => (Err e, d)
      | Panic => (Panic, d)
      end
  | _, _ => (Panic, d)
  end.

Definition start_job (env : Environment) (j : job) : M Daemon () := λ d,
  match e_job env j with
  | Ok _ => (Ok (), set_dm_jobs (dm_jobs d ++ [j]) d)
  | Err e => (Err e, d)
  | Panic => (Panic, d)
  end.

(** The scheduler: without it the jobs are not created. *)
Definition start_cron (conf : cronConfig) (env : Environment) : Startup () :=
  match e_scheduler env with
  | Ok _ =>
      reported "Error initializing dispatching cronjob" (start_job env (DispatchJob (cr_Dispatch conf)));;
      reported "Error initializing garbage collection cronjob" (start_job env (GCJob (cr_GC conf)))
  | Err _ => report "Error initializing cron scheduler"
  | Panic => panic
  end.

Definition startDtnd (conf : config) (env : Environment) : Startup () :=
  reported "Error initialising store" (start_store (c_NodeID conf) env);;
  fatal start_idKeeper;;
  start_routing (c_Routing conf);;
  start_agents (c_Agents conf) env;;
  fatal start_cla;;
  start_listeners (e_listen env) 0 (c_Listener conf);;
  reported "Error starting discovery manager" (start_discovery conf env);;
  start_cron (c_Cron conf) env.

(** ** The end *)

(** [stopDtnd]: the singletons are gone; the CLA manager and the agents have started the
    goroutines that close what they had. *)
Definition stopDtnd (d : Daemon) : Daemon * option Manager :=
  (mkDaemon None None None None None None (dm_servers d) (dm_quicl d) (dm_jobs d), shutdown <$> dm_cla d).

(** [main] up to the point where it waits for a signal: the daemon that runs, or the one
    that was stopped because of errors. *)
Definition main (parsed : res config) (env : Environment) : res (Daemon * list string * bool) :=
  match parsed with
  | Err _ => Ok (NewProcess, [], false)
  | Panic => Panic
  | Ok conf =>
      match startDtnd conf env (NewProcess, []) with
      | (Ok _, (d, [])) => Ok (d, [], true)
      | (Ok _, (d, errs)) => Ok ((stopDtnd d).1, errs, false)
      | (_, _) => Panic
      end
  end.

(** ** The periodic job *)

(** [gc]; the agents' goroutines run after the store's collection. *)
Definition gc (now : Z) (s : BundleStore) (agents : Agents) : BundleStore * Agents :=
  let s := GarbageCollect now s in (s, Manager_GC s agents).
End Daemon.
