(* ===== verification/DaemonProps.v ===== *)
(** * Properties of the daemon *)

From stdpp Require Import base tactics list strings gmap.
From Stdlib Require Import ZArith Lia Bool.
From S2P Require Import Prelude Cboring GoSort GoStrings GoTime Flags Crc DtnTime Endpoint BundleId ExtensionBlocks Blocks.
From S2P Require Import Bundle Samples BundleCodec IdKeeper Descriptor Store StoreInv StoreExamples Cla Mtcp Quicl Discovery.
From S2P Require Import Routing Mailbox AgentManager Config Daemon.
Local Open Scope Z_scope.

Section Props.
Context `{Cboring} `{Crc16} `{GoMapRange} `{Ed25519} `{Badgerhold} `{Sha256}.

(** ** The start *)

(** Nothing outside the program fails. *)
Record env_ok (env : Environment) : Prop := {
  eo_open : e_open env = Ok ();
  eo_unix : e_unix env = Ok ();
  eo_rec : e_rec env = Ok ();
  eo_listen i : e_listen env i = Ok ();
  eo_discover v6 : e_discover env v6 = Ok ();
  eo_scheduler : e_scheduler env = Ok ();
  eo_job j : e_job env j = Ok ();
}.

Definition supported (lst : ListenerConfig) : Prop := li_Type lst = MTCP ∨ li_Type lst = QUICL.

Definition listener_address (lst : ListenerConfig) : string :=
  if li_Type lst =? MTCP then "mtcp://" +:+ li_Address lst else li_Address lst.

(** A daemon whose listeners have been started: the rest is unchanged. *)
Definition with_listeners (mg : Manager) (servers : list MTCPServer) (quicl : list Listener) (d : Daemon) : Daemon :=
  set_dm_cla (Some mg) (set_dm_servers servers (set_dm_quicl quicl d)).

Lemma start_listener_ok lst d errs mg : supported lst → dm_cla d = Some mg → mg_inv mg →
  ∃ mg' sv q, start_listener (Ok ()) lst (d, errs) = (Ok (), (with_listeners mg' sv q d, errs)) ∧ mg_inv mg' ∧
    mg_listeners mg' = mg_listeners mg ++ [listener_address lst] ∧ mg_senders mg' = mg_senders mg.
Proof.
  intros Hs Hd Hi. destruct d as [st ik ro ag cl di sv qu jo]. simpl in Hd. subst cl.
  unfold start_listener, listener_address. destruct Hs as [E|E]; rewrite E; cbn [Z.eqb MTCP QUICL Dummy Pos.eqb].
  - set (c := server_cla _). exists (RegisterListener (Ok ()) (cla_Address c) (registerAsync c mg)).2, (sv ++ [(server_Start (Ok ()) (NewMTCPServer (li_Address lst) (li_EndpointId lst))).2]), qu.
    split; [reflexivity|]. pose proof (register_inv c mg Hi) as Hr. split; [apply (mg_step_inv _ _ Hr (mg_listen (Ok ()) (cla_Address c) _))|].
    unfold registerAsync. by destruct (checkPresent c mg).
  - exists (RegisterListener (Ok ()) (li_Address lst) mg).2, sv, (qu ++ [(listener_Start (QOk ()) (NewQUICListener (li_Address lst) (li_EndpointId lst))).2]).
    split; [reflexivity|]. split; [apply (mg_step_inv _ _ Hi (mg_listen (Ok ()) (li_Address lst) _))|done].
Qed.

Lemma start_listeners_ok listen l i d errs mg : (∀ i, listen i = Ok ()) → Forall supported l → dm_cla d = Some mg → mg_inv mg →
  ∃ mg' sv q, start_listeners listen i l (d, errs) = (Ok (), (with_listeners mg' sv q d, errs)) ∧ mg_inv mg' ∧
    mg_listeners mg' = mg_listeners mg ++ (listener_address <$> l) ∧ mg_senders mg' = mg_senders mg.
Proof.
  intros Hl Hs. revert i d mg. induction Hs as [|lst l Hlst Hs IH]; intros i d mg Hd Hi.
  { exists mg, (dm_servers d), (dm_quicl d). split; [destruct d; simpl in Hd; by subst|]. split; [done|]. split; [by rewrite app_nil_r|done]. }
  destruct (start_listener_ok lst d errs mg Hlst Hd Hi) as (mg1 & sv1 & q1 & E1 & Hi1 & Hl1 & Hs1).
  destruct (IH (S i) (with_listeners mg1 sv1 q1 d) mg1 eq_refl Hi1) as (mg2 & sv2 & q2 & E2 & Hi2 & Hl2 & Hs2).
  exists mg2, sv2, q2. split; [|split; [done|split; [by rewrite Hl2, Hl1, <- (assoc_L (++))|by rewrite Hs2]]].
  cbn [start_listeners]. rewrite Hl. unfold mbind, M_bind. rewrite E1. exact E2.
Qed.

(** The agents of a configuration. *)
Definition configured (conf : agentsConfig) : list ApplicationAgent :=
  (if nonempty (ag_REST_Address conf) then [ARest (NewRestAgent (ag_REST_Address conf))] else []) ++
  (if nonempty (ag_UNIX_Socket conf) then [AUnix (NewUNIXAgent (ag_UNIX_Socket conf))] else []) ++
  (if nonempty (ag_REC_Socket conf) then match NewRECAgent (ag_REC_Socket conf) with Ok rec => [ARec rec] | _ => [] end else []).

Lemma NewRECAgent_ok addr : ∃ rec, NewRECAgent addr = Ok rec ∧ rec_listenAddress rec = addr.
Proof.
  unfold NewRECAgent. do 5 (match goal with |- context [MustNewEndpointID ?x] =>
    let E := fresh in destruct (MustNewEndpointID x) eqn:E; [|vm_compute in E; discriminate..]; clear E end; cbn [mbind res_bind]). by eexists.
Qed.

Definition add_agents : gmap string ApplicationAgent → list ApplicationAgent → gmap string ApplicationAgent :=
  foldl (λ ag a, <[Agent_Name a := a]> ag).

(** Registering an agent if it is configured. *)
Lemma register_agent_ok (b : bool) start a ag d errs msg : start = Ok () → ag !! Agent_Name a = None →
  (if b then reported msg (on_agents (RegisterAgent start a)) else mret ()) (set_dm_agents (Some ag) d, errs) =
    (Ok (), (set_dm_agents (Some (add_agents ag (if b then [a] else []))) d, errs)).
Proof. intros -> Hn. destruct b; [|done]. unfold reported, on_agents, RegisterAgent. cbn [dm_agents set_dm_agents]. by rewrite Hn. Qed.

Lemma register_rec_ok (b : bool) start sock ag d errs rec : start = Ok () → NewRECAgent sock = Ok rec → ag !! Agent_Name (ARec rec) = None →
  (if b then fatal (recAgent ← lift_res (NewRECAgent sock); on_agents (RegisterAgent start (ARec recAgent))) else mret ())
    (set_dm_agents (Some ag) d, errs) =
    (Ok (), (set_dm_agents (Some (add_agents ag (if b then [ARec rec] else []))) d, errs)).
Proof.
  intros -> Hr Hn. destruct b; [|done]. unfold fatal, lift_res, mbind, M_bind, on_agents, RegisterAgent. rewrite Hr. cbn [dm_agents set_dm_agents]. by rewrite Hn.
Qed.

Lemma add_agents_other name ag l : ag !! name = None → Forall (λ a, Agent_Name a ≠ name) l → add_agents ag l !! name = None.
Proof. intros Hn Hl. revert ag Hn. induction Hl as [|a l Ha Hl IH]; intros ag Hn; [done|]. apply IH. by rewrite lookup_insert_ne. Qed.

Lemma start_agents_ok conf env d errs : env_ok env →
  start_agents conf env (d, errs) = (Ok (), (set_dm_agents (Some (add_agents ∅ (configured conf))) d, errs)).
Proof.
  intros He. unfold start_agents, configured. destruct (NewRECAgent_ok (ag_REC_Socket conf)) as (rec & Er & Ea).
  mstep by reflexivity. mstep by (apply register_agent_ok; [done|apply lookup_empty]).
  mstep by (apply register_agent_ok; [apply (eo_unix env He)|]; apply add_agents_other; [apply lookup_empty|]; case_match; repeat constructor; done).
  erewrite register_rec_ok; [|apply (eo_rec env He)|exact Er|].
  - rewrite Er. unfold add_agents. by rewrite !foldl_app.
  - repeat apply add_agents_other; [apply lookup_empty|..]; case_match; repeat constructor; done.
Qed.

Lemma parse_algorithm name alg : AlgorithmEnumFromString name = Ok alg → alg = AlgorithmEpidemic ∨ alg = AlgorithmSprayAndWait.
Proof. unfold AlgorithmEnumFromString. repeat case_bool_decide; intros [= <-]; auto. Qed.

(** What a daemon runs that was started with a configuration. *)
Record running (conf : config) (s : BundleStore) (msg : bytes) (d : Daemon) : Prop := {
  rn_store : dm_store d = Some s;
  rn_idKeeper : dm_idKeeper d = Some ∅;
  rn_routing : is_Some (dm_routing d);
  rn_agents : dm_agents d = Some (add_agents ∅ (configured (c_Agents conf)));
  rn_cla : ∃ mg, dm_cla d = Some mg ∧ mg_inv mg ∧ mg_listeners mg = listener_address <$> c_Listener conf;
  rn_discovery : dm_discovery d = Some (mkDiscoveryManager (c_NodeID conf) true false msg);
  rn_jobs : dm_jobs d = [DispatchJob (cr_Dispatch (c_Cron conf)); GCJob (cr_GC (c_Cron conf))];
}.

Lemma empty_manager_inv : mg_inv InitialiseCLAManager.
Proof.
  constructor; simpl; [constructor|constructor|constructor| |split; constructor]. intros c Hc. by apply not_elem_of_nil in Hc.
Qed.

Lemma startDtnd_ok conf env s msg : env_ok env → InitialiseStore (c_NodeID conf) (e_db env) (e_files env) = Ok s →
  MarshalAnnouncements (c_Discovery conf) = Ok msg → Forall supported (c_Listener conf) →
  ro_Algorithm (c_Routing conf) = AlgorithmEpidemic ∨ ro_Algorithm (c_Routing conf) = AlgorithmSprayAndWait →
  ∃ d, startDtnd conf env (NewProcess, []) = (Ok (), (d, [])) ∧ running conf s msg d.
Proof.
  intros He Hst Hm Hs Ha. unfold startDtnd.
  mstep by (unfold reported, start_store; simpl; rewrite (eo_open env He); simpl; by rewrite Hst). mstep by reflexivity.
  assert (∃ c, ∀ d errs, dm_routing d = None → start_routing (c_Routing conf) (d, errs) = (Ok (), (set_dm_routing (Some c) d, errs))) as (c & Hr).
  { unfold start_routing. destruct Ha as [->| ->]; eexists; intros d errs ->; reflexivity. }
  mstep by (by apply Hr). mstep by (by apply start_agents_ok). mstep by reflexivity.
  destruct (start_listeners_ok (e_listen env) (c_Listener conf) 0
    (set_dm_cla (Some InitialiseCLAManager) (set_dm_agents (Some (add_agents ∅ (configured (c_Agents conf))))
      (set_dm_routing (Some c) (set_dm_idKeeper (Some ∅) (set_dm_store (Some s) NewProcess))))) []
    InitialiseCLAManager (eo_listen env He) Hs eq_refl empty_manager_inv) as (mg & sv & q & El & Hi & Hl & _).
  mstep by exact El. mstep by (unfold reported, start_discovery; simpl; unfold InitialiseManager; rewrite Hm; simpl; by rewrite (eo_discover env He)).
  unfold start_cron. rewrite (eo_scheduler env He). mstep by (unfold reported, start_job; by rewrite (eo_job env He)).
  unfold reported at 1, start_job. rewrite (eo_job env He). eexists. split; [reflexivity|].
  constructor; try done. by exists mg.
Qed.

(** C17: if nothing outside the program fails, the configuration file of a node whose
    listeners are of the types MTCP and QUICL leads to a running daemon: the store is the
    one found on disk, exactly the configured agents are registered, every listener is
    started, the announcements of all of them are sent out, and both jobs are scheduled. *)
Theorem daemon_starts `{!CboringLaws _} ParseLevel t conf env s : parse ParseLevel (Ok t) = Ok conf →
  EndpointID_fits (c_NodeID conf) → Forall supported (c_Listener conf) → env_ok env →
  InitialiseStore (c_NodeID conf) (e_db env) (e_files env) = Ok s →
  ∃ d msg, main (parse ParseLevel (Ok t)) env = Ok (d, [], true) ∧ MarshalAnnouncements (c_Discovery conf) = Ok msg ∧ running conf s msg d.
Proof.
  intros Hp Hf Hs He Hst. destruct (config_parts ParseLevel t conf Hp Hf) as (Hwf & alg & Halg & Hro).
  destruct (announcements_rt (c_Discovery conf) [] Hwf) as (bs & Hm & _).
  destruct (startDtnd_ok conf env s (WriteArrayLength (len (c_Discovery conf)) ++ bs) He Hst) as (d & Hd & Hrun); [by unfold MarshalAnnouncements; rewrite Hm|done| |].
  - rewrite Hro. by eapply parse_algorithm.
  - exists d. eexists. unfold main. rewrite Hp, Hd. split; [done|]. split; [by unfold MarshalAnnouncements; rewrite Hm|exact Hrun].
Qed.

(** ** Garbage collection *)

(** After the periodic collection the mailboxes of every agent hold exactly those of
    their messages whose bundle the store still has; no agent, mailbox or client is lost. *)
Theorem gc_mailboxes now s agents : let '(s', agents') := gc now s agents in
  ∀ name, (is_Some (agents' !! name) ↔ is_Some (agents !! name)) ∧
    ∀ a a', agents !! name = Some a → agents' !! name = Some a' →
      (∀ eid, is_Some (mb_mailboxes (Agent_mailboxes a') !! eid) ↔ is_Some (mb_mailboxes (Agent_mailboxes a) !! eid)) ∧
      ∀ eid mb mb' bid, mb_mailboxes (Agent_mailboxes a) !! eid = Some mb → mb_mailboxes (Agent_mailboxes a') !! eid = Some mb' →
        mb' !! bid = if in_store s' bid then mb !! bid else None.
Proof.
  unfold gc. intros name. unfold Manager_GC. rewrite lookup_fmap. split; [by rewrite fmap_is_Some|].
  intros a a' Ha. rewrite Ha. intros [= <-].
  assert (mb_mailboxes (Agent_mailboxes (Agent_GC (GarbageCollect now s) a)) = Mailbox_GC (GarbageCollect now s) <$> mb_mailboxes (Agent_mailboxes a))
    as -> by (unfold Agent_GC, Bank_GC; by destruct a).
  split; [intros eid; by rewrite lookup_fmap, fmap_is_Some|].
  intros eid mb mb' bid Hm. rewrite lookup_fmap, Hm. intros [= <-]. unfold Mailbox_GC. destruct (in_store _ bid) eqn:Ei.
  - destruct (mb !! bid) as [x|] eqn:E.
    + by apply map_lookup_filter_Some.
    + apply map_lookup_filter_None. by left.
  - apply map_lookup_filter_None. right. intros x _. by rewrite Ei.
Qed.

(** ** The end *)

(** An MTCP server is known to the manager as a receiver and as a listener, so a shutdown
    calls its [Close] twice, and the second of the two calls closes a closed channel. *)
Theorem mtcp_server_closed_twice lst d mg : li_Type lst = MTCP → dm_cla d = Some InitialiseCLAManager →
  dm_cla (start_listener (Ok ()) lst (d, [])).2.1 = Some mg →
  let srv := NewMTCPServer (li_Address lst) (li_EndpointId lst) in
  mg_callbacks (shutdown (activateCLA true (server_cla srv) mg)) = [CbClose (server_cla srv); CbCloseListener (server_Address srv)] ∧
  ∀ srv1 srv2, begin_Close srv1 = (Ok (), srv2) → begin_Close srv2 = (Panic, srv2).
Proof.
  intros Ht Hd Hmg srv. split.
  - destruct d as [st ik ro ag cl di sv qu jo]. simpl in Hd. subst cl.
    unfold start_listener in Hmg. rewrite Ht in Hmg. cbn in Hmg. injection Hmg as <-. reflexivity.
  - intros srv1 srv2. unfold begin_Close. destruct (ms_stopSyn srv1); [done|]. by intros [= <-].
Qed.

(** The configuration accepts the listener type "tcpclv4", the start refuses it. *)
Theorem tcpclv4_refused start address nodeID d errs :
  TypeFromString "tcpclv4" = Ok TCPCLv4 ∧
  start_listener start (mkListenerConfig TCPCLv4 address nodeID) (d, errs) = (Ok (), (d, errs ++ ["not valid convergence listener type"])).
Proof. by split. Qed.
End Props.

(** ** Example *)

Definition sample_toml : tomlConfig :=
  mkToml "dtn://me/" "info" (mkStoreConfig "/var/dtnd") (mkTomlRouting "Spray&Wait" (mkSprayConfig true 8))
    [mkTomlListener "MTCP" "10.0.0.1:4556"; mkTomlListener "quicl" "[fe80::1]:35037"] (mkAgents "localhost:8080" "/tmp/dtnd.sock" "")
    (mkTomlCron "10s" "1m").

Definition info_level (name : string) : res Z := if bool_decide (name = "info") then Ok 4 else Err (errorf "not a valid logrus Level").

Definition sample_config : config :=
  mkConfig (dtn "me" "") 4 (mkStoreConfig "/var/dtnd") (mkRouting AlgorithmSprayAndWait (mkSprayConfig true 8))
    [mkListenerConfig MTCP "10.0.0.1:4556" (dtn "me" ""); mkListenerConfig QUICL "[fe80::1]:35037" (dtn "me" "")]
    (mkAgents "localhost:8080" "/tmp/dtnd.sock" "")
    [mkAnnouncement MTCP (dtn "me" "") 4556; mkAnnouncement QUICL (dtn "me" "") 35037] (mkCron 10000000000 60000000000).

Lemma sample_config_parsed : parse info_level (Ok sample_toml) = Ok sample_config.
Proof. vm_compute. reflexivity. Qed.

Definition quiet_env : Environment :=
  mkEnvironment (Ok ()) (∅ : gmap string BundleMetadata) ∅ (Ok ()) (Ok ()) (λ _, Ok ()) (λ _, Ok ()) (Ok ()) (λ _, Ok ()).

Lemma daemon_starts_witness :
  ∃ d, main (parse info_level (Ok sample_toml)) quiet_env = Ok (d, [], true) ∧ dm_store d = Some empty_store ∧
    dm_jobs d = [DispatchJob 10000000000; GCJob 60000000000].
Proof.
  destruct (daemon_starts info_level sample_toml sample_config quiet_env empty_store) as (d & msg & Hm & _ & Hr).
  - exact sample_config_parsed.
  - vm_compute. split; congruence.
  - constructor; [left; reflexivity|constructor; [right; reflexivity|constructor]].
  - constructor; reflexivity.
  - reflexivity.
  - exists d. split; [exact Hm|]. split; [exact (rn_store _ _ _ _ Hr)|exact (rn_jobs _ _ _ _ Hr)].
Defined.

(** A port number may be negative in the configuration and is announced as another one. *)
Theorem negative_port_announced :
  parse_listeners (dtn "me" "") [mkTomlListener "mtcp" ":-1"] =
    Ok ([mkListenerConfig MTCP ":-1" (dtn "me" "")], [mkAnnouncement MTCP (dtn "me" "") 18446744073709551615]).
Proof. vm_compute. reflexivity. Qed.
