(* ===== verification/Agents.v ===== *)
(** * The agents' request handlers

    [rest_agent.go], [unix_agent.go] and [rec_agent.go]: what a request does to the
    agent's mailboxes and clients and which bundles it sends.  JSON and MessagePack
    are behind decoded requests and the classes [UnixMsgpack] and [RecMsgpack]. *)

From stdpp Require Import base tactics list strings gmap.
From Stdlib Require Import ZArith Lia Bool.
From S2P Require Import Prelude Cboring GoStrings GoTime Flags Crc DtnTime Endpoint BundleId ExtensionBlocks Blocks.
From S2P Require Import Bundle Fragmentation Builder IdKeeper Descriptor Store Mailbox AgentManager.
Local Open Scope Z_scope.

(** ** Sending *)

(** What the manager's [Send] changes: the id keeper and the bundles handed to the
    callback. *)
Record Outbox := mkOutbox { ob_idKeeper : IdKeeper; ob_sent : list Bundle }.

Definition Outbox_Send {A} (bndl : Bundle) : M (A * Outbox) BundleID := λ '(a, ob),
  let '(idk, bndl) := Manager_Send bndl (ob_idKeeper ob) in (Ok (Bundle_ID bndl), (a, mkOutbox idk (ob_sent ob ++ [bndl]))).

(** A call whose error ends up in the response. *)
Definition or_reply {σ A B} (reply : error → B) (m : M σ A) (k : A → M σ B) : M σ B := λ s,
  match m s with
  | (Ok a, s) => k a s
  | (Err e, s) => (Ok (reply e), s)
  | (Panic, s) => (Panic, s)
  end.

(** The bundles, or the error, of [GetAll] and [GetNew]. *)
Definition bundles_or_err {σ} (m : M σ (list Bundle * option error)) : M σ (list Bundle) :=
  x ← m; match x with (bndls, None) => mret bndls | (_, Some e) => fail e end.

(** ** The REST agent *)

Module Rest.

Definition hex_digit (n : Z) : string := default "" ((λ c, String c "") <$> String.get (Z.to_nat n) "0123456789abcdef").

(** [%x] of a byte slice. *)
Definition hex (l : bytes) : string :=
  foldr (λ b s, hex_digit (Z_of_byte b / 16) +:+ hex_digit (Z_of_byte b mod 16) +:+ s) "" l.

Definition slice16 (a b : nat) (l : bytes) : bytes := take (b - a) (drop a l).

(** [read] is what [rand.Read] does to the 16 bytes. *)
Definition randomUuid (read : res bytes) : res string :=
  l ← read;
  Ok (hex (slice16 0 4 l) +:+ "-" +:+ hex (slice16 4 6 l) +:+ "-" +:+ hex (slice16 6 8 l) +:+ "-" +:+
      hex (slice16 8 10 l) +:+ "-" +:+ hex (slice16 10 16 l)).

Record RestRegisterResponse := mkRegisterResponse { reg_Error : option error; reg_UUID : string }.
Record RestFetchResponse := mkFetchResponse { fet_Error : option error; fet_Bundles : list Bundle }.

Definition set_ra_clients cs ra := mkRest (ra_listenAddress ra) cs (ra_mailboxes ra).
Definition set_ra_mailboxes bank ra := mkRest (ra_listenAddress ra) (ra_clients ra) bank.

Definition on_mailboxes {A} (m : M MailboxBank A) : M RestAgent A := λ ra,
  let '(r, bank) := m (ra_mailboxes ra) in (r, set_ra_mailboxes bank ra).

(** A request is an error if its JSON does not decode. *)
Definition handleRegister (request : res string) (read : res bytes) : M RestAgent RestRegisterResponse :=
  let reply e := mkRegisterResponse (Some e) "" in
  or_reply reply (lift_res request) (λ endpointId,
  or_reply reply (lift_res (NewEndpointID endpointId)) (λ eid,
  or_reply reply (lift_res (randomUuid read)) (λ uuid ra,
    (Ok (mkRegisterResponse None uuid),
     set_ra_clients (<[uuid := eid]> (ra_clients ra)) (set_ra_mailboxes (Bank_Register eid (ra_mailboxes ra)).2 ra))))).

(** The result is the response's error. *)
Definition handleUnregister (request : res string) : M RestAgent (option error) := λ ra,
  match request with
  | Panic => (Panic, ra)
  | Err _ => (Ok None, ra)
  | Ok uuid =>
      let '(r, ra) :=
        match ra_clients ra !! uuid with
        | None => (Ok (Some (errorf "REST client does not know client")), ra)
        | Some eid => or_reply Some (on_mailboxes (Bank_Unregister eid)) (λ _, mret None) ra
        end in
      (r, set_ra_clients (delete uuid (ra_clients ra)) ra)
  end.

Section Handlers.
Context `{Cboring} `{Crc16} `{GoMapRange} `{Ed25519} `{Badgerhold} `{Sha256} `{GoFloat}.
Context (ebm : ExtensionBlockManager) (now : Z).

(** [orders] gives the order in which the messages of a mailbox are ranged over. *)
Definition handleFetch (s : BundleStore) (orders : EndpointID → list BundleID) (request : res string) : M RestAgent RestFetchResponse :=
  let reply e := mkFetchResponse (Some e) [] in
  or_reply reply (lift_res request) (λ uuid ra,
    match ra_clients ra !! uuid with
    | None => (Ok (reply (errorf "REST client does not know client")), ra)
    | Some eid =>
        or_reply (λ _, reply (errorf "No mailbox registered for this eid"))
          (on_mailboxes (with_mailbox eid (Mailbox_GetAll ebm now true s (orders eid))))
          (λ x, mret match x with (bndls, None) => mkFetchResponse None bndls | (_, Some e) => reply e end) ra
    end).

(** The request is the UUID and the builder's arguments, the latter in the order in
    which they are ranged over; the result is the response's error. *)
Definition handleBuild (request : res (string * list (string * GoValue))) : M (RestAgent * Outbox) (option error) :=
  or_reply Some (lift_res request) (λ '(uuid, args) '(ra, ob),
    match ra_clients ra !! uuid with
    | None => (Ok (Some (errorf "Invalid UUID")), (ra, ob))
    | Some eid =>
        match BuildFromMap now args with
        | (Panic, _) => (Panic, (ra, ob))
        | (Err e, _) => (Ok (Some e), (ra, ob))
        | (Ok _, b) =>
            let pb := b_PrimaryBlock b in
            if negb (bool_decide (pb_SourceNode pb = eid)) && negb (bool_decide (pb_ReportTo pb = eid)) then
              (Ok (Some (errorf "REST client's endpoint is neither the source nor the report_to field")), (ra, ob))
            else (Outbox_Send b;; mret None) (ra, ob)
        end
    end).
End Handlers.
End Rest.

(** ** Messages over a socket *)

(** A slice longer than the address space makes [make] panic. *)
Definition maxAlloc : Z := 2 ^ 48.

(** The message of a connection: its length as 8 bytes, then its bytes; [None] if the
    peer sends less. *)
Definition read_message (input : bytes) : res (option bytes) :=
  if len input <? 8 then Ok None else
  let msgLen := be_value (take 8 input) in
  if maxAlloc <? msgLen then Panic else
  if len input - 8 <? msgLen then Ok None else Ok (Some (take (Z.to_nat msgLen) (drop 8 input))).

Definition frame (reply : bytes) : bytes := be_bytes 8 (len reply) ++ reply.

(** A call whose error closes the connection without a reply. *)
Definition or_close {σ A B} (m : M σ A) (k : A → M σ (option B)) : M σ (option B) := λ s,
  match m s with
  | (Ok a, s) => k a s
  | (Err _, s) => (Ok None, s)
  | (Panic, s) => (Panic, s)
  end.

Definition reply_with {σ B} (m : M σ B) : M σ (option B) := r ← m; mret (Some r).

(** ** The UNIX socket agent *)

Module Unix.

Definition MsgTypeGeneralResponse : Z := 1.
Definition MsgTypeRegisterEID : Z := 2.
Definition MsgTypeUnregisterEID : Z := 3.
Definition MsgTypeBundleCreate : Z := 4.
Definition MsgTypeBundleCreateResponse : Z := 5.
Definition MsgTypeListBundles : Z := 6.
Definition MsgTypeListResponse : Z := 7.
Definition MsgTypeFetchBundle : Z := 8.
Definition MsgTypeFetchBundleResponse : Z := 9.
Definition MsgTypeFetchAllBundles : Z := 10.
Definition MsgTypeFetchAllBundlesResponse : Z := 11.

Record RegisterUnregisterMessage := mkRegisterUnregister { ru_Type : Z; ru_EndpointID : string }.
Record ListBundles := mkListBundles { lb_Mailbox : string; lb_New : bool }.
Record FetchBundle := mkFetchBundle { fb_Mailbox : string; fb_BundleID : string; fb_Remove : bool }.
Record FetchAllBundles := mkFetchAll { fa_Mailbox : string; fa_New : bool; fa_Remove : bool }.
Record BundleContent := mkContent { bc_BundleID : string; bc_SourceID : string; bc_DestinationID : string; bc_Payload : bytes }.

Definition zero_content : BundleContent := mkContent "" "" "" [].

(** The responses; their first field is the type. *)
Inductive Response :=
  | GeneralResponse (Type_ : Z) (Error : option error)
  | BundleCreateResponse (Type_ : Z) (Error : option error) (BundleID : string)
  | ListResponse (Type_ : Z) (Error : option error) (Bundles : list string)
  | FetchBundleResponse (Type_ : Z) (Error : option error) (Content : BundleContent)
  | FetchAllBundlesResponse (Type_ : Z) (Error : option error) (Bundles : list BundleContent).

(** [msgpack.Unmarshal] into the message types and [msgpack.Marshal] of the
    responses.  The arguments of a create message come in the order in which the map
    is ranged over. *)
Class UnixMsgpack := {
  Unmarshal_Message : bytes → res Z;
  Unmarshal_RegisterUnregister : bytes → res RegisterUnregisterMessage;
  Unmarshal_BundleCreate : bytes → res (list (string * GoValue));
  Unmarshal_ListBundles : bytes → res ListBundles;
  Unmarshal_FetchBundle : bytes → res FetchBundle;
  Unmarshal_FetchAllBundles : bytes → res FetchAllBundles;
  Marshal_Response : Response → res bytes;
}.

Abbreviation State := (UNIXAgent * Outbox)%type.

Definition on_mailboxes {A} (m : M MailboxBank A) : M State A := λ '(ua, ob),
  let '(r, bank) := m (ua_mailboxes ua) in (r, (mkUnix (ua_listenAddress ua) bank, ob)).

Section Handlers.
Context `{Cboring} `{Crc16} `{GoMapRange} `{Ed25519} `{Badgerhold} `{Sha256} `{GoFloat}.
Context (ebm : ExtensionBlockManager) (now : Z).

Definition handleRegisterUnregister (message : RegisterUnregisterMessage) (register : bool) : M State Response :=
  let reply err := GeneralResponse MsgTypeGeneralResponse err in
  or_reply (λ e, reply (Some e)) (lift_res (NewEndpointID (ru_EndpointID message))) (λ eid,
  or_reply (λ e, reply (Some e)) (on_mailboxes (if register then Bank_Register eid else Bank_Unregister eid)) (λ _, mret (reply None))).

Definition handleBundleCreate (args : list (string * GoValue)) : M State Response := λ st,
  match BuildFromMap now args with
  | (Panic, _) => (Panic, st)
  | (Err e, _) => (Ok (BundleCreateResponse MsgTypeBundleCreateResponse (Some e) ""), st)
  | (Ok _, bundle) =>
      (bundleId ← Outbox_Send bundle; mret (BundleCreateResponse MsgTypeBundleCreateResponse None (BundleID_String bundleId))) st
  end.

Definition handleMailboxList (orders : EndpointID → list BundleID) (message : ListBundles) : M State Response :=
  let reply e := ListResponse MsgTypeListResponse (Some e) [] in
  or_reply reply (lift_res (NewEndpointID (lb_Mailbox message))) (λ eid,
  or_reply reply (on_mailboxes (with_mailbox eid (gets (λ mailbox,
    (if lb_New message then Mailbox_ListNew else Mailbox_List) mailbox (orders eid))))) (λ bundles,
  mret (ListResponse MsgTypeListResponse None (BundleID_String <$> bundles)))).

(** The content of a bundle; the payload is a type assertion. *)
Definition bundle_content (bundle : Bundle) : res BundleContent :=
  data ← payload_data (b_PayloadBlock bundle);
  Ok (mkContent (BundleID_String (Bundle_ID bundle)) (EndpointID_String (pb_SourceNode (b_PrimaryBlock bundle)))
        (EndpointID_String (pb_Destination (b_PrimaryBlock bundle))) data).

Definition handleGetBundle (s : BundleStore) (message : FetchBundle) : M State Response :=
  let reply e := FetchBundleResponse MsgTypeFetchBundleResponse (Some e) zero_content in
  or_reply reply (lift_res (NewEndpointID (fb_Mailbox message))) (λ mid,
  or_reply reply (on_mailboxes (with_mailbox mid (gets (λ _, ())))) (λ _,
  or_reply reply (lift_res (NewBundleID (fb_BundleID message))) (λ bid,
  or_reply reply (on_mailboxes (with_mailbox mid (Mailbox_Get ebm now bid (fb_Remove message) s))) (λ bundle,
  content ← lift_res (bundle_content bundle);
  mret (FetchBundleResponse MsgTypeFetchBundleResponse None content))))).

Definition handleGetAllBundles (s : BundleStore) (orders : EndpointID → list BundleID) (message : FetchAllBundles) : M State Response :=
  let reply e := FetchAllBundlesResponse MsgTypeFetchAllBundlesResponse (Some e) [] in
  or_reply reply (lift_res (NewEndpointID (fa_Mailbox message))) (λ mid,
  or_reply reply (bundles_or_err (on_mailboxes (with_mailbox mid
    ((if fa_New message then Mailbox_GetNew else Mailbox_GetAll) ebm now (fa_Remove message) s (orders mid))))) (λ bundles,
  contents ← lift_res (mapM bundle_content bundles);
  mret (FetchAllBundlesResponse MsgTypeFetchAllBundlesResponse None contents))).

Context `{UnixMsgpack}.

(** The switch over the message's type; [None] closes the connection.  The handlers
    marshal their response last, which is left to [handleConnection]. *)
Definition dispatch (s : BundleStore) (orders : EndpointID → list BundleID) (msgBytes : bytes) : M State (option Response) :=
  or_close (lift_res (Unmarshal_Message msgBytes)) (λ type,
  if (type =? MsgTypeRegisterEID) || (type =? MsgTypeUnregisterEID) then
    or_close (lift_res (Unmarshal_RegisterUnregister msgBytes)) (λ message,
      reply_with (handleRegisterUnregister message (ru_Type message =? MsgTypeRegisterEID))) else
  if type =? MsgTypeBundleCreate then
    or_close (lift_res (Unmarshal_BundleCreate msgBytes)) (λ args, reply_with (handleBundleCreate args)) else
  if type =? MsgTypeListBundles then
    or_close (lift_res (Unmarshal_ListBundles msgBytes)) (λ message, reply_with (handleMailboxList orders message)) else
  if type =? MsgTypeFetchBundle then
    or_close (lift_res (Unmarshal_FetchBundle msgBytes)) (λ message, reply_with (handleGetBundle s message)) else
  if type =? MsgTypeFetchAllBundles then
    or_close (lift_res (Unmarshal_FetchAllBundles msgBytes)) (λ message, reply_with (handleGetAllBundles s orders message)) else
  mret None).

(** What the agent writes for what the client sent, if anything. *)
Definition handleConnection (s : BundleStore) (orders : EndpointID → list BundleID) (input : bytes) : M State (option bytes) :=
  msg ← lift_res (read_message input);
  match msg with
  | None => mret None
  | Some msgBytes =>
      response ← dispatch s orders msgBytes;
      match response with
      | None => mret None
      | Some response => or_close (lift_res (Marshal_Response response)) (λ replyBytes, mret (Some (frame replyBytes)))
      end
  end.
End Handlers.
End Unix.

(** ** The REC agent *)

Module Rec.

Definition MsgTypeReply : Z := 1.
Definition MsgTypeRegister : Z := 2.
Definition MsgTypeFetch : Z := 3.
Definition MsgTypeFetchReply : Z := 4.
Definition MsgTypeBundleCreate : Z := 5.

Record Fetch := mkFetch { fe_EndpointID : string; fe_NodeType : Z }.

Record BundleData := mkBundleData {
  bdt_Type : Z;
  bdt_Source : string;
  bdt_Destination : string;
  bdt_Payload : bytes;
  bdt_Success : bool;
  bdt_Error : string;
  bdt_NodeType : Z;
  bdt_Submitter : string;
  bdt_NamedData : string;
}.

(** [Reply] and [FetchReply]; [Success] is the absence of an error. *)
Inductive Response :=
  | Reply (Type_ : Z) (Success : bool) (Error : option error)
  | FetchReply (Type_ : Z) (Success : bool) (Error : option error) (Bundles : list BundleData).

(** [msgpack.Unmarshal] and [msgpack.Marshal]. *)
Class RecMsgpack := {
  Unmarshal_Message : bytes → res Z;
  Unmarshal_Register : bytes → res string;
  Unmarshal_Fetch : bytes → res Fetch;
  Unmarshal_BundleCreate : bytes → res BundleData;
  Unmarshal_BundleData : bytes → res BundleData;
  Marshal_BundleData : BundleData → res bytes;
  Marshal_Response : Response → res bytes;
}.

(** What was marshalled can be unmarshalled. *)
Class RecMsgpackLaws (mp : RecMsgpack) : Prop :=
  BundleData_roundtrip d bs : Marshal_BundleData d = Ok bs → Unmarshal_BundleData bs = Ok d.

Abbreviation State := (RECAgent * Outbox)%type.

Definition on_mailboxes {A} (m : M MailboxBank A) : M State A := λ '(agent, ob),
  let '(r, bank) := m (rec_mailboxes agent) in
  (r, (mkREC (rec_listenAddress agent) bank (rec_broadcastAddress agent) (rec_multicastAddresses agent), ob)).

Section Handlers.
Context `{Cboring} `{Crc16} `{GoMapRange} `{Ed25519} `{Badgerhold} `{Sha256} `{GoFloat} `{RecMsgpack}.
Context (ebm : ExtensionBlockManager) (now : Z).

Definition handleRegister (endpointID : string) : M State Response :=
  let reply e := Reply MsgTypeReply false (Some e) in
  or_reply reply (lift_res (NewEndpointID endpointID)) (λ eid,
  or_reply reply (on_mailboxes (Bank_Register eid)) (λ _, mret (Reply MsgTypeReply true None))).

(** The bundles of one mailbox, which is emptied. *)
Definition take_all (s : BundleStore) (orders : EndpointID → list BundleID) (address : EndpointID) : M State (list Bundle) :=
  bundles_or_err (on_mailboxes (with_mailbox address (Mailbox_GetAll ebm now true s (orders address)))).

(** The payloads that are bundle data; the others are logged. *)
Fixpoint unmarshal_all (bundles : list Bundle) : res (list BundleData) :=
  match bundles with
  | [] => Ok []
  | bundle :: bundles =>
      data ← payload_data (b_PayloadBlock bundle);
      match Unmarshal_BundleData data with
      | Ok d => rest ← unmarshal_all bundles; Ok (d :: rest)
      | Err _ => unmarshal_all bundles
      | Panic => Panic
      end
  end.

(** A missing key of a Go map gives the zero endpoint. *)
Definition handleFetch (s : BundleStore) (orders : EndpointID → list BundleID) (message : Fetch) : M State Response :=
  let reply e := FetchReply MsgTypeFetchReply false (Some e) [] in
  or_reply reply (lift_res (NewEndpointID (fe_EndpointID message))) (λ address,
  or_reply reply (take_all s orders address) (λ unicast,
  or_reply reply (λ st, take_all s orders (default None (rec_multicastAddresses st.1 !! fe_NodeType message)) st) (λ multicast,
  or_reply reply (λ st, take_all s orders (rec_broadcastAddress st.1) st) (λ broadcast,
  allBundleData ← lift_res (unmarshal_all (unicast ++ multicast ++ broadcast));
  mret (FetchReply MsgTypeFetchReply true None allBundleData))))).

(** The builder's chain of calls. *)
Definition create_builder (srcAddress dstAddress : EndpointID) (payload : bytes) (type : Z) : res BundleBuilder :=
  bl ← Builder_Source (GEndpointID srcAddress) Builder;
  bl ← Builder_Destination (GEndpointID dstAddress) bl;
  bl ← CreationTimestampNow now bl;
  bl ← Builder_Lifetime (GString "1h") bl;
  bl ← Builder_PayloadBlock [GBytes payload] bl;
  Canonical [GExtensionBlock (RECBundleTypeBlock type)] bl.

Definition handleCreate (bundle : BundleData) : M State Response :=
  let reply e := Reply MsgTypeReply false (Some e) in
  or_reply reply (lift_res (NewEndpointID (bdt_Source bundle))) (λ srcAddress,
  or_reply reply (lift_res (NewEndpointID (bdt_Destination bundle))) (λ dstAddress,
  or_reply reply (lift_res (Marshal_BundleData bundle)) (λ payload,
  bldr ← lift_res (create_builder srcAddress dstAddress payload (bdt_Type bundle));
  let '(r, bndl) := Build now bldr in
  or_reply reply (lift_res r) (λ _, Outbox_Send bndl;; mret (Reply MsgTypeReply true None))))).

Definition dispatch (s : BundleStore) (orders : EndpointID → list BundleID) (msgBytes : bytes) : M State (option Response) :=
  or_close (lift_res (Unmarshal_Message msgBytes)) (λ type,
  if type =? MsgTypeRegister then
    or_close (lift_res (Unmarshal_Register msgBytes)) (λ eid, reply_with (handleRegister eid)) else
  if type =? MsgTypeFetch then
    or_close (lift_res (Unmarshal_Fetch msgBytes)) (λ message, reply_with (handleFetch s orders message)) else
  if type =? MsgTypeBundleCreate then
    or_close (lift_res (Unmarshal_BundleCreate msgBytes)) (λ bundle, reply_with (handleCreate bundle)) else
  mret None).

Definition handleConnection (s : BundleStore) (orders : EndpointID → list BundleID) (input : bytes) : M State (option bytes) :=
  msg ← lift_res (read_message input);
  match msg with
  | None => mret None
  | Some msgBytes =>
      response ← dispatch s orders msgBytes;
      match response with
      | None => mret None
      | Some response => or_close (lift_res (Marshal_Response response)) (λ replyBytes, mret (Some (frame replyBytes)))
      end
  end.
End Handlers.
End Rec.
