(* ===== verification/Wire.v ===== *)
(** * A wire format

    Encoders with decoders that undo them, by type class, so that the classes for
    MessagePack have an instance that runs.  The theorems about clients and agents do
    not depend on the format. *)

From stdpp Require Import base tactics list strings.
From Stdlib Require Import ZArith Lia.
From S2P Require Import Prelude Cboring.
Local Open Scope Z_scope.

(** MessagePack has lengths of 32 bits. *)
Definition wire_max : Z := 4294967296.

Class Wire (A : Type) := {
  put : A → bytes;
  get : reader A;
  get_put a r : len (put a) < wire_max → get (put a ++ r) = (Ok a, r);
}.

(** Decoding a whole message. *)
Definition get_all {A} `{Wire A} (bs : bytes) : res A := (get bs).1.

Lemma get_all_put {A} `{Wire A} a : len (put a) < wire_max → get_all (put a) = Ok a.
Proof. intros Hl. unfold get_all. rewrite <- (app_nil_r (put a)). by rewrite get_put. Qed.

Definition get_u64 : reader Z := l ← Rfc8949.raw (Z.of_nat 8); mret (be_value l).

Lemma get_u64_put n r : 0 ≤ n < wire_max → get_u64 (be_bytes 8 n ++ r) = (Ok n, r).
Proof. intros Hn. apply raw_be. unfold wire_max in *. simpl. lia. Qed.

(** The parts of an encoding are not longer than the whole. *)
Ltac wire_len := rewrite ?len_app in *; unfold len in *; rewrite ?be_bytes_length in *; lia.

#[export] Program Instance wire_bytes : Wire bytes := {|
  put d := be_bytes 8 (len d) ++ d;
  get := n ← get_u64; Rfc8949.raw n;
|}.
Next Obligation.
  intros d r Hl. cbv beta in *. rewrite <- app_assoc. mstep by (apply get_u64_put; wire_len). apply raw_app.
Qed.

#[export] Program Instance wire_bool : Wire bool := {|
  put b := [if b : bool then Byte.x01 else Byte.x00];
  get := b ← Rfc8949.rd_byte; mret (bool_decide (b = Byte.x01));
|}.
Next Obligation. by intros [] r. Qed.

(** A type in one to one correspondence with one that has a format. *)
Program Definition wire_iso {A B} `{Wire B} (f : A → B) (g : B → A) (gf : ∀ a, g (f a) = a) : Wire A := {|
  put a := put (f a);
  get := b ← get; mret (g b);
|}.
Next Obligation. intros A B ? f g gf a r Hl. mstep by (by apply get_put). by rewrite gf. Qed.

#[export] Instance wire_string : Wire string := wire_iso str_bytes bytes_str bytes_str_bytes.

#[export] Program Instance wire_prod {A B} `{Wire A} `{Wire B} : Wire (A * B) := {|
  put x := put x.1 ++ put x.2;
  get := a ← get; b ← get; mret (a, b);
|}.
Next Obligation.
  intros A B ?? [a b] r. cbn [fst snd]. intros Hl. rewrite <- app_assoc.
  mstep by (apply get_put; wire_len). mstep by (apply get_put; wire_len). done.
Qed.

Definition put_sum {A B} `{Wire A} `{Wire B} (x : A + B) : bytes :=
  match x with inl a => Byte.x00 :: put a | inr b => Byte.x01 :: put b end.
Definition get_sum {A B} `{Wire A} `{Wire B} : reader (A + B) :=
  t ← Rfc8949.rd_byte; if bool_decide (t = Byte.x00) then a ← get; mret (inl a) else b ← get; mret (inr b).

#[export] Program Instance wire_sum {A B} `{Wire A} `{Wire B} : Wire (A + B) := {| put := put_sum; get := get_sum |}.
Next Obligation.
  intros A B ?? [a|b] r Hl; unfold get_sum, put_sum in *; rewrite <- app_comm_cons; (mstep by reflexivity);
    [rewrite bool_decide_eq_true_2 by done|rewrite bool_decide_eq_false_2 by done];
    (mstep by (apply get_put; unfold len in *; cbn [length] in Hl; lia)); done.
Qed.

#[export] Program Instance wire_unit : Wire () := {| put _ := []; get := mret () |}.
Next Obligation. by intros [] r. Qed.

#[export] Instance wire_option {A} `{Wire A} : Wire (option A).
Proof.
  refine (wire_iso (B := () + A) (λ o, match o with None => inl () | Some a => inr a end)
    (λ x, match x with inl _ => None | inr a => Some a end) _).
  by intros [].
Defined.

(** A list: each element behind a one, and a zero at the end. *)
Fixpoint put_list {A} `{Wire A} (l : list A) : bytes :=
  match l with [] => [Byte.x00] | a :: l => Byte.x01 :: put a ++ put_list l end.

Fixpoint get_list {A} `{Wire A} (fuel : nat) : reader (list A) :=
  match fuel with
  | O => fail (errorf "EOF")
  | S fuel => t ← Rfc8949.rd_byte; if bool_decide (t = Byte.x01) then a ← get; l ← get_list fuel; mret (a :: l) else mret []
  end.

Lemma put_list_length {A} `{Wire A} (l : list A) : (length l < length (put_list l))%nat.
Proof. induction l as [|a l IH]; simpl; [lia|]. rewrite length_app. lia. Qed.

Lemma get_list_put {A} `{Wire A} (l : list A) fuel r : len (put_list l) < wire_max → (length l < fuel)%nat →
  get_list fuel (put_list l ++ r) = (Ok l, r).
Proof.
  revert fuel. induction l as [|a l IH]; intros [|fuel] Hl Hf; [lia| |lia|]; [done|].
  assert (len (put_list (a :: l)) = 1 + len (put a) + len (put_list l)) as E.
  { unfold len. simpl. rewrite length_app. lia. }
  pose proof (len_nonneg (put a)). pose proof (len_nonneg (put_list l)). simpl in Hf.
  cbn [get_list put_list]. rewrite <- app_comm_cons, <- app_assoc. mstep by done. rewrite bool_decide_eq_true_2 by done.
  mstep by (apply get_put; lia). mstep by (apply IH; lia). done.
Qed.

#[export] Program Instance wire_list {A} `{Wire A} : Wire (list A) := {|
  put := put_list;
  get := λ inp, get_list (S (length inp)) inp;
|}.
Next Obligation.
  intros A ? l r Hl. apply get_list_put; [done|]. pose proof (put_list_length l). rewrite length_app. lia.
Qed.

#[export] Instance wire_error : Wire error.
Proof.
  refine (wire_iso (λ e, match e with FlagBreakCode => None | errorf msg => Some msg end)
    (λ x, match x with None => FlagBreakCode | Some msg => errorf msg end) _).
  by intros [].
Defined.
