(* ===== verification/AgentLoop.v ===== *)
(** * The accept loops of the socket agents

    [Start], [Shutdown] and [listen] of [unix_agent.go] and [rec_agent.go], which are the
    same but for the names: a goroutine accepts connections until a channel is closed.
    The loop and the callers of [Shutdown] interleave. *)

From stdpp Require Import base tactics list relations.
From Stdlib Require Import ZArith Lia Bool.
From S2P Require Import Prelude.

(** ** State *)

(** Where the goroutine is: before [Start], at the [select], before [SetDeadline], before
    [Accept], or gone. *)
Inductive loop_pc := NotStarted | AtSelect | AtDeadline | AtAccept | Ended.

#[global] Instance loop_pc_eq_dec : EqDecision loop_pc.
Proof. solve_decision. Defined.

(** The listener is [nil] before [Start], and open or closed afterwards; [al_closing] is
    the number of calls of [Shutdown] that have yet to close it.  A connection is what the
    peer sends on it. *)
Record AgentLoop := mkLoop {
  al_listener : option bool;
  al_stopChan : bool;
  al_closing : nat;
  al_pc : loop_pc;
  al_connections : list bytes;
  al_panicked : bool;
}.

Definition fresh_loop : AgentLoop := mkLoop None false 0 NotStarted [] false.

Definition set_al_pc pc a := mkLoop (al_listener a) (al_stopChan a) (al_closing a) pc (al_connections a) (al_panicked a).
Definition panicked a := mkLoop (al_listener a) (al_stopChan a) (al_closing a) (al_pc a) (al_connections a) true.

(** ** Operations *)

(** [Start] with the outcome of [net.ListenUnix]. *)
Definition agent_Start (listen : res ()) : M AgentLoop () := λ a,
  match listen with
  | Ok _ => (Ok (), mkLoop (Some true) (al_stopChan a) (al_closing a) AtSelect (al_connections a) (al_panicked a))
  | Err e => (Err e, a)
  | Panic => (Panic, a)
  end.

(** [Shutdown]: the channel is closed, which panics the second time, then the listener;
    the methods of a listener that is [nil] return errors, which are dropped. *)
Definition shutdown_channel (a : AgentLoop) : AgentLoop :=
  if al_stopChan a then panicked a else mkLoop (al_listener a) true (S (al_closing a)) (al_pc a) (al_connections a) (al_panicked a).

Definition shutdown_listener (a : AgentLoop) : AgentLoop :=
  mkLoop ((λ _, false) <$> al_listener a) (al_stopChan a) (pred (al_closing a)) (al_pc a) (al_connections a) (al_panicked a).

(** One statement of the loop: [deadline] and [accepted] are what [SetDeadline] and
    [Accept] return of an open listener; a closed one returns an error. *)
Definition listen_step (deadline : res ()) (accepted : option bytes) (a : AgentLoop) : AgentLoop :=
  match al_pc a with
  | AtSelect => set_al_pc (if al_stopChan a then Ended else AtDeadline) a
  | AtDeadline =>
      if bool_decide (al_listener a = Some true) && is_ok deadline then set_al_pc AtAccept a else
      if al_stopChan a then panicked a else set_al_pc AtSelect (shutdown_listener (shutdown_channel a))
  | AtAccept =>
      set_al_pc AtSelect
        match accepted with
        | Some conn => if bool_decide (al_listener a = Some true)
            then mkLoop (al_listener a) (al_stopChan a) (al_closing a) (al_pc a) (al_connections a ++ [conn]) (al_panicked a) else a
        | None => a
        end
  | NotStarted | Ended => a
  end.

(** ** Interleavings *)

(** The steps of the program; after a panic there are none. *)
Inductive loop_step : AgentLoop → AgentLoop → Prop :=
  | l_start listen a : al_panicked a = false → al_pc a = NotStarted → loop_step a (agent_Start listen a).2
  | l_channel a : al_panicked a = false → loop_step a (shutdown_channel a)
  | l_listener a : al_panicked a = false → (0 < al_closing a)%nat → loop_step a (shutdown_listener a)
  | l_listen deadline accepted a : al_panicked a = false → al_pc a ≠ NotStarted → al_pc a ≠ Ended →
      loop_step a (listen_step deadline accepted a).

Abbreviation reachable := (rtc loop_step fresh_loop).

(** ** Properties *)

(** The listener is closed by a call of [Shutdown] only, after the channel. *)
Definition loop_inv (a : AgentLoop) : Prop :=
  (al_listener a = None ↔ al_pc a = NotStarted) ∧
  (al_listener a = Some false → al_stopChan a = true) ∧
  ((0 < al_closing a)%nat → al_stopChan a = true) ∧
  (al_panicked a = true → al_stopChan a = true).

Ltac loop_solve := simpl in *; intuition (congruence || lia).

Lemma loop_step_inv a a' : loop_step a a' → loop_inv a → loop_inv a'.
Proof.
  unfold loop_inv. destruct 1; destruct a as [li st cl pc cs pa]; simpl in *; intros Hi.
  - destruct listen, li as [[]|], st; loop_solve.
  - unfold shutdown_channel. destruct st; loop_solve.
  - destruct li as [[]|]; loop_solve.
  - unfold listen_step. simpl. destruct pc; [done| | | |done].
    + destruct st; loop_solve.
    + destruct li as [[]|], (is_ok deadline), st; loop_solve.
    + destruct accepted, li as [[]|]; loop_solve.
Qed.

Lemma reachable_inv a : reachable a → loop_inv a.
Proof.
  intros Hr. assert (loop_inv fresh_loop) as Hi by (unfold loop_inv; loop_solve).
  induction Hr; [done|]. apply IHHr. by eapply loop_step_inv.
Qed.

(** How many more statements the loop executes once the channel is closed. *)
Definition loop_left (a : AgentLoop) : nat :=
  match al_pc a with AtSelect => 1 | AtAccept => 2 | AtDeadline => 3 | NotStarted | Ended => 0 end.

(** C31: in every reachable state of a socket agent the listener is closed only after the
    channel, and once the channel is closed the loop ends: it executes at most three more
    statements, each of which panics or brings it closer to its end, it accepts at most one
    more connection, and no interleaved call of [Shutdown] delays it. *)
Theorem agent_loop_ends a deadline accepted : reachable a → al_stopChan a = true → al_panicked a = false →
  let a' := listen_step deadline accepted a in
  (loop_left a ≤ 3)%nat ∧
  (al_pc a ≠ NotStarted → loop_left a = 0 → al_pc a = Ended) ∧
  (al_panicked a' = false → loop_left a' = pred (loop_left a)) ∧
  (al_connections a' ≠ al_connections a → al_pc a = AtAccept ∧ loop_left a' = 1) ∧
  (∀ b, loop_step a b → al_pc a = NotStarted ∨ al_stopChan b = true ∧ (loop_left b ≤ loop_left a)%nat).
Proof.
  intros Hr%reachable_inv Hs Hp. destruct a as [li st cl pc cs pa]. simpl in Hs, Hp. subst st pa. cbv zeta. unfold loop_left. split_and!.
  - destruct pc; simpl; lia.
  - destruct pc; simpl; congruence.
  - unfold listen_step. simpl. destruct pc; simpl; try done. by destruct (bool_decide _ && _).
  - unfold listen_step. simpl. destruct pc; simpl; try done. by destruct (bool_decide _ && _).
  - intros b Hb. inversion Hb; subst; simpl in *; auto; right; unfold listen_step, shutdown_channel; simpl.
    destruct pc; simpl; try done; try (split; [done|lia]).
    + destruct (bool_decide _ && _); simpl; split; done || lia.
    + destruct accepted0; [case_bool_decide|]; simpl; split; done || lia.
Qed.

(** [Shutdown] can make the agent panic: if the loop is past the [select] when it is
    called, [SetDeadline] fails on the closed listener, and the loop calls [Shutdown] a
    second time. *)
Theorem shutdown_race : ∃ a, reachable a ∧ al_panicked a = true ∧ al_connections a = [].
Proof.
  pose (a1 := (agent_Start (Ok ()) fresh_loop).2). pose (a2 := listen_step (Ok ()) None a1).
  pose (a3 := shutdown_channel a2). pose (a4 := shutdown_listener a3). exists (listen_step (Ok ()) None a4). split; [|done].
  apply (rtc_l _ _ a1); [by constructor|]. apply (rtc_l _ _ a2); [by constructor|]. apply (rtc_l _ _ a3); [by constructor|].
  apply (rtc_l _ _ a4); [constructor; [done|simpl; lia]|]. apply rtc_once. by constructor.
Qed.

Definition stopped_loop : AgentLoop := shutdown_channel (agent_Start (Ok ()) fresh_loop).2.

Lemma agent_loop_ends_witness : loop_left (listen_step (Ok ()) None stopped_loop) = 0 ∧ al_pc (listen_step (Ok ()) None stopped_loop) = Ended.
Proof.
  destruct (agent_loop_ends stopped_loop (Ok ()) None) as (_ & _ & Hl & _).
  - apply (rtc_l _ _ (agent_Start (Ok ()) fresh_loop).2); [constructor; reflexivity|]. apply rtc_once. constructor. reflexivity.
  - reflexivity.
  - reflexivity.
  - split; [apply Hl; reflexivity|reflexivity].
Defined.
