(* ===== verification/Client.v ===== *)
(** * The command line client

    [cmd/dtnclient/main.go]: each command sends one message to the UNIX agent of a
    daemon, reads the reply and prints it.  Every error is printed to the standard error
    and ends the program with status 1: the error of a [res].  What the operating system
    and the agent do is the argument [ClientEnv]; the arguments the library [argparse]
    returns are a [Command]. *)

From stdpp Require Import base tactics list strings gmap.
From Stdlib Require Import ZArith Lia Bool Ascii.
From S2P Require Import Prelude Cboring GoStrings Endpoint BundleId Builder Agents.
Local Open Scope Z_scope.

(** ** MessagePack on the client's side *)

(** [msgpack.Marshal] of the requests, whose type the client sets, and
    [msgpack.Unmarshal] into the response types; an empty error text is [None]. *)
Class ClientMsgpack := {
  Marshal_RegisterUnregister : Unix.RegisterUnregisterMessage → res bytes;
  Marshal_BundleCreate : Z → list (string * GoValue) → res bytes;
  Marshal_ListBundles : Z → Unix.ListBundles → res bytes;
  Marshal_FetchBundle : Z → Unix.FetchBundle → res bytes;
  Marshal_FetchAllBundles : Z → Unix.FetchAllBundles → res bytes;
  Unmarshal_GeneralResponse : bytes → res (option error);
  Unmarshal_BundleCreateResponse : bytes → res (option error * string);
  Unmarshal_ListResponse : bytes → res (option error * list string);
  Unmarshal_FetchBundleResponse : bytes → res (option error * Unix.BundleContent);
  Unmarshal_FetchAllBundlesResponse : bytes → res (option error * list Unix.BundleContent);
}.

(** ** The world of the client *)

Record ClientEnv := mkEnv {
  env_stdin : bytes;
  env_read : string → res bytes;         (* [os.Open] and [io.ReadAll] *)
  env_create : string → res ();          (* [os.Create] *)
  env_write : string → res ();           (* [file.Write] *)
  env_write_length : res ();             (* the two writes to the connection *)
  env_write_message : res ();
  env_flush : res ();
  env_peer : bytes → bytes;              (* what the agent answers before it closes the connection *)
}.

(** What the client has sent and printed, and the files it has written. *)
Record ClientState := mkClient {
  cs_sent : bytes;
  cs_stdout : string;
  cs_files : gmap string bytes;
}.

Definition fresh_client : ClientState := mkClient [] "" ∅.

Definition newline : string := String "010" "".
Definition print (text : string) : M ClientState () :=
  modify (λ s, mkClient (cs_sent s) (cs_stdout s +:+ text) (cs_files s)).
Definition println (text : string) : M ClientState () := print (text +:+ newline).

(** [os.Create] and [file.Write]: the file is empty if only the first succeeds. *)
Definition write_file (env : ClientEnv) (name : string) (data : bytes) : M ClientState () :=
  lift_res (env_create env name);;
  modify (λ s, mkClient (cs_sent s) (cs_stdout s) (<[name := []]> (cs_files s)));;
  lift_res (env_write env name);;
  modify (λ s, mkClient (cs_sent s) (cs_stdout s) (<[name := data]> (cs_files s))).

(** [ReadString] up to the first line feed, which it includes; without one it fails. *)
Fixpoint read_line (l : bytes) : res bytes :=
  match l with
  | [] => Err (errorf "EOF")
  | b :: l => if bool_decide (b = Byte.x0a) then Ok [b] else rest ← read_line l; Ok (b :: rest)
  end.

(** [strings.ReplaceAll] of a character by nothing. *)
Fixpoint remove_char (c : ascii) (s : string) : string :=
  match s with
  | EmptyString => EmptyString
  | String a s => if bool_decide (a = c) then remove_char c s else String a (remove_char c s)
  end.

(** ** One request *)

(** The length and the bytes of a message are written, those of the reply are read.  The
    error of the last read is dropped: what is missing of the reply is zero. *)
Definition exchange (env : ClientEnv) (msgBytes : bytes) : M ClientState bytes :=
  lift_res (env_write_length env);;
  lift_res (env_write_message env);;
  lift_res (env_flush env);;
  modify (λ s, mkClient (frame msgBytes) (cs_stdout s) (cs_files s));;
  let input := env_peer env (frame msgBytes) in
  if len input <? 8 then fail (errorf "EOF") else
  let msgLen := be_value (take 8 input) in
  if maxAlloc <? msgLen then panic else
  mret (resize (Z.to_nat msgLen) Byte.x00 (drop 8 input)).

(** The error of the reply. *)
Definition reply_error (err : option error) : M ClientState () :=
  match err with Some e => fail e | None => mret () end.

Section Handlers.
Context `{ClientMsgpack}.
Context (env : ClientEnv).

Definition handleRegisterUnregister (eid : string) (register : bool) : M ClientState () :=
  msgBytes ← lift_res (Marshal_RegisterUnregister
    (Unix.mkRegisterUnregister (if register then Unix.MsgTypeRegisterEID else Unix.MsgTypeUnregisterEID) eid));
  msgBytes ← exchange env msgBytes;
  err ← lift_res (Unmarshal_GeneralResponse msgBytes);
  reply_error err;;
  println "Success".

(** The arguments of a create message but the payload; a map, whose order is not kept. *)
Definition create_args (sourceID destinationID reportTo creationTimestamp lifetime : string) : list (string * GoValue) :=
  [("source", GString sourceID); ("destination", GString destinationID)] ++
  (if bool_decide (reportTo = "") then [] else [("report_to", GString reportTo)]) ++
  (if bool_decide (creationTimestamp = "now") then [("creation_timestamp_now", GBool true)] else
   if bool_decide (creationTimestamp = "epoch") then [("creation_timestamp_epoch", GBool true)] else
   [("creation_timestamp_time", GString creationTimestamp)]) ++
  [("lifetime", GString lifetime)].

Definition read_payload (payload : string) : res bytes :=
  if bool_decide (payload = "stdin") then read_line (env_stdin env) else env_read env payload.

Definition handleCreate (sourceID destinationID reportTo creationTimestamp lifetime payload : string) : M ClientState () :=
  payloadBytes ← lift_res (read_payload payload);
  msgBytes ← lift_res (Marshal_BundleCreate Unix.MsgTypeBundleCreate
    (create_args sourceID destinationID reportTo creationTimestamp lifetime ++ [("payload_block", GBytes payloadBytes)]));
  msgBytes ← exchange env msgBytes;
  '(err, bundleID) ← lift_res (Unmarshal_BundleCreateResponse msgBytes);
  reply_error err;;
  println bundleID.

(** [fmt.Println] of a slice of strings. *)
Definition fmt_slice (l : list string) : string := "[" +:+ (String.concat " " l +:+ "]").

Definition handleList (mailboxID : string) (new : bool) : M ClientState () :=
  msgBytes ← lift_res (Marshal_ListBundles Unix.MsgTypeListBundles (Unix.mkListBundles mailboxID new));
  msgBytes ← exchange env msgBytes;
  '(err, bundles) ← lift_res (Unmarshal_ListResponse msgBytes);
  reply_error err;;
  println (fmt_slice bundles).

Definition handleGetBundle (mailboxID bundleID output : string) (remove : bool) : M ClientState () :=
  msgBytes ← lift_res (Marshal_FetchBundle Unix.MsgTypeFetchBundle (Unix.mkFetchBundle mailboxID bundleID remove));
  msgBytes ← exchange env msgBytes;
  '(err, content) ← lift_res (Unmarshal_FetchBundleResponse msgBytes);
  reply_error err;;
  if bool_decide (output = "stdout") then print (bytes_str (Unix.bc_Payload content))
  else write_file env output (Unix.bc_Payload content).

(** The file a bundle is written to. *)
Definition bundle_filename (bundleID : string) : string := remove_char ":" (remove_char "/" bundleID).

Fixpoint write_bundles (bundles : list Unix.BundleContent) : M ClientState () :=
  match bundles with
  | [] => mret ()
  | bundle :: bundles =>
      write_file env (bundle_filename (Unix.bc_BundleID bundle)) (Unix.bc_Payload bundle);;
      write_bundles bundles
  end.

Definition handleGetAllBundles (mailboxID : string) (new remove : bool) : M ClientState () :=
  msgBytes ← lift_res (Marshal_FetchAllBundles Unix.MsgTypeFetchAllBundles (Unix.mkFetchAll mailboxID new remove));
  msgBytes ← exchange env msgBytes;
  '(err, bundles) ← lift_res (Unmarshal_FetchAllBundlesResponse msgBytes);
  reply_error err;;
  write_bundles bundles.

(** ** The program *)

(** The command that happened, with the values of its options. *)
Inductive GetCommand :=
  | GetBundle (bundleID output : string)
  | GetAllBundles (new : bool)
  | GetNone.

Inductive Command :=
  | Register (eid : string)
  | Unregister (eid : string)
  | Create (sourceID destinationID reportTo creationTimestamp lifetime payload : string)
  | List (mailboxID : string) (new : bool)
  | Get (mailboxID : string) (remove : bool) (sub : GetCommand).

(** [create] and [get bundle] with the defaults of the options that are not required. *)
Definition create_command (sourceID destinationID : string) (reportTo creationTimestamp lifetime payload : option string) : Command :=
  Create sourceID destinationID (default "" reportTo) (default "now" creationTimestamp) (default "24h" lifetime)
    (default "stdin" payload).
Definition get_bundle_command (mailboxID bundleID : string) (output : option string) (remove : option bool) : Command :=
  Get mailboxID (default false remove) (GetBundle bundleID (default "stdout" output)).

Definition run_command (cmd : Command) : M ClientState () :=
  match cmd with
  | Register eid => handleRegisterUnregister eid true
  | Unregister eid => handleRegisterUnregister eid false
  | Create sourceID destinationID reportTo creationTimestamp lifetime payload =>
      handleCreate sourceID destinationID reportTo creationTimestamp lifetime payload
  | List mailboxID new => handleList mailboxID new
  | Get mailboxID remove (GetBundle bundleID output) => handleGetBundle mailboxID bundleID output remove
  | Get mailboxID remove (GetAllBundles new) => handleGetAllBundles mailboxID new remove
  | Get _ _ GetNone => mret ()
  end.

(** The status the program ends with and the error it prints; a panic ends it with 2. *)
Definition exit_of (r : res ()) : Z * option error :=
  match r with Ok _ => (0, None) | Err e => (1, Some e) | Panic => (2, None) end.

(** [parsed] is the result of [parser.Parse], [usage] the text of [parser.Usage], [resolve]
    and [dial] what resolving the address and dialling it return. *)
Definition main (parsed : res Command) (usage : error → string) (resolve dial : res ()) (s : ClientState) :
    (Z * option error) * ClientState :=
  match parsed with
  | Err e => ((1, None), (print (usage e) s).2)
  | Panic => ((2, None), s)
  | Ok cmd => let '(r, s) := (lift_res resolve;; lift_res dial;; run_command cmd) s in (exit_of r, s)
  end.
End Handlers.
