(* ===== verification/AgentsProps.v ===== *)
(** * Properties of the agents' request handlers *)

From stdpp Require Import base tactics list strings gmap.
From Stdlib Require Import ZArith Lia Bool.
From S2P Require Import Prelude Cboring GoStrings GoTime Flags Crc DtnTime Endpoint BundleId ExtensionBlocks Blocks.
From S2P Require Import Bundle Samples BundleValid Fragmentation Builder BuilderProps IdKeeper Descriptor Store StoreInv StoreExamples.
From S2P Require Import Mailbox MailboxProps AgentManager Agents.
Local Open Scope Z_scope.

(** ** What calls keep *)

Definition keeps {σ A} (P : σ → Prop) (m : M σ A) : Prop := ∀ s, P s → P (m s).2.

Section Keeps.
Context {σ : Type} (P : σ → Prop).

Lemma keeps_ret {A} (a : A) : keeps P (mret a).
Proof. by intros s Hs. Qed.

Lemma keeps_res {A} (r : res A) : keeps P (lift_res r).
Proof. by intros s Hs. Qed.

Lemma keeps_fail {A} e : keeps P (fail e : M σ A).
Proof. by intros s Hs. Qed.

Lemma keeps_bind {A B} (m : M σ A) (k : A → M σ B) : keeps P m → (∀ a, keeps P (k a)) → keeps P (x ← m; k x).
Proof. intros Hm Hk s Hs. unfold mbind, M_bind. specialize (Hm s Hs). destruct (m s) as [[] s']; [by apply Hk|done..]. Qed.

Lemma keeps_or_reply {A B} reply (m : M σ A) (k : A → M σ B) : keeps P m → (∀ a, keeps P (k a)) → keeps P (or_reply reply m k).
Proof. intros Hm Hk s Hs. unfold or_reply. specialize (Hm s Hs). destruct (m s) as [[] s']; [by apply Hk|done..]. Qed.

Lemma keeps_or_close {A B} (m : M σ A) (k : A → M σ (option B)) : keeps P m → (∀ a, keeps P (k a)) → keeps P (or_close m k).
Proof. intros Hm Hk s Hs. unfold or_close. specialize (Hm s Hs). destruct (m s) as [[] s']; [by apply Hk|done..]. Qed.

Lemma keeps_reply_with {A} (m : M σ A) : keeps P m → keeps P (reply_with m).
Proof. intros Hm. apply keeps_bind; [done|]. intros a. apply keeps_ret. Qed.

Lemma keeps_bundles_or_err (m : M σ (list Bundle * option error)) : keeps P m → keeps P (bundles_or_err m).
Proof. intros Hm. apply keeps_bind; [done|]. intros [bs [e|]]; [apply keeps_fail|apply keeps_ret]. Qed.
End Keeps.

(** A call on the mailboxes keeps the bank's invariant. *)
Lemma keeps_bank_step {A} (m : M MailboxBank A) : (∀ bank, bank_step bank (m bank).2) → keeps bank_inv m.
Proof. intros Hm bank Hb. by eapply bank_step_inv. Qed.

Lemma keeps_Register eid : keeps bank_inv (Bank_Register eid).
Proof. apply keeps_bank_step. constructor. Qed.

Lemma keeps_Unregister eid : keeps bank_inv (Bank_Unregister eid).
Proof. apply keeps_bank_step. constructor. Qed.

Lemma keeps_with_mailbox {A} eid (m : M Mailbox A) : keeps bank_inv (with_mailbox eid m).
Proof. apply keeps_bank_step. constructor. Qed.

Definition rest_inv (ra : RestAgent) : Prop := bank_inv (ra_mailboxes ra).
Definition unix_inv (st : Unix.State) : Prop := bank_inv (ua_mailboxes st.1).
Definition rec_inv (st : Rec.State) : Prop := bank_inv (rec_mailboxes st.1).

Lemma keeps_rest {A} (m : M MailboxBank A) : keeps bank_inv m → keeps rest_inv (Rest.on_mailboxes m).
Proof. intros Hm ra Hr. unfold Rest.on_mailboxes. specialize (Hm _ Hr). by destruct (m _). Qed.

Lemma keeps_unix {A} (m : M MailboxBank A) : keeps bank_inv m → keeps unix_inv (Unix.on_mailboxes m).
Proof. intros Hm [ua ob] Hr. unfold Unix.on_mailboxes. specialize (Hm _ Hr). by destruct (m _). Qed.

Lemma keeps_rec {A} (m : M MailboxBank A) : keeps bank_inv m → keeps rec_inv (Rec.on_mailboxes m).
Proof. intros Hm [ua ob] Hr. unfold Rec.on_mailboxes. specialize (Hm _ Hr). by destruct (m _). Qed.

Lemma keeps_Send_unix b : keeps unix_inv (Outbox_Send b).
Proof. by intros [ua ob]. Qed.

Lemma keeps_Send_rec b : keeps rec_inv (Outbox_Send b).
Proof. by intros [ua ob]. Qed.

(** Take a handler apart. *)
Ltac solve_keeps :=
  repeat match goal with
  | |- ∀ _, _ => intro
  | Hk : ∀ _, keeps _ _ |- keeps _ _ => apply Hk
  | Hk : ∀ _ _, keeps _ _ |- keeps _ _ => apply Hk
  | |- keeps _ (or_reply _ _ _) => apply keeps_or_reply
  | |- keeps _ (or_close _ _) => apply keeps_or_close
  | |- keeps _ (reply_with _) => apply keeps_reply_with
  | |- keeps _ (bundles_or_err _) => apply keeps_bundles_or_err
  | |- keeps _ (lift_res _) => apply keeps_res
  | |- keeps _ (mret _) => apply keeps_ret
  | |- keeps _ (mbind _ _) => apply keeps_bind
  | |- keeps _ (Rest.on_mailboxes _) => apply keeps_rest
  | |- keeps _ (Unix.on_mailboxes _) => apply keeps_unix
  | |- keeps _ (Rec.on_mailboxes _) => apply keeps_rec
  | |- keeps _ (with_mailbox _ _) => apply keeps_with_mailbox
  | |- keeps _ (Bank_Register _) => apply keeps_Register
  | |- keeps _ (Bank_Unregister _) => apply keeps_Unregister
  | |- keeps unix_inv (Outbox_Send _) => apply keeps_Send_unix
  | |- keeps rec_inv (Outbox_Send _) => apply keeps_Send_rec
  | |- keeps _ (if ?b then _ else _) => destruct b
  | |- keeps _ _ => progress cbv beta
  end.

Section Props.
Context `{Cboring} `{Crc16} `{GoMapRange} `{Ed25519} `{Badgerhold} `{Sha256} `{GoFloat} `{Unix.UnixMsgpack} `{Rec.RecMsgpack}.
Context (ebm : ExtensionBlockManager) (now : Z).

Lemma rest_handlers_keep s orders request read uuid :
  keeps rest_inv (Rest.handleRegister request read) ∧ keeps rest_inv (Rest.handleUnregister uuid) ∧
  keeps rest_inv (Rest.handleFetch ebm now s orders uuid).
Proof.
  split_and!.
  - unfold Rest.handleRegister. apply keeps_or_reply; [apply keeps_res|]. intros e. apply keeps_or_reply; [apply keeps_res|].
    intros eid. apply keeps_or_reply; [apply keeps_res|]. intros u ra Hr. apply keeps_Register, Hr.
  - intros ra Hr. unfold Rest.handleUnregister. destruct uuid as [u| |]; [|done..].
    destruct (ra_clients ra !! u) as [eid|]; [|done].
    assert (keeps rest_inv (or_reply Some (Rest.on_mailboxes (Bank_Unregister eid)) (λ _, mret None))) as Hk
      by (solve_keeps).
    specialize (Hk ra Hr). by destruct (or_reply _ _ _ ra).
  - unfold Rest.handleFetch. apply keeps_or_reply; [apply keeps_res|]. intros u ra Hr.
    destruct (ra_clients ra !! u) as [eid|]; [|done]. apply (keeps_or_reply rest_inv); [solve_keeps..|exact Hr].
Qed.

Lemma unix_dispatch_keeps s orders msg : keeps unix_inv (Unix.dispatch ebm now s orders msg).
Proof.
  unfold Unix.dispatch. apply keeps_or_close; [apply keeps_res|]. intros t.
  assert (∀ message b, keeps unix_inv (Unix.handleRegisterUnregister message b)) as H1'.
  { intros message b. unfold Unix.handleRegisterUnregister. solve_keeps. }
  assert (∀ args, keeps unix_inv (Unix.handleBundleCreate now args)) as H2'.
  { intros args st Hs. unfold Unix.handleBundleCreate. destruct (BuildFromMap now args) as [[] b]; [|done..].
    apply (keeps_bind unix_inv); [apply keeps_Send_unix|intros ?; apply keeps_ret|exact Hs]. }
  assert (∀ message, keeps unix_inv (Unix.handleMailboxList orders message)) as H3' by (intros; unfold Unix.handleMailboxList; solve_keeps).
  assert (∀ message, keeps unix_inv (Unix.handleGetBundle ebm now s message)) as H4' by (intros; unfold Unix.handleGetBundle; solve_keeps).
  assert (∀ message, keeps unix_inv (Unix.handleGetAllBundles ebm now s orders message)) as H5'
    by (intros; unfold Unix.handleGetAllBundles; solve_keeps).
  solve_keeps.
Qed.

Lemma rec_dispatch_keeps s orders msg : keeps rec_inv (Rec.dispatch ebm now s orders msg).
Proof.
  unfold Rec.dispatch. apply keeps_or_close; [apply keeps_res|]. intros t.
  assert (∀ eid, keeps rec_inv (Rec.handleRegister eid)) as H1' by (intros; unfold Rec.handleRegister; solve_keeps).
  assert (∀ address, keeps rec_inv (Rec.take_all ebm now s orders address)) as Ht by (intros; unfold Rec.take_all; solve_keeps).
  assert (∀ message, keeps rec_inv (Rec.handleFetch ebm now s orders message)) as H2'.
  { intros message. unfold Rec.handleFetch. do 2 (apply keeps_or_reply; [solve_keeps|intros ?]).
    apply keeps_or_reply; [intros st; apply Ht|intros ?]. apply keeps_or_reply; [intros st; apply Ht|solve_keeps]. }
  assert (∀ bundle, keeps rec_inv (Rec.handleCreate now bundle)) as H3'.
  { intros bundle. unfold Rec.handleCreate. do 3 (apply keeps_or_reply; [apply keeps_res|intros ?]).
    apply keeps_bind; [apply keeps_res|]. intros bl. destruct (Build now bl). solve_keeps. }
  solve_keeps.
Qed.

(** C38: whatever a client sends, the list of registered endpoints of an agent still
    has no duplicates and lists exactly the endpoints with a mailbox after the request,
    for the handlers of all three agents. *)
Theorem agents_keep_banks s orders input request read uuid ra st st' :
  (rest_inv ra → rest_inv (Rest.handleRegister request read ra).2 ∧ rest_inv (Rest.handleUnregister uuid ra).2 ∧
    rest_inv (Rest.handleFetch ebm now s orders uuid ra).2) ∧
  (unix_inv st → unix_inv (Unix.handleConnection ebm now s orders input st).2) ∧
  (rec_inv st' → rec_inv (Rec.handleConnection ebm now s orders input st').2).
Proof.
  destruct (rest_handlers_keep s orders request read uuid) as (K1 & K2 & K3). split; [by auto|]. split; intros Hs.
  - unfold Unix.handleConnection. apply (keeps_bind unix_inv); [apply keeps_res| |exact Hs]. intros [msg|]; [|apply keeps_ret].
    apply keeps_bind; [apply unix_dispatch_keeps|]. intros [resp|]; solve_keeps.
  - unfold Rec.handleConnection. apply (keeps_bind rec_inv); [apply keeps_res| |exact Hs]. intros [msg|]; [|apply keeps_ret].
    apply keeps_bind; [apply rec_dispatch_keeps|]. intros [resp|]; solve_keeps.
Qed.

(** ** REST *)

(** C26: a /build request sends at most one bundle, and only for the UUID of a
    registered client, with the client's endpoint as source or report-to endpoint; the
    id keeper numbers it.  Every other request leaves the agent and the bundles sent
    unchanged and is answered with an error. *)
Theorem rest_build_authorized request st :
  let '(r, st') := Rest.handleBuild now request st in
  st'.1 = st.1 ∧
  ((st' = st ∧ r ≠ Ok None) ∨
   ∃ uuid args eid b, request = Ok (uuid, args) ∧ ra_clients st.1 !! uuid = Some eid ∧
     BuildFromMap now args = (Ok (), b) ∧
     (pb_SourceNode (b_PrimaryBlock b) = eid ∨ pb_ReportTo (b_PrimaryBlock b) = eid) ∧
     ob_sent st'.2 = ob_sent st.2 ++ [(IdKeeper_Update (ob_idKeeper st.2) b).2] ∧ r = Ok None).
Proof.
  destruct st as [ra ob]. unfold Rest.handleBuild, or_reply, lift_res.
  destruct request as [[uuid args]|e|]; [|by split; [|left]..].
  destruct (ra_clients ra !! uuid) as [eid|] eqn:Ec; [|by split; [|left]].
  destruct (BuildFromMap now args) as [[[]|e|] b] eqn:Eb; [|by split; [|left]..].
  destruct (negb (bool_decide (pb_SourceNode (b_PrimaryBlock b) = eid)) && negb (bool_decide (pb_ReportTo (b_PrimaryBlock b) = eid))) eqn:Ea;
    [by split; [|left]|].
  unfold mbind, M_bind, Outbox_Send, Manager_Send. simpl. split; [done|]. right. exists uuid, args, eid, b.
  repeat split; try done. apply andb_false_iff in Ea as [Ea|Ea]; apply negb_false_iff, bool_decide_eq_true in Ea; auto.
Qed.

Lemma GetAll_take s order mb bs : range_order mb order → Forall2 (λ bid b, fetch ebm now s bid = Ok b) order bs →
  Mailbox_GetAll ebm now true s order mb = (Ok (bs, None), ∅).
Proof.
  intros Ho Hf. unfold Mailbox_GetAll, get_bundles.
  assert (wanted false mb order = order) as Hw.
  { unfold wanted. clear. induction order as [|bid order IH]; [done|]. by rewrite filter_cons, decide_True, IH. }
  by rewrite (get_loop_spec ebm now false s order (range_order_NoDup _ _ Ho) [] mb bs) by (by rewrite Hw).
Qed.

Definition empty_mailbox (eid : EndpointID) (bank : MailboxBank) : MailboxBank :=
  mkBank (mb_registeredIDs bank) (<[eid := ∅]> (mb_mailboxes bank)).

Lemma with_mailbox_take s order eid bank mb bs : mb_mailboxes bank !! eid = Some mb → range_order mb order →
  Forall2 (λ bid b, fetch ebm now s bid = Ok b) order bs →
  with_mailbox eid (Mailbox_GetAll ebm now true s order) bank = (Ok (bs, None), empty_mailbox eid bank).
Proof. intros Hm Ho Hf. unfold with_mailbox. by rewrite Hm, (GetAll_take _ _ _ _ Ho Hf). Qed.

(** A /fetch request of a registered client whose mailbox exists and whose messages
    can all be loaded is answered with the bundle of every message, each exactly once;
    the mailbox is empty afterwards and no other mailbox or client changes. *)
Theorem rest_fetch_spec s orders uuid ra eid mb bs :
  ra_clients ra !! uuid = Some eid → mb_mailboxes (ra_mailboxes ra) !! eid = Some mb → range_order mb (orders eid) →
  Forall2 (λ bid b, fetch ebm now s bid = Ok b) (orders eid) bs →
  Rest.handleFetch ebm now s orders (Ok uuid) ra =
    (Ok (Rest.mkFetchResponse None bs), Rest.set_ra_mailboxes (empty_mailbox eid (ra_mailboxes ra)) ra).
Proof.
  intros Hc Hm Ho Hf. unfold Rest.handleFetch, or_reply, lift_res. rewrite Hc. unfold Rest.on_mailboxes.
  by rewrite (with_mailbox_take _ _ _ _ _ _ Hm Ho Hf).
Qed.

(** ** REC *)

Definition set_rec_mailboxes (bank : MailboxBank) (agent : RECAgent) : RECAgent :=
  mkREC (rec_listenAddress agent) bank (rec_broadcastAddress agent) (rec_multicastAddresses agent).

Lemma take_all_spec s orders agent ob eid mb bs : mb_mailboxes (rec_mailboxes agent) !! eid = Some mb →
  range_order mb (orders eid) → Forall2 (λ bid b, fetch ebm now s bid = Ok b) (orders eid) bs →
  Rec.take_all ebm now s orders eid (agent, ob) =
    (Ok bs, (set_rec_mailboxes (empty_mailbox eid (rec_mailboxes agent)) agent, ob)).
Proof.
  intros Hm Ho Hf. unfold Rec.take_all, bundles_or_err, Rec.on_mailboxes, mbind, M_bind.
  by rewrite (with_mailbox_take _ _ _ _ _ _ Hm Ho Hf).
Qed.

(** The messages of a mailbox of the bank and their bundles. *)
Definition has_messages (s : BundleStore) (orders : EndpointID → list BundleID) (bank : MailboxBank) (eid : EndpointID) (bs : list Bundle) : Prop :=
  ∃ mb, mb_mailboxes bank !! eid = Some mb ∧ range_order mb (orders eid) ∧ Forall2 (λ bid b, fetch ebm now s bid = Ok b) (orders eid) bs.

Lemma has_messages_other s orders bank eid eid' bs : eid ≠ eid' → has_messages s orders bank eid bs →
  has_messages s orders (empty_mailbox eid' bank) eid bs.
Proof. intros Hne (mb & Hm & Ho & Hf). exists mb. split; [|done]. simpl. by rewrite lookup_insert_ne. Qed.

(** What a message is for a REC client: the data [Some d] whose encoding is its payload, or
    [None] for a payload that does not decode. *)
Definition reads (b : Bundle) (x : option Rec.BundleData) : Prop :=
  ∃ payload, payload_data (b_PayloadBlock b) = Ok payload ∧
    match x with
    | Some d => Rec.Marshal_BundleData d = Ok payload
    | None => ∃ e, Rec.Unmarshal_BundleData payload = Err e
    end.

Lemma unmarshal_all_reads `{!Rec.RecMsgpackLaws _} bs xs : Forall2 reads bs xs → Rec.unmarshal_all bs = Ok (omap id xs).
Proof.
  induction 1 as [|b [d|] bs xs (payload & Hp & Hx) _ IH]; [done|..]; cbn [Rec.unmarshal_all]; rewrite Hp; simpl.
  - rewrite (Rec.BundleData_roundtrip d payload Hx), IH. done.
  - destruct Hx as [e ->]. exact IH.
Qed.

(** C27: a fetch request for a registered endpoint that is not one of the shared
    addresses, with a known node type, when every message can be loaded.  It is answered
    with the data of the messages in the endpoint's, the node type's and the broadcast
    mailbox, in that order: for every message whose payload is the encoding of some data,
    exactly this data, and nothing for a message whose payload does not decode.  The three
    mailboxes are empty afterwards, so that what does not decode is lost, and nothing else
    changes.  (With an unknown node type see [rec_fetch_unknown_type_loses].) *)
Theorem rec_fetch_spec `{!Rec.RecMsgpackLaws _} s orders message agent ob unicast multicast u m b xs :
  NewEndpointID (Rec.fe_EndpointID message) = Ok unicast →
  rec_multicastAddresses agent !! Rec.fe_NodeType message = Some multicast →
  NoDup [unicast; multicast; rec_broadcastAddress agent] →
  has_messages s orders (rec_mailboxes agent) unicast u → has_messages s orders (rec_mailboxes agent) multicast m →
  has_messages s orders (rec_mailboxes agent) (rec_broadcastAddress agent) b → Forall2 reads (u ++ m ++ b) xs →
  let bank := empty_mailbox (rec_broadcastAddress agent) (empty_mailbox multicast (empty_mailbox unicast (rec_mailboxes agent))) in
  Rec.handleFetch ebm now s orders message (agent, ob) =
    (Ok (Rec.FetchReply Rec.MsgTypeFetchReply true None (omap id xs)), (set_rec_mailboxes bank agent, ob)).
Proof.
  intros Hu Hm Hnd Mu Mm Mb Hds%unmarshal_all_reads bank. rewrite !NoDup_cons, !not_elem_of_cons in Hnd. destruct Hnd as ((N1 & N2 & _) & (N3 & _) & _).
  apply (has_messages_other _ _ _ _ unicast) in Mm; [|done]. apply (has_messages_other _ _ _ _ unicast) in Mb; [|done].
  apply (has_messages_other _ _ _ _ multicast) in Mb; [|done].
  destruct Mu as (mu & E1 & O1 & F1), Mm as (mm & E2 & O2 & F2), Mb as (mb & E3 & O3 & F3).
  unfold Rec.handleFetch, or_reply, lift_res. rewrite Hu, (take_all_spec _ _ _ _ _ _ _ E1 O1 F1). cbn [fst].
  change (rec_multicastAddresses (set_rec_mailboxes _ agent)) with (rec_multicastAddresses agent). rewrite Hm. change (default None (Some multicast)) with multicast.
  rewrite (take_all_spec s orders (set_rec_mailboxes (empty_mailbox unicast (rec_mailboxes agent)) agent) ob multicast mm m E2 O2 F2).
  cbn [fst].
  set (agent2 := set_rec_mailboxes (empty_mailbox multicast _) _).
  change (rec_broadcastAddress agent2) with (rec_broadcastAddress agent). rewrite (take_all_spec s orders agent2 ob _ mb b E3 O3 F3). unfold mbind, M_bind. by rewrite Hds.
Qed.

(** With a node type that has no multicast address the request fails after the
    endpoint's mailbox was emptied: its messages are lost. *)
Theorem rec_fetch_unknown_type_loses s orders message agent ob unicast u :
  NewEndpointID (Rec.fe_EndpointID message) = Ok unicast → rec_multicastAddresses agent !! Rec.fe_NodeType message = None →
  mb_mailboxes (rec_mailboxes agent) !! None = None → unicast ≠ None → has_messages s orders (rec_mailboxes agent) unicast u →
  Rec.handleFetch ebm now s orders message (agent, ob) =
    (Ok (Rec.FetchReply Rec.MsgTypeFetchReply false (Some NoSuchIDError) []),
     (set_rec_mailboxes (empty_mailbox unicast (rec_mailboxes agent)) agent, ob)).
Proof.
  intros Hu Hm Hz Hne (mu & E1 & O1 & F1).
  unfold Rec.handleFetch, or_reply, lift_res. rewrite Hu, (take_all_spec _ _ _ _ _ _ _ E1 O1 F1). cbn [fst].
  change (rec_multicastAddresses (set_rec_mailboxes _ agent)) with (rec_multicastAddresses agent). rewrite Hm.
  unfold Rec.take_all, bundles_or_err, Rec.on_mailboxes, mbind, M_bind, with_mailbox. simpl.
  by rewrite lookup_insert_ne, Hz by done.
Qed.

(** The bundle a create request makes, before the CRC is set and the id keeper has
    numbered it. *)
Definition rec_primary (src dst : EndpointID) : PrimaryBlock :=
  mkPrimary dtnVersion 0 CRCNo dst src src (mkTimestamp (DtnTimeFromTime now) 0) 3600000 0 0 [].
Definition rec_bundle (src dst : EndpointID) (payload : bytes) (type : Z) : Bundle :=
  mkBundle (rec_primary src dst) [mkCanonical 2 0 CRCNo [] (Some (RECBundleTypeBlock type))]
    (mkCanonical 1 0 CRCNo [] (Some (PayloadBlock payload))).

Lemma create_builder_build src dst payload type : src ≠ None → dst ≠ None →
  ∃ bl, Rec.create_builder now src dst payload type = Ok bl ∧
    Build now bl = match check_bundle now (rec_bundle src dst payload type) with
                   | Ok _ => (Ok (), Bundle_SetCRCType CRCNo (rec_bundle src dst payload type))
                   | x => (x, rec_bundle src dst payload type)
                   end.
Proof.
  intros Hs Hd. assert (bldrParseLifetime (GString "1h") = Ok 3600000) as Hl by (vm_compute; reflexivity).
  eexists. split.
  { unfold Rec.create_builder. unfold Builder_Lifetime. rewrite Hl. reflexivity. }
  unfold Build. simpl.
  rewrite !bool_decide_eq_false_2 by done. simpl. unfold NewBundle.
  change (MustNewBundle _ _ _) with (rec_bundle src dst payload type). by destruct (check_bundle now _) as [[]| |].
Qed.

Lemma calculateCRC_only pb : ∃ c, calculateCRC pb = set_pb_CRC c pb.
Proof.
  unfold calculateCRC, PrimaryBlock_MarshalCbor. destruct (primary_body _) as [body| |]; simpl; [|by eexists..].
  destruct (PrimaryBlock_HasCRC _); simpl; [|by eexists].
  destruct (calculateCRCBuff body (pb_CRCType pb)); simpl; by eexists.
Qed.

Lemma DtnTimeFromTime_now : dtn_ns 1 ≤ now ≤ dtn_ns DtnTime_max →
  DtnTimeFromTime now = now / nanoToMilli - milliseconds1970To2k ∧ 1 ≤ DtnTimeFromTime now ≤ DtnTime_max.
Proof.
  unfold dtn_ns, DtnTime_max, DtnTimeFromTime, nanoToMilli, milliseconds1970To2k. intros Hn.
  rewrite wrap_i64_id by u64_lia. rewrite Z.quot_div_nonneg by lia.
  assert (946684800001 ≤ now / 1000000 ≤ 9223372036854) by (split; [apply Z.div_le_lower_bound; lia|apply Z.div_le_upper_bound; lia]).
  rewrite wrap_u64_id by u64_lia. lia.
Qed.

(** A bundle made now has not expired, if it lives for a millisecond. *)
Lemma fresh_not_exceeded b : dtn_ns 1 ≤ now ≤ dtn_ns DtnTime_max →
  pb_CreationTimestamp (b_PrimaryBlock b) = mkTimestamp (DtnTimeFromTime now) 0 → 1 ≤ pb_Lifetime (b_PrimaryBlock b) ≤ 9223372036854 →
  IsLifetimeExceeded now b = Ok false ∧ IsZeroTime (pb_CreationTimestamp (b_PrimaryBlock b)) = false.
Proof.
  intros Hn Hts Hl. destruct (DtnTimeFromTime_now Hn) as [Ht Hr].
  assert (IsZeroTime (mkTimestamp (DtnTimeFromTime now) 0) = false) as Hz by (apply Z.eqb_neq; simpl; unfold DtnTimeEpoch; lia).
  rewrite Hts. split; [|done]. unfold IsLifetimeExceeded. rewrite Hts, Hz, DtnTime_Time_exact by (unfold DtnTime_max in *; simpl; lia).
  rewrite Duration_ms_exact by lia. f_equal. apply Z.ltb_ge. simpl. rewrite Ht. unfold nanoToMilli, milliseconds1970To2k.
  pose proof (Z.mod_pos_bound now 1000000). pose proof (Z.div_mod now 1000000). lia.
Qed.

Lemma rec_bundle_valid src dst payload type : dtn_ns 1 ≤ now ≤ dtn_ns DtnTime_max →
  EndpointID_wf src → EndpointID_wf dst → src ≠ DtnNone → check_bundle now (rec_bundle src dst payload type) = Ok ().
Proof.
  intros Hn Hs Hd Hne. apply check_bundle_Ok. unfold Bundle_CheckValid.
  destruct (fresh_not_exceeded (rec_bundle src dst payload type) Hn) as [-> Hz]; [done|simpl; lia|]. simpl in Hz.
  simpl. rewrite Hz. simpl. unfold PrimaryBlock_CheckValid. simpl.
  rewrite (EndpointID_wf_valid _ Hs), (EndpointID_wf_valid _ Hd), bool_decide_eq_false_2 by done. reflexivity.
Qed.

(** A create request with parseable endpoints whose data can be marshalled, at a
    time the clock can represent, sends exactly one bundle: its source and destination
    are those of the request, its payload unmarshals to the request's data, its one
    extension block holds the request's type, it lives for an hour, and the id keeper has
    numbered it.  The mailboxes do not change. *)
Theorem rec_create_spec `{!Rec.RecMsgpackLaws _} d src dst payload agent ob :
  dtn_ns 1 ≤ now ≤ dtn_ns DtnTime_max → NewEndpointID (Rec.bdt_Source d) = Ok src →
  NewEndpointID (Rec.bdt_Destination d) = Ok dst → src ≠ DtnNone → Rec.Marshal_BundleData d = Ok payload →
  ∃ b ob', Rec.handleCreate now d (agent, ob) = (Ok (Rec.Reply Rec.MsgTypeReply true None), (agent, ob')) ∧
    ob_sent ob' = ob_sent ob ++ [b] ∧ b = (IdKeeper_Update (ob_idKeeper ob) (Bundle_SetCRCType CRCNo (rec_bundle src dst payload (Rec.bdt_Type d)))).2 ∧
    pb_SourceNode (b_PrimaryBlock b) = src ∧ pb_Destination (b_PrimaryBlock b) = dst ∧ pb_Lifetime (b_PrimaryBlock b) = 3600000 ∧
    cb_Value <$> b_ExtensionBlocks b = [Some (RECBundleTypeBlock (Rec.bdt_Type d))] ∧ Rec.unmarshal_all [b] = Ok [d].
Proof.
  intros Hn Hs Hd Hne Hm. apply NewEndpointID_Ok in Hs as Ws. apply NewEndpointID_Ok in Hd as Wd. destruct Ws as [Ws _], Wd as [Wd _].
  destruct (create_builder_build src dst payload (Rec.bdt_Type d)) as (bl & Hbl & Hb); [by destruct src|by destruct dst|].
  rewrite rec_bundle_valid in Hb by done.
  unfold Rec.handleCreate, or_reply, lift_res. rewrite Hs, Hd, Hm. unfold mbind, M_bind. rewrite Hbl, Hb.
  destruct (calculateCRC_only (set_pb_CRCType CRC32 (rec_primary src dst))) as [c Hc].
  eexists _, _. split; [reflexivity|]. split; [reflexivity|]. split; [reflexivity|]. split_and!; try reflexivity.
  - change (pb_SourceNode (calculateCRC (set_pb_CRCType CRC32 (rec_primary src dst))) = src). by rewrite Hc.
  - change (pb_Destination (calculateCRC (set_pb_CRCType CRC32 (rec_primary src dst))) = dst). by rewrite Hc.
  - change (pb_Lifetime (calculateCRC (set_pb_CRCType CRC32 (rec_primary src dst))) = 3600000). by rewrite Hc.
  - simpl. by rewrite (Rec.BundleData_roundtrip _ _ Hm).
Qed.

(** ** Sockets *)

(** A message in a frame, whatever follows it on the connection, is read back, so
    that either side can read what the other has written. *)
Theorem message_frame_roundtrip msg extra : len msg ≤ maxAlloc → read_message (frame msg ++ extra) = Ok (Some msg).
Proof.
  intros Hl. unfold read_message, frame. pose proof (be_bytes_length 8 (len msg)) as Hb.
  assert (len ((be_bytes 8 (len msg) ++ msg) ++ extra) = 8 + len msg + len extra) as -> by (unfold len; rewrite !length_app, be_bytes_length; lia).
  assert (0 ≤ len msg ∧ 0 ≤ len extra) as [Hm He] by (unfold len; lia).
  destruct (Z.ltb_spec (8 + len msg + len extra) 8); [lia|]. rewrite <- (assoc_L (++)).
  rewrite take_app_le, drop_app_ge by (rewrite Hb; lia). rewrite firstn_all2 by (rewrite Hb; lia).
  rewrite be_value_bytes by (unfold maxAlloc in Hl; simpl in *; lia). rewrite Hb, drop_0.
  destruct (Z.ltb_spec maxAlloc (len msg)); [lia|]. destruct (Z.ltb_spec (8 + len msg + len extra - 8) (len msg)); [lia|].
  do 2 f_equal. unfold len. rewrite Nat2Z.id. apply take_app_length.
Qed.

(** The length of a message is not checked before the buffer is made: a length beyond
    the address space makes the connection's goroutine panic, for both agents. *)
Theorem huge_length_panics s orders input ust rst : 8 ≤ len input → maxAlloc < be_value (take 8 input) →
  (Unix.handleConnection ebm now s orders input ust).1 = Panic ∧ (Rec.handleConnection ebm now s orders input rst).1 = Panic.
Proof.
  intros Hl Hv. assert (read_message input = Panic) as Hr.
  { unfold read_message. destruct (Z.ltb_spec (len input) 8); [lia|]. by destruct (Z.ltb_spec maxAlloc (be_value (take 8 input))); [|lia]. }
  unfold Unix.handleConnection, Rec.handleConnection, mbind, M_bind, lift_res. by rewrite Hr.
Qed.

(** ** UNIX *)

Definition response_error (r : Unix.Response) : option error :=
  match r with
  | Unix.GeneralResponse _ e | Unix.BundleCreateResponse _ e _ | Unix.ListResponse _ e _ | Unix.FetchBundleResponse _ e _
  | Unix.FetchAllBundlesResponse _ e _ => e
  end.

(** A call that changes the state only if its response has no error. *)
Definition error_unchanged (m : M Unix.State Unix.Response) : Prop :=
  ∀ st r st', m st = (Ok r, st') → response_error r ≠ None → st' = st.

Lemma error_unchanged_reply {A} reply (m : M Unix.State A) k :
  (∀ st e st', m st = (Err e, st') → st' = st) → (∀ st a st', m st = (Ok a, st') → ∀ r st'', k a st' = (Ok r, st'') →
    response_error r ≠ None → st'' = st) → error_unchanged (or_reply reply m k).
Proof.
  intros Hm Hk st r st'. unfold or_reply. destruct (m st) as [[a|e|] st1] eqn:E; [by eapply Hk| |done].
  intros [= <- <-] _. by eapply Hm.
Qed.

Lemma error_unchanged_res {A} reply (r : res A) k : (∀ a, error_unchanged (k a)) → error_unchanged (or_reply reply (lift_res r) k).
Proof.
  intros Hk. apply error_unchanged_reply; unfold lift_res; [by intros st e st' [= _ <-]|]. intros st a st' [= _ <-] rr st'' Hr.
  by eapply Hk.
Qed.

(** A mailbox call that keeps the bank keeps the agent. *)
Lemma unix_on_mailboxes_same {A} (m : M MailboxBank A) st : (m (ua_mailboxes st.1)).2 = ua_mailboxes st.1 →
  Unix.on_mailboxes m st = ((m (ua_mailboxes st.1)).1, st).
Proof. destruct st as [[addr bank] ob]. unfold Unix.on_mailboxes. simpl. by destruct (m bank) as [r bank']; simpl; intros ->. Qed.

Lemma with_mailbox_same {A} eid (m : M Mailbox A) bank : (∀ mb, mb_mailboxes bank !! eid = Some mb → (m mb).2 = mb) →
  (with_mailbox eid m bank).2 = bank.
Proof.
  intros Hm. unfold with_mailbox. destruct (mb_mailboxes bank !! eid) as [mb|] eqn:E; [|done].
  specialize (Hm mb eq_refl). destruct (m mb) as [r mb']. simpl in *. subst mb'. rewrite insert_id by done. by destruct bank.
Qed.

Lemma bank_call_error (b : bool) eid bank e bank' : (if b then Bank_Register eid else Bank_Unregister eid) bank = (Err e, bank') → bank' = bank.
Proof. destruct b; unfold Bank_Register, Bank_Unregister; destruct (mb_mailboxes bank !! eid); by intros [= ? <-]. Qed.

(** A request to the UNIX agent to register, unregister, create, list or get that is
    answered with an error has changed neither the mailboxes nor the bundles sent. *)
Theorem unix_error_unchanged s orders register message args lmessage fmessage :
  error_unchanged (Unix.handleRegisterUnregister message register) ∧ error_unchanged (Unix.handleBundleCreate now args) ∧
  error_unchanged (Unix.handleMailboxList orders lmessage) ∧ error_unchanged (Unix.handleGetBundle ebm now s fmessage).
Proof.
  split_and!.
  - apply error_unchanged_res. intros eid. apply error_unchanged_reply.
    + intros [[addr bank] ob] e st'. unfold Unix.on_mailboxes. simpl. destruct (_ bank) as [r bank'] eqn:E. intros [= -> <-].
      by rewrite (bank_call_error _ _ _ _ _ E).
    + by intros st a st' _ r st'' [= <- <-].
  - intros st r st'. unfold Unix.handleBundleCreate. destruct (BuildFromMap now args) as [[[]|e|] b]; [|by intros [= _ <-]|done].
    destruct st as [ua ob]. unfold mbind, M_bind, Outbox_Send, Manager_Send. simpl. by intros [= <- <-].
  - apply error_unchanged_res. intros eid. apply error_unchanged_reply.
    + intros st e st'. rewrite unix_on_mailboxes_same by (by apply with_mailbox_same). by intros [= _ <-].
    + by intros st a st' _ r st'' [= <- <-].
  - apply error_unchanged_res. intros mid. apply error_unchanged_reply.
    { intros st e st'. rewrite unix_on_mailboxes_same by (by apply with_mailbox_same). by intros [= _ <-]. }
    intros st a st'. rewrite unix_on_mailboxes_same by (by apply with_mailbox_same). intros [= _ <-].
    apply error_unchanged_res. intros bid. apply error_unchanged_reply.
    + intros st1 e st2. destruct st1 as [[addr bank] ob]. unfold Unix.on_mailboxes, with_mailbox. simpl.
      destruct (mb_mailboxes bank !! mid) as [mb|] eqn:E; [|by intros [= _ <-]].
      unfold Mailbox_Get. destruct (mb !! bid); [|intros [= _ <-]; rewrite insert_id by done; by destruct bank].
      destruct (_ ≫= _) as [?| |]; [done| |done]. intros [= _ <-]. rewrite insert_id by done. by destruct bank.
    + intros st1 b st2 _ r st3. unfold mbind, M_bind, lift_res. destruct (Unix.bundle_content b); [|done..]. by intros [= <- <-].
Qed.
End Props.

(** ** Concrete agents *)

#[local] Instance some_float : GoFloat := λ _, 0.

(** An encoding of bundle data that can be decoded. *)
#[local] Instance BundleData_eq_dec : EqDecision Rec.BundleData.
Proof. solve_decision. Defined.

Definition data_tuple (d : Rec.BundleData) : Z * string * string * list Z * bool * string * Z * string * string :=
  match d with
  | Rec.mkBundleData a b c p e f g h i => (a, b, c, Z_of_byte <$> p, e, f, g, h, i)
  end.

Definition tuple_data (x : Z * string * string * list Z * bool * string * Z * string * string) : Rec.BundleData :=
  let '(a, b, c, p, e, f, g, h, i) := x in Rec.mkBundleData a b c (byte_of_Z <$> p) e f g h i.

#[local] Instance BundleData_countable : Countable Rec.BundleData.
Proof.
  apply (inj_countable' data_tuple tuple_data). intros [a b c p e f g h i]. simpl. f_equal.
  induction p as [|x p IH]; [done|]. rewrite !fmap_cons, byte_of_Z_of_byte. by f_equal.
Defined.

Definition positive_bytes (p : positive) : bytes := be_bytes (Pos.to_nat p) (Zpos p).

Lemma positive_bytes_value p : be_value (positive_bytes p) = Zpos p.
Proof.
  apply be_value_bytes. split; [lia|]. rewrite positive_nat_Z. apply Z.pow_gt_lin_r; lia.
Qed.

Definition message_type (bs : bytes) : res Z := match bs with b :: _ => Ok (Z_of_byte b) | [] => Err (errorf "EOF") end.
Definition message_text (bs : bytes) : string := bytes_str (drop 1 bs).

Definition unmarshal_data (bs : bytes) : res Rec.BundleData :=
  match decode (Z.to_pos (be_value bs)) with Some d => Ok d | None => Err (errorf "no bundle data") end.

Lemma unmarshal_data_encode d : unmarshal_data (positive_bytes (encode d)) = Ok d.
Proof. unfold unmarshal_data. by rewrite positive_bytes_value, Pos2Z.id, decode_encode. Qed.

#[local] Instance toy_rec : Rec.RecMsgpack := {|
  Rec.Unmarshal_Message := message_type;
  Rec.Unmarshal_Register := λ bs, Ok (message_text bs);
  Rec.Unmarshal_Fetch := λ bs, Ok (Rec.mkFetch (message_text bs) 1);
  Rec.Unmarshal_BundleCreate := λ _, Err (errorf "not supported");
  Rec.Unmarshal_BundleData := unmarshal_data;
  Rec.Marshal_BundleData := λ d, Ok (positive_bytes (encode d));
  Rec.Marshal_Response := λ _, Ok [Byte.x01];
|}.

#[local] Instance toy_rec_laws : Rec.RecMsgpackLaws toy_rec.
Proof. intros d bs Hm. apply Ok_inj in Hm as <-. apply unmarshal_data_encode. Qed.

#[local] Instance toy_unix : Unix.UnixMsgpack := {|
  Unix.Unmarshal_Message := message_type;
  Unix.Unmarshal_RegisterUnregister := λ bs, type ← message_type bs; Ok (Unix.mkRegisterUnregister type (message_text bs));
  Unix.Unmarshal_BundleCreate := λ bs, Ok [("source", GString (message_text bs))];
  Unix.Unmarshal_ListBundles := λ bs, Ok (Unix.mkListBundles (message_text bs) false);
  Unix.Unmarshal_FetchBundle := λ bs, Ok (Unix.mkFetchBundle (message_text bs) "" false);
  Unix.Unmarshal_FetchAllBundles := λ bs, Ok (Unix.mkFetchAll (message_text bs) false true);
  Unix.Marshal_Response := λ r, Ok [byte_of_Z match response_error r with None => 0 | Some _ => 1 end];
|}.

Definition no_orders : EndpointID → list BundleID := λ _, [].
Definition fresh_unix : Unix.State := (NewUNIXAgent "/tmp/dtn", mkOutbox ∅ []).

(** A client registers over the socket and is answered. *)
Example unix_register_connection :
  (Unix.handleConnection GetExtensionBlockManager 0 one_bundle no_orders (frame (Byte.x02 :: str_bytes "dtn://a/b")) fresh_unix).1 =
    Ok (Some (frame [Byte.x00])) ∧
  RegisteredIDs (ua_mailboxes (Unix.handleConnection GetExtensionBlockManager 0 one_bundle no_orders
    (frame (Byte.x02 :: str_bytes "dtn://a/b")) fresh_unix).2.1) = [dtn "a" "b"].
Proof. split; vm_compute; reflexivity. Qed.

(** A create request that names no payload makes the goroutine panic. *)
Theorem unix_create_without_payload_panics :
  (Unix.handleBundleCreate (dtn_ns 1000) [("source", GString "dtn://a/"); ("destination", GString "dtn://b/"); ("lifetime", GString "1h");
    ("creation_timestamp_now", GBool true)] fresh_unix).1 = Panic.
Proof. vm_compute. reflexivity. Qed.

Lemma agents_keep_banks_witness :
  unix_inv (Unix.handleConnection GetExtensionBlockManager 0 one_bundle no_orders (frame (Byte.x02 :: str_bytes "dtn://a/b")) fresh_unix).2.
Proof.
  apply (agents_keep_banks GetExtensionBlockManager 0 one_bundle no_orders (frame (Byte.x02 :: str_bytes "dtn://a/b"))
    (Ok "") (Ok []) (Ok "") (NewRestAgent "") fresh_unix (mkREC "" NewMailboxBank None ∅, mkOutbox ∅ [])).
  split; [apply NoDup_nil_2|]. intros eid. split; [intros Hin; apply not_elem_of_nil in Hin; destruct Hin|].
  intros [mb Hmb]. discriminate Hmb.
Defined.

Lemma message_frame_roundtrip_witness : read_message (frame [Byte.x02] ++ [Byte.x07]) = Ok (Some [Byte.x02]).
Proof. apply (message_frame_roundtrip [Byte.x02] [Byte.x07]). unfold maxAlloc, len. simpl. lia. Defined.

Definition sample_orders : EndpointID → list BundleID := λ eid, if bool_decide (eid = dtn "dst" "in") then [sample_id] else [].

Definition one_client : RestAgent :=
  mkRest ":8080" (<["u1" := dtn "dst" "in"]> ∅) (mkBank [dtn "dst" "in"] (<[dtn "dst" "in" := inbox]> ∅)).

Lemma rest_fetch_spec_witness :
  ∃ b ra', Rest.handleFetch GetExtensionBlockManager 0 one_bundle sample_orders (Ok "u1") one_client =
    (Ok (Rest.mkFetchResponse None [b]), ra') ∧ mb_mailboxes (ra_mailboxes ra') !! dtn "dst" "in" = Some ∅.
Proof.
  destruct (fetch GetExtensionBlockManager 0 one_bundle sample_id) as [b| |] eqn:E; [|vm_compute in E; discriminate E..].
  eexists b, _. split.
  - apply (rest_fetch_spec GetExtensionBlockManager 0 one_bundle sample_orders "u1" one_client (dtn "dst" "in") inbox [b]).
    + apply lookup_insert_eq.
    + apply lookup_insert_eq.
    + unfold range_order. vm_compute. reflexivity.
    + change (sample_orders (dtn "dst" "in")) with [sample_id]. constructor; [exact E|constructor].
  - apply (lookup_insert_eq (mb_mailboxes (ra_mailboxes one_client)) (dtn "dst" "in")).
Defined.

Definition rec_broker : EndpointID := dtn "rec.broker" "~".
Definition rec_all : EndpointID := dtn "rec.all" "~".
Definition rec_agent : RECAgent :=
  mkREC "/tmp/rec" (mkBank [dtn "dst" "in"; rec_broker; rec_all] (<[dtn "dst" "in" := inbox]> (<[rec_broker := ∅]> (<[rec_all := ∅]> ∅))))
    rec_all (<[NTypeBroker := rec_broker]> ∅).

Lemma sample_has_messages b : fetch GetExtensionBlockManager 0 one_bundle sample_id = Ok b →
  has_messages GetExtensionBlockManager 0 one_bundle sample_orders (rec_mailboxes rec_agent) (dtn "dst" "in") [b].
Proof.
  intros E. exists inbox. split; [apply lookup_insert_eq|]. split; [unfold range_order; vm_compute; reflexivity|].
  change (sample_orders (dtn "dst" "in")) with [sample_id]. constructor; [exact E|constructor].
Qed.

Lemma sample_no_messages eid : sample_orders eid = [] → mb_mailboxes (rec_mailboxes rec_agent) !! eid = Some ∅ →
  has_messages GetExtensionBlockManager 0 one_bundle sample_orders (rec_mailboxes rec_agent) eid [].
Proof.
  intros Ho Hm. exists ∅. rewrite Ho. split; [done|]. split; [unfold range_order; by rewrite map_to_list_empty|constructor].
Qed.

Definition sample_data : Rec.BundleData := Rec.mkBundleData 3 "dtn://src/" "dtn://dst/in" [Byte.x61] true "" 4 "" "".

Lemma rec_create_spec_witness :
  ∃ b ob', Rec.handleCreate (dtn_ns 1000) sample_data (rec_agent, mkOutbox ∅ []) = (Ok (Rec.Reply Rec.MsgTypeReply true None), (rec_agent, ob')) ∧
    ob_sent ob' = [b] ∧ Rec.unmarshal_all [b] = Ok [sample_data].
Proof.
  destruct (rec_create_spec (dtn_ns 1000) sample_data (dtn "src" "") (dtn "dst" "in") (positive_bytes (encode sample_data)) rec_agent (mkOutbox ∅ []))
    as (b & ob' & Hh & Hs & _ & _ & _ & _ & _ & Hu).
  - unfold dtn_ns, DtnTime_max, milliseconds1970To2k, nanoToMilli. lia.
  - vm_compute. reflexivity.
  - vm_compute. reflexivity.
  - discriminate.
  - reflexivity.
  - exists b, ob'. split; [exact Hh|]. split; [exact Hs|exact Hu].
Defined.

(** A codec that knows one message, for the payload of the sample bundle. *)
#[local] Instance hello_rec : Rec.RecMsgpack := {|
  Rec.Unmarshal_Message := message_type;
  Rec.Unmarshal_Register := λ bs, Ok (message_text bs);
  Rec.Unmarshal_Fetch := λ bs, Ok (Rec.mkFetch (message_text bs) 1);
  Rec.Unmarshal_BundleCreate := λ _, Err (errorf "not supported");
  Rec.Unmarshal_BundleData := λ bs, if bool_decide (bs = str_bytes "hello world") then Ok sample_data else Err (errorf "no bundle data");
  Rec.Marshal_BundleData := λ d, if bool_decide (d = sample_data) then Ok (str_bytes "hello world") else Err (errorf "not supported");
  Rec.Marshal_Response := λ _, Ok [Byte.x01];
|}.

#[local] Instance hello_rec_laws : Rec.RecMsgpackLaws hello_rec.
Proof. intros d bs. simpl. case_bool_decide as Hd; [|done]. intros [= <-]. by rewrite bool_decide_eq_true_2, Hd. Qed.

Lemma rec_fetch_spec_witness :
  ∃ st, Rec.handleFetch GetExtensionBlockManager 0 one_bundle sample_orders (Rec.mkFetch "dtn://dst/in" NTypeBroker) (rec_agent, mkOutbox ∅ []) =
    (Ok (Rec.FetchReply Rec.MsgTypeFetchReply true None [sample_data]), st).
Proof.
  destruct (fetch GetExtensionBlockManager 0 one_bundle sample_id) as [b| |] eqn:E; [|vm_compute in E; discriminate E..].
  assert (payload_data (b_PayloadBlock b) = Ok (str_bytes "hello world")) as Hp
    by (vm_compute in E; injection E as <-; vm_compute; reflexivity).
  eexists. apply (rec_fetch_spec GetExtensionBlockManager 0 one_bundle sample_orders (Rec.mkFetch "dtn://dst/in" NTypeBroker) rec_agent (mkOutbox ∅ [])
    (dtn "dst" "in") rec_broker [b] [] [] [Some sample_data]).
  - vm_compute. reflexivity.
  - vm_compute. reflexivity.
  - apply (bool_decide_unpack _). vm_compute. exact I.
  - apply sample_has_messages, E.
  - apply sample_no_messages; vm_compute; reflexivity.
  - apply sample_no_messages; vm_compute; reflexivity.
  - constructor; [|constructor]. exists (str_bytes "hello world"). split; [exact Hp|]. vm_compute. reflexivity.
Defined.
