(* ===== verification/ClientProps.v ===== *)
(** * The command line client and the UNIX agent together

    A command of [cmd/dtnclient] that talks to the agent of [unix_agent.go] over a
    working connection does what calling the agent's handler does. *)

From stdpp Require Import base tactics list strings gmap.
From Stdlib Require Import ZArith Lia Bool Ascii.
From S2P Require Import Prelude Cboring GoStrings GoTime Flags Crc DtnTime Endpoint BundleId ExtensionBlocks Blocks.
From S2P Require Import Bundle Samples BundleValid Fragmentation Builder BuilderProps IdKeeper Descriptor Store StoreInv StoreExamples.
From S2P Require Import Mailbox MailboxProps AgentManager Agents Wire Client AgentsProps.
Local Open Scope Z_scope.

(** ** Both sides of MessagePack *)

(** The values of create arguments that MessagePack gives back with their types. *)
Definition plain_value (v : GoValue) : Prop :=
  match v with GString _ | GBytes _ | GBool _ => True | _ => False end.

(** What was marshalled on one side is unmarshalled on the other, up to the order of a
    map; a message of any type can be unmarshalled for its type alone. *)
Class UnixWire `{U : Unix.UnixMsgpack} `{C : ClientMsgpack} : Prop := {
  register_wire m bs : is_u8 (Unix.ru_Type m) → Marshal_RegisterUnregister m = Ok bs → len bs < wire_max →
    Unix.Unmarshal_Message bs = Ok (Unix.ru_Type m) ∧ Unix.Unmarshal_RegisterUnregister bs = Ok m;
  create_wire t args bs : is_u8 t → Forall (λ x, plain_value x.2) args → NoDup args.*1 →
    Marshal_BundleCreate t args = Ok bs → len bs < wire_max →
    Unix.Unmarshal_Message bs = Ok t ∧ ∃ args', Unix.Unmarshal_BundleCreate bs = Ok args' ∧ args' ≡ₚ args;
  list_wire t m bs : is_u8 t → Marshal_ListBundles t m = Ok bs → len bs < wire_max →
    Unix.Unmarshal_Message bs = Ok t ∧ Unix.Unmarshal_ListBundles bs = Ok m;
  fetch_wire t m bs : is_u8 t → Marshal_FetchBundle t m = Ok bs → len bs < wire_max →
    Unix.Unmarshal_Message bs = Ok t ∧ Unix.Unmarshal_FetchBundle bs = Ok m;
  fetch_all_wire t m bs : is_u8 t → Marshal_FetchAllBundles t m = Ok bs → len bs < wire_max →
    Unix.Unmarshal_Message bs = Ok t ∧ Unix.Unmarshal_FetchAllBundles bs = Ok m;
  response_wire r bs : Unix.Marshal_Response r = Ok bs → len bs < wire_max →
    match r with
    | Unix.GeneralResponse _ e => Unmarshal_GeneralResponse bs = Ok e
    | Unix.BundleCreateResponse _ e id => Unmarshal_BundleCreateResponse bs = Ok (e, id)
    | Unix.ListResponse _ e l => Unmarshal_ListResponse bs = Ok (e, l)
    | Unix.FetchBundleResponse _ e c => Unmarshal_FetchBundleResponse bs = Ok (e, c)
    | Unix.FetchAllBundlesResponse _ e l => Unmarshal_FetchAllBundlesResponse bs = Ok (e, l)
    end;
}.

(** ** Commands as requests *)

Definition set_sent (bs : bytes) (cs : ClientState) : ClientState := mkClient bs (cs_stdout cs) (cs_files cs).

Section Client.
Context `{Cboring} `{Crc16} `{GoMapRange} `{Ed25519} `{Badgerhold} `{Sha256} `{GoFloat} `{Unix.UnixMsgpack} `{ClientMsgpack}.
Context (ebm : ExtensionBlockManager) (now : Z) (s : BundleStore) (orders : EndpointID → list BundleID).

(** What a command sends. *)
Definition request (env : ClientEnv) (cmd : Command) : res bytes :=
  match cmd with
  | Register eid => Marshal_RegisterUnregister (Unix.mkRegisterUnregister Unix.MsgTypeRegisterEID eid)
  | Unregister eid => Marshal_RegisterUnregister (Unix.mkRegisterUnregister Unix.MsgTypeUnregisterEID eid)
  | Create src dst rpt ts lt payload =>
      data ← read_payload env payload;
      Marshal_BundleCreate Unix.MsgTypeBundleCreate (create_args src dst rpt ts lt ++ [("payload_block", GBytes data)])
  | List mb new => Marshal_ListBundles Unix.MsgTypeListBundles (Unix.mkListBundles mb new)
  | Get mb remove (GetBundle bid _) => Marshal_FetchBundle Unix.MsgTypeFetchBundle (Unix.mkFetchBundle mb bid remove)
  | Get mb remove (GetAllBundles new) => Marshal_FetchAllBundles Unix.MsgTypeFetchAllBundles (Unix.mkFetchAll mb new remove)
  | Get _ _ GetNone => Err (errorf "no request")
  end.

(** The agent's handler for a command. *)
Definition serves (env : ClientEnv) (cmd : Command) (handler : M Unix.State Unix.Response) : Prop :=
  match cmd with
  | Register eid => handler = Unix.handleRegisterUnregister (Unix.mkRegisterUnregister Unix.MsgTypeRegisterEID eid) true
  | Unregister eid => handler = Unix.handleRegisterUnregister (Unix.mkRegisterUnregister Unix.MsgTypeUnregisterEID eid) false
  | Create src dst rpt ts lt payload => ∃ data args, read_payload env payload = Ok data ∧
      args ≡ₚ create_args src dst rpt ts lt ++ [("payload_block", GBytes data)] ∧ handler = Unix.handleBundleCreate now args
  | List mb new => handler = Unix.handleMailboxList orders (Unix.mkListBundles mb new)
  | Get mb remove (GetBundle bid _) => handler = Unix.handleGetBundle ebm now s (Unix.mkFetchBundle mb bid remove)
  | Get mb remove (GetAllBundles new) => handler = Unix.handleGetAllBundles ebm now s orders (Unix.mkFetchAll mb new remove)
  | Get _ _ GetNone => False
  end.

(** What the client does with a response. *)
Definition present (env : ClientEnv) (cmd : Command) (r : Unix.Response) : M ClientState () :=
  match r with
  | Unix.GeneralResponse _ e => reply_error e;; println "Success"
  | Unix.BundleCreateResponse _ e id => reply_error e;; println id
  | Unix.ListResponse _ e l => reply_error e;; println (fmt_slice l)
  | Unix.FetchBundleResponse _ e c =>
      reply_error e;;
      match cmd with
      | Get _ _ (GetBundle _ output) =>
          if bool_decide (output = "stdout") then print (bytes_str (Unix.bc_Payload c)) else write_file env output (Unix.bc_Payload c)
      | _ => mret ()
      end
  | Unix.FetchAllBundlesResponse _ e l => reply_error e;; write_bundles env l
  end.

(** The agent in state [st] is at the other end of a connection that works. *)
Record connected (env : ClientEnv) (st : Unix.State) : Prop := {
  con_length : env_write_length env = Ok ();
  con_message : env_write_message env = Ok ();
  con_flush : env_flush env = Ok ();
  con_peer sent : env_peer env sent =
    match (Unix.handleConnection ebm now s orders sent st).1 with Ok (Some reply) => reply | _ => [] end;
}.

Lemma frame_read bs : len bs < wire_max →
  (8 ≤ len (frame bs)) ∧ be_value (take 8 (frame bs)) = len bs ∧ drop 8 (frame bs) = bs.
Proof.
  intros Hl. unfold frame. pose proof (be_bytes_length 8 (len bs)) as Hb. pose proof (len_nonneg bs).
  rewrite len_app, take_app_le, drop_app_ge by (rewrite Hb; lia). rewrite firstn_all2, Hb, drop_0 by (rewrite Hb; lia).
  rewrite be_value_bytes by (unfold wire_max in *; simpl; lia). split; [|done]. unfold len at 1. rewrite Hb. lia.
Qed.

(** A request that the agent dispatches is answered with the response. *)
Lemma exchange_agent env st bs r st' rbs cs : connected env st → len bs < wire_max →
  Unix.dispatch ebm now s orders bs st = (Ok (Some r), st') → Unix.Marshal_Response r = Ok rbs → len rbs < wire_max →
  Unix.handleConnection ebm now s orders (frame bs) st = (Ok (Some (frame rbs)), st') ∧
  exchange env bs cs = (Ok rbs, set_sent (frame bs) cs).
Proof.
  intros [Hl Hm Hf Hp] Hbs Hd Hr Hrbs.
  assert (Unix.handleConnection ebm now s orders (frame bs) st = (Ok (Some (frame rbs)), st')) as Hc.
  { unfold Unix.handleConnection. rewrite <- (app_nil_r (frame bs)).
    mstep by (unfold lift_res; rewrite message_frame_roundtrip by (unfold wire_max, maxAlloc in *; lia); reflexivity).
    mstep by exact Hd. unfold or_close, lift_res. by rewrite Hr. }
  split; [done|]. destruct (frame_read rbs Hrbs) as (H8 & Hv & Hdr). pose proof (len_nonneg rbs).
  unfold exchange. mstep by (unfold lift_res; by rewrite Hl). mstep by (unfold lift_res; by rewrite Hm).
  mstep by (unfold lift_res; by rewrite Hf). mstep by reflexivity. rewrite Hp, Hc. cbn [fst]. cbv iota zeta.
  destruct (Z.ltb_spec (len (frame rbs)) 8); [lia|]. rewrite Hv.
  destruct (Z.ltb_spec maxAlloc (len rbs)); [unfold wire_max, maxAlloc in *; lia|].
  rewrite Hdr. unfold len. rewrite Nat2Z.id, resize_all. done.
Qed.
Context `{!UnixWire}.

Lemma create_args_ok src dst rpt ts lt data :
  let args := create_args src dst rpt ts lt ++ [("payload_block", GBytes data)] in
  Forall (λ x, plain_value x.2) args ∧ NoDup args.*1.
Proof.
  unfold create_args. destruct (bool_decide (rpt = "")), (bool_decide (ts = "now")), (bool_decide (ts = "epoch"));
    (split; [by repeat constructor|]); apply (bool_decide_unpack _); reflexivity.
Qed.

(** The agent recognises every request. *)
Lemma request_dispatch env cmd bs : request env cmd = Ok bs → len bs < wire_max →
  ∃ handler, serves env cmd handler ∧ ∀ st, Unix.dispatch ebm now s orders bs st = reply_with handler st.
Proof.
  intros Hr Hl. destruct cmd as [eid|eid|src dst rpt ts lt payload|mb new|mb remove [bid out|new|]]; simpl in Hr.
  - apply register_wire in Hr as [Ht Hm]; [|by vm_compute|done]. eexists. split; [reflexivity|].
    intros st. unfold Unix.dispatch, or_close, lift_res. by rewrite Ht, Hm.
  - apply register_wire in Hr as [Ht Hm]; [|by vm_compute|done]. eexists. split; [reflexivity|].
    intros st. unfold Unix.dispatch, or_close, lift_res. by rewrite Ht, Hm.
  - destruct (read_payload env payload) as [data| |] eqn:Ep; [|done..]. simpl in Hr.
    destruct (create_args_ok src dst rpt ts lt data) as [Hpl Hnd].
    apply create_wire in Hr as (Ht & args & Hm & Hp); [|by vm_compute|done..].
    eexists. split; [by exists data, args|]. intros st. unfold Unix.dispatch, or_close, lift_res. by rewrite Ht, Hm.
  - apply list_wire in Hr as [Ht Hm]; [|by vm_compute|done]. eexists. split; [reflexivity|].
    intros st. unfold Unix.dispatch, or_close, lift_res. by rewrite Ht, Hm.
  - apply fetch_wire in Hr as [Ht Hm]; [|by vm_compute|done]. eexists. split; [reflexivity|].
    intros st. unfold Unix.dispatch, or_close, lift_res. by rewrite Ht, Hm.
  - apply fetch_all_wire in Hr as [Ht Hm]; [|by vm_compute|done]. eexists. split; [reflexivity|].
    intros st. unfold Unix.dispatch, or_close, lift_res. by rewrite Ht, Hm.
  - done.
Qed.

(** Each handler answers with its own response type. *)
Definition answers (cmd : Command) (r : Unix.Response) : Prop :=
  match cmd, r with
  | (Register _ | Unregister _), Unix.GeneralResponse _ _ => True
  | Create _ _ _ _ _ _, Unix.BundleCreateResponse _ _ _ => True
  | List _ _, Unix.ListResponse _ _ _ => True
  | Get _ _ (GetBundle _ _), Unix.FetchBundleResponse _ _ _ => True
  | Get _ _ (GetAllBundles _), Unix.FetchAllBundlesResponse _ _ _ => True
  | _, _ => False
  end.

(** Results of calls whose errors end up in the response. *)
Definition ends {σ B} (P : B → Prop) (m : M σ B) : Prop := ∀ st r st', m st = (Ok r, st') → P r.

Lemma ends_reply {σ A B} (P : B → Prop) reply (m : M σ A) k : (∀ e, P (reply e)) → (∀ a, ends P (k a)) → ends P (or_reply reply m k).
Proof.
  intros He Hk st r st'. unfold or_reply. destruct (m st) as [[a|e|] st1]; [apply Hk| |done]. intros [= <- _]. apply He.
Qed.
Lemma ends_ret {σ B} (P : B → Prop) b : P b → ends P (mret b : M σ B).
Proof. by intros Hb st r st' [= <- _]. Qed.
Lemma ends_bind {σ A B} (P : B → Prop) (m : M σ A) k : (∀ a, ends P (k a)) → ends P (x ← m; k x).
Proof. intros Hk st r st'. unfold mbind, M_bind. destruct (m st) as [[a|e|] st1]; [apply Hk|done..]. Qed.

Lemma serves_answers env cmd handler : serves env cmd handler → ends (answers cmd) handler.
Proof.
  destruct cmd as [eid|eid|src dst rpt ts lt payload|mb new|mb remove [bid out|new|]]; simpl; try done;
    try (intros ->; repeat (apply ends_reply; [done|]; intros ?); try (apply ends_bind; intros ?); by apply ends_ret).
  intros (data & args & _ & _ & ->) st r st'. unfold Unix.handleBundleCreate.
  destruct (BuildFromMap now args) as [[[]|e|] b]; [|by intros [= <- _]|done].
  eapply (ends_bind _ (Outbox_Send b)). intros bid. by apply ends_ret.
Qed.
(** The client decodes and presents the response it was sent. *)
Lemma run_command_present env cmd bs r rbs cs cs' : request env cmd = Ok bs → exchange env bs cs = (Ok rbs, cs') →
  Unix.Marshal_Response r = Ok rbs → len rbs < wire_max → answers cmd r → run_command env cmd cs = present env cmd r cs'.
Proof.
  intros Hr Hx Hm Hl Ha. pose proof (response_wire r rbs Hm Hl) as Hu.
  destruct cmd as [eid|eid|src dst rpt ts lt payload|mb new|mb remove [bid out|new|]], r; try done; unfold request in Hr; unfold run_command;
    unfold handleRegisterUnregister, handleCreate, handleList, handleGetBundle, handleGetAllBundles;
    try (destruct (read_payload env payload) as [data| |] eqn:Ep; [|done..]; cbn [mbind res_bind] in Hr; (mstep by reflexivity));
    (mstep by (unfold lift_res; by rewrite Hr)); (mstep by exact Hx); (mstep by (unfold lift_res; by rewrite Hu)); done.
Qed.

(** A command whose request and response can be marshalled, sent to an agent over a
    connection that works, has the effect of a direct call of the agent's handler: the
    agent ends in the handler's state, and the client presents the handler's response. *)
Lemma rpc env cmd bs st cs : connected env st → request env cmd = Ok bs → len bs < wire_max →
  ∃ handler, serves env cmd handler ∧
    ∀ r st' rbs, handler st = (Ok r, st') → Unix.Marshal_Response r = Ok rbs → len rbs < wire_max →
      Unix.handleConnection ebm now s orders (frame bs) st = (Ok (Some (frame rbs)), st') ∧
      run_command env cmd cs = present env cmd r (set_sent (frame bs) cs).
Proof.
  intros Hc Hr Hl. destruct (request_dispatch env cmd bs Hr Hl) as (handler & Hs & Hd). exists handler. split; [done|].
  intros r st' rbs Hh Hm Hrl.
  assert (Unix.dispatch ebm now s orders bs st = (Ok (Some r), st')) as Hd' by (rewrite Hd; unfold reply_with; by mstep by exact Hh).
  destruct (exchange_agent env st bs r st' rbs cs Hc Hl Hd' Hm Hrl) as [Ha Hx]. split; [done|].
  eapply run_command_present; [done..|]. by eapply serves_answers.
Qed.

Lemma keeps_modify {σ} (P : σ → Prop) (f : σ → σ) : (∀ x, P x → P (f x)) → keeps P (modify f).
Proof. by intros Hf x Hx; apply Hf. Qed.

Lemma keeps_write_file bs env name data : keeps (λ c, cs_sent c = bs) (write_file env name data).
Proof. unfold write_file. repeat (apply keeps_bind; [first [apply keeps_res|by apply keeps_modify]|intros []]). by apply keeps_modify. Qed.

Lemma keeps_write_bundles bs env l : keeps (λ c, cs_sent c = bs) (write_bundles env l).
Proof. induction l as [|b l IH]; simpl; [apply keeps_ret|]. apply keeps_bind; [apply keeps_write_file|done]. Qed.

Lemma present_sent bs env cmd r : keeps (λ c, cs_sent c = bs) (present env cmd r).
Proof.
  destruct r; simpl; (apply keeps_bind; [destruct Error; [apply keeps_fail|apply keeps_ret]|intros []]); try (by apply keeps_modify); [|apply keeps_write_bundles].
  repeat case_match; try apply keeps_ret; [by apply keeps_modify|apply keeps_write_file].
Qed.

(** C18: a command whose messages can be marshalled, sent to a UNIX agent over a working
    connection, is a direct call of the agent's handler: the client has sent one framed
    request, the agent answers it with the framed response of the handler and ends in the
    handler's state, and the client presents this response - it prints the result or
    writes the payload files and ends with status 0, or prints the response's error and
    ends with status 1. *)
Theorem client_rpc env cmd bs st cs usage : connected env st → request env cmd = Ok bs → len bs < wire_max →
  ∃ handler, serves env cmd handler ∧
    ∀ r st' rbs, handler st = (Ok r, st') → Unix.Marshal_Response r = Ok rbs → len rbs < wire_max →
      Unix.handleConnection ebm now s orders (frame bs) st = (Ok (Some (frame rbs)), st') ∧
      let '(o, cs') := present env cmd r (set_sent (frame bs) cs) in
      main env (Ok cmd) usage (Ok ()) (Ok ()) cs = (exit_of o, cs') ∧
      cs_sent cs' = frame bs ∧
      (∀ e, response_error r = Some e → exit_of o = (1, Some e) ∧ cs' = set_sent (frame bs) cs).
Proof.
  intros Hc Hr Hl. destruct (rpc env cmd bs st cs Hc Hr Hl) as (handler & Hs & Hrpc). exists handler. split; [done|].
  intros r st' rbs Hh Hm Hrl. destruct (Hrpc r st' rbs Hh Hm Hrl) as [Ha Hrun]. split; [done|].
  destruct (present env cmd r (set_sent (frame bs) cs)) as [o cs'] eqn:Ep. split; [|split].
  - unfold main. do 2 (erewrite bind_ok by reflexivity). by rewrite Hrun.
  - change cs' with (o, cs').2. rewrite <- Ep. by apply present_sent.
  - intros e He. unfold present in Ep. destruct r; simpl in He; subst; unfold reply_error in Ep;
      (erewrite bind_err in Ep by reflexivity); by injection Ep as <- <-.
Qed.
(** ** Creating a bundle *)

(** Builders with the same content and no extension blocks build the same bundle. *)
Lemma Build_same bl bl' : same_content bl bl' → bl_canonicals bl = [] → Build now bl = Build now bl'.
Proof.
  intros [He Hp Hc Hl Hr] Hn. rewrite Hn in Hc. symmetry in Hc. apply Permutation_nil_r, fmap_nil_inv in Hc.
  destruct bl as [e p c n l r], bl' as [e' p' c' n' l' r']; simpl in *; by subst.
Qed.

Lemma create_args_kinds src dst rpt ts lt data :
  NoDup ((λ x, method_kind x.1) <$> create_args src dst rpt ts lt ++ [("payload_block", GBytes data)]).
Proof.
  unfold create_args. destruct (bool_decide (rpt = "")), (bool_decide (ts = "now")), (bool_decide (ts = "epoch"));
    apply (bool_decide_unpack _); reflexivity.
Qed.

Lemma BuildFromMap_perm args args' bl : NoDup ((λ x, method_kind x.1) <$> args') → args ≡ₚ args' →
  call_methods now args' Builder = Ok bl → bl_canonicals bl = [] → BuildFromMap now args = Build now bl.
Proof.
  intros Hnd Hp Hc Hn. destruct (call_methods_perm now args' args bl Hnd ltac:(done) Hc) as (bl' & Hc' & Hsame).
  unfold BuildFromMap. rewrite Hc'. symmetry. by apply Build_same.
Qed.

(** The endpoint for status reports, which is the source unless it is given. *)
Definition report_endpoint (src : EndpointID) (rpt : string) : res EndpointID :=
  if bool_decide (rpt = "") then Ok src else NewEndpointID rpt.

(** The bundle a create command makes, before the CRC is set and the id keeper has
    numbered it. *)
Definition client_bundle (t ms : Z) (src dst rpt : EndpointID) (data : bytes) : Bundle :=
  mkBundle (mkPrimary dtnVersion 0 CRCNo dst src rpt (mkTimestamp t 0) ms 0 0 []) []
    (mkCanonical 1 0 CRCNo [] (Some (PayloadBlock data))).

Lemma endpoint_updates uri e : NewEndpointID uri = Ok e →
  method_update now "source" (GString uri) = Some (USource e) ∧
  method_update now "destination" (GString uri) = Some (UDestination e) ∧
  method_update now "report_to" (GString uri) = Some (UReportTo e).
Proof. intros He. unfold method_update. simpl. by rewrite He. Qed.

Lemma lifetime_update lt dur : ParseDuration lt = Ok dur → 0 < dur →
  method_update now "lifetime" (GString lt) = Some (ULifetime (dur / 1000000)).
Proof. intros Hl Hdur. unfold method_update. simpl. rewrite Hl. simpl. by destruct (Z.leb_spec dur 0); [lia|]. Qed.

(** The updates of the arguments. *)
Lemma create_updates sourceID destinationID reportTo ts lt src dst data dur t :
  NewEndpointID sourceID = Ok src → NewEndpointID destinationID = Ok dst → (reportTo ≠ "" → ∃ r, NewEndpointID reportTo = Ok r) →
  ParseDuration lt = Ok dur → 0 < dur → ts = "now" ∧ t = DtnTimeFromTime now ∨ ts = "epoch" ∧ t = DtnTimeEpoch →
  mapM (λ x, method_update now x.1 x.2) (create_args sourceID destinationID reportTo ts lt ++ [("payload_block", GBytes data)]) =
  Some ([USource src; UDestination dst] ++
        (match NewEndpointID reportTo with Ok r => if bool_decide (reportTo = "") then [] else [UReportTo r] | _ => [] end) ++
        [UTimestamp t; ULifetime (dur / 1000000); UPayload data]).
Proof.
  intros Hs Hd Hr Hl Hdur Ht.
  assert (∀ x u xs us, method_update now x.1 x.2 = Some u → mapM (λ x, method_update now x.1 x.2) xs = Some us →
    mapM (λ x, method_update now x.1 x.2) (x :: xs) = Some (u :: us)) as Hcons.
  { intros x u xs us Hu Hus. simpl. by rewrite Hu, Hus. }
  pose proof (lifetime_update _ _ Hl Hdur) as Hlt.
  unfold create_args. rewrite <- !app_assoc.
  apply Hcons; [by apply endpoint_updates|]. apply Hcons; [by apply endpoint_updates|].
  assert (mapM (λ x, method_update now x.1 x.2) ((if bool_decide (ts = "now") then [("creation_timestamp_now", GBool true)] else
   if bool_decide (ts = "epoch") then [("creation_timestamp_epoch", GBool true)] else
   [("creation_timestamp_time", GString ts)]) ++ [("lifetime", GString lt)] ++ [("payload_block", GBytes data)]) =
    Some [UTimestamp t; ULifetime (dur / 1000000); UPayload data]) as Htail.
  { destruct Ht as [[-> ->]|[-> ->]]; (apply Hcons; [done|]; apply Hcons; [done|]; done). }
  destruct (decide (reportTo = "")) as [->|Hrpt]; [exact Htail|]. destruct (Hr Hrpt) as [r Er].
  rewrite Er, (bool_decide_eq_false_2 (reportTo = "")) by done.
  apply Hcons; [by apply endpoint_updates|done].
Qed.

(** The builder the arguments lead to makes [client_bundle], if that is valid. *)
Lemma create_build sourceID destinationID reportTo ts lt src dst rpt data dur t args :
  NewEndpointID sourceID = Ok src → NewEndpointID destinationID = Ok dst → report_endpoint src reportTo = Ok rpt →
  ParseDuration lt = Ok dur → 0 < dur → ts = "now" ∧ t = DtnTimeFromTime now ∨ ts = "epoch" ∧ t = DtnTimeEpoch →
  args ≡ₚ create_args sourceID destinationID reportTo ts lt ++ [("payload_block", GBytes data)] →
  BuildFromMap now args =
    match check_bundle now (client_bundle t (dur / 1000000) src dst rpt data) with
    | Ok _ => (Ok (), Bundle_SetCRCType CRCNo (client_bundle t (dur / 1000000) src dst rpt data))
    | x => (x, client_bundle t (dur / 1000000) src dst rpt data)
    end.
Proof.
  intros Hs Hd Hr Hl Hdur Ht Hp.
  assert (reportTo ≠ "" → ∃ r, NewEndpointID reportTo = Ok r) as Hr'.
  { intros Hne. unfold report_endpoint in Hr. rewrite bool_decide_eq_false_2 in Hr by done. eauto. }
  pose proof (create_updates _ _ _ _ _ _ _ data _ _ Hs Hd Hr' Hl Hdur Ht) as Hu.
  erewrite BuildFromMap_perm; [|apply create_args_kinds|exact Hp|apply call_methods_updates; eauto|].
  - apply NewEndpointID_Ok in Hs as [Ws _], Hd as [Wd _]. unfold report_endpoint in Hr.
    destruct (decide (reportTo = "")) as [->|Hne].
    + injection Hr as <-. unfold Build. simpl. destruct src, dst; [|done..]. simpl. unfold NewBundle.
      change (MustNewBundle _ _ _) with (client_bundle t (dur / 1000000) (Some e) (Some e0) (Some e) data).
      by destruct (check_bundle now _) as [[]| |].
    + rewrite bool_decide_eq_false_2 in Hr by done. rewrite Hr, (bool_decide_eq_false_2 (reportTo = "")) by done.
      apply NewEndpointID_Ok in Hr as [Wr _]. unfold Build. simpl. destruct src, dst, rpt; [|done..]. simpl. unfold NewBundle.
      change (MustNewBundle _ _ _) with (client_bundle t (dur / 1000000) (Some e) (Some e0) (Some e1) data).
      by destruct (check_bundle now _) as [[]| |].
  - destruct (NewEndpointID reportTo); [|done..]. by case_bool_decide.
Qed.

Lemma client_bundle_valid ms src dst rpt data : dtn_ns 1 ≤ now ≤ dtn_ns DtnTime_max → 1 ≤ ms ≤ 9223372036854 →
  EndpointID_wf src → EndpointID_wf dst → EndpointID_wf rpt → src ≠ DtnNone →
  check_bundle now (client_bundle (DtnTimeFromTime now) ms src dst rpt data) = Ok ().
Proof.
  intros Hn Hms Hs Hd Hr Hne. apply check_bundle_Ok. unfold Bundle_CheckValid.
  destruct (fresh_not_exceeded now (client_bundle (DtnTimeFromTime now) ms src dst rpt data) Hn) as [-> Hz]; [done|simpl; lia|]. simpl in Hz.
  simpl. rewrite Hz. simpl. unfold PrimaryBlock_CheckValid. simpl.
  rewrite (EndpointID_wf_valid _ Hs), (EndpointID_wf_valid _ Hd), (EndpointID_wf_valid _ Hr), bool_decide_eq_false_2 by done. reflexivity.
Qed.

(** The bundle the agent sends for a create command. *)
Definition created (st : Unix.State) (ms : Z) (src dst rpt : EndpointID) (data : bytes) : Bundle :=
  (IdKeeper_Update (ob_idKeeper st.2) (Bundle_SetCRCType CRCNo (client_bundle (DtnTimeFromTime now) ms src dst rpt data))).2.

(** C19: [dtnclient create] with endpoints and a life time that parse, the default time
    stamp and a payload that can be read makes the daemon send exactly one bundle, with
    this source, destination, report-to endpoint, life time and payload and without
    extension blocks; the client prints the id of this bundle and ends with status 0. *)
Theorem client_create env st cs usage sourceID destinationID reportTo lt payload src dst rpt data dur bs rbs :
  let cmd := Create sourceID destinationID reportTo "now" lt payload in
  let b := created st (dur / 1000000) src dst rpt data in
  connected env st → dtn_ns 1 ≤ now ≤ dtn_ns DtnTime_max →
  NewEndpointID sourceID = Ok src → src ≠ DtnNone → NewEndpointID destinationID = Ok dst → report_endpoint src reportTo = Ok rpt →
  ParseDuration lt = Ok dur → 1000000 ≤ dur < two63 → read_payload env payload = Ok data →
  request env cmd = Ok bs → len bs < wire_max →
  Unix.Marshal_Response (Unix.BundleCreateResponse Unix.MsgTypeBundleCreateResponse None (BundleID_String (Bundle_ID b))) = Ok rbs →
  len rbs < wire_max →
  (∃ idk, Unix.handleConnection ebm now s orders (frame bs) st =
    (Ok (Some (frame rbs)), (st.1, mkOutbox idk (ob_sent st.2 ++ [b])))) ∧
  (pb_SourceNode (b_PrimaryBlock b) = src ∧ pb_Destination (b_PrimaryBlock b) = dst ∧ pb_ReportTo (b_PrimaryBlock b) = rpt ∧
   pb_Lifetime (b_PrimaryBlock b) = dur / 1000000 ∧ ct_time (pb_CreationTimestamp (b_PrimaryBlock b)) = DtnTimeFromTime now ∧
   b_ExtensionBlocks b = [] ∧ payload_data (b_PayloadBlock b) = Ok data) ∧
  main env (Ok cmd) usage (Ok ()) (Ok ()) cs =
    ((0, None), mkClient (frame bs) (cs_stdout cs +:+ (BundleID_String (Bundle_ID b) +:+ newline)) (cs_files cs)).
Proof.
  intros cmd b Hc Hn Hs Hne Hd Hr Hlt Hdur Hp Hreq Hl Hm Hrl.
  destruct (rpc env cmd bs st cs Hc Hreq Hl) as (handler & (data' & args & Hp' & Hperm & ->) & Hrpc).
  assert (data' = data) as -> by congruence.
  pose proof (create_build _ _ _ "now" _ _ _ _ data _ (DtnTimeFromTime now) args Hs Hd Hr Hlt ltac:(lia) ltac:(by left) Hperm) as Hb.
  apply NewEndpointID_Ok in Hs as [Ws _], Hd as [Wd _].
  assert (EndpointID_wf rpt) as Wr.
  { unfold report_endpoint in Hr. case_bool_decide; [congruence|]. by apply NewEndpointID_Ok in Hr as [? _]. }
  rewrite client_bundle_valid in Hb; [|done| |done..].
  2:{ unfold two63 in Hdur. split; [apply Z.div_le_lower_bound; lia|apply Z.lt_succ_r, Z.div_lt_upper_bound; lia]. }
  destruct (Hrpc (Unix.BundleCreateResponse Unix.MsgTypeBundleCreateResponse None (BundleID_String (Bundle_ID b)))
    (st.1, mkOutbox (IdKeeper_Update (ob_idKeeper st.2) (Bundle_SetCRCType CRCNo
      (client_bundle (DtnTimeFromTime now) (dur / 1000000) src dst rpt data))).1 (ob_sent st.2 ++ [b])) rbs) as [Ha Hrun]; [|done..|].
  { unfold Unix.handleBundleCreate. rewrite Hb. destruct st as [ua ob]. reflexivity. }
  split; [by eexists|]. split.
  - unfold b, created. destruct (calculateCRC_only (set_pb_CRCType CRC32
      (b_PrimaryBlock (client_bundle (DtnTimeFromTime now) (dur / 1000000) src dst rpt data)))) as [c Hcrc].
    cbn [IdKeeper_Update snd]. unfold set_sequence, Bundle_SetCRCType, PrimaryBlock_SetCRCType.
    cbn [set_b_PrimaryBlock b_PrimaryBlock b_ExtensionBlocks b_PayloadBlock client_bundle]. change (CRCNo =? CRCNo) with true. cbv iota.
    cbn [client_bundle b_PrimaryBlock] in Hcrc. rewrite Hcrc. by split_and!.
  - unfold main. do 2 (erewrite bind_ok by reflexivity). rewrite Hrun. reflexivity.
Qed.

(** ** Time stamps that do not work *)

(** An entry whose method fails makes the loop fail, wherever it comes. *)
Lemma call_methods_fails args method v e bl : bl_err bl = None → (method, v) ∈ args →
  (∀ bl', call_method now method v bl' = Err e) →
  Forall (λ x, x = (method, v) ∨ is_Some (method_update now x.1 x.2)) args → call_methods now args bl = Err e.
Proof.
  intros He Hin Hf Hall. revert bl He. induction Hall as [|[k w] args Hx Hall IH]; intros bl He; [by apply not_elem_of_nil in Hin|].
  cbn [call_methods]. destruct Hx as [[= -> ->]|[u Hu]]; [by rewrite Hf|]. simpl in Hu. pose proof (call_method_update now k w bl He) as Hc. rewrite Hu in Hc.
  destruct Hc as [Hc _]. apply elem_of_cons in Hin as [[= -> ->]|Hin]; [by rewrite Hf in Hc|].
  rewrite Hc. simpl. rewrite apply_update_err, He. apply IH; [done|by rewrite apply_update_err].
Qed.

(** A bundle with the zero time stamp and without an age block is not valid. *)
Lemma epoch_invalid ms src dst rpt data : ∃ e, check_bundle now (client_bundle DtnTimeEpoch ms src dst rpt data) = Err e.
Proof.
  unfold check_bundle, Bundle_CheckValid. simpl. unfold PrimaryBlock_CheckValid. simpl.
  destruct (EndpointID_CheckValid dst); simpl; [|by eexists]. destruct (EndpointID_CheckValid src); simpl; [|by eexists].
  destruct (EndpointID_CheckValid rpt); simpl; [|by eexists]. case_match; by eexists.
Qed.

(** The option [-t] of [dtnclient create] works with its default only: with [epoch] the
    bundle has neither a creation time nor an age, and a time that is given arrives as a
    string, which the builder does not take.  The daemon sends nothing, and answers with
    an error. *)
Theorem client_timestamp_rejected st sourceID destinationID reportTo ts lt src dst rpt data dur args :
  ts ≠ "now" → NewEndpointID sourceID = Ok src → NewEndpointID destinationID = Ok dst → report_endpoint src reportTo = Ok rpt →
  ParseDuration lt = Ok dur → 0 < dur →
  args ≡ₚ create_args sourceID destinationID reportTo ts lt ++ [("payload_block", GBytes data)] →
  ∃ e, Unix.handleBundleCreate now args st = (Ok (Unix.BundleCreateResponse Unix.MsgTypeBundleCreateResponse (Some e) ""), st).
Proof.
  intros Hts Hs Hd Hr Hlt Hdur Hp. unfold Unix.handleBundleCreate.
  assert (∃ e b, BuildFromMap now args = (Err e, b)) as (e & b & ->); [|by exists e].
  destruct (decide (ts = "epoch")) as [->|Hne].
  { rewrite (create_build sourceID destinationID reportTo "epoch" lt src dst rpt data dur DtnTimeEpoch args) by (done || by right).
    destruct (epoch_invalid (dur / 1000000) src dst rpt data) as [e ->]. by eexists _, _. }
  pose (e := errorf "creation_timestamp_time needs a time.Time"). exists e, zero_bundle. unfold BuildFromMap.
  assert (("creation_timestamp_time", GString ts) ∈ args) as Hin.
  { rewrite Hp. unfold create_args. rewrite !(bool_decide_eq_false_2 (ts = _)) by done. clear. set_solver. }
  rewrite (call_methods_fails args "creation_timestamp_time" (GString ts) e); [done|done|done|done|].
  rewrite Hp. unfold create_args. rewrite !(bool_decide_eq_false_2 (ts = _)) by done.
  rewrite !Forall_app, !Forall_cons, !Forall_nil. destruct (endpoint_updates _ _ Hs) as (Us & _), (endpoint_updates _ _ Hd) as (_ & Ud & _).
  split_and!; try done; try (right; simpl; rewrite ?Us, ?Ud, ?(lifetime_update _ _ Hlt Hdur); by eexists); [|by left].
  case_bool_decide as Hrpt; [constructor|]. unfold report_endpoint in Hr. rewrite bool_decide_eq_false_2 in Hr by done.
  destruct (endpoint_updates _ _ Hr) as (_ & _ & Ur). constructor; [|done]. right. simpl. rewrite Ur. by eexists.
Qed.
End Client.

(** ** Payload files *)

(** [get all] writes the payload of every bundle to a file of its own, if the names of the
    files differ, and touches no other file. *)
Theorem write_bundles_spec env l cs : NoDup ((λ c, bundle_filename (Unix.bc_BundleID c)) <$> l) →
  (∀ name, env_create env name = Ok ()) → (∀ name, env_write env name = Ok ()) →
  ∃ cs', write_bundles env l cs = (Ok (), cs') ∧
    (∀ c, c ∈ l → cs_files cs' !! bundle_filename (Unix.bc_BundleID c) = Some (Unix.bc_Payload c)) ∧
    (∀ name, name ∉ (λ c, bundle_filename (Unix.bc_BundleID c)) <$> l → cs_files cs' !! name = cs_files cs !! name).
Proof.
  intros Hnd Hc Hw. revert cs. induction l as [|c l IH]; intros cs.
  { exists cs. split; [done|]. split; [|done]. intros c Hin. by apply not_elem_of_nil in Hin. }
  rewrite fmap_cons in Hnd. apply NoDup_cons in Hnd as [Hnin Hnd].
  assert (∃ cs1, write_file env (bundle_filename (Unix.bc_BundleID c)) (Unix.bc_Payload c) cs = (Ok (), cs1) ∧
    ∀ name, cs_files cs1 !! name =
      if bool_decide (name = bundle_filename (Unix.bc_BundleID c)) then Some (Unix.bc_Payload c) else cs_files cs !! name) as (cs1 & H1 & Hf1).
  { unfold write_file. eexists. split.
    - mstep by (unfold lift_res; by rewrite Hc). mstep by reflexivity. mstep by (unfold lift_res; by rewrite Hw). reflexivity.
    - intros name. simpl. rewrite insert_insert_eq. case_bool_decide as Hn; [subst; apply lookup_insert_eq|by apply lookup_insert_ne]. }
  destruct (IH Hnd cs1) as (cs' & H2 & Hin2 & Hout2). exists cs'. split; [|split].
  - simpl. by mstep by exact H1.
  - intros c' [->|Hin]%elem_of_cons; [|by apply Hin2]. rewrite Hout2, Hf1 by done. by rewrite bool_decide_eq_true_2.
  - intros name Hname. rewrite fmap_cons, not_elem_of_cons in Hname. destruct Hname as [Hne Hname].
    rewrite Hout2, Hf1 by done. by rewrite bool_decide_eq_false_2.
Qed.

(** The names need not differ: two valid ids of different bundles lead to the same file,
    so that the first payload is lost. *)
Theorem filename_collision :
  let id src := mkBundleID src (mkTimestamp 1000 0) false 0 0 in
  BundleID_String (id (dtn "a" "b")) ≠ BundleID_String (id (dtn "ab" "")) ∧
  bundle_filename (BundleID_String (id (dtn "a" "b"))) = bundle_filename (BundleID_String (id (dtn "ab" ""))).
Proof. split; [vm_compute; discriminate|vm_compute; reflexivity]. Qed.

(** A reply that is cut off is not noticed: what is missing is taken to be zero. *)
Theorem truncated_reply env msg n part cs : env_write_length env = Ok () → env_write_message env = Ok () → env_flush env = Ok () →
  env_peer env (frame msg) = be_bytes 8 n ++ part → len part ≤ n < wire_max →
  exchange env msg cs = (Ok (part ++ replicate (Z.to_nat (n - len part)) Byte.x00), set_sent (frame msg) cs).
Proof.
  intros Hl Hm Hf Hp Hn. pose proof (len_nonneg part). pose proof (be_bytes_length 8 n) as Hb.
  unfold exchange. mstep by (unfold lift_res; by rewrite Hl). mstep by (unfold lift_res; by rewrite Hm).
  mstep by (unfold lift_res; by rewrite Hf). mstep by reflexivity. rewrite Hp. cbv zeta.
  rewrite len_app, take_app_le, drop_app_ge by (rewrite Hb; lia). rewrite firstn_all2, Hb, drop_0 by (rewrite Hb; lia).
  rewrite be_value_bytes by (unfold wire_max in *; simpl; lia). unfold len at 1. rewrite Hb.
  destruct (Z.ltb_spec (Z.of_nat 8 + len part) 8); [lia|].
  destruct (Z.ltb_spec maxAlloc n); [unfold wire_max, maxAlloc in *; lia|]. unfold mret, M_ret, set_sent.
  do 2 f_equal. unfold len in *. rewrite resize_ge by lia. do 2 f_equal. lia.
Qed.

(** ** A client and an agent *)

#[local] Instance client_float : GoFloat := λ _, 0.

(** The type of a message as a byte, then its fields. *)
Definition message {A} `{Wire A} (t : Z) (fields : A) : bytes := byte_of_Z t :: put fields.
Definition fields (A : Type) `{Wire A} (bs : bytes) : res A := get_all (drop 1 bs).

Lemma message_read {A} `{Wire A} t (a : A) : is_u8 t → len (message t a) < wire_max →
  message_type (message t a) = Ok t ∧ fields A (message t a) = Ok a.
Proof.
  intros Ht Hl. split; [simpl; rewrite Z_of_byte_of_Z, Z.mod_small by u64_lia; done|].
  unfold fields, message in *. simpl drop. apply get_all_put. unfold len in *. simpl in Hl. lia.
Qed.

#[local] Instance wire_content : Wire Unix.BundleContent.
Proof.
  refine (wire_iso (λ c, (Unix.bc_BundleID c, Unix.bc_SourceID c, Unix.bc_DestinationID c, Unix.bc_Payload c))
    (λ '(a, b, c, d), Unix.mkContent a b c d) _).
  by intros [].
Defined.

(** Values of create arguments. *)
Definition PlainValue : Type := (string + (bytes + bool))%type.
Definition to_plain (v : GoValue) : PlainValue :=
  match v with GString t => inl t | GBytes d => inr (inl d) | GBool b => inr (inr b) | _ => inl "" end.
Definition of_plain (v : PlainValue) : GoValue :=
  match v with inl t => GString t | inr (inl d) => GBytes d | inr (inr b) => GBool b end.

Lemma of_to_plain (args : list (string * GoValue)) : Forall (λ x, plain_value x.2) args →
  prod_map id of_plain <$> (prod_map id to_plain <$> args) = args.
Proof. induction 1 as [|[k v] args Hv _ IH]; [done|]. rewrite !fmap_cons, IH. by destruct v. Qed.

Definition map_res {A B} (f : A → B) (r : res A) : res B := match r with Ok a => Ok (f a) | Err e => Err e | Panic => Panic end.

#[local] Instance sample_unix : Unix.UnixMsgpack := {|
  Unix.Unmarshal_Message := message_type;
  Unix.Unmarshal_RegisterUnregister bs :=
    match message_type bs with Ok t => map_res (Unix.mkRegisterUnregister t) (fields string bs) | Err e => Err e | Panic => Panic end;
  Unix.Unmarshal_BundleCreate bs := map_res (fmap (prod_map id of_plain)) (fields (list (string * PlainValue)) bs);
  Unix.Unmarshal_ListBundles bs := map_res (λ '(mb, new), Unix.mkListBundles mb new) (fields (string * bool) bs);
  Unix.Unmarshal_FetchBundle bs := map_res (λ '(mb, bid, remove), Unix.mkFetchBundle mb bid remove) (fields (string * string * bool) bs);
  Unix.Unmarshal_FetchAllBundles bs := map_res (λ '(mb, new, remove), Unix.mkFetchAll mb new remove) (fields (string * bool * bool) bs);
  Unix.Marshal_Response r := Ok match r with
    | Unix.GeneralResponse _ e => put e
    | Unix.BundleCreateResponse _ e bid => put (e, bid)
    | Unix.ListResponse _ e l => put (e, l)
    | Unix.FetchBundleResponse _ e c => put (e, c)
    | Unix.FetchAllBundlesResponse _ e l => put (e, l)
    end;
|}.

#[local] Instance sample_client : ClientMsgpack := {|
  Marshal_RegisterUnregister m := Ok (message (Unix.ru_Type m) (Unix.ru_EndpointID m));
  Marshal_BundleCreate t args := Ok (message t (prod_map id to_plain <$> args));
  Marshal_ListBundles t m := Ok (message t (Unix.lb_Mailbox m, Unix.lb_New m));
  Marshal_FetchBundle t m := Ok (message t (Unix.fb_Mailbox m, Unix.fb_BundleID m, Unix.fb_Remove m));
  Marshal_FetchAllBundles t m := Ok (message t (Unix.fa_Mailbox m, Unix.fa_New m, Unix.fa_Remove m));
  Unmarshal_GeneralResponse := get_all;
  Unmarshal_BundleCreateResponse := get_all;
  Unmarshal_ListResponse := get_all;
  Unmarshal_FetchBundleResponse := get_all;
  Unmarshal_FetchAllBundlesResponse := get_all;
|}.

#[local] Instance sample_wire : UnixWire.
Proof.
  split; cbn [Unix.Unmarshal_Message Unix.Unmarshal_RegisterUnregister Unix.Unmarshal_BundleCreate Unix.Unmarshal_ListBundles
    Unix.Unmarshal_FetchBundle Unix.Unmarshal_FetchAllBundles sample_unix].
  - intros m bs Ht [= <-] Hl. destruct (message_read _ _ Ht Hl) as [E1 E2]. rewrite E1, E2. by destruct m.
  - intros t args bs Ht Hp _ [= <-] Hl. destruct (message_read _ _ Ht Hl) as [E1 E2]. split; [done|].
    exists args. split; [|done]. rewrite E2. cbn [map_res]. by rewrite of_to_plain.
  - intros t m bs Ht [= <-] Hl. destruct (message_read _ _ Ht Hl) as [E1 E2]. rewrite E1, E2. by destruct m.
  - intros t m bs Ht [= <-] Hl. destruct (message_read _ _ Ht Hl) as [E1 E2]. rewrite E1, E2. by destruct m.
  - intros t m bs Ht [= <-] Hl. destruct (message_read _ _ Ht Hl) as [E1 E2]. rewrite E1, E2. by destruct m.
  - intros r bs Hm Hl. cbn [Unix.Marshal_Response] in Hm. apply Ok_inj in Hm as <-. destruct r; by apply get_all_put.
Qed.

(** A file to send, and an agent that answers. *)
Definition sample_env (now : Z) (st : Unix.State) : ClientEnv :=
  mkEnv (str_bytes "hello" ++ [Byte.x0a] ++ str_bytes "world")
    (λ name, if bool_decide (name = "msg.txt") then Ok (str_bytes "hi") else Err (errorf "no such file or directory"))
    (λ _, Ok ()) (λ _, Ok ()) (Ok ()) (Ok ()) (Ok ())
    (λ sent, match (Unix.handleConnection GetExtensionBlockManager now one_bundle sample_orders sent st).1 with
             | Ok (Some reply) => reply | _ => [] end).

Lemma sample_connected now st : connected GetExtensionBlockManager now one_bundle sample_orders (sample_env now st) st.
Proof. by split. Qed.

(** Registering an endpoint. *)
Example client_registers :
  main (sample_env 0 fresh_unix) (Ok (Register "dtn://a/b")) (λ _, "") (Ok ()) (Ok ()) fresh_client =
    ((0, None), mkClient (frame (message 2 "dtn://a/b")) ("Success" +:+ newline) ∅).
Proof. vm_compute. reflexivity. Qed.

(** Of the standard input only the first line is sent. *)
Example client_stdin_line : read_payload (sample_env 0 fresh_unix) "stdin" = Ok (str_bytes "hello" ++ [Byte.x0a]).
Proof. vm_compute. reflexivity. Qed.

Lemma client_rpc_witness :
  ∃ handler, serves GetExtensionBlockManager 0 one_bundle sample_orders (sample_env 0 fresh_unix) (Register "dtn://a/b") handler ∧
    ∃ r st', handler fresh_unix = (Ok r, st') ∧
      (Unix.handleConnection GetExtensionBlockManager 0 one_bundle sample_orders (frame (message 2 "dtn://a/b")) fresh_unix).2 = st'.
Proof.
  destruct (client_rpc GetExtensionBlockManager 0 one_bundle sample_orders (sample_env 0 fresh_unix) (Register "dtn://a/b")
    (message 2 "dtn://a/b") fresh_unix fresh_client (λ _, "")) as (handler & Hs & Hrpc).
  - apply sample_connected.
  - reflexivity.
  - vm_compute. reflexivity.
  - exists handler. split; [exact Hs|]. simpl in Hs. eexists _, _. split; [rewrite Hs; reflexivity|].
    destruct (Hrpc (Unix.GeneralResponse 1 None) (Unix.handleRegisterUnregister (Unix.mkRegisterUnregister 2 "dtn://a/b") true fresh_unix).2
      (put (None : option error))) as [Ha _]; [rewrite Hs; reflexivity|reflexivity|vm_compute; reflexivity|].
    rewrite Ha. reflexivity.
Defined.

Definition sample_create : Command := Create "dtn://src/" "dtn://dst/in" "" "now" "1h" "msg.txt".

Lemma client_create_witness :
  ∃ id, main (sample_env (dtn_ns 1000) fresh_unix) (Ok sample_create) (λ _, "") (Ok ()) (Ok ()) fresh_client =
    ((0, None), mkClient id ("dtn://src/-1000-0" +:+ newline) ∅).
Proof.
  destruct (request (sample_env (dtn_ns 1000) fresh_unix) sample_create) as [bs| |] eqn:Hr; [|vm_compute in Hr; discriminate Hr..].
  exists (frame bs).
  destruct (client_create GetExtensionBlockManager (dtn_ns 1000) one_bundle sample_orders (sample_env (dtn_ns 1000) fresh_unix) fresh_unix
    fresh_client (λ _, "") "dtn://src/" "dtn://dst/in" "" "1h" "msg.txt" (dtn "src" "") (dtn "dst" "in") (dtn "src" "") (str_bytes "hi")
    3600000000000 bs (put ((None : option error), "dtn://src/-1000-0"))) as (_ & _ & Hm).
  - apply sample_connected.
  - unfold dtn_ns, DtnTime_max, milliseconds1970To2k, nanoToMilli. lia.
  - vm_compute. reflexivity.
  - discriminate.
  - vm_compute. reflexivity.
  - vm_compute. reflexivity.
  - vm_compute. reflexivity.
  - unfold two63. lia.
  - vm_compute. reflexivity.
  - exact Hr.
  - vm_compute in Hr. injection Hr as <-. vm_compute. reflexivity.
  - vm_compute. reflexivity.
  - vm_compute. reflexivity.
  - refine (eq_trans Hm _). vm_compute. reflexivity.
Defined.

Lemma client_timestamp_rejected_witness :
  ∃ e, Unix.handleBundleCreate (dtn_ns 1000) (create_args "dtn://src/" "dtn://dst/" "" "epoch" "1h" ++ [("payload_block", GBytes [])]) fresh_unix =
    (Ok (Unix.BundleCreateResponse Unix.MsgTypeBundleCreateResponse (Some e) ""), fresh_unix).
Proof.
  apply (client_timestamp_rejected (dtn_ns 1000) fresh_unix "dtn://src/" "dtn://dst/" "" "epoch" "1h" (dtn "src" "") (dtn "dst" "")
    (dtn "src" "") [] 3600000000000).
  - discriminate.
  - vm_compute. reflexivity.
  - vm_compute. reflexivity.
  - vm_compute. reflexivity.
  - vm_compute. reflexivity.
  - lia.
  - reflexivity.
Defined.
