(* ===== verification/Processing.v ===== *)
(** * Bundle processing

    [pkg/processing]: reception, dispatching and forwarding.  The code runs in
    goroutines that share the store, the CLA manager and the application agents;
    each call of a locked method is atomic, and anything may happen between two
    calls.  A goroutine is therefore a [task], whose [task_step] is one call, and a
    node is a set of tasks over the shared state.  [forwardingAsync] is the same
    procedure run without interruption; [Forwarding] shows that it is one of the
    executions of the tasks. *)

From stdpp Require Import base tactics list strings gmap.
From Stdlib Require Import ZArith Lia Bool.
From S2P Require Import Prelude Cboring GoSort Flags Crc DtnTime Endpoint BundleId ExtensionBlocks Blocks.
From S2P Require Import Bundle Samples BundleValid BundleCodec IdKeeper Descriptor Store StoreInv.
From S2P Require Import StoreHistory Cla Routing Mailbox AgentManager.
Local Open Scope Z_scope.

(** A call of [Send] of a convergence sender, and whether it returned no error. *)
Record Transmission := mkTx { tx_loc : nat; tx_bundle : Bundle; tx_peer : Convergence; tx_ok : bool }.

(** What a step takes from outside the program: the clock, the random source, the
    outcomes of file operations, the order of a map range, which goroutine runs
    next and whether a transmission succeeds. *)
Record Oracle := mkOracle {
  o_now : Z;
  o_rnd : nat;
  o_io : FileIO;
  o_order : list string;
  o_pick : nat;
  o_sent : bool;
}.

(** Steps 4.1 and 4.2 of [forwardingAsync]. *)
Definition update_previous_node (ownNodeID : EndpointID) (bundle : Bundle) : res Bundle :=
  match ExtensionBlockByType bundle BlockTypePreviousNodeBlock with
  | Panic => Panic
  | r =>
      let bundle := match r with
                    | Ok (_, prevNodeBlock) => RemoveExtensionBlockByBlockNumber bundle (cb_BlockNumber prevNodeBlock)
                    | _ => bundle
                    end in
      match AddExtensionBlock bundle (NewCanonicalBlock 0 0 (PreviousNodeBlock ownNodeID)) with
      | Ok bundle => Ok bundle
      | Err _ => Ok bundle
      | Panic => Panic
      end
  end.

Section Processing.
Context `{Cboring} `{Crc16} `{GoMapRange} `{Ed25519} `{Badgerhold} `{Sha256}.
Context (ebm : ExtensionBlockManager) {A : Algorithm} (ownNodeID : EndpointID).

(** ** Shared state and goroutines *)

Record World := mkWorld {
  w_store : BundleStore;
  w_cla : Manager;
  w_agents : gmap string ApplicationAgent;
  w_sent : list Transmission;
}.

Definition set_w_store v w := mkWorld v (w_cla w) (w_agents w) (w_sent w).
Definition set_w_cla v w := mkWorld (w_store w) v (w_agents w) (w_sent w).
Definition set_w_agents v w := mkWorld (w_store w) (w_cla w) v (w_sent w).
Definition set_w_sent v w := mkWorld (w_store w) (w_cla w) (w_agents w) v.

(** Where a goroutine is: [F_] in [forwardingAsync], [R_] in [receiveAsync].  In
    [F_send], the goroutines [forwardBundleToPeer] that have not finished, with
    [true] for those that have sent the bundle and will record the peer. *)
Inductive task :=
  | F_start (loc : nat)
  | F_dispatch (loc : nat)
  | F_select (loc : nat)
  | F_contraindicated (loc : nat)
  | F_load (loc : nat) (peers : list Convergence)
  | F_send (loc : nat) (bundle : Bundle) (gs : list (Convergence * bool))
  | R_start (bundle : Bundle) (new : bool)
  | R_deliver (loc : nat) (bundle : Bundle) (new : bool)
  | R_notify (loc : nat) (bundle : Bundle) (new : bool)
  | R_check (loc : nat).

Definition on_store {B} (m : M BundleStore B) : M World B := λ w,
  let '(r, s) := m (w_store w) in (r, set_w_store s w).

(** A call after whose error, logged, the function returns [d]. *)
Definition or_return {B C} (d : C) (m : M World B) (k : B → M World C) : M World C := λ w,
  match m w with
  | (Ok a, w) => k a w
  | (Err _, w) => (Ok d, w)
  | (Panic, w) => (Panic, w)
  end.

(** A call whose error is logged only. *)
Definition logged {B} (m : M World B) : M World () := or_return () m (λ _, mret ()).

Definition select_peers (o : Oracle) (loc : nat) : M World (list Convergence * option Bundle) := λ w,
  on_store (SelectPeersForForwarding (o_rnd o) (o_now o) loc (GetSenders (w_cla w))) w.

Definition load_bundle (o : Oracle) (loc : nat) : M World Bundle := λ w, (Load ebm (o_now o) loc (w_store w), w).

Definition bundleContraindicated (loc : nat) : M World () := logged (on_store (bd_ResetConstraints loc)).

(** [peer.Send(bundle)] *)
Definition send (ok : bool) (loc : nat) (bundle : Bundle) (peer : Convergence) : M World () := λ w,
  (Ok (), set_w_sent (w_sent w ++ [mkTx loc bundle peer ok]) w).

Definition record_holder (loc : nat) (peer : Convergence) : M World () :=
  logged (on_store (bd_AddKnownHolder [cla_PeerEndpointID peer] loc)).

Definition start_sending (loc : nat) (bundle : Bundle) (peers : list Convergence) : M World (list task) :=
  bundle ← lift_res (update_previous_node ownNodeID bundle);
  mret [F_send loc bundle ((λ peer, (peer, false)) <$> peers)].

(** The calls of [receiveAsync] after the insertion: delivery to the agents, notice
    to the routing algorithm, and the start of forwarding. *)
Definition deliver (o : Oracle) (loc : nat) : M World () := λ w,
  let '(r, agents) := Delivery (o_order o) loc (w_store w) (w_agents w) in (r, set_w_agents agents w).

Definition notify (new : bool) (loc : nat) (bundle : Bundle) : M World () :=
  on_store (if new then NotifyNewBundle loc bundle else NotifyReceivedBundle loc bundle).

Definition check_dispatch (loc : nat) : M World (list task) := λ w,
  match st_heap (w_store w) !! loc with
  | None => (Panic, w)
  | Some bd =>
      match HasConstraint bd DispatchPending with
      | Ok true => (Ok [F_start loc], w)
      | _ => (Ok [], w)
      end
  end.

(** ** Steps of a goroutine *)

(** One call of a goroutine; the result is what remains of it, with the goroutine
    it starts. *)
Definition task_step (o : Oracle) (t : task) : M World (list task) :=
  match t with
  | F_start loc => or_return [] (on_store (bd_AddConstraint ForwardPending loc)) (λ _, mret [F_dispatch loc])
  | F_dispatch loc => or_return [] (on_store (bd_RemoveConstraint DispatchPending loc)) (λ _, mret [F_select loc])
  | F_select loc =>
      '(peers, bundle) ← select_peers o loc;
      match peers, bundle with
      | [], _ => mret [F_contraindicated loc]
      | _, None => mret [F_load loc peers]
      | _, Some bundle => start_sending loc bundle peers
      end
  | F_contraindicated loc => bundleContraindicated loc;; mret []
  | F_load loc peers => or_return [] (load_bundle o loc) (λ bundle, start_sending loc bundle peers)
  | F_send loc bundle [] => or_return [] (on_store (bd_RemoveConstraint ForwardPending loc)) (λ _, mret [])
  | F_send loc bundle gs =>
      let i := (o_pick o `mod` length gs)%nat in
      match gs !! i with
      | None => panic
      | Some (peer, false) =>
          send (o_sent o) loc bundle peer;;
          mret [F_send loc bundle (if o_sent o then <[i := (peer, true)]> gs else delete i gs)]
      | Some (peer, true) => record_holder loc peer;; mret [F_send loc bundle (delete i gs)]
      end
  | R_start bundle new => or_return [] (on_store (InsertBundle (o_io o) bundle)) (λ loc, mret [R_deliver loc bundle new])
  | R_deliver loc bundle new => deliver o loc;; mret [R_notify loc bundle new]
  | R_notify loc bundle new => notify new loc bundle;; mret [R_check loc]
  | R_check loc => check_dispatch loc
  end.

(** ** A node *)

Record Node := mkNode { n_world : World; n_tasks : list task }.

(** [DispatchPending] and [NewPeer]; neither algorithm reacts to new peers. *)
Definition DispatchAll (n : Node) : Node :=
  mkNode (n_world n) (n_tasks n ++ (F_start <$> GetDispatchable (w_store (n_world n)))).
Definition NewPeer (peerID : EndpointID) (n : Node) : Node := DispatchAll n.

(** [ReceiveBundle] and [NewBundle] *)
Definition ReceiveBundle (bundle : Bundle) (n : Node) : Node := mkNode (n_world n) (n_tasks n ++ [R_start bundle false]).
Definition NewBundle (bundle : Bundle) (n : Node) : Node := mkNode (n_world n) (n_tasks n ++ [R_start bundle true]).

(** A step of a goroutine, of another user of the store (garbage collection,
    [deleteBundle], application agents), of the CLA manager, or the start of
    goroutines. *)
Inductive node_step : Node → Node → Prop :=
  | ns_task o i t ts n w : n_tasks n !! i = Some t → task_step o t (n_world n) = (Ok ts, w) →
      node_step n (mkNode w (delete i (n_tasks n) ++ ts))
  | ns_store s n : store_step (w_store (n_world n)) s → node_step n (mkNode (set_w_store s (n_world n)) (n_tasks n))
  | ns_cla mg n : mg_step (w_cla (n_world n)) mg → node_step n (mkNode (set_w_cla mg (n_world n)) (n_tasks n))
  | ns_dispatch n : node_step n (DispatchAll n)
  | ns_receive bundle n : node_step n (ReceiveBundle bundle n)
  | ns_new bundle n : node_step n (NewBundle bundle n).

Inductive node_steps : Node → Node → Prop :=
  | nss_refl n : node_steps n n
  | nss_cons n1 n2 n3 : node_steps n1 n2 → node_step n2 n3 → node_steps n1 n3.

(** ** Forwarding without interruption *)

(** [forwardBundleToPeer] *)
Definition forwardBundleToPeer (outcome : Convergence → bool) (loc : nat) (bundle : Bundle) (peer : Convergence) : M World () :=
  send (outcome peer) loc bundle peer;;
  if outcome peer then record_holder loc peer else mret ().

Fixpoint forward_all (outcome : Convergence → bool) (loc : nat) (bundle : Bundle) (peers : list Convergence) : M World () :=
  match peers with
  | [] => mret ()
  | peer :: peers => forwardBundleToPeer outcome loc bundle peer;; forward_all outcome loc bundle peers
  end.

(** Steps 4 to 6, on a bundle that was loaded. *)
Definition transmit (outcome : Convergence → bool) (loc : nat) (bundle : Bundle) (peers : list Convergence) : M World () :=
  bundle ← lift_res (update_previous_node ownNodeID bundle);
  forward_all outcome loc bundle peers;;
  logged (on_store (bd_RemoveConstraint ForwardPending loc)).

(** [outcome] tells for which peers [Send] succeeds. *)
Definition forwardingAsync (o : Oracle) (outcome : Convergence → bool) (loc : nat) : M World () :=
  or_return () (on_store (bd_AddConstraint ForwardPending loc)) (λ _,
  or_return () (on_store (bd_RemoveConstraint DispatchPending loc)) (λ _,
  '(forwardToPeers, bundle) ← select_peers o loc;
  match forwardToPeers, bundle with
  | [], _ => bundleContraindicated loc
  | _, Some bundle => transmit outcome loc bundle forwardToPeers
  | _, None => or_return () (load_bundle o loc) (λ bundle, transmit outcome loc bundle forwardToPeers)
  end)).

(** ** Reception without interruption *)

(** The result is the forwarding goroutine it starts, if any. *)
Definition receiveAsync (o : Oracle) (bundle : Bundle) (new : bool) : M World (list task) :=
  or_return [] (on_store (InsertBundle (o_io o) bundle)) (λ loc,
  deliver o loc;;
  notify new loc bundle;;
  check_dispatch loc).
End Processing.
