(* ===== verification/Forwarding.v ===== *)
(** * Properties of bundle processing

    What forwarding does to the bundle, to the store and to the peers, for any
    routing algorithm that satisfies [AlgorithmLaws] and any interleaving of the
    node's goroutines. *)

From stdpp Require Import base tactics list strings gmap.
From Stdlib Require Import ZArith Lia Bool.
From S2P Require Import Prelude Cboring GoSort Flags Crc DtnTime Endpoint BundleId ExtensionBlocks Blocks.
From S2P Require Import Bundle Samples BundleValid BundleCodec IdKeeper Descriptor Store StoreInv.
From S2P Require Import StoreHistory StoreExamples Cla Routing RoutingProps Mailbox AgentManager.
From S2P Require Import Processing.
Local Open Scope Z_scope.

(** ** The previous node block *)

Abbreviation prev_blocks b := (filter (λ cb, has_type BlockTypePreviousNodeBlock cb = true) (b_ExtensionBlocks b)).
Abbreviation other_blocks b := (filter (λ cb, has_type BlockTypePreviousNodeBlock cb = false) (b_ExtensionBlocks b)).

Lemma other_blocks_none b : prev_blocks b = [] → other_blocks b = b_ExtensionBlocks b.
Proof.
  induction (b_ExtensionBlocks b) as [|c l IH]; [done|]. rewrite !filter_cons.
  destruct (has_type _ c) eqn:E; [by rewrite decide_True by done|]. rewrite decide_False by done. intros Hn.
  rewrite decide_True by done. f_equal. by apply IH.
Qed.

Lemma filter_filter_neg {A} (f : A → bool) l : filter (λ x, f x = true) (filter (λ x, f x = false) l) = [].
Proof.
  induction l as [|x l IH]; [done|]. rewrite filter_cons. destruct (f x) eqn:E.
  - by rewrite decide_False by done.
  - rewrite decide_True by done. rewrite filter_cons, E. by rewrite decide_False by done.
Qed.

Lemma filter_filter_same {A} (f : A → bool) (l : list A) : filter (λ x, f x = false) (filter (λ x, f x = false) l) = filter (λ x, f x = false) l.
Proof. rewrite list_filter_filter. apply list_filter_iff. naive_solver. Qed.

(** A bundle with at most one previous node block leaves step 4 of forwarding
    with exactly one, which names this node; every other block and the primary
    block are kept, and block numbers stay distinct and ordered. *)
Theorem previous_node_replaced own b :
  all_valued (b_ExtensionBlocks b) → NoDup (block_numbers (b_ExtensionBlocks b)) → (length (prev_blocks b) ≤ 1)%nat →
  ∃ b' n, update_previous_node own b = Ok b' ∧
    prev_blocks b' = [mkCanonical n 0 CRCNo [] (Some (PreviousNodeBlock own))] ∧
    other_blocks b' ≡ₚ other_blocks b ∧
    b_PrimaryBlock b' = b_PrimaryBlock b ∧ b_PayloadBlock b' = b_PayloadBlock b ∧
    NoDup (block_numbers (b_ExtensionBlocks b')) ∧ blocks_sorted (b_ExtensionBlocks b') ∧
    2 ≤ n ≤ 2 + len (other_blocks b).
Proof.
  intros Hv Hnd Hlen.
  assert (∃ b1, b_PrimaryBlock b1 = b_PrimaryBlock b ∧ b_PayloadBlock b1 = b_PayloadBlock b ∧
    b_ExtensionBlocks b1 = other_blocks b ∧
    update_previous_node own b =
      match AddExtensionBlock b1 (NewCanonicalBlock 0 0 (PreviousNodeBlock own)) with
      | Ok b => Ok b | Err _ => Ok b1 | Panic => Panic end) as (b1 & Hp1 & Hl1 & He1 & ->).
  { unfold update_previous_node, ExtensionBlockByType, ExtensionBlocksByType.
    destruct (blocks_of_type_total BlockTypePreviousNodeBlock 0 _ Hv) as [cbs E]. rewrite E.
    destruct (blocks_of_type_Ok _ _ _ _ E) as (_ & Hs & _). simpl.
    destruct cbs as [|[j c] [|x cbs]].
    - exists b. do 2 (split; [done|]). split; [|done]. symmetry. by apply other_blocks_none.
    - exists (RemoveExtensionBlockByBlockNumber b (cb_BlockNumber c)). do 2 (split; [done|]). split; [|done].
      simpl. by apply remove_filter.
    - exfalso. rewrite <- Hs in Hlen. simpl in Hlen. lia. }
  destruct (AddExtensionBlock_Ok b1 (NewCanonicalBlock 0 0 (PreviousNodeBlock own)) _ eq_refl)
    as (b' & -> & Hp & Hl & Hperm & Hsort & Hfresh).
  set (n := next_number _ _ _) in *. exists b', n. split; [done|].
  assert (NoDup (block_numbers (b_ExtensionBlocks b1))) as Hnd1.
  { rewrite He1. eapply sublist_NoDup; [exact Hnd|]. by apply fmap_sublist, sublist_filter. }
  split; [|split; [|split; [congruence|split; [congruence|split; [|split; [done|]]]]]].
  - apply Permutation_singleton_r. rewrite Hperm, filter_cons, decide_True by done.
    rewrite He1, filter_filter_neg. reflexivity.
  - rewrite Hperm, filter_cons, decide_False by done. by rewrite He1, filter_filter_same.
  - by eapply NoDup_numbers_cons; [exact Hperm|..].
  - unfold n, len. rewrite length_fmap, He1. split; [apply next_number_cases|apply next_number_bound].
Qed.

Definition prev_block (n : Z) (e : EndpointID) : CanonicalBlock := mkCanonical n 0 CRC32 [] (Some (PreviousNodeBlock e)).

Lemma previous_node_replaced_witness :
  ∃ b' n, update_previous_node own_node (mkBundle (sample_primary 0) [prev_block 2 (dtn "a" ""); hop_block 3 16 3] (payload_block "x")) = Ok b' ∧
    prev_blocks b' = [mkCanonical n 0 CRCNo [] (Some (PreviousNodeBlock own_node))].
Proof.
  destruct (previous_node_replaced own_node
    (mkBundle (sample_primary 0) [prev_block 2 (dtn "a" ""); hop_block 3 16 3] (payload_block "x"))) as (b' & n & Hu & Hp & _).
  - repeat constructor; eexists; reflexivity.
  - apply (bool_decide_unpack _). vm_compute. exact I.
  - vm_compute. lia.
  - exists b', n. split; [exact Hu|exact Hp].
Defined.

(** ** Lists of goroutines *)

Lemma elem_of_delete_cases {A} (l : list A) i x y : l !! i = Some y → x ∈ l → x = y ∨ x ∈ delete i l.
Proof.
  revert i. induction l as [|z l IH]; intros [|i] Hi Hx; simplify_eq/=; apply elem_of_cons in Hx as [->|Hx]; auto.
  - right. by left.
  - destruct (IH i Hi Hx); [by left|right]. by right.
Qed.

Lemma elem_of_delete_ne {A} (l : list A) i x y : l !! i = Some y → x ∈ l → x ≠ y → x ∈ delete i l.
Proof. intros Hi Hx Hne. by destruct (elem_of_delete_cases l i x y Hi Hx). Qed.

Lemma elem_of_insert_ne {A} (l : list A) i x y z : l !! i = Some y → x ∈ l → x ≠ y → x ∈ <[i := z]> l.
Proof.
  revert i. induction l as [|w l IH]; intros [|i] Hi Hx Hne; simplify_eq/=; apply elem_of_cons in Hx as [->|Hx]; try done.
  - by right.
  - by left.
  - right. by eapply IH.
Qed.

Section Props.
Context `{Cboring} `{Crc16} `{GoMapRange} `{Ed25519} `{Badgerhold} `{!BadgerholdLaws _} `{Sha256}.
Context (ebm : ExtensionBlockManager) {A : Algorithm} `{!AlgorithmLaws A} (ownNodeID : EndpointID).

(** ** The invariant of a node *)

Definition task_loc (t : task) : option nat :=
  match t with
  | F_start loc | F_dispatch loc | F_select loc | F_contraindicated loc | F_load loc _ | F_send loc _ _
  | R_deliver loc _ _ | R_notify loc _ _ | R_check loc => Some loc
  | R_start _ _ => None
  end.

(** The store knows that the peer has the bundle, or the bundle is deleted. *)
Definition recorded (s : BundleStore) (loc : nat) (peer : Convergence) : Prop :=
  ∃ d, st_heap s !! loc = Some d ∧ (d_deleted d = true ∨ cla_PeerEndpointID peer ∈ m_KnownHolders (d_metadata d)).

(** A goroutine has sent the bundle to the peer and not yet recorded it. *)
Definition recording (ts : list task) (loc : nat) (peer : Convergence) : Prop :=
  ∃ b gs, F_send loc b gs ∈ ts ∧ (peer, true) ∈ gs.

Record node_inv (n : Node) : Prop := {
  ni_store : core_inv (w_store (n_world n));
  ni_tasks t loc : t ∈ n_tasks n → task_loc t = Some loc → is_Some (st_heap (w_store (n_world n)) !! loc);
  ni_sent tx : tx ∈ w_sent (n_world n) → tx_ok tx = true →
    recorded (w_store (n_world n)) (tx_loc tx) (tx_peer tx) ∨ recording (n_tasks n) (tx_loc tx) (tx_peer tx);
}.

Lemma recorded_le s s' loc peer : heap_le s s' → recorded s loc peer → recorded s' loc peer.
Proof. intros Hle (d & El & Hd). destruct (Hle _ _ El) as (d' & El' & []). exists d'. naive_solver. Qed.

Lemma loc_le s s' loc : heap_le s s' → is_Some (st_heap s !! loc) → is_Some (st_heap s' !! loc).
Proof. intros Hle [d El]. destruct (Hle _ _ El) as (d' & El' & _). by exists d'. Qed.

Lemma InsertBundle_loc io b s loc s' : core_inv s → InsertBundle io b s = (Ok loc, s') → is_Some (st_heap s' !! loc).
Proof.
  intros Hs. unfold InsertBundle, insertNewBundleUnsafe. destruct (st_bundles s !! Bundle_ID b) as [loc0|] eqn:Eb.
  - destruct (ci_map s Hs _ _ Eb) as (d & El & _). destruct (previous_node b) as [[prev|]| |]; intros; simplify_eq; [|by eexists].
    pose proof (AddKnownHolder_le [prev] loc0 s) as Hle.
    destruct (bd_AddKnownHolder [prev] loc0 s) as [[] s1]; simplify_eq/=. eapply loc_le; [exact Hle|]. by eexists.
  - destruct (previous_node b) as [prev| |]; [|done..]. destruct (db_Insert _ _ _) as [[[]|e|] d]; [|done..].
    destruct (io_create io); [|done]. destruct (Bundle_MarshalCbor b) as [[bs b']| |]; [|done..].
    destruct (io_flush io); [|done]. intros [= <- <-]. simpl. rewrite lookup_app_r by lia. rewrite Nat.sub_diag. by eexists.
Qed.

(** ** Steps of a goroutine *)

(** A call of the store from a goroutine. *)
Lemma on_store_run {B} (m : M BundleStore B) w r w' : on_store m w = (r, w') →
  ∃ s, m (w_store w) = (r, s) ∧ w' = set_w_store s w.
Proof. unfold on_store. destruct (m (w_store w)) as [r' s]. intros [= <- <-]. eauto. Qed.

Lemma or_return_run {B C} (d : C) (m : M World B) k w c w' : or_return d m k w = (Ok c, w') →
  (∃ a w1, m w = (Ok a, w1) ∧ k a w1 = (Ok c, w')) ∨ (∃ e, m w = (Err e, w') ∧ c = d).
Proof. unfold or_return. destruct (m w) as [[a|e|] w1]; [eauto 6| |done]. intros [= <- <-]. eauto. Qed.

Lemma bind_run {B C} (m : M World B) (k : B → M World C) w c w' : (x ← m; k x) w = (Ok c, w') →
  ∃ a w1, m w = (Ok a, w1) ∧ k a w1 = (Ok c, w').
Proof. unfold mbind, M_bind. destruct (m w) as [[a|e|] w1]; [eauto|done..]. Qed.

Lemma start_sending_run loc b peers w ts w' : start_sending ownNodeID loc b peers w = (Ok ts, w') →
  w' = w ∧ ∃ b', update_previous_node ownNodeID b = Ok b' ∧ ts = [F_send loc b' ((λ peer, (peer, false)) <$> peers)].
Proof.
  unfold start_sending, mbind, M_bind, lift_res. destruct (update_previous_node ownNodeID b) as [b'| |]; [|done..].
  intros [= <- <-]. eauto.
Qed.

Lemma logged_store_steps {B} (m : M BundleStore B) w w' : (∀ s, store_step s (m s).2) →
  logged (on_store m) w = (Ok (), w') → store_step (w_store w) (w_store w') ∧ w_sent w' = w_sent w ∧ ∃ r, m (w_store w) = (r, w_store w').
Proof.
  intros Hm. unfold logged, or_return. specialize (Hm (w_store w)). unfold on_store. destruct (m (w_store w)) as [[|e|] s];
    [intros [= <-]|intros [= <-]|done]; simpl in *; eauto.
Qed.

(** What a step of a goroutine may do to the node. *)
Record task_effect (t : task) (w : World) (ts : list task) (w' : World) : Prop := {
  te_store : store_steps (w_store w) (w_store w');
  te_recording loc peer : recording [t] loc peer → recorded (w_store w') loc peer ∨ recording ts loc peer;
  te_sent tx : tx ∈ w_sent w' → tx ∈ w_sent w ∨ (tx_ok tx = true → recording ts (tx_loc tx) (tx_peer tx));
  te_locs t' loc : t' ∈ ts → task_loc t' = Some loc →
    is_Some (st_heap (w_store w') !! loc) ∨ task_loc t = Some loc;
}.

(** A step that sends nothing, of a goroutine that is not sending. *)
Lemma quiet_effect t w ts w' : store_steps (w_store w) (w_store w') → w_sent w' = w_sent w →
  (∀ loc b gs, t ≠ F_send loc b gs) →
  (∀ t' loc, t' ∈ ts → task_loc t' = Some loc → is_Some (st_heap (w_store w') !! loc) ∨ task_loc t = Some loc) →
  task_effect t w ts w'.
Proof.
  intros Hst Hsent Ht Hlocs. constructor; [done| | |done].
  - intros loc peer (b & gs & Hin & _). apply list_elem_of_singleton in Hin. by destruct (Ht loc b gs).
  - intros tx. rewrite Hsent. by left.
Qed.

Lemma not_recording_nil loc peer : ¬ recording [] loc peer.
Proof. by intros (b & gs & ?%not_elem_of_nil & _). Qed.

(** One of the goroutines of [F_send] moves. *)
Lemma send_effect o loc b gs w ts w' : core_inv (w_store w) → is_Some (st_heap (w_store w) !! loc) → gs ≠ [] →
  task_step ebm ownNodeID o (F_send loc b gs) w = (Ok ts, w') → task_effect (F_send loc b gs) w ts w'.
Proof.
  intros Hs [d El] Hgs Hstep. destruct gs as [|g0 gs0]; [done|]. unfold task_step in Hstep.
  remember (g0 :: gs0) as gs eqn:Egs. clear Hgs Egs. cbv zeta in Hstep.
  set (i := (o_pick o `mod` length gs)%nat) in *. destruct (gs !! i) as [[peer []]|] eqn:Ei; [| |done].
  - apply bind_run in Hstep as ([] & w1 & Hr & Hret). unfold mret, M_ret in Hret. simplify_eq.
    apply logged_store_steps in Hr as (Hst & Hsent & r & Hm); [|intros s; constructor].
    constructor.
    + by apply store_steps_one.
    + intros loc' p (b' & gs' & Hin & Hp). apply list_elem_of_singleton in Hin. simplify_eq.
      destruct (decide ((p, true) = (peer, true))) as [[= ->]|Hne]; [left|right].
      * destruct (d_deleted d) eqn:Ed.
        { apply (recorded_le (w_store w)); [by apply store_step_le|]. exists d. auto. }
        destruct (AddKnownHolder_spec [cla_PeerEndpointID peer] loc (w_store w) d El Ed) as (s2 & E2 & Hh).
        rewrite E2 in Hm. simplify_eq. exists (add_holders [cla_PeerEndpointID peer] d).
        rewrite Hh, list_lookup_insert_eq by (by eapply lookup_lt_Some). split; [done|]. right. simpl.
        apply elem_of_app. right. by left.
      * exists b, (delete i gs). split; [by left|]. by eapply elem_of_delete_ne.
    + intros tx. rewrite Hsent. by left.
    + intros t' loc' ->%list_elem_of_singleton [= <-]. by right.
  - unfold send, mbind, M_bind in Hstep. simpl in Hstep. unfold mret, M_ret in Hstep. simplify_eq.
    constructor; simpl.
    + apply steps_refl.
    + intros loc' p (b' & gs' & Hin & Hp). apply list_elem_of_singleton in Hin. simplify_eq. right.
      eexists b, _. split; [by left|]. destruct (o_sent o); [by eapply elem_of_insert_ne|by eapply elem_of_delete_ne].
    + intros tx [Hin|Hin]%elem_of_app; [by left|]. apply list_elem_of_singleton in Hin. subst tx. right. simpl. intros ->.
      eexists b, _. split; [by left|]. apply list_elem_of_insert. by eapply lookup_lt_Some.
    + intros t' loc' ->%list_elem_of_singleton [= <-]. by right.
Qed.

(** A call after which the goroutine returns or continues, still at [loc]. *)
Lemma call_effect t loc (f : M BundleStore ()) ts0 w ts w' : (∀ s, store_step s (f s).2) → task_loc t = Some loc →
  (∀ loc b gs, t ≠ F_send loc b gs) → (∀ t', t' ∈ ts0 → task_loc t' = Some loc) →
  or_return [] (on_store f) (λ _, mret ts0) w = (Ok ts, w') → task_effect t w ts w'.
Proof.
  intros Hf Hloc Ht Hts Hstep.
  assert (store_step (w_store w) (w_store w') ∧ w_sent w' = w_sent w ∧ (ts = ts0 ∨ ts = [])) as (Hst & Hsent & Hcase).
  { apply or_return_run in Hstep as [([] & w1 & Hr & Hret)|(e & Hr & ->)];
      apply on_store_run in Hr as (s & Hm & ->); pose proof (Hf (w_store w)) as Hstep; rewrite Hm in Hstep.
    - unfold mret, M_ret in Hret. simplify_eq. auto.
    - auto. }
  apply quiet_effect; [by apply store_steps_one|done|done|]. intros t' loc' Hin Hl. right.
  destruct Hcase as [->| ->]; [|by apply not_elem_of_nil in Hin]. rewrite (Hts _ Hin) in Hl. congruence.
Qed.

Lemma task_step_effect o t w ts w' : core_inv (w_store w) →
  (∀ loc, task_loc t = Some loc → is_Some (st_heap (w_store w) !! loc)) →
  task_step ebm ownNodeID o t w = (Ok ts, w') → task_effect t w ts w'.
Proof.
  intros Hs Hlocs Hstep.
  destruct t as [loc|loc|loc|loc|loc peers|loc b gs|b new|loc b new|loc b new|loc].
  - eapply call_effect; [| | | |exact Hstep]; [intros s; constructor|done|done|by intros t' ->%list_elem_of_singleton].
  - eapply call_effect; [| | | |exact Hstep]; [intros s; constructor|done|done|by intros t' ->%list_elem_of_singleton].
  - apply bind_run in Hstep as ([peers bundle] & w1 & Hsel & Hk).
    unfold select_peers in Hsel. apply on_store_run in Hsel as (s & Hsel & ->).
    pose proof (select_steps (o_rnd o) (o_now o) loc (GetSenders (w_cla w)) (w_store w)) as Hst. rewrite Hsel in Hst.
    assert (w' = set_w_store s w ∧ (∀ t', t' ∈ ts → task_loc t' = Some loc)) as [-> Hts].
    { destruct peers as [|p peers]; [|destruct bundle as [bundle|]].
      - unfold mret, M_ret in Hk. simplify_eq. split; [done|]. by intros t' ->%list_elem_of_singleton.
      - apply start_sending_run in Hk as (-> & b' & _ & ->). split; [done|]. by intros t' ->%list_elem_of_singleton.
      - unfold mret, M_ret in Hk. simplify_eq. split; [done|]. by intros t' ->%list_elem_of_singleton. }
    apply quiet_effect; [done|done|done|]. intros t' loc' Hin Hl. right. rewrite (Hts _ Hin) in Hl. done.
  - apply bind_run in Hstep as ([] & w1 & Hr & Hret). unfold mret, M_ret in Hret. simplify_eq.
    apply logged_store_steps in Hr as (Hst & Hsent & _); [|intros s; constructor].
    apply quiet_effect; [by apply store_steps_one|done|done|]. by intros t' loc' ?%not_elem_of_nil.
  - apply or_return_run in Hstep as [(b & w1 & Hr & Hk)|(e & Hr & ->)]; unfold load_bundle in Hr; simplify_eq.
    + apply start_sending_run in Hk as (-> & b' & _ & ->).
      apply quiet_effect; [apply steps_refl|done|done|]. intros t' loc' ->%list_elem_of_singleton Hl. by right.
    + apply quiet_effect; [apply steps_refl|done|done|]. by intros t' loc' ?%not_elem_of_nil.
  - destruct gs as [|g gs]; [|by apply (send_effect o loc b (g :: gs)); [|apply Hlocs|..]].
    assert (∃ s, store_step (w_store w) s ∧ w' = set_w_store s w ∧ ts = []) as (s & Hst & -> & ->).
    { apply or_return_run in Hstep as [([] & w1 & Hr & Hret)|(e & Hr & ->)]; apply on_store_run in Hr as (s & Hm & ->);
        pose proof (do_RemoveConstraint ForwardPending loc (w_store w)) as Hst; rewrite Hm in Hst; exists s;
        [unfold mret, M_ret in Hret; simplify_eq|]; done. }
    constructor; simpl; [by apply store_steps_one| |by left|by intros t' loc' ?%not_elem_of_nil].
    intros loc' p (b' & gs' & Hin & Hp). apply list_elem_of_singleton in Hin. simplify_eq. by apply not_elem_of_nil in Hp.
  - pose proof (do_InsertBundle (o_io o) b (w_store w)) as Hst.
    apply or_return_run in Hstep as [(loc & w1 & Hr & Hret)|(e & Hr & ->)]; apply on_store_run in Hr as (s & Hm & ->); rewrite Hm in Hst.
    + unfold mret, M_ret in Hret. simplify_eq. apply quiet_effect; [by apply store_steps_one|done|done|].
      intros t' loc' ->%list_elem_of_singleton [= <-]. left. by eapply InsertBundle_loc.
    + apply quiet_effect; [by apply store_steps_one|done|done|]. by intros t' loc' ?%not_elem_of_nil.
  - apply bind_run in Hstep as ([] & w1 & Hr & Hret). unfold mret, M_ret in Hret. simplify_eq.
    unfold deliver in Hr. destruct (Delivery _ _ _ _) as [r agents]. simplify_eq.
    apply quiet_effect; [apply steps_refl|done|done|]. intros t' loc' ->%list_elem_of_singleton Hl. by right.
  - apply bind_run in Hstep as ([] & w1 & Hr & Hret). unfold mret, M_ret in Hret. simplify_eq.
    apply on_store_run in Hr as (s & Hm & ->). apply quiet_effect; [|done|done|].
    + destruct new; [pose proof (notify_new_steps loc b (w_store w)) as Hn|pose proof (notify_received_steps loc b (w_store w)) as Hn];
        by rewrite Hm in Hn.
    + intros t' loc' ->%list_elem_of_singleton Hl. by right.
  - unfold task_step, check_dispatch in Hstep. destruct (st_heap (w_store w) !! loc) as [bd|]; [|done].
    destruct (HasConstraint bd DispatchPending) as [[]| |]; simplify_eq; (apply quiet_effect; [apply steps_refl|done|done|]);
      intros t' loc' Hin Hl; [apply list_elem_of_singleton in Hin as ->; by right|by apply not_elem_of_nil in Hin..].
Qed.

(** ** All interleavings *)

Lemma dispatchable_loc s loc : loc ∈ GetDispatchable s → is_Some (st_heap s !! loc).
Proof.
  unfold GetDispatchable, select_bundles. rewrite list_elem_of_filter. intros [Hd _].
  destruct (st_heap s !! loc); [by eexists|done].
Qed.

Lemma more_tasks_inv n ts : node_inv n → (∀ t loc, t ∈ ts → task_loc t = Some loc → is_Some (st_heap (w_store (n_world n)) !! loc)) →
  node_inv (mkNode (n_world n) (n_tasks n ++ ts)).
Proof.
  intros [Hs Ht Hsent] Hts. constructor; simpl; [done| |].
  - intros t loc [Hin|Hin]%elem_of_app; [by apply Ht|by apply Hts].
  - intros tx Hin Hok. destruct (Hsent tx Hin Hok) as [Hr|(b & gs & Hin' & Hp)]; [by left|right].
    exists b, gs. split; [|done]. apply elem_of_app. by left.
Qed.

Lemma store_inv_step n s : node_inv n → store_steps (w_store (n_world n)) s →
  node_inv (mkNode (set_w_store s (n_world n)) (n_tasks n)).
Proof.
  intros [Hs Ht Hsent] Hst. pose proof (store_steps_le _ _ Hs Hst) as Hle.
  constructor; simpl; [by eapply store_steps_inv| |].
  - intros t loc Hin Hl. by eapply loc_le, Ht.
  - intros tx Hin Hok. destruct (Hsent tx Hin Hok) as [Hr|Hr]; [left|by right]. by eapply recorded_le.
Qed.

Lemma task_inv_step o i t ts n w : node_inv n → n_tasks n !! i = Some t → task_step ebm ownNodeID o t (n_world n) = (Ok ts, w) →
  node_inv (mkNode w (delete i (n_tasks n) ++ ts)).
Proof.
  intros [Hs Ht Hsent] Hi Hstep. pose proof (list_elem_of_lookup_2 _ _ _ Hi) as Hin.
  destruct (task_step_effect o t (n_world n) ts w Hs (λ loc, Ht t loc Hin) Hstep) as [Hst Hrec Htx Hlocs].
  pose proof (store_steps_le _ _ Hs Hst) as Hle.
  constructor; simpl; [by eapply store_steps_inv| |].
  - intros t' loc [Hin'|Hin']%elem_of_app Hl.
    + eapply loc_le; [exact Hle|]. eapply Ht; [by eapply list_elem_of_delete|done].
    + destruct (Hlocs t' loc Hin' Hl) as [|Hl']; [done|]. by eapply loc_le, Ht.
  - intros tx Htx' Hok.
    assert (∀ loc peer, recording ts loc peer → recording (delete i (n_tasks n) ++ ts) loc peer) as Hmore.
    { intros loc peer (b & gs & Hb & Hp). exists b, gs. split; [|done]. apply elem_of_app. by right. }
    destruct (Htx tx Htx') as [Hold|Hnew]; [|right; by apply Hmore, Hnew].
    destruct (Hsent tx Hold Hok) as [Hr|(b & gs & Hb & Hp)]; [left; by eapply recorded_le|].
    destruct (elem_of_delete_cases _ _ _ _ Hi Hb) as [Heq|Hkept].
    + subst t. destruct (Hrec (tx_loc tx) (tx_peer tx)) as [|Hr]; [|by left|right; by apply Hmore].
      exists b, gs. split; [by left|done].
    + right. exists b, gs. split; [|done]. apply elem_of_app. by left.
Qed.

Lemma node_step_inv n n' : node_inv n → node_step ebm ownNodeID n n' → node_inv n'.
Proof.
  intros Hi Hstep. destruct Hstep as [o i t ts n w Ht Hstep|s n Hst|mg n Hmg|n|b n|b n].
  - by eapply task_inv_step.
  - apply store_inv_step; [done|by apply store_steps_one].
  - by destruct Hi.
  - apply more_tasks_inv; [done|]. intros t loc (l & -> & Hl)%list_elem_of_fmap [= ->]. by apply dispatchable_loc.
  - apply more_tasks_inv; [done|]. by intros t loc ->%list_elem_of_singleton.
  - apply more_tasks_inv; [done|]. by intros t loc ->%list_elem_of_singleton.
Qed.

Lemma node_steps_inv n n' : node_inv n → node_steps ebm ownNodeID n n' → node_inv n'.
Proof. intros Hi. induction 1; eauto using node_step_inv. Qed.

Lemma node_start_inv s mg agents : core_inv s → node_inv (mkNode (mkWorld s mg agents []) []).
Proof. intros Hs. constructor; simpl; [done|by intros t loc ?%not_elem_of_nil|by intros tx ?%not_elem_of_nil]. Qed.

(** C5: start a node with a consistent store and let goroutines, garbage
    collection, connections and receptions interleave in any way.  The store stays
    consistent; and once no goroutine is busy sending a bundle, the routing
    algorithm never again picks, for that bundle, a peer to which it has been sent
    successfully. *)
Theorem no_resend s mg agents n tx rnd now peers sel b s' :
  core_inv s → node_steps ebm ownNodeID (mkNode (mkWorld s mg agents []) []) n →
  core_inv (w_store (n_world n)) ∧
  (tx ∈ w_sent (n_world n) → tx_ok tx = true → (∀ b' gs, F_send (tx_loc tx) b' gs ∉ n_tasks n) →
   SelectPeersForForwarding rnd now (tx_loc tx) peers (w_store (n_world n)) = (Ok (sel, b), s') →
   ∀ cs, cs ∈ sel → cla_PeerEndpointID cs ≠ cla_PeerEndpointID (tx_peer tx)).
Proof.
  intros Hs Hst. destruct (node_steps_inv _ _ (node_start_inv s mg agents Hs) Hst) as [Hs' _ Hsent].
  split; [done|]. intros Hin Hok Hidle Hsel cs Hcs.
  destruct (Hsent tx Hin Hok) as [(d & El & Hd)|(b' & gs & Hb & _)]; [|by destruct (Hidle b' gs)].
  destruct (select_sound rnd now (tx_loc tx) peers _ sel b s' d Hsel El cs Hcs) as (_ & Hlive & Hno).
  destruct Hd as [Hd|Hd]; [congruence|]. intros Heq. by rewrite Heq in Hno.
Qed.
End Props.
