(* ===== verification/ForwardingSpec.v ===== *)
(** * The forwarding procedure as a whole

    What a run of [forwardingAsync] does to the descriptor and to the peers; and, as a
    lemma for the examples, that it is one of the executions of the node's goroutines. *)

From stdpp Require Import base tactics list strings gmap.
From Stdlib Require Import ZArith Lia Bool.
From S2P Require Import Prelude Cboring GoSort Flags Crc DtnTime Endpoint BundleId ExtensionBlocks Blocks.
From S2P Require Import Bundle Samples BundleValid BundleCodec IdKeeper Descriptor Store StoreInv.
From S2P Require Import StoreHistory StoreExamples Cla Routing RoutingProps Mailbox AgentManager.
From S2P Require Import Processing Forwarding.
Local Open Scope Z_scope.

Section Spec.
Context `{Cboring} `{Crc16} `{GoMapRange} `{Ed25519} `{Badgerhold} `{!BadgerholdLaws _} `{Sha256}.
Context (ebm : ExtensionBlockManager) {A : Algorithm} `{!AlgorithmLaws A} (ownNodeID : EndpointID).

(** ** [forwardingAsync] is an execution *)

Lemma node_steps_trans n1 n2 n3 : node_steps ebm ownNodeID n1 n2 → node_steps ebm ownNodeID n2 n3 → node_steps ebm ownNodeID n1 n3.
Proof. intros H12. induction 1; eauto using nss_cons. Qed.

(** A step of the goroutine that started last. *)
Lemma last_step o t ts ts' w w' : task_step ebm ownNodeID o t w = (Ok ts', w') →
  node_steps ebm ownNodeID (mkNode w (ts ++ [t])) (mkNode w' (ts ++ ts')).
Proof.
  intros Hstep. eapply nss_cons; [apply nss_refl|].
  replace (ts ++ ts') with (delete (length ts) (ts ++ [t]) ++ ts') by (by rewrite delete_middle, app_nil_r).
  eapply (ns_task _ _ o (length ts) t ts' (mkNode w (ts ++ [t]))); [|done].
  simpl. by rewrite list_lookup_middle.
Qed.

Definition oracle (o : Oracle) (sent : bool) : Oracle := mkOracle (o_now o) (o_rnd o) (o_io o) (o_order o) 0 sent.

Lemma forward_all_steps (o : Oracle) outcome loc b peers ts : ∀ w w',
  forward_all outcome loc b peers w = (Ok (), w') →
  node_steps ebm ownNodeID (mkNode w (ts ++ [F_send loc b ((λ peer, (peer, false)) <$> peers)]))
    (mkNode w' (ts ++ [F_send loc b []])).
Proof.
  induction peers as [|peer peers IH]; intros w w' Hf; [unfold forward_all, mret, M_ret in Hf; simplify_eq; apply nss_refl|].
  cbn [forward_all] in Hf. apply bind_run in Hf as ([] & w1 & K1 & Hf). rewrite fmap_cons. set (gs := _ <$> peers).
  unfold forwardBundleToPeer in K1. apply bind_run in K1 as ([] & w0 & Hsend & K1).
  eapply node_steps_trans; [|apply IH, Hf].
  assert (∀ ok b', task_step ebm ownNodeID (oracle o ok) (F_send loc b ((peer, false) :: gs)) w = (Ok [b'], w0) →
    node_steps ebm ownNodeID (mkNode w (ts ++ [F_send loc b ((peer, false) :: gs)])) (mkNode w0 (ts ++ [b']))) as Hone
    by (intros; by eapply last_step).
  unfold send in Hsend. simplify_eq. destruct (outcome peer) eqn:Eo.
  - eapply node_steps_trans; [apply (Hone true (F_send loc b ((peer, true) :: gs)))|].
    + unfold task_step. cbn [oracle o_pick o_sent]. rewrite Nat.Div0.mod_0_l. by unfold mbind, M_bind, send; simpl; rewrite ?Eo.
    + eapply (last_step (oracle o true)). unfold task_step. cbn [oracle o_pick]. rewrite Nat.Div0.mod_0_l. simpl.
      unfold mbind, M_bind. by rewrite K1.
  - unfold mret, M_ret in K1. simplify_eq. apply (Hone false). unfold task_step. cbn [oracle o_pick o_sent].
    rewrite Nat.Div0.mod_0_l. by unfold mbind, M_bind, send; simpl; rewrite ?Eo.
Qed.

Lemma transmit_steps (o : Oracle) outcome loc b peers ts w w' :
  transmit ownNodeID outcome loc b peers w = (Ok (), w') →
  ∃ b', update_previous_node ownNodeID b = Ok b' ∧
    node_steps ebm ownNodeID (mkNode w (ts ++ [F_send loc b' ((λ peer, (peer, false)) <$> peers)])) (mkNode w' ts).
Proof.
  unfold transmit. intros Ht. apply bind_run in Ht as (b' & w0 & Hu & Ht). unfold lift_res in Hu. simplify_eq.
  apply bind_run in Ht as ([] & w1 & Hf & Hr). exists b'. split; [done|].
  eapply node_steps_trans; [by eapply (forward_all_steps o)|]. rewrite <- (app_nil_r ts) at 2.
  eapply (last_step o). unfold task_step. unfold logged, or_return in *.
  destruct (on_store _ w1) as [[]]; unfold mret, M_ret in *; by simplify_eq.
Qed.

Lemma forwardingAsync_steps o outcome loc w w' ts :
  forwardingAsync ebm ownNodeID o outcome loc w = (Ok (), w') →
  node_steps ebm ownNodeID (mkNode w (ts ++ [F_start loc])) (mkNode w' ts).
Proof.
  intros Hf. unfold forwardingAsync in Hf.
  assert (∀ t w1 w2, task_step ebm ownNodeID o t w1 = (Ok [], w2) →
    node_steps ebm ownNodeID (mkNode w1 (ts ++ [t])) (mkNode w2 ts)) as Hend.
  { intros t w1 w2 Hs. rewrite <- (app_nil_r ts) at 2. by eapply last_step. }
  apply or_return_run in Hf as [([] & w1 & K1 & Hf)|(e & K1 & _)].
  2:{ apply (Hend (F_start loc)). unfold task_step, or_return. by rewrite K1. }
  eapply node_steps_trans; [apply (last_step o (F_start loc) ts [F_dispatch loc] w w1); unfold task_step, or_return; by rewrite K1|].
  apply or_return_run in Hf as [([] & w2 & K2 & Hf)|(e & K2 & _)].
  2:{ apply (Hend (F_dispatch loc)). unfold task_step, or_return. by rewrite K2. }
  eapply node_steps_trans; [apply (last_step o (F_dispatch loc) ts [F_select loc] w1 w2); unfold task_step, or_return; by rewrite K2|].
  apply bind_run in Hf as ([peers bundle] & w3 & K3 & Hf).
  destruct peers as [|p peers]; [|destruct bundle as [bundle|]].
  - eapply node_steps_trans; [apply (last_step o (F_select loc) ts [F_contraindicated loc] w2 w3); unfold task_step, mbind, M_bind; by rewrite K3|].
    apply (Hend (F_contraindicated loc)). unfold task_step, mbind, M_bind. by rewrite Hf.
  - destruct (transmit_steps o outcome loc bundle (p :: peers) ts w3 w' Hf) as (b' & Hb & Hsteps).
    eapply node_steps_trans; [|exact Hsteps]. eapply (last_step o). unfold task_step, start_sending, mbind, M_bind, lift_res. rewrite K3. by rewrite Hb.
  - eapply node_steps_trans; [apply (last_step o (F_select loc) ts [F_load loc (p :: peers)] w2 w3); unfold task_step, mbind, M_bind; by rewrite K3|].
    apply or_return_run in Hf as [(b & w4 & K4 & Hf)|(e & K4 & _)].
    + destruct (transmit_steps o outcome loc b (p :: peers) ts w4 w' Hf) as (b' & Hb & Hsteps).
      eapply node_steps_trans; [|exact Hsteps]. eapply (last_step o). unfold task_step, or_return, start_sending, mbind, M_bind, lift_res.
      rewrite K4. by rewrite Hb.
    + apply (Hend (F_load loc (p :: peers))). unfold task_step, or_return. by rewrite K4.
Qed.

(** ** What a run does *)

Lemma add_holders_nil d : add_holders [] d = d.
Proof. unfold add_holders, set_d_metadata, set_m_KnownHolders. rewrite app_nil_r. by destruct d as [[]]. Qed.

Lemma add_holders_app l k d : add_holders k (add_holders l d) = add_holders (l ++ k) d.
Proof. unfold add_holders, set_d_metadata, set_m_KnownHolders. simpl. by rewrite (assoc app). Qed.

(** The peers that got the bundle. *)
Definition reached (outcome : Convergence → bool) (peers : list Convergence) : list EndpointID :=
  cla_PeerEndpointID <$> filter (λ p, outcome p = true) peers.

Lemma forward_all_spec outcome loc b peers : ∀ w w' d,
  st_heap (w_store w) !! loc = Some d → d_deleted d = false → forward_all outcome loc b peers w = (Ok (), w') →
  st_heap (w_store w') !! loc = Some (add_holders (reached outcome peers) d) ∧
  w_sent w' = w_sent w ++ ((λ p, mkTx loc b p (outcome p)) <$> peers).
Proof.
  induction peers as [|peer peers IH]; intros w w' d El Ed Hf.
  { unfold forward_all, mret, M_ret in Hf. simplify_eq. rewrite add_holders_nil, app_nil_r. done. }
  cbn [forward_all] in Hf. apply bind_run in Hf as ([] & w1 & K1 & Hf).
  unfold forwardBundleToPeer in K1. apply bind_run in K1 as ([] & w0 & Hsend & K1). unfold send in Hsend. simplify_eq.
  assert (st_heap (w_store w1) !! loc = Some (add_holders (reached outcome [peer]) d) ∧
    w_sent w1 = w_sent w ++ [mkTx loc b peer (outcome peer)]) as [El1 Hs1].
  { unfold reached. rewrite filter_cons. destruct (outcome peer) eqn:Eo.
    - rewrite decide_True by done. apply logged_store_steps in K1 as (_ & Hsent & r & Hm); [|intros s; constructor].
      split; [|done]. destruct (AddKnownHolder_spec [cla_PeerEndpointID peer] loc (w_store w) d El Ed) as (s2 & E2 & Hh).
      simpl in Hm. rewrite E2 in Hm. simplify_eq. rewrite Hh. apply list_lookup_insert_eq. by eapply lookup_lt_Some.
    - rewrite decide_False by done. unfold mret, M_ret in K1. simplify_eq. simpl. by rewrite add_holders_nil. }
  destruct (IH w1 w' _ El1 Ed Hf) as [El' Hs']. rewrite El', Hs', Hs1, add_holders_app, <- (assoc app). split; [|done].
  unfold reached. rewrite <- fmap_app, <- filter_app. done.
Qed.

(** The constraints of a descriptor that has been forwarded. *)
Definition released_constraints (bd : BundleDescriptor) : list Z :=
  filter (λ c, c ≠ DispatchPending ∧ c ≠ ForwardPending) (d_retentionConstraints bd).

(** A method of a live descriptor called by a goroutine. *)
Lemma call_spec (f : BundleDescriptor → res () * BundleDescriptor * bool) loc w d d' go :
  st_heap (w_store w) !! loc = Some d → f d = (Ok (), d', go) →
  ∃ s, on_store (desc_op f loc) w = (Ok (), set_w_store s w) ∧ st_heap s !! loc = Some d'.
Proof.
  intros El Ef. unfold on_store, desc_op. rewrite El, Ef. eexists. split; [reflexivity|].
  destruct go; simpl; apply list_lookup_insert_eq; by eapply lookup_lt_Some.
Qed.

(** The descriptor after step 1. *)
Definition forwarding_desc (bd : BundleDescriptor) : BundleDescriptor :=
  mkDescriptor (d_metadata bd) (filter (λ c, c ≠ DispatchPending) (d_retentionConstraints bd) ++ [ForwardPending]) true false false
    (d_shouldDelete bd).

Lemma step_one_spec loc w bd : st_heap (w_store w) !! loc = Some bd → d_deleted bd = false →
  ∃ s1 s2, on_store (bd_AddConstraint ForwardPending loc) w = (Ok (), set_w_store s1 w) ∧
    on_store (bd_RemoveConstraint DispatchPending loc) (set_w_store s1 w) = (Ok (), set_w_store s2 w) ∧
    st_heap s2 !! loc = Some (forwarding_desc bd).
Proof.
  intros El Ed. destruct (call_spec (λ d, (AddConstraint ForwardPending d, false)) loc w bd
    (mkDescriptor (d_metadata bd) (d_retentionConstraints bd ++ [ForwardPending]) true false false (d_shouldDelete bd)) false El)
    as (s1 & E1 & El1); [unfold AddConstraint; by rewrite Ed|].
  destruct (call_spec (RemoveConstraint DispatchPending) loc (set_w_store s1 w) _ (forwarding_desc bd) false El1) as (s2 & E2 & El2).
  { unfold RemoveConstraint, forwarding_desc. cbn [d_deleted d_retentionConstraints d_metadata d_shouldDelete]. rewrite filter_app.
    change (filter (λ c, c ≠ DispatchPending) [ForwardPending]) with [ForwardPending].
    set (l := filter _ _). assert ((0 <? len (l ++ [ForwardPending])) = true) as ->.
    { apply Z.ltb_lt. rewrite len_app. change (len [ForwardPending]) with 1. pose proof (len_nonneg l). lia. }
    rewrite existsb_app. simpl. by rewrite orb_true_r. }
  exists s1, s2. done.
Qed.

Lemma forwarding_released bd d : d_retentionConstraints d = d_retentionConstraints (forwarding_desc bd) →
  filter (λ c, c ≠ ForwardPending) (d_retentionConstraints d) = released_constraints bd.
Proof.
  intros ->. unfold forwarding_desc, released_constraints. cbn [d_retentionConstraints]. rewrite filter_app, list_filter_filter.
  change (filter (λ c, c ≠ ForwardPending) [ForwardPending]) with (@nil Z). rewrite app_nil_r. apply list_filter_iff. naive_solver.
Qed.

(** Step 6 on a descriptor with the constraints of step 1. *)
Lemma finish_spec loc w w' bd d : st_heap (w_store w) !! loc = Some d → d_deleted d = false →
  d_retentionConstraints d = d_retentionConstraints (forwarding_desc bd) →
  logged (on_store (bd_RemoveConstraint ForwardPending loc)) w = (Ok (), w') →
  w_sent w' = w_sent w ∧ ∃ d', st_heap (w_store w') !! loc = Some d' ∧ d_metadata d' = d_metadata d ∧
    d_retentionConstraints d' = released_constraints bd ∧ d_dispatch d' = true.
Proof.
  intros El Ed Hc. assert (∃ d' go, RemoveConstraint ForwardPending d = (Ok (), d', go) ∧ d_metadata d' = d_metadata d ∧
    d_retentionConstraints d' = released_constraints bd ∧ d_dispatch d' = true) as (d' & go & Ef & Hrest).
  { unfold RemoveConstraint, unsafeDelete. rewrite Ed, (forwarding_released bd d Hc). simpl.
    assert (existsb (Z.eqb ForwardPending) (released_constraints bd) = false) as Hno.
    { apply not_true_is_false. rewrite existsb_exists. intros (c & Hin & Heq%Z.eqb_eq).
      apply list_elem_of_In, list_elem_of_filter in Hin as [[_ Hne] _]. by destruct Hne. }
    rewrite Hno. destruct (_ && _); eauto 10. }
  destruct (call_spec _ loc w d d' go El Ef) as (s & E & El'). unfold logged, or_return. unfold bd_RemoveConstraint. rewrite E.
  intros [= <-]. eauto.
Qed.

(** Steps 4 to 6. *)
Lemma transmit_spec outcome loc b peers w w' bd d : st_heap (w_store w) !! loc = Some d → d_deleted d = false →
  d_retentionConstraints d = d_retentionConstraints (forwarding_desc bd) →
  transmit ownNodeID outcome loc b peers w = (Ok (), w') →
  ∃ b' d', update_previous_node ownNodeID b = Ok b' ∧ st_heap (w_store w') !! loc = Some d' ∧
    w_sent w' = w_sent w ++ ((λ p, mkTx loc b' p (outcome p)) <$> peers) ∧
    m_KnownHolders (d_metadata d') = m_KnownHolders (d_metadata d) ++ reached outcome peers ∧
    d_retentionConstraints d' = released_constraints bd ∧ d_dispatch d' = true.
Proof.
  unfold transmit. intros El Ed Hc Ht. apply bind_run in Ht as (b' & w0 & Hu & Ht). unfold lift_res in Hu. simplify_eq.
  apply bind_run in Ht as ([] & w1 & Hf & Hr). destruct (forward_all_spec outcome loc b' peers w0 w1 d El Ed Hf) as [El1 Hs1].
  destruct (finish_spec loc w1 w' bd _ El1 Ed Hc Hr) as (Hs & d' & El' & Hm & Hrest).
  exists b', d'. rewrite Hs, Hs1, Hm. done.
Qed.

(** C8: an uninterrupted run of forwarding on a live bundle ends in one of three
    ways.  The routing algorithm selects no peer: nothing is sent, and the
    descriptor has no constraint and can be dispatched again.  It selects peers, all
    of them senders whose peer is not a known holder: each gets the bundle (the one the
    algorithm returned, or else the stored one) once, with the previous node block
    replaced, those who got it are recorded as holders, and
    both processing constraints are gone.  Or the bundle cannot be loaded: nothing
    is sent and [ForwardPending] stays, so the bundle is neither dispatched nor
    collected. *)
Theorem forwarding_spec o outcome loc w w' bd :
  st_heap (w_store w) !! loc = Some bd → d_deleted bd = false →
  forwardingAsync ebm ownNodeID o outcome loc w = (Ok (), w') →
  ∃ s2 s3 sel selected bd', st_heap (w_store w') !! loc = Some bd' ∧
    SelectPeersForForwarding (o_rnd o) (o_now o) loc (GetSenders (w_cla w)) s2 = (Ok (sel, selected), s3) ∧
    (∀ cs, cs ∈ sel → cs ∈ GetSenders (w_cla w) ∧ cla_PeerEndpointID cs ∉ m_KnownHolders (d_metadata bd)) ∧
    ((sel = [] ∧ w_sent w' = w_sent w ∧ d_retentionConstraints bd' = [] ∧ d_dispatch bd' = true) ∨
     (sel ≠ [] ∧ d_retentionConstraints bd' = released_constraints bd ∧ d_dispatch bd' = true ∧
      (∀ e, e ∈ reached outcome sel → e ∈ m_KnownHolders (d_metadata bd')) ∧
      ∃ b b', (selected = Some b ∨ selected = None ∧ Load ebm (o_now o) loc s3 = Ok b) ∧
        update_previous_node ownNodeID b = Ok b' ∧
        w_sent w' = w_sent w ++ ((λ p, mkTx loc b' p (outcome p)) <$> sel)) ∨
     (sel ≠ [] ∧ w_sent w' = w_sent w ∧ d_dispatch bd' = false ∧ d_retain bd' = true ∧
      ∃ e, Load ebm (o_now o) loc (w_store w') = Err e)).
Proof.
  intros El Ed Hf. unfold forwardingAsync in Hf.
  destruct (step_one_spec loc w bd El Ed) as (s1 & s2 & E1 & E2 & El2). unfold or_return at 1 in Hf. rewrite E1 in Hf.
  unfold or_return at 1 in Hf. rewrite E2 in Hf. apply bind_run in Hf as ([sel bundle] & w3 & K3 & Hf).
  unfold select_peers in K3. apply on_store_run in K3 as (s3 & Hsel & ->). simpl in Hsel.
  assert (∀ cs, cs ∈ sel → cs ∈ GetSenders (w_cla w) ∧ cla_PeerEndpointID cs ∉ m_KnownHolders (d_metadata bd)) as Hsound.
  { intros cs Hcs. destruct (select_sound _ _ _ _ _ _ _ _ _ Hsel El2 cs Hcs) as (? & _ & ?). done. }
  pose proof (select_frame (o_rnd o) (o_now o) loc (GetSenders (w_cla w)) s2 loc) as Hframe. rewrite Hsel, El2 in Hframe. simpl in Hframe.
  destruct (st_heap s3 !! loc) as [d3|] eqn:El3; [|done]. simpl in Hframe. injection Hframe as Hc3 Hr3 Hp3 Hd3 _.
  destruct sel as [|p sel]; [|destruct bundle as [b|]].
  - exists s2, s3, [], bundle. assert (∃ d' go, ResetConstraints d3 = (Ok (), d', go) ∧ d_retentionConstraints d' = [] ∧ d_dispatch d' = true)
      as (d' & go & Ef & Hrest).
    { unfold ResetConstraints, unsafeDelete. rewrite Hd3. simpl. destruct (d_shouldDelete d3); eauto 10. }
    destruct (call_spec _ loc (set_w_store s3 (set_w_store s2 w)) d3 d' go El3 Ef) as (s & E & El').
    unfold bundleContraindicated, logged, or_return, bd_ResetConstraints in Hf. rewrite E in Hf. unfold mret, M_ret in Hf. simplify_eq.
    exists d'. do 3 (split; [done|]). left. destruct Hrest. done.
  - exists s2, s3, (p :: sel), (Some b). destruct (transmit_spec outcome loc b _ (set_w_store s3 (set_w_store s2 w)) w' bd d3 El3 Hd3 Hc3 Hf)
      as (b' & d' & Hu & El' & Hs' & Hh & Hc' & Hdp).
    exists d'. do 3 (split; [done|]). right; left. do 3 (split; [done|]). split; [|eauto 10].
    intros e He. rewrite Hh. apply elem_of_app. by right.
  - exists s2, s3, (p :: sel), None. apply or_return_run in Hf as [(b & w4 & K4 & Hf)|(e & K4 & _)]; unfold load_bundle in K4; simplify_eq.
    + destruct (transmit_spec outcome loc b _ (set_w_store s3 (set_w_store s2 w)) w' bd d3 El3 Hd3 Hc3 Hf)
        as (b' & d' & Hu & El' & Hs' & Hh & Hc' & Hdp).
      exists d'. do 3 (split; [done|]). right; left. do 3 (split; [done|]). split; [|eauto 10].
      intros e He. rewrite Hh. apply elem_of_app. by right.
    + exists d3. do 3 (split; [done|]). right; right. simpl. rewrite Hr3, Hp3. eauto 10.
Qed.
End Spec.

(** ** Executions by schedule *)

Section Run.
Context `{Cboring} `{Crc16} `{GoMapRange} `{Ed25519} `{Badgerhold} `{Sha256}.
Context (ebm : ExtensionBlockManager) {A : Algorithm} (ownNodeID : EndpointID).

(** The goroutines move as a schedule tells; [None] if one panics. *)
Fixpoint run_schedule (schedule : list (nat * Oracle)) (n : Node) : option Node :=
  match schedule with
  | [] => Some n
  | (i, o) :: schedule =>
      t ← n_tasks n !! i;
      match task_step ebm ownNodeID o t (n_world n) with
      | (Ok ts, w) => run_schedule schedule (mkNode w (delete i (n_tasks n) ++ ts))
      | _ => None
      end
  end.

Lemma run_schedule_steps schedule : ∀ n0 n n', node_steps ebm ownNodeID n0 n → run_schedule schedule n = Some n' →
  node_steps ebm ownNodeID n0 n'.
Proof.
  induction schedule as [|[i o] schedule IH]; intros n0 n n' Hst Hr; simpl in Hr; [by simplify_eq|].
  destruct (n_tasks n !! i) as [t|] eqn:Ei; [|done]. simpl in Hr.
  destruct (task_step ebm ownNodeID o t (n_world n)) as [[ts| |] w] eqn:Et; [|done..].
  eapply IH; [|exact Hr]. eapply nss_cons; [exact Hst|]. by eapply ns_task.
Qed.
End Run.

(** ** Examples *)

Definition is_Some_b {A} (x : option A) : bool := match x with Some _ => true | None => false end.

#[local] Existing Instance EpidemicRouting.

Definition some_oracle : Oracle := mkOracle 0 0 io_ok [] 0 true.
Definition senders (l : list Convergence) : Manager := mkManager [] l [] ∅ [] [].
Definition sample_world (l : list Convergence) : World := mkWorld one_bundle (senders l) ∅ [].
Definition only_a (p : Convergence) : bool := bool_decide (p = peer_a).
Definition forwarded : res () * World :=
  forwardingAsync GetExtensionBlockManager own_node some_oracle only_a 0 (sample_world [peer_a; peer_b]).

Lemma forwarded_ok : forwarded = (Ok (), forwarded.2).
Proof.
  assert (Hr : forwarded.1 = Ok ()) by (vm_compute; reflexivity).
  destruct forwarded as [r w]. cbn [fst] in Hr. by subst r.
Qed.

Lemma forwarding_spec_witness :
  ∃ bd', st_heap (w_store forwarded.2) !! 0%nat = Some bd' ∧ d_retentionConstraints bd' = [] ∧ d_dispatch bd' = true ∧
    ((λ tx, (tx_peer tx, tx_ok tx)) <$> w_sent forwarded.2) = [(peer_a, true); (peer_b, false)].
Proof.
  destruct (st_heap one_bundle !! 0%nat) as [bd|] eqn:E; [|vm_compute in E; discriminate E].
  assert (d_deleted bd = false ∧ released_constraints bd = []) as [Hd Hc]
    by (vm_compute in E; injection E as <-; split; vm_compute; reflexivity).
  assert (Hs : ((λ tx, (tx_peer tx, tx_ok tx)) <$> w_sent forwarded.2) = [(peer_a, true); (peer_b, false)]) by (vm_compute; reflexivity).
  destruct (forwarding_spec GetExtensionBlockManager own_node some_oracle only_a 0 (sample_world [peer_a; peer_b]) forwarded.2 bd E Hd forwarded_ok)
    as (s2 & s3 & sel & selected & bd' & Hl & _ & _ & [(_ & Hsent & _)|[(_ & Hc' & Hdp & _)|(_ & Hsent & _)]]).
  - rewrite Hsent in Hs. discriminate Hs.
  - exists bd'. rewrite Hc'. split; [exact Hl|]. split; [exact Hc|]. split; [exact Hdp|exact Hs].
  - rewrite Hsent in Hs. discriminate Hs.
Defined.

Lemma dispatch_one : GetDispatchable one_bundle = [0%nat].
Proof. vm_compute. reflexivity. Qed.

Lemma no_resend_witness :
  ∃ sel s', SelectPeersForForwarding 0 0 0 [peer_a; peer_b] (w_store forwarded.2) = (Ok (sel, None), s') ∧
    ∀ cs, cs ∈ sel → cla_PeerEndpointID cs ≠ dtn "a" "".
Proof.
  assert (node_steps GetExtensionBlockManager own_node (mkNode (sample_world [peer_a; peer_b]) []) (mkNode forwarded.2 [])) as Hst.
  { eapply node_steps_trans; [eapply nss_cons; [apply nss_refl|apply ns_dispatch]|].
    unfold DispatchAll. cbn [n_world n_tasks w_store sample_world]. rewrite dispatch_one.
    exact (forwardingAsync_steps GetExtensionBlockManager own_node some_oracle only_a 0 _ _ [] forwarded_ok). }
  destruct (w_sent forwarded.2) as [|tx l] eqn:E; [vm_compute in E; discriminate E|].
  assert ((tx_loc tx, tx_peer tx, tx_ok tx) = (0%nat, peer_a, true)) as Htx
    by (vm_compute in E; injection E as <- _; reflexivity).
  injection Htx as Hloc Hpeer Hok.
  destruct (SelectPeersForForwarding 0 0 0 [peer_a; peer_b] (w_store forwarded.2)) as [r s'] eqn:Es.
  assert (Hr : (SelectPeersForForwarding 0 0 0 [peer_a; peer_b] (w_store forwarded.2)).1 = Ok ([peer_b], None))
    by (vm_compute; reflexivity).
  rewrite Es in Hr. cbn [fst] in Hr. subst r. exists [peer_b], s'. split; [reflexivity|].
  destruct (no_resend GetExtensionBlockManager own_node one_bundle (senders [peer_a; peer_b]) ∅ (mkNode forwarded.2 []) tx
    0 0 [peer_a; peer_b] [peer_b] None s') as [_ Hno].
  - apply InsertBundle_inv, empty_store_inv.
  - exact Hst.
  - rewrite Hloc, Hpeer in Hno. apply Hno.
    + cbn [n_world]. rewrite E. left.
    + exact Hok.
    + intros b gs. apply not_elem_of_nil.
    + exact Es.
Defined.

(** Two goroutines that forward the same bundle at the same time, as two peers
    that connect at once start them, both send it to the same peer: neither sees the
    holder the other is about to record. *)
Theorem concurrent_forwarding_duplicates :
  ∃ n, node_steps GetExtensionBlockManager own_node (mkNode (sample_world [peer_a]) []) n ∧
    ((λ tx, (tx_loc tx, tx_peer tx, tx_ok tx)) <$> w_sent (n_world n)) = [(0%nat, peer_a, true); (0%nat, peer_a, true)] ∧
    n_tasks n = [].
Proof.
  set (start := mkNode (sample_world [peer_a]) [F_start 0; F_start 0]).
  destruct (run_schedule GetExtensionBlockManager own_node (replicate 14 (0%nat, some_oracle)) start) as [n|] eqn:E.
  - exists n. split.
    + eapply run_schedule_steps; [|exact E]. apply (nss_cons _ _ _ (NewPeer (dtn "b" "") (mkNode (sample_world [peer_a]) []))).
      * eapply nss_cons; [apply nss_refl|apply ns_dispatch].
      * unfold NewPeer, DispatchAll. cbn [n_world n_tasks w_store sample_world]. rewrite dispatch_one. unfold start.
        pose proof (ns_dispatch GetExtensionBlockManager own_node (mkNode (sample_world [peer_a]) [F_start 0])) as Hd.
        unfold DispatchAll in Hd. cbn [n_world n_tasks w_store sample_world] in Hd. rewrite dispatch_one in Hd. exact Hd.
    + assert (Hw : match run_schedule GetExtensionBlockManager own_node (replicate 14 (0%nat, some_oracle)) start with
        | Some n => ((λ tx, (tx_loc tx, tx_peer tx, tx_ok tx)) <$> w_sent (n_world n), n_tasks n) | None => ([], []) end =
        ([(0%nat, peer_a, true); (0%nat, peer_a, true)], [])) by (vm_compute; reflexivity).
      rewrite E in Hw. split; [exact (f_equal fst Hw)|exact (f_equal snd Hw)].
  - exfalso. assert (Hs : is_Some_b (run_schedule GetExtensionBlockManager own_node (replicate 14 (0%nat, some_oracle)) start) = true)
      by (vm_compute; reflexivity). by rewrite E in Hs.
Qed.
