(* ===== verification/Reception.v ===== *)
(** * Reception

    [receiveAsync] is one of the executions of the node's goroutines, and what it
    does with a bundle the store does not have and with one it has. *)

From stdpp Require Import base tactics list strings gmap.
From Stdlib Require Import ZArith Lia Bool.
From S2P Require Import Prelude Cboring GoSort Flags Crc DtnTime Endpoint BundleId ExtensionBlocks Blocks.
From S2P Require Import Bundle Samples BundleValid BundleCodec IdKeeper Descriptor Store StoreInv.
From S2P Require Import StoreHistory StoreExamples Cla Routing RoutingProps Mailbox MailboxProps.
From S2P Require Import AgentManager Processing Forwarding ForwardingSpec.
Local Open Scope Z_scope.

Section Reception.
Context `{Cboring} `{Crc16} `{GoMapRange} `{Ed25519} `{Badgerhold} `{!BadgerholdLaws _} `{Sha256}.
Context (ebm : ExtensionBlockManager) {A : Algorithm} `{!AlgorithmLaws A} (ownNodeID : EndpointID).

(** Every run of [receiveAsync] is one of the executions of the node's
    goroutines, beside any other goroutines [ts]; the forwarding goroutine it starts
    is left running. *)
Theorem receiveAsync_refines o bundle new w w' ts ts' :
  receiveAsync o bundle new w = (Ok ts', w') →
  node_steps ebm ownNodeID (mkNode w (ts ++ [R_start bundle new])) (mkNode w' (ts ++ ts')).
Proof.
  unfold receiveAsync. intros Hr. apply or_return_run in Hr as [(loc & w1 & K1 & Hr)|(e & K1 & ->)].
  2:{ eapply (last_step ebm ownNodeID o). unfold task_step, or_return. by rewrite K1. }
  apply bind_run in Hr as ([] & w2 & K2 & Hr). apply bind_run in Hr as ([] & w3 & K3 & Hr).
  eapply node_steps_trans; [eapply (last_step ebm ownNodeID o _ _ [R_deliver loc bundle new]); unfold task_step, or_return; by rewrite K1|].
  eapply node_steps_trans; [eapply (last_step ebm ownNodeID o _ _ [R_notify loc bundle new]); unfold task_step, mbind, M_bind; by rewrite K2|].
  eapply node_steps_trans; [eapply (last_step ebm ownNodeID o _ _ [R_check loc]); unfold task_step, mbind, M_bind; by rewrite K3|].
  by eapply (last_step ebm ownNodeID o).
Qed.

(** What delivery and the notice leave of a descriptor. *)
Lemma notified_constraints new loc bundle w w' r l : notify new loc bundle w = (r, w') →
  d_retentionConstraints <$> st_heap (w_store w') !! l = d_retentionConstraints <$> st_heap (w_store w) !! l ∧
  d_deleted <$> st_heap (w_store w') !! l = d_deleted <$> st_heap (w_store w) !! l.
Proof.
  unfold notify. intros (s & Hs & ->)%on_store_run. pose proof (notify_frame new loc bundle (w_store w) l) as Hf.
  assert (Hf' : ((if new then NotifyNewBundle else NotifyReceivedBundle) loc bundle (w_store w)).2 = s) by (destruct new; by rewrite Hs).
  rewrite Hf' in Hf. simpl. destruct (st_heap s !! l), (st_heap (w_store w) !! l); simpl in Hf; simplify_eq; simpl; split; congruence.
Qed.

Lemma deliver_store o loc w w' r : deliver o loc w = (r, w') → w_store w' = w_store w ∧ w_sent w' = w_sent w ∧ w_cla w' = w_cla w.
Proof. unfold deliver. destruct (Delivery _ _ _ _) as [r' agents]. intros [= <- <-]. done. Qed.

(** A bundle that is inserted has the constraint [DispatchPending]. *)
Lemma insert_new_desc io b s loc s' : st_bundles s !! Bundle_ID b = None → InsertBundle io b s = (Ok loc, s') →
  ∃ m, st_heap s' !! loc = Some (NewBundleDescriptor m) ∧ m_ID m = Bundle_ID b.
Proof.
  intros Hnew. unfold InsertBundle, insertNewBundleUnsafe. rewrite Hnew.
  destruct (previous_node b) as [prev| |]; [|done..]. destruct (db_Insert _ _ _) as [[[]|e|] d]; [|done..].
  destruct (io_create io); [|done]. destruct (Bundle_MarshalCbor b) as [[bs b']| |]; [|done..].
  destruct (io_flush io); [|done]. intros [= <- <-]. simpl. eexists. rewrite lookup_app_r, Nat.sub_diag by lia. done.
Qed.

Lemma check_dispatch_run loc w ts w' : check_dispatch loc w = (Ok ts, w') →
  w' = w ∧ ∃ bd, st_heap (w_store w) !! loc = Some bd ∧
    ts = if negb (d_deleted bd) && existsb (Z.eqb DispatchPending) (d_retentionConstraints bd) then [F_start loc] else [].
Proof.
  unfold check_dispatch, HasConstraint. destruct (st_heap (w_store w) !! loc) as [bd|]; [|done].
  destruct (d_deleted bd) eqn:Ed; [intros [= <- <-]; split; [done|]; exists bd; by rewrite Ed|].
  destruct (existsb _ _) eqn:Ee; intros [= <- <-]; (split; [done|]; exists bd; by rewrite Ed, Ee).
Qed.

(** C22: a run of reception that returns.  The state of the CLAs and the log of
    transmissions do not change.  A bundle the store did not have is stored, and its
    forwarding starts; for a bundle the store has, forwarding starts only if it is
    still waiting for its first dispatch, so a duplicate of a bundle that has been
    dispatched is not forwarded.  If the insertion fails, nothing else happens.  (What
    the delivery to the agents does is the subject of [AgentManager].) *)
Theorem reception_spec o bundle new w w' ts :
  core_inv (w_store w) → receiveAsync o bundle new w = (Ok ts, w') →
  w_cla w' = w_cla w ∧ w_sent w' = w_sent w ∧
  match (InsertBundle (o_io o) bundle (w_store w)).1 with
  | Ok loc =>
      match st_bundles (w_store w) !! Bundle_ID bundle with
      | None => ts = [F_start loc]
      | Some loc0 => loc = loc0 ∧ ∃ bd, st_heap (w_store w) !! loc = Some bd ∧
          ts = if negb (d_deleted bd) && existsb (Z.eqb DispatchPending) (d_retentionConstraints bd) then [F_start loc] else []
      end
  | _ => ts = [] ∧ w_agents w' = w_agents w
  end.
Proof.
  intros Hs. unfold receiveAsync. intros Hr.
  apply or_return_run in Hr as [(loc & w1 & K1 & Hr)|(e & K1 & ->)]; apply on_store_run in K1 as (s & Hi & ->); rewrite Hi; cbn [fst].
  2:{ done. }
  apply bind_run in Hr as ([] & w2 & K2 & Hr). apply bind_run in Hr as ([] & w3 & K3 & Hr).
  destruct (deliver_store _ _ _ _ _ K2) as (Hst & Hsent & Hcla).
  destruct (notified_constraints _ _ _ _ _ _ loc K3) as [Hc Hd].
  assert (w_cla w3 = w_cla w2 ∧ w_sent w3 = w_sent w2) as [Hcla3 Hsent3].
  { unfold notify in K3. by apply on_store_run in K3 as (s3 & _ & ->). }
  apply check_dispatch_run in Hr as (-> & bd3 & E3 & ->). rewrite Hcla3, Hsent3, Hcla, Hsent. do 2 (split; [done|]).
  rewrite E3, Hst in Hc, Hd. simpl in Hc, Hd.
  destruct (st_heap s !! loc) as [bd|] eqn:E; [|done]. simpl in Hc, Hd. injection Hc as ->. injection Hd as ->.
  destruct (st_bundles (w_store w) !! Bundle_ID bundle) as [loc0|] eqn:Eb.
  - destruct (ci_map _ Hs _ _ Eb) as (bd0 & E0 & _).
    assert (loc = loc0 ∧ d_retentionConstraints bd = d_retentionConstraints bd0 ∧ d_deleted bd = d_deleted bd0) as (-> & -> & ->);
      [|split; [done|]; by exists bd0].
    unfold InsertBundle in Hi. rewrite Eb in Hi. destruct (previous_node bundle) as [[prev|]| |]; [| |done..].
    + unfold bd_AddKnownHolder, updateBundleMetadata in Hi. rewrite E0 in Hi. destruct (d_deleted bd0) eqn:Ed; [done|].
      destruct (db_Update _ _ _) as [r d]. simplify_eq. simpl in E.
      rewrite list_lookup_insert_eq in E by (by eapply lookup_lt_Some). by simplify_eq.
    + injection Hi as <- <-. rewrite E0 in E. by injection E as ->.
  - destruct (insert_new_desc _ _ _ _ _ Eb Hi) as (m & Em & _). rewrite E in Em. by simplify_eq.
Qed.
End Reception.

(** ** Examples *)

#[local] Existing Instance EpidemicRouting.

Definition reception_oracle : Oracle := mkOracle 0 0 io_ok [Agent_Name unix_agent] 0 true.
Definition start_world : World := mkWorld empty_store (senders [peer_a]) sample_agents [].
Definition received : res (list task) * World := receiveAsync reception_oracle sample_bundle false start_world.

Lemma received_ok : received = (Ok [F_start 0], received.2).
Proof.
  assert (Hr : received.1 = Ok [F_start 0]) by (vm_compute; reflexivity).
  destruct received as [r w]. cbn [fst] in Hr. by subst r.
Qed.

Lemma receiveAsync_refines_witness :
  node_steps GetExtensionBlockManager own_node (mkNode start_world [R_start sample_bundle false]) (mkNode received.2 [F_start 0]).
Proof. exact (receiveAsync_refines GetExtensionBlockManager own_node reception_oracle sample_bundle false _ _ [] _ received_ok). Defined.

Lemma reception_spec_witness : w_sent received.2 = [] ∧ [F_start 0] = [F_start (length (st_heap empty_store))].
Proof.
  pose proof (reception_spec reception_oracle sample_bundle false start_world received.2 [F_start 0] empty_store_inv received_ok)
    as (_ & Hs & Hcase).
  assert (Hi : (InsertBundle (o_io reception_oracle) sample_bundle (w_store start_world)).1 = Ok 0%nat) by (vm_compute; reflexivity).
  rewrite Hi in Hcase.
  assert (Hn : st_bundles (w_store start_world) !! Bundle_ID sample_bundle = None) by (vm_compute; reflexivity).
  rewrite Hn in Hcase. split; [exact Hs|exact Hcase].
Defined.

(** The agent's client fetches and removes its bundles, then a copy of the bundle
    arrives. *)
Definition mailbox_of (w : World) : option Mailbox :=
  a ← w_agents w !! Agent_Name unix_agent; mb_mailboxes (Agent_mailboxes a) !! dtn "dst" "in".

Definition fetched : World :=
  set_w_agents (<[Agent_Name unix_agent := set_mailboxes (mkBank [dtn "dst" "in"] (<[dtn "dst" "in" := ∅]> ∅)) unix_agent]>
    (w_agents received.2)) received.2.

(** Reception delivers again a bundle whose message the client has removed: the
    copy of a bundle that arrives over another path reaches the application twice. *)
Theorem duplicate_redelivered :
  (λ mb : Mailbox, mb !! sample_id) <$> mailbox_of received.2 = Some (Some false) ∧
  (λ mb : Mailbox, mb !! sample_id) <$> mailbox_of fetched = Some None ∧
  (λ mb : Mailbox, mb !! sample_id) <$> mailbox_of (receiveAsync reception_oracle sample_bundle false fetched).2 = Some (Some false).
Proof. split; [|split]; vm_compute; reflexivity. Qed.
