(* ===== verification/Quiescence.v ===== *)
(** * Goroutines end

    The goroutines of [pkg/processing], however they interleave and whatever the other
    users of the shared state do in between, take only finitely many steps. *)

From stdpp Require Import base tactics list strings gmap.
From Stdlib Require Import ZArith Lia Bool.
From S2P Require Import Prelude Cboring GoSort Flags Crc DtnTime Endpoint BundleId ExtensionBlocks Blocks.
From S2P Require Import Bundle Samples BundleValid BundleCodec IdKeeper Descriptor Store StoreInv StoreHistory StoreExamples.
From S2P Require Import Cla Routing RoutingProps Mailbox AgentManager Processing.
Local Open Scope Z_scope.

(** ** Pools of jobs

    A job is replaced by the jobs that remain of it; if that cannot go on for ever with a
    single job, it cannot with a pool of them. *)

Section Pool.
Context {T : Type} (step : T → list T → Prop).

Definition pool_step (ts ts' : list T) : Prop := ∃ t rest us, ts ≡ₚ t :: rest ∧ step t us ∧ ts' ≡ₚ us ++ rest.

Abbreviation ends := (Acc (λ ts' ts, pool_step ts ts')).

Lemma ends_perm ts ts' : ts ≡ₚ ts' → ends ts → ends ts'.
Proof.
  intros Hp [Hacc]. constructor. intros us (t & rest & vs & Ht & Hs & Hu). apply Hacc. exists t, rest, vs.
  split; [by rewrite Hp|done].
Qed.

Lemma ends_app l1 l2 : ends l1 → ends l2 → ends (l1 ++ l2).
Proof.
  intros H1. revert l2. induction H1 as [l1 A1 IH1]. intros l2 H2. induction H2 as [l2 A2 IH2]. constructor.
  intros ts (t & rest & us & Ht & Hs & Hu).
  assert (t ∈ l1 ++ l2) as [Hin|Hin]%elem_of_app by (rewrite Ht; left).
  - apply elem_of_Permutation in Hin as (r1 & Hr). rewrite Hr in Ht. simpl in Ht. apply Permutation_cons_inv in Ht.
    apply (ends_perm ((us ++ r1) ++ l2)); [by rewrite Hu, <- Ht, (assoc_L (++))|].
    apply IH1; [by exists t, r1, us|by constructor].
  - apply elem_of_Permutation in Hin as (r2 & Hr). rewrite Hr, <- Permutation_middle in Ht. apply Permutation_cons_inv in Ht.
    apply (ends_perm (l1 ++ (us ++ r2))); [rewrite Hu, <- Ht, !(assoc_L (++)); by rewrite (Permutation_app_comm l1 us)|].
    apply IH2. by exists t, r2, us.
Qed.

Lemma ends_nil : ends [].
Proof. constructor. intros ts (t & rest & us & Ht & _). by apply Permutation_nil_cons in Ht. Qed.

Lemma ends_all ts : Forall (λ t, ends [t]) ts → ends ts.
Proof. induction 1 as [|t ts Ht _ IH]; [apply ends_nil|]. by apply (ends_app [t]). Qed.

Lemma ends_single t : (∀ us, step t us → Forall (λ u, ends [u]) us) → ends [t].
Proof.
  intros Hs. constructor. intros ts (t' & rest & us & Ht & Hstep & Hu). symmetry in Ht.
  apply Permutation_singleton_r in Ht. injection Ht as -> ->. rewrite app_nil_r in Hu.
  apply (ends_perm us); [done|]. by apply ends_all, Hs.
Qed.
End Pool.

(** ** The goroutines of the package *)

Section Quiescence.
Context `{Cboring} `{Crc16} `{GoMapRange} `{Ed25519} `{Badgerhold} `{Sha256}.
Context (ebm : ExtensionBlockManager) {A : Algorithm} (own : EndpointID).

(** What may remain of a goroutine after one of its calls, in whatever state the call finds
    the rest of the program. *)
Definition remains (t : task) (ts : list task) : Prop := ∃ o w w', task_step ebm own o t w = (Ok ts, w').

Lemma or_return_Ok {B C} (d : C) (m : M World B) (k : B → M World C) w c w' : or_return d m k w = (Ok c, w') →
  c = d ∨ ∃ a w1, m w = (Ok a, w1) ∧ k a w1 = (Ok c, w').
Proof. unfold or_return. destruct (m w) as [[a| |] w1]; intros E; [right; eauto|left; congruence|done]. Qed.

Lemma M_bind_Ok {σ B C} (m : M σ B) (k : B → M σ C) s c s' : (x ← m; k x) s = (Ok c, s') →
  ∃ a s1, m s = (Ok a, s1) ∧ k a s1 = (Ok c, s').
Proof. unfold mbind, M_bind. destruct (m s) as [[a| |] s1]; intros E; [eauto|done..]. Qed.

Lemma start_sending_Ok loc b peers w ts w' : start_sending own loc b peers w = (Ok ts, w') →
  ∃ b', ts = [F_send loc b' ((λ peer, (peer, false)) <$> peers)].
Proof. intros (b' & w1 & _ & [= <- _])%M_bind_Ok. by exists b'. Qed.

(** Work left in a set of transmissions: two calls each, one for those that only have to
    be recorded. *)
Definition work (gs : list (Convergence * bool)) : nat := sum_list_with (λ g : Convergence * bool, if g.2 then 1 else 2)%nat gs.

Lemma work_delete i gs (g : Convergence * bool) : gs !! i = Some g → (work gs = work (delete i gs) + if g.2 then 1 else 2)%nat.
Proof.
  revert i. induction gs as [|x gs IH]; intros [|i]; simpl; [done|done| |]; intros E.
  - injection E as ->. unfold work. simpl. lia.
  - unfold work in *. simpl. specialize (IH i E). lia.
Qed.

Lemma work_insert i gs peer : gs !! i = Some (peer, false) → (work (<[i := (peer, true)]> gs) < work gs)%nat.
Proof.
  revert i. induction gs as [|x gs IH]; intros [|i]; simpl; [done|done| |]; intros E.
  - injection E as ->. unfold work. simpl. lia.
  - unfold work in *. simpl. specialize (IH i E). lia.
Qed.

Abbreviation finishes t := (Acc (λ ts' ts, pool_step remains ts ts') [t]).

Lemma F_send_step o loc b gs : gs ≠ [] → task_step ebm own o (F_send loc b gs) =
  let i := (o_pick o `mod` length gs)%nat in
  match gs !! i with
  | None => panic
  | Some (peer, false) => send (o_sent o) loc b peer;; mret [F_send loc b (if o_sent o then <[i := (peer, true)]> gs else delete i gs)]
  | Some (peer, true) => record_holder loc peer;; mret [F_send loc b (delete i gs)]
  end.
Proof. by destruct gs. Qed.

Lemma F_send_finishes loc b gs : finishes (F_send loc b gs).
Proof.
  remember (work gs) as n eqn:En. revert gs En. induction (lt_wf n) as [n _ IH]. intros gs ->. apply ends_single.
  intros ts (o & w & w' & Hs). destruct gs as [|g gs].
  { cbn [task_step] in Hs. apply or_return_Ok in Hs as [->|(a & w1 & _ & [= <- _])]; constructor. }
  rewrite F_send_step in Hs by done. cbv zeta in Hs. generalize dependent (g :: gs). clear g gs. intros l IH Hs.
  destruct (l !! (o_pick o `mod` length l)%nat) as [[peer r]|] eqn:Eg; [|done].
  destruct r; apply M_bind_Ok in Hs as (? & w1 & _ & [= <- _]); (constructor; [|constructor]);
    (eapply IH; [|reflexivity]); pose proof (work_delete _ _ _ Eg); simpl in *; [lia|].
  destruct (o_sent o); [by apply work_insert|lia].
Qed.

Lemma sending_finishes loc b peers w ts w' : start_sending own loc b peers w = (Ok ts, w') → Forall (λ u, finishes u) ts.
Proof. intros (b' & ->)%start_sending_Ok. apply Forall_singleton, F_send_finishes. Qed.

Lemma F_contraindicated_finishes loc : finishes (F_contraindicated loc).
Proof. apply ends_single. intros ts (o & w & w' & (? & w1 & _ & [= <- _])%M_bind_Ok). constructor. Qed.

Lemma F_load_finishes loc peers : finishes (F_load loc peers).
Proof.
  apply ends_single. intros ts (o & w & w' & [->|(b & w1 & _ & E)]%or_return_Ok); [constructor|by eapply sending_finishes].
Qed.

Lemma F_select_finishes loc : finishes (F_select loc).
Proof.
  apply ends_single. intros ts (o & w & w' & ([peers b] & w1 & _ & E)%M_bind_Ok).
  destruct peers as [|p peers]; [injection E as <- _; apply Forall_singleton, F_contraindicated_finishes|].
  destruct b as [b|]; [by eapply sending_finishes|injection E as <- _]. apply Forall_singleton, F_load_finishes.
Qed.

Lemma F_dispatch_finishes loc : finishes (F_dispatch loc).
Proof.
  apply ends_single. intros ts (o & w & w' & [->|(x & w1 & _ & [= <- _])]%or_return_Ok);
    [apply Forall_nil_2|apply Forall_singleton, F_select_finishes].
Qed.

Lemma F_start_finishes loc : finishes (F_start loc).
Proof.
  apply ends_single. intros ts (o & w & w' & [->|(x & w1 & _ & [= <- _])]%or_return_Ok);
    [apply Forall_nil_2|apply Forall_singleton, F_dispatch_finishes].
Qed.

Lemma R_check_finishes loc : finishes (R_check loc).
Proof.
  apply ends_single. intros ts (o & w & w' & E). cbn [task_step] in E. unfold check_dispatch in E.
  destruct (st_heap (w_store w) !! loc) as [bd|]; [|done].
  destruct (HasConstraint bd DispatchPending) as [[]| |]; injection E as <- _;
    [apply Forall_singleton, F_start_finishes|apply Forall_nil_2..].
Qed.

Lemma R_notify_finishes loc bundle new : finishes (R_notify loc bundle new).
Proof. apply ends_single. intros ts (o & w & w' & (? & w1 & _ & [= <- _])%M_bind_Ok). apply Forall_singleton, R_check_finishes. Qed.

Lemma R_deliver_finishes loc bundle new : finishes (R_deliver loc bundle new).
Proof. apply ends_single. intros ts (o & w & w' & (? & w1 & _ & [= <- _])%M_bind_Ok). apply Forall_singleton, R_notify_finishes. Qed.

Lemma R_start_finishes bundle new : finishes (R_start bundle new).
Proof.
  apply ends_single. intros ts (o & w & w' & [->|(loc & w1 & _ & [= <- _])]%or_return_Ok);
    [apply Forall_nil_2|apply Forall_singleton, R_deliver_finishes].
Qed.

Lemma task_finishes t : finishes t.
Proof.
  destruct t; auto using F_start_finishes, F_dispatch_finishes, F_select_finishes, F_contraindicated_finishes, F_load_finishes,
    F_send_finishes, R_start_finishes, R_deliver_finishes, R_notify_finishes, R_check_finishes.
Qed.

(** ** Steps without errors

    A goroutine logs the errors of the calls it makes: a step that does not panic leads to
    the next one. *)

Definition no_err {σ B} (m : M σ B) : Prop := ∀ s e, (m s).1 ≠ Err e.

Lemma no_err_bind {σ B C} (m : M σ B) (k : B → M σ C) : no_err m → (∀ a, no_err (k a)) → no_err (m ≫= k).
Proof.
  intros Hm Hk s e. unfold mbind, M_bind. specialize (Hm s). destruct (m s) as [[a|e'|] s']; simpl in *; [apply Hk|by intros [= ->]; eapply Hm|done].
Qed.

Lemma no_err_ret {σ B} (b : B) : no_err (mret b : M σ B).
Proof. by intros s e. Qed.

Lemma no_err_or_return {B C} (d : C) (m : M World B) (k : B → M World C) : (∀ a, no_err (k a)) → no_err (or_return d m k).
Proof. intros Hk s e. unfold or_return. destruct (m s) as [[a|e'|] s']; [apply Hk|done|done]. Qed.

Lemma no_err_on_store {B} (m : M BundleStore B) : no_err m → no_err (on_store m).
Proof. intros Hm w e. unfold on_store. specialize (Hm (w_store w)). by destruct (m (w_store w)). Qed.

Lemma no_err_start_sending loc b peers : no_err (start_sending own loc b peers).
Proof.
  apply no_err_bind; [|intros; apply no_err_ret]. intros w e. unfold lift_res. simpl. unfold update_previous_node.
  destruct (ExtensionBlockByType _ _); [..|done]; by destruct (AddExtensionBlock _ _).
Qed.

Lemma no_err_deliver o loc : no_err (deliver o loc).
Proof.
  intros w e. unfold deliver. generalize (w_agents w). intros ag.
  enough ((Delivery (o_order o) loc (w_store w) ag).1 ≠ Err e) as Hd by by destruct (Delivery _ _ _ _).
  revert ag. induction (o_order o) as [|name order IH]; intros ag; [done|]. cbn [Delivery]. destruct (ag !! name) as [a|]; [|apply IH].
  destruct (Agent_Deliver loc (w_store w) a) as [[]]; [apply IH|apply IH|done].
Qed.
End Quiescence.

(** The algorithms' methods have no error results. *)
Class AlgorithmTotal `{Badgerhold} (A : Algorithm) : Prop := {
  select_no_err rnd now loc peers : no_err (SelectPeersForForwarding rnd now loc peers);
  notify_no_err loc b : no_err (NotifyNewBundle loc b) ∧ no_err (NotifyReceivedBundle loc b);
}.

Section Total.
Context `{Cboring} `{Crc16} `{GoMapRange} `{Ed25519} `{Badgerhold} `{Sha256}.
Context (ebm : ExtensionBlockManager).

#[global] Instance epidemic_total : AlgorithmTotal EpidemicRouting.
Proof.
  constructor; [|by intros loc b; split; intros s e]. intros rnd now loc peers s e. simpl. by destruct (st_heap s !! loc).
Qed.

Lemma setSprayCopies_no_err loc copies : no_err (setSprayCopies loc copies).
Proof. intros s e. unfold setSprayCopies. by destruct (bd_SetMiscData _ _ _ _) as [[]]. Qed.

#[global] Instance spray_total router : AlgorithmTotal (SprayRouting ebm router).
Proof.
  constructor; simpl.
  - intros rnd now loc peers. unfold spray_Select, spray_copies. apply no_err_bind.
    + apply no_err_bind.
      * intros s e. unfold getSprayCopies. repeat case_match; done.
      * intros [c|]; [apply no_err_ret|]. apply no_err_bind; [apply setSprayCopies_no_err|intros; apply no_err_ret].
    + intros copies. case_match; [apply no_err_ret|]. case_match; [apply no_err_ret|]. intros s e.
      destruct (st_heap s !! loc) as [bd|]; [|done]. cbv zeta. case_match; [done|]. case_match.
      * unfold selectBinarySpray. destruct (split_copies copies). repeat (case_match; try done).
        apply no_err_bind; [intros ? ?; unfold lift_res, pick; simpl; by case_match|]. intros p. apply no_err_bind; [apply setSprayCopies_no_err|intros; apply no_err_ret].
      * apply no_err_bind; [|intros; apply no_err_ret]. unfold selectBasicSpray. case_match.
        apply no_err_bind; [apply setSprayCopies_no_err|intros; apply no_err_ret].
  - intros loc b. split; [apply setSprayCopies_no_err|]. unfold spray_NotifyReceivedBundle.
    destruct (ExtensionBlockByType _ _) as [[i c]| |]; [|apply setSprayCopies_no_err|by intros s e].
    destruct (cb_Value c) as [[]|]; try (by intros s e). apply setSprayCopies_no_err.
Qed.
End Total.

(** ** Nodes *)

Section Nodes.
Context `{Cboring} `{Crc16} `{GoMapRange} `{Ed25519} `{Badgerhold} `{Sha256}.
Context (ebm : ExtensionBlockManager) {A : Algorithm} `{!AlgorithmTotal A} (own : EndpointID).

(** A call of one of the goroutines of a node. *)
Definition goroutine_step (n n' : Node) : Prop := ∃ o i t ts w,
  n_tasks n !! i = Some t ∧ task_step ebm own o t (n_world n) = (Ok ts, w) ∧ n' = mkNode w (delete i (n_tasks n) ++ ts).

(** The same after anything else has changed the shared state. *)
Definition works (n n' : Node) : Prop := ∃ w, goroutine_step (mkNode w (n_tasks n)) n'.

Lemma task_step_no_err o t : no_err (task_step ebm own o t).
Proof.
  destruct t; cbn [task_step]; try (apply no_err_or_return; intros; apply no_err_ret).
  - apply no_err_bind; [intros w e; unfold select_peers; apply no_err_on_store, select_no_err|]. intros [[|p peers] [b|]]; try apply no_err_ret.
    apply no_err_start_sending.
  - apply no_err_bind; [apply no_err_or_return; intros; apply no_err_ret|intros; apply no_err_ret].
  - apply no_err_or_return. intros. apply no_err_start_sending.
  - destruct gs as [|g gs]; [apply no_err_or_return; intros; apply no_err_ret|]. case_match; [|by intros w e]. case_match. case_match.
    + apply no_err_bind; [apply no_err_or_return; intros; apply no_err_ret|intros; apply no_err_ret].
    + apply no_err_bind; [by intros w e|intros; apply no_err_ret].
  - apply no_err_bind; [apply no_err_deliver|intros; apply no_err_ret].
  - apply no_err_bind; [|intros; apply no_err_ret]. apply no_err_on_store. destruct (notify_no_err loc bundle), new; done.
  - intros w e. unfold check_dispatch. repeat case_match; done.
Qed.

(** C7: the goroutines of a node come to an end: there is no infinite sequence of their
    calls, whatever the other users of the shared state do between them, and where none of
    them can go on, those that have not finished are about to panic. *)
Theorem goroutines_end : well_founded (λ n' n, works n n') ∧
  ∀ n, (∀ n', ¬ goroutine_step n n') → ∀ o t, t ∈ n_tasks n → (task_step ebm own o t (n_world n)).1 = Panic.
Proof.
  split.
  - intros [w ts]. assert (Acc (λ ts' ts, pool_step (remains ebm own) ts ts') ts) as Hacc.
    { apply ends_all, Forall_forall. intros t _. apply task_finishes. }
    revert w. induction Hacc as [ts _ IH]. intros w. constructor.
    intros n' (w0 & o & i & t & us & w1 & Hi & Hs & ->). simpl in Hi, Hs. apply IH. exists t, (delete i ts), us.
    split; [by apply delete_Permutation|]. split; [by exists o, w0, w1|]. simpl. apply Permutation_app_comm.
  - intros n Hstuck o t Hin. destruct (task_step ebm own o t (n_world n)) as [[us|e|] w] eqn:E; [| |done].
    + apply list_elem_of_lookup in Hin as (i & Hi). destruct (Hstuck (mkNode w (delete i (n_tasks n) ++ us))). by exists o, i, t, us, w.
    + destruct (task_step_no_err o t (n_world n) e). by rewrite E.
Qed.
End Nodes.

(** ** Example *)

Lemma goroutines_end_witness :
  Acc (λ n' n, works (A := EpidemicRouting) GetExtensionBlockManager own_node n n') (mkNode (mkWorld one_bundle InitialiseCLAManager ∅ []) [F_start 0; F_start 0]).
Proof. apply (proj1 (goroutines_end (A := EpidemicRouting) GetExtensionBlockManager own_node)). Defined.
