(* ===== verification/Content.v ===== *)
(** * The content of a bundle

    On its way a bundle changes its previous node block and the CRC values; everything
    else is its content.  Serialising, transferring and forwarding keep the content and
    the form of a bundle, and hence both are invariants of a network ([Network]). *)

From stdpp Require Import base tactics list strings gmap.
From Stdlib Require Import ZArith Lia Bool.
From S2P Require Import Prelude Cboring GoSort Flags Crc DtnTime Endpoint BundleId ExtensionBlocks Blocks.
From S2P Require Import Bundle Samples BundleValid BundleCodec IdKeeper Descriptor Store StoreInv.
From S2P Require Import StoreHistory StoreExamples Cla Routing RoutingProps Mailbox AgentManager Processing Forwarding.
Local Open Scope Z_scope.

Abbreviation plain_block := (set_cb_CRC []).

(** Two bundles with the same primary block, payload block and extension blocks but the
    previous node block, up to the order of the blocks and to CRC values. *)
Record same_content (b b' : Bundle) : Prop := {
  sc_primary : set_pb_CRC [] (b_PrimaryBlock b) = set_pb_CRC [] (b_PrimaryBlock b');
  sc_payload : plain_block (b_PayloadBlock b) = plain_block (b_PayloadBlock b');
  sc_others : plain_block <$> other_blocks b ≡ₚ plain_block <$> other_blocks b';
}.

#[global] Instance same_content_equivalence : Equivalence same_content.
Proof.
  split.
  - by intros b; constructor.
  - intros b b' []. by constructor.
  - intros b1 b2 b3 [] []. constructor; by etrans.
Qed.

Lemma plain_filter (f : CanonicalBlock → bool) v (l : list CanonicalBlock) : (∀ cb, f (plain_block cb) = f cb) →
  plain_block <$> filter (λ cb, f cb = v) l = filter (λ cb, f cb = v) (plain_block <$> l).
Proof.
  intros Hf. induction l as [|c l IH]; [done|]. rewrite fmap_cons, !filter_cons, Hf.
  by case_decide; rewrite ?fmap_cons, IH.
Qed.

Lemma plain_type t v (l : list CanonicalBlock) : plain_block <$> filter (λ cb, has_type t cb = v) l = filter (λ cb, has_type t cb = v) (plain_block <$> l).
Proof. by apply plain_filter. Qed.

Lemma plain_numbers (l : list CanonicalBlock) : block_numbers (plain_block <$> l) = block_numbers l.
Proof. rewrite <- list_fmap_compose. by apply list_fmap_ext. Qed.

Lemma erase_parts b b' : erase_crc b = erase_crc b' →
  set_pb_CRC [] (b_PrimaryBlock b) = set_pb_CRC [] (b_PrimaryBlock b') ∧
  plain_block <$> b_ExtensionBlocks b = plain_block <$> b_ExtensionBlocks b' ∧
  plain_block (b_PayloadBlock b) = plain_block (b_PayloadBlock b').
Proof.
  intros E. split_and!; [exact (f_equal b_PrimaryBlock E)|exact (f_equal b_ExtensionBlocks E)|exact (f_equal b_PayloadBlock E)].
Qed.

Lemma erase_same_content b b' : erase_crc b = erase_crc b' → same_content b b'.
Proof. intros (Hp & He & Hl)%erase_parts. constructor; [done..|]. by rewrite !plain_type, He. Qed.

(** The primary block determines the id and the destination. *)
Lemma primary_ID b b' : set_pb_CRC [] (b_PrimaryBlock b) = set_pb_CRC [] (b_PrimaryBlock b') → Bundle_ID b = Bundle_ID b'.
Proof. unfold Bundle_ID. destruct (b_PrimaryBlock b), (b_PrimaryBlock b'). unfold set_pb_CRC. simpl. by intros [= <- <- <- <- <- <- <- <- <- <-]. Qed.

#[global] Instance Bundle_ID_proper : Proper (same_content ==> eq) Bundle_ID.
Proof. intros b b' []. by apply primary_ID. Qed.

#[global] Instance destination_proper : Proper (same_content ==> eq) (λ b, pb_Destination (b_PrimaryBlock b)).
Proof. intros b b' [Hp _ _]. by injection Hp. Qed.

(** The blocks are numbered apart and at most one names the previous node. *)
Definition well_numbered (b : Bundle) : Prop :=
  NoDup (block_numbers (b_ExtensionBlocks b)) ∧ (length (prev_blocks b) ≤ 1)%nat.

Lemma erase_well_numbered b b' : erase_crc b = erase_crc b' → well_numbered b' → well_numbered b.
Proof.
  unfold well_numbered. intros (_ & He & _)%erase_parts [Hn Hl].
  rewrite <- (plain_numbers (b_ExtensionBlocks b)), He, plain_numbers. split; [done|].
  rewrite <- (length_fmap plain_block), plain_type, He, <- plain_type. by rewrite length_fmap.
Qed.

Section Content.
Context `{Cboring} `{!CboringLaws _} `{Crc16} `{GoMapRange} `{Ed25519}.
Context (ebm : ExtensionBlockManager).

Lemma wf_all_valued b : Bundle_wf ebm b → all_valued (b_ExtensionBlocks b).
Proof.
  intros (_ & Hl & _). eapply Forall_impl; [exact Hl|]. intros cb [(_ & _ & _ & _ & Hv) _]. by destruct (cb_Value cb).
Qed.

(** A valid bundle is well numbered where the registry knows the previous node block. *)
Lemma valid_well_numbered now b : createBlock ebm BlockTypePreviousNodeBlock = KPreviousNode →
  Bundle_wf ebm b → Bundle_CheckValid now b = Ok [] → well_numbered b.
Proof.
  intros Hk Hwf (_ & _ & _ & _ & Hb & _)%Bundle_CheckValid_nil. destruct (check_blocks_nil _ _ _ _ Hb) as (Hnd & _ & Hctx).
  split; [done|]. destruct (prev_blocks b) as [|cb l] eqn:Ep; [simpl; lia|].
  assert (cb ∈ prev_blocks b) as [Ht Hin]%list_elem_of_filter by (rewrite Ep; by left).
  apply list_elem_of_lookup in Hin as [i Hi]. destruct (Hctx i cb Hi) as (v & Ev & Hc). simpl in Hc.
  destruct Hwf as (_ & Hl & _). eapply Forall_lookup_1 in Hl as [(_ & _ & _ & _ & Hv) _]; [|exact Hi]. rewrite Ev in Hv.
  destruct Hv as (_ & _ & _ & Hr). unfold has_type in Ht. rewrite Ev in Ht. apply Z.eqb_eq in Ht.
  unfold registered in Hr. rewrite Ht, Hk in Hr. destruct v; try discriminate Hr.
  apply CheckContextValid_unique in Hc as (cb' & _ & Hf); [|done]. simpl in Hf.
  change (BlockTypeCode _) with BlockTypePreviousNodeBlock in Hf. rewrite Ep in Hf. by rewrite Hf.
Qed.

(** ** Serialising *)

Lemma canonical_marshal_wf cb bs cb' : CanonicalBlock_wf ebm cb → CanonicalBlock_MarshalCbor cb = Ok (bs, cb') →
  CanonicalBlock_wf ebm cb' ∧ has_type BlockTypePayloadBlock cb' = has_type BlockTypePayloadBlock cb.
Proof.
  unfold CanonicalBlock_MarshalCbor. intros Hwf. destruct (canonical_body cb) as [body| |]; [|done..]. simpl.
  destruct (CanonicalBlock_HasCRC cb) eqn:Ec; [|by intros [= <- <-]].
  destruct (calculateCRCBuff _ _); [|done..]. simpl. intros [= <- <-]. split; [|done].
  destruct Hwf as (? & ? & ? & ? & ?). split_and!; try done. change (CanonicalBlock_HasCRC cb = false → a = []). congruence.
Qed.

Lemma marshal_blocks_keep l bs l' :
  Forall (λ cb, CanonicalBlock_wf ebm cb ∧ has_type BlockTypePayloadBlock cb = false) l → marshal_blocks l = Ok (bs, l') →
  Forall (λ cb, CanonicalBlock_wf ebm cb ∧ has_type BlockTypePayloadBlock cb = false) l'.
Proof.
  intros Hl. revert bs l'. induction Hl as [|cb l [Hcb Ht] Hl IH]; intros bs l'; simpl; [by intros [= <- <-]|].
  destruct (CanonicalBlock_MarshalCbor cb) as [[cbs cb']| |] eqn:E; [|done..].
  destruct (marshal_blocks l) as [[rest l2]| |]; [|done..]. simpl. intros [= <- <-].
  destruct (canonical_marshal_wf _ _ _ Hcb E) as [Hw Ht']. constructor; [split; [done|congruence]|by eapply IH].
Qed.

(** The CRC values that serialising fills in leave the bundle well formed. *)
Lemma marshal_keeps_wf b bs b' : Bundle_wf ebm b → Bundle_MarshalCbor b = Ok (bs, b') → Bundle_wf ebm b'.
Proof.
  intros (Hp & Hl & Hc & Ht). unfold Bundle_MarshalCbor.
  destruct (PrimaryBlock_Marshal_wf _ Hp) as (pbs & pcrc & Ep & Hcrc). rewrite Ep. simpl.
  destruct (marshal_blocks _) as [[ebs l']| |] eqn:El; [|done..]. simpl.
  destruct (CanonicalBlock_MarshalCbor _) as [[cbs c']| |] eqn:Ec; [|done..]. simpl. intros [= <- <-].
  destruct (canonical_marshal_wf _ _ _ Hc Ec) as [Hc' Ht'].
  split; [|split; [by eapply marshal_blocks_keep|split; [done|by simpl; rewrite Ht']]].
  destruct Hp as (? & ? & ? & ? & ? & ? & ? & ? & ? & ? & ? & ? & ? & ? & ?). unfold PrimaryBlock_wf. split_and!; try done.
  change (PrimaryBlock_HasCRC (b_PrimaryBlock b) = false → pcrc = []). intros Hn. rewrite Hn in Hcrc. by apply length_zero_iff_nil.
Qed.

(** ** Genuine bundles *)

(** A form of the bundle [b0]: well formed, well numbered and with its content. *)
Record genuine (b0 b : Bundle) : Prop := {
  ge_wf : Bundle_wf ebm b;
  ge_numbered : well_numbered b;
  ge_content : same_content b0 b;
}.

Lemma genuine_erase b0 b b' : genuine b0 b → Bundle_wf ebm b' → erase_crc b' = erase_crc b → genuine b0 b'.
Proof.
  intros [Hwf Hn Hc] Hwf' E. split; [done|by eapply erase_well_numbered|].
  etrans; [exact Hc|]. symmetry. by apply erase_same_content.
Qed.

Lemma genuine_marshal b0 b bs b' : genuine b0 b → Bundle_MarshalCbor b = Ok (bs, b') → genuine b0 b'.
Proof.
  intros Hg Hm. eapply genuine_erase; [exact Hg|by eapply marshal_keeps_wf; [apply Hg|]|].
  destruct (Bundle_Marshal_wf ebm b (ge_wf _ _ Hg)) as (body & b2 & Hm' & He & _). rewrite Hm in Hm'. by injection Hm' as -> ->.
Qed.

(** ** Forwarding *)

(** A node id that fits a previous node block. *)
Definition announceable_node (own : EndpointID) : Prop :=
  EndpointID_wf own ∧ EndpointID_fits own ∧ block_fits (PreviousNodeBlock own).

(** The registry knows the previous node block. *)
Hypothesis prev_registered : createBlock ebm BlockTypePreviousNodeBlock = KPreviousNode.

Lemma prev_block_wf n own : is_u64 n → announceable_node own →
  CanonicalBlock_wf ebm (mkCanonical n 0 CRCNo [] (Some (PreviousNodeBlock own))).
Proof. intros Hn (He & Hf & Hb). split_and!; try done. by left. Qed.

Lemma blocks_split (f : CanonicalBlock → bool) (l : list CanonicalBlock) : l ≡ₚ filter (λ x, f x = true) l ++ filter (λ x, f x = false) l.
Proof.
  induction l as [|x l IH]; [done|]. rewrite !filter_cons. destruct (f x) eqn:E.
  - rewrite decide_True, decide_False by congruence. simpl. by rewrite <- IH.
  - rewrite decide_False, decide_True by congruence. rewrite <- Permutation_middle. by rewrite <- IH.
Qed.

(** Replacing the previous node block succeeds on a genuine bundle and yields one whose
    only previous node is this node. *)
Lemma forward_genuine own b0 b : announceable_node own → len (other_blocks b0) + 3 < two64 → genuine b0 b →
  ∃ b', update_previous_node own b = Ok b' ∧ genuine b0 b' ∧
    ∃ n, prev_blocks b' = [mkCanonical n 0 CRCNo [] (Some (PreviousNodeBlock own))].
Proof.
  intros Ho Hlen [Hwf [Hnd Hl] Hc].
  destruct (previous_node_replaced own b (wf_all_valued b Hwf) Hnd Hl) as (b' & n & Hu & Hp & Hoth & Epr & Epl & Hnd' & _ & Hn).
  exists b'. split; [done|]. split; [|by exists n].
  assert (len (other_blocks b) = len (other_blocks b0)) as Hsame.
  { pose proof (Permutation_length (sc_others _ _ Hc)) as E. rewrite !length_fmap in E. unfold len. lia. }
  destruct Hwf as (Hwp & Hwl & Hwc & Ht). split.
  - split; [by rewrite Epr|]. rewrite Epl. split; [|done].
    rewrite (blocks_split (has_type BlockTypePreviousNodeBlock) (b_ExtensionBlocks b')), Hp, Hoth.
    apply Forall_app. split; [apply Forall_singleton; split; [apply prev_block_wf; [u64_lia|done]|done]|].
    apply Forall_forall. intros cb [_ Hin]%list_elem_of_filter. by eapply Forall_forall in Hwl.
  - split; [done|]. rewrite Hp. simpl. lia.
  - destruct Hc as [H1' H2' H3']. constructor; rewrite ?Epr, ?Epl; [done..|]. by rewrite H3', Hoth.
Qed.
End Content.
