(* ===== verification/Transport.v ===== *)
(** * What a convergence layer promises to the network

    [Transport] is the interface between the convergence layers and the network: a bundle
    that arrives is the bundle that was sent, up to the CRC values, and is well formed.
    MTCP and QUICL meet it, each by its own [Send] and its own receiver. *)

From stdpp Require Import base tactics list strings gmap.
From Stdlib Require Import ZArith Lia Bool.
From S2P Require Import Prelude Cboring GoSort Flags Crc DtnTime Endpoint BundleId ExtensionBlocks Blocks.
From S2P Require Import Bundle Samples BundleValid BundleCodec IdKeeper Descriptor Store StoreInv Cla.
From S2P Require Import Mtcp MtcpProps Quicl QuiclProps Content.
Local Open Scope Z_scope.

Section Transport.
Context `{Cboring} `{!CboringLaws _} `{Crc16} `{GoMapRange} `{Ed25519}.
Context (ebm : ExtensionBlockManager).

Class Transport := {
  (** A successful transmission of [b] makes the peer's callback receive [b']. *)
  transfers : Bundle → Bundle → Prop;
  transfers_sound b b' : Bundle_wf ebm b → transfers b b' → Bundle_wf ebm b' ∧ erase_crc b' = erase_crc b;
}.

(** What the receiver makes of the bytes of a well-formed bundle. *)
Lemma unmarshal_written b bs b' now r : Bundle_wf ebm b → Bundle_MarshalCbor b = Ok (bs, b') →
  Bundle_UnmarshalCbor ebm now (zero_bundle, bs ++ r) = (check_bundle now b', (b', r)) ∧ Bundle_wf ebm b' ∧ erase_crc b' = erase_crc b ∧ bs ≠ [].
Proof.
  intros Hwf Hm. destruct (Bundle_Marshal_wf ebm b Hwf) as (body & b2 & Hm' & He & Hu). rewrite Hm in Hm'. injection Hm' as -> ->.
  split; [|split; [by eapply marshal_keeps_wf|split; [done|by destruct body]]].
  rewrite <- (assoc_L (++)). apply (Hu now (BreakCode :: r) r), CanonicalBlock_break.
Qed.

(** ** MTCP *)

(** A client whose connection has carried [w0] sends [b], and the server reads what this
    adds to the connection. *)
Definition mtcp_transfers (clock : nat → Z) (b b' : Bundle) : Prop :=
  ∃ c mg c' mg' w0 ws, mc_conn c = Some w0 ∧ client_Send WOk WOk b (c, mg) = (Ok (), (c', mg')) ∧
    mc_conn c' = Some (w0 ++ ws) ∧ is_u64 (len ws) ∧ b' ∈ serve ebm clock ws.

Lemma handleSender_round clock n i inp : handleSender ebm clock (S n) i inp =
  match ReadByteStringLen inp with
  | (Ok k, r) =>
      if k =? 0 then handleSender ebm clock n i r else
      match Bundle_UnmarshalCbor ebm (clock i) (zero_bundle, r) with
      | (Ok _, (bndl, r)) => bndl :: handleSender ebm clock n (S i) r
      | _ => []
      end
  | _ => []
  end.
Proof. done. Qed.

Lemma serve_frame clock bs b b' : Bundle_wf ebm b → Bundle_MarshalCbor b = Ok (bs, b') → is_u64 (len bs) →
  serve ebm clock (bundle_frame bs ++ WriteByteStringLen 0) = if is_ok (check_bundle (clock 0%nat) b') then [b'] else [].
Proof.
  intros Hwf Hm Hl. unfold serve. set (inp := bundle_frame bs ++ _).
  assert (1 < length inp)%nat as Hlen.
  { unfold inp, bundle_frame. rewrite !length_app. pose proof (bslen_len 0 ltac:(u64_lia)). pose proof (bslen_len (len bs) Hl).
    pose proof (head_len_pos 0). pose proof (head_len_pos (len bs)). unfold len in *. lia. }
  destruct (length inp) as [|[|n]]; [lia..|]. unfold inp, bundle_frame. rewrite <- (assoc_L (++)), handleSender_round, bslen_rt by done. destruct (unmarshal_written b bs b' (clock 0%nat) (WriteByteStringLen 0) Hwf Hm) as (-> & _ & _ & Hne).
  destruct (Z.eqb_spec (len bs) 0) as [E|_]; [unfold len in E; destruct bs; [done|simpl in E; lia]|].
  destruct (check_bundle _ b'); [|done..]. simpl is_ok. f_equal.
  rewrite <- (app_nil_r (WriteByteStringLen 0)), handleSender_keepalive.
  rewrite handleSender_round. destruct (ReadByteStringLen []) as [[k| |] r] eqn:E; [|done..]. apply bslen_progress in E. simpl in E. lia.
Qed.

Lemma mtcp_sound clock b b' : Bundle_wf ebm b → mtcp_transfers clock b b' → Bundle_wf ebm b' ∧ erase_crc b' = erase_crc b.
Proof.
  intros Hwf (c & mg & c' & mg' & w0 & ws & Hc & Hs & Hc' & Hl & Hin).
  destruct (Bundle_Marshal_wf ebm b Hwf) as (body & b2 & Hm & He & _). set (bs := body ++ [BreakCode]) in *.
  rewrite (Send_written bs b b2 c mg w0 Hm Hc) in Hs. injection Hs as <- <-. simpl in Hc'. injection Hc' as Hws.
  apply app_inv_head in Hws as <-.
  rewrite (serve_frame clock bs b b2 Hwf Hm) in Hin.
  - destruct (is_ok _); [|by apply not_elem_of_nil in Hin]. apply list_elem_of_singleton in Hin as ->.
    split; [by eapply marshal_keeps_wf|done].
  - unfold bundle_frame, len in Hl. rewrite !length_app in Hl. unfold len. u64_lia.
Qed.

(** A bundle that its receiver finds valid does arrive. *)
Lemma mtcp_arrives clock b bs b' : Bundle_wf ebm b → Bundle_MarshalCbor b = Ok (bs, b') → is_u64 (len bs + 18) →
  check_bundle (clock 0%nat) b' = Ok () → mtcp_transfers clock b b'.
Proof.
  intros Hwf Hm Hl Hv. set (c := mkClient DtnNone "" (Some []) None false false).
  assert (is_u64 (len bs)) as Hbs by (unfold len in *; u64_lia).
  exists c, InitialiseCLAManager, (set_mc_conn (bundle_frame bs ++ WriteByteStringLen 0) c), InitialiseCLAManager, [], (bundle_frame bs ++ WriteByteStringLen 0).
  split_and!; [done|by apply (Send_written bs b b' c _ [])|done| |].
  - pose proof (bslen_len (len bs) Hbs). pose proof (bslen_len 0 ltac:(u64_lia)). pose proof (head_len_pos (len bs)). pose proof (head_len_pos 0).
    unfold bundle_frame, len in *. rewrite !length_app in *. u64_lia.
  - rewrite (serve_frame clock bs b b' Hwf Hm Hbs), Hv. by left.
Qed.

Definition mtcp_transport (clock : nat → Z) : Transport := {| transfers_sound := mtcp_sound clock |}.

(** ** QUICL *)

Definition quicl_transfers (b b' : Bundle) : Prop :=
  ∃ ep mg mg' stream now failure ep2 mg2 mg2', endpoint_Send (QOk ()) (QOk ()) b ep mg = (Ok (), mg', Some stream) ∧
    handleStream ebm now stream failure ep2 mg2 = (Ok (Some b'), mg2').

Lemma quicl_sound b b' : Bundle_wf ebm b → quicl_transfers b b' → Bundle_wf ebm b' ∧ erase_crc b' = erase_crc b.
Proof.
  intros Hwf (ep & mg & mg' & stream & now & failure & ep2 & mg2 & mg2' & Hs & Hh). unfold endpoint_Send in Hs.
  destruct (ep_handshake ep); [|done]. simpl in Hs. destruct (Bundle_MarshalCbor b) as [[bs b2]| |] eqn:Hm; [|done..]. injection Hs as _ <-.
  destruct (unmarshal_written b bs b2 now [] Hwf Hm) as (Hu & Hwf' & He & _). rewrite app_nil_r in Hu.
  unfold handleStream in Hh. rewrite Hu in Hh. destruct (check_bundle now b2); [|done..]. injection Hh as <- _. done.
Qed.

Definition quicl_transport : Transport := {| transfers_sound := quicl_sound |}.

Lemma quicl_arrives now b bs b' : Bundle_wf ebm b → Bundle_MarshalCbor b = Ok (bs, b') →
  check_bundle now b' = Ok () → quicl_transfers b b'.
Proof.
  intros Hwf Hm Hv. set (ep := mkEndpoint None None "" true None true true true).
  exists ep, InitialiseCLAManager, InitialiseCLAManager, bs, now, OtherError, ep, InitialiseCLAManager, InitialiseCLAManager.
  split; [unfold endpoint_Send; simpl; by rewrite Hm|]. unfold handleStream.
  destruct (unmarshal_written b bs b' now [] Hwf Hm) as (Hu & _). rewrite app_nil_r in Hu. by rewrite Hu, Hv.
Qed.

(** ** A transport that loses nothing *)

(** While the connection works and the bundle fits MTCP's length field, a bundle that the
    receiver finds valid at [now] may arrive. *)
Class LiveTransport (t : Transport) (now : Z) : Prop :=
  transfers_live b bs b' : Bundle_wf ebm b → Bundle_MarshalCbor b = Ok (bs, b') → is_u64 (len bs + 18) →
    check_bundle now b' = Ok () → transfers b b'.

#[global] Instance mtcp_live clock : LiveTransport (mtcp_transport clock) (clock 0%nat).
Proof. intros b bs b'. apply mtcp_arrives. Qed.

#[global] Instance quicl_live now : LiveTransport quicl_transport now.
Proof. intros b bs b' Hwf Hm _. by apply (quicl_arrives now b bs b'). Qed.

(** A network may use both. *)
Lemma either_sound (t1 t2 : Transport) b b' : Bundle_wf ebm b →
  transfers (Transport := t1) b b' ∨ transfers (Transport := t2) b b' → Bundle_wf ebm b' ∧ erase_crc b' = erase_crc b.
Proof. intros Hwf [Ht|Ht]; [exact (transfers_sound (Transport := t1) b b' Hwf Ht)|exact (transfers_sound (Transport := t2) b b' Hwf Ht)]. Qed.

Definition either_transport (t1 t2 : Transport) : Transport := {| transfers_sound := either_sound t1 t2 |}.
End Transport.
