(* ===== verification/Integrity.v ===== *)
(** * The files of the store

    Every bundle of the store is kept in a file of its own.  If all bundles that are
    inserted satisfy a predicate, so does what the file of every descriptor contains, over
    all operations of the store and its deletion goroutines.  File names are digests; that
    different ids have different digests is a hypothesis. *)

From stdpp Require Import base tactics list strings gmap.
From Stdlib Require Import ZArith Lia Bool.
From S2P Require Import Prelude Cboring GoSort Flags Crc DtnTime Endpoint BundleId ExtensionBlocks Blocks.
From S2P Require Import Bundle Samples BundleCodec Descriptor Store StoreInv StoreHistory.
Local Open Scope Z_scope.

Section Integrity.
Context `{Cboring} `{!CboringLaws _} `{Crc16} `{GoMapRange} `{Ed25519} `{Badgerhold} `{!BadgerholdLaws _} `{Sha256}.
Context `{!Inj (=) (=) sha256_hex}.
Context (ebm : ExtensionBlockManager) (P : Bundle → Prop).

Definition file_name (id : BundleID) : string := sha256_hex (BundleID_String id).

(** The file of a descriptor has the bytes of a bundle with the descriptor's id and
    destination that satisfies [P]. *)
Definition file_ok (files : gmap string bytes) (d : BundleDescriptor) : Prop :=
  ∃ b bs b', P b ∧ Bundle_ID b = m_ID (d_metadata d) ∧ pb_Destination (b_PrimaryBlock b) = m_Destination (d_metadata d) ∧
    Bundle_MarshalCbor b = Ok (bs, b') ∧ files !! file_name (m_ID (d_metadata d)) = Some bs.

Definition files_ok (s : BundleStore) : Prop :=
  ∀ loc d, st_heap s !! loc = Some d → d_deleted d = false → file_ok (st_files s) d.

Lemma file_ok_desc files d d' : desc_le d d' → file_ok files d → file_ok files d'.
Proof. intros [Hid Hd _ _]. unfold file_ok. by rewrite Hid, Hd. Qed.

(** Operations that add no descriptor and touch no file. *)
Lemma files_ok_le s s' : heap_le s s' → length (st_heap s') = length (st_heap s) → st_files s' = st_files s →
  files_ok s → files_ok s'.
Proof.
  intros Hle Hlen Ef Hs loc d' El' Ed'. rewrite Ef.
  destruct (st_heap s !! loc) as [d|] eqn:El; [|apply lookup_ge_None in El; apply lookup_lt_Some in El'; lia].
  destruct (Hle loc d El) as (d2 & El2 & Hd). rewrite El' in El2. injection El2 as <-.
  apply (file_ok_desc _ d); [done|]. apply (Hs loc d El). apply not_true_is_false. intros Hd'. apply (le_deleted _ _ Hd) in Hd'. congruence.
Qed.

(** Changing the file of an id that no live descriptor has. *)
Lemma files_ok_other s s' id : st_heap s' = st_heap s →
  (∀ name, name ≠ file_name id → st_files s' !! name = st_files s !! name) →
  (∀ loc d, st_heap s !! loc = Some d → d_deleted d = false → BundleID_String (m_ID (d_metadata d)) ≠ BundleID_String id) →
  files_ok s → files_ok s'.
Proof.
  intros Eh Ef Hne Hs loc d El Ed. rewrite Eh in El. destruct (Hs loc d El Ed) as (b & bs & b' & ? & ? & ? & ? & Hf).
  exists b, bs, b'. split_and!; try done. rewrite Ef; [done|]. unfold file_name. intros E%(inj _). by apply (Hne loc d El Ed).
Qed.

Lemma desc_op_shape {A} (f : BundleDescriptor → res A * BundleDescriptor * bool) loc s :
  length (st_heap (desc_op f loc s).2) = length (st_heap s) ∧ st_files (desc_op f loc s).2 = st_files s.
Proof.
  unfold desc_op. destruct (st_heap s !! loc) as [d|]; [|done]. destruct (f d) as [[r d'] []]; simpl; by rewrite length_insert.
Qed.

Lemma desc_op_files {A} (f : BundleDescriptor → res A * BundleDescriptor * bool) loc s :
  op_ok f → core_inv s → files_ok s → files_ok (desc_op f loc s).2.
Proof. intros Hf Hs. destruct (desc_op_shape f loc s). apply files_ok_le; [by apply desc_op_le|done..]. Qed.

Lemma SetMiscData_files k v loc s : files_ok s → files_ok (bd_SetMiscData k v loc s).2.
Proof.
  apply files_ok_le; [apply SetMiscData_le|..]; unfold bd_SetMiscData, updateBundleMetadata; destruct (st_heap s !! loc); try done;
    destruct (db_Update _ _ _); simpl; by rewrite ?length_insert.
Qed.

Lemma AddKnownHolder_files peers loc s : files_ok s → files_ok (bd_AddKnownHolder peers loc s).2.
Proof.
  apply files_ok_le; [apply AddKnownHolder_le|..]; unfold bd_AddKnownHolder, updateBundleMetadata; destruct (st_heap s !! loc) as [d|]; try done;
    destruct (d_deleted d); try done; destruct (db_Update _ _ _); simpl; by rewrite ?length_insert.
Qed.

Lemma GarbageCollect_files now s : core_inv s → files_ok s → files_ok (GarbageCollect now s).
Proof.
  unfold GarbageCollect. generalize ((map_to_list (st_bundles s)).*2) as locs. intros locs. revert s.
  induction locs as [|loc locs IH]; intros s Hs Hf; simpl; [done|]. apply IH; [by apply collect_inv|].
  unfold collect. destruct (st_heap s !! loc); [|done]. case_match; [|done]. apply desc_op_files; [apply Delete_op|done..].
Qed.

Lemma deleteFromDisk_others io m s name : name ≠ m_SerialisedFileName m →
  st_files (deleteFromDiskUnsafe io m s) !! name = st_files s !! name.
Proof.
  intros Hne. unfold deleteFromDiskUnsafe. destruct (db_Delete _ _) as [r d]. simpl.
  destruct (io_remove io); [by rewrite lookup_delete_ne|done].
Qed.

Lemma run_pending_files_ok io i s : core_inv s → files_ok s → files_ok (run_pending io i s).
Proof.
  intros Hs. unfold run_pending. destruct (st_pending s !! i) as [m|] eqn:Em; [|done].
  destruct (ci_pending s Hs m) as ([_ Hname] & loc' & d' & Hb & Hl & Hd); [by apply list_elem_of_lookup_2 in Em|].
  apply (files_ok_other _ _ (m_ID m)).
  - unfold deleteBundle. by rewrite deleteFromDisk_heap.
  - intros name Hne. unfold deleteBundle. rewrite deleteFromDisk_others; [done|]. by rewrite Hname.
  - intros loc d El Ed E. destruct (ci_heap s Hs loc d El) as (_ & _ & Hin). specialize (Hin Ed).
    apply (ci_strings s Hs) in E; [|by eexists..]. rewrite E, Hb in Hin. injection Hin as ->. congruence.
Qed.

(** Insertion of a bundle that satisfies [P]. *)
Lemma insertNew_files io b s : core_inv s → st_bundles s !! Bundle_ID b = None → P b → files_ok s →
  files_ok (insertNewBundleUnsafe io b s).2.
Proof.
  intros Hs Hnew HP Hf. unfold insertNewBundleUnsafe. destruct (previous_node b) as [prev| |]; [|done..].
  set (m := new_metadata (st_nodeID s) b prev).
  destruct (db_Insert (m_IDString m) m (st_metadataStore s)) as [[[]|e|] d] eqn:Ed; [|exact Hf..].
  assert (∀ loc d, st_heap s !! loc = Some d → d_deleted d = false → BundleID_String (m_ID (d_metadata d)) ≠ BundleID_String (Bundle_ID b)) as Hne.
  { intros loc d0 El Ed0 E. destruct (ci_heap s Hs loc d0 El) as (_ & _ & Hin). specialize (Hin Ed0).
    destruct (ci_stored s Hs (m_ID (d_metadata d0))) as [x Hx]; [by eexists|].
    destruct (db_Insert_Ok _ _ _ _ Ed) as [Hnone _]. change (m_IDString m) with (BundleID_String (Bundle_ID b)) in Hnone.
    rewrite E in Hx. congruence. }
  destruct (io_create io); simpl negb; cbv iota.
  2:{ cbn [snd]. apply (files_ok_other s _ (Bundle_ID b)); [by rewrite deleteFromDisk_heap| |done..].
      intros name Hn. by rewrite deleteFromDisk_others. }
  destruct (Bundle_MarshalCbor b) as [[bs b']| |] eqn:Em.
  2,3: (apply (files_ok_other s _ (Bundle_ID b)); [done| |done..]; intros name Hn; simpl; by rewrite lookup_insert_ne).
  destruct (io_flush io); simpl negb; cbv iota.
  2:{ apply (files_ok_other s _ (Bundle_ID b)); [done| |done..]. intros name Hn. simpl. by rewrite lookup_insert_ne. }
  intros loc d0 El Ed0. cbn [snd st_heap st_files set_st_files set_st_bundles set_st_heap set_st_db] in *.
  apply lookup_app_Some in El as [El|[_ El]].
  - destruct (Hf loc d0 El Ed0) as (b0 & bs0 & b0' & ? & ? & ? & ? & Hfile). exists b0, bs0, b0'. split_and!; try done.
    rewrite lookup_insert_ne; [done|]. change (file_name (Bundle_ID b) ≠ file_name (m_ID (d_metadata d0))).
    unfold file_name. intros E%(inj _). by apply (Hne loc d0 El Ed0).
  - apply list_lookup_singleton_Some in El as [_ <-]. exists b, bs, b'. split_and!; try done.
    change (file_name _) with (m_SerialisedFileName m). by rewrite lookup_insert_eq.
Qed.

Lemma InsertBundle_files_ok io b s : core_inv s → P b → files_ok s → files_ok (InsertBundle io b s).2.
Proof.
  intros Hs HP Hf. unfold InsertBundle. destruct (st_bundles s !! Bundle_ID b) as [loc|] eqn:E; [|by apply insertNew_files].
  destruct (previous_node b) as [[prev|]| |]; try done. pose proof (AddKnownHolder_files [prev] loc s Hf) as Ha.
  by destruct (bd_AddKnownHolder [prev] loc s) as [[] s'].
Qed.

(** The operations of the store but insertion. *)
Inductive upkeep : BundleStore → BundleStore → Prop :=
  | up_AddConstraint c loc s : upkeep s (bd_AddConstraint c loc s).2
  | up_RemoveConstraint c loc s : upkeep s (bd_RemoveConstraint c loc s).2
  | up_ResetConstraints loc s : upkeep s (bd_ResetConstraints loc s).2
  | up_Delete mark loc s : upkeep s (bd_Delete mark loc s).2
  | up_SetMiscData k v loc s : upkeep s (bd_SetMiscData k v loc s).2
  | up_AddKnownHolder peers loc s : upkeep s (bd_AddKnownHolder peers loc s).2
  | up_GarbageCollect now s : upkeep s (GarbageCollect now s)
  | up_deleteBundle io i s : upkeep s (run_pending io i s).

Lemma upkeep_step s s' : upkeep s s' → store_step s s'.
Proof. destruct 1; constructor. Qed.

Record store_good (s : BundleStore) : Prop := { sg_core : core_inv s; sg_files : files_ok s }.

Lemma upkeep_good s s' : upkeep s s' → store_good s → store_good s'.
Proof.
  intros Hu [Hc Hf]. split; [by eapply store_step_inv, upkeep_step|]. destruct Hu;
    auto using SetMiscData_files, AddKnownHolder_files, GarbageCollect_files, run_pending_files_ok;
    apply desc_op_files; auto using AddConstraint_op, RemoveConstraint_op, ResetConstraints_op, Delete_op.
Qed.

Lemma InsertBundle_good io b s : P b → store_good s → store_good (InsertBundle io b s).2.
Proof. intros HP [Hc Hf]. split; [by apply InsertBundle_inv|by apply InsertBundle_files_ok]. Qed.

(** What is loaded was written for a bundle that satisfies [P]. *)
Lemma Load_good now loc s b' : (∀ b, P b → Bundle_wf ebm b) → store_good s → Load ebm now loc s = Ok b' →
  ∃ d b bs, st_heap s !! loc = Some d ∧ d_deleted d = false ∧ P b ∧ Bundle_ID b = m_ID (d_metadata d) ∧
    pb_Destination (b_PrimaryBlock b) = m_Destination (d_metadata d) ∧ Bundle_MarshalCbor b = Ok (bs, b').
Proof.
  intros Hwf [Hc Hf]. unfold Load. destruct (st_heap s !! loc) as [d|] eqn:El; [|done]. destruct (d_deleted d) eqn:Ed; [done|].
  destruct (Hf loc d El Ed) as (b & bs & b1 & HP & Hid & Hdst & Hm & Hfile). unfold loadEntireBundle.
  destruct (ci_heap s Hc loc d El) as (_ & [_ ->] & _). unfold file_name in Hfile. rewrite Hfile.
  destruct (Bundle_Marshal_wf ebm b (Hwf b HP)) as (body & b2 & Hm' & _ & Hu). rewrite Hm in Hm'. injection Hm' as -> ->.
  unfold ParseBundle. rewrite (Hu now _ [] (CanonicalBlock_break ebm [])). intros E.
  assert (b' = b2) as -> by (destruct (check_bundle now b2); simplify_eq; done). eauto 10.
Qed.
End Integrity.
