(* ===== verification/Network.v ===== *)
(** * A network of nodes

    Nodes run the goroutines of [pkg/processing] over their stores and exchange bundles
    over convergence layers; applications create bundles and fetch them.  Over every
    interleaving, what is stored, sent or fetched anywhere is a bundle that an application
    of the network has created: no node makes up a bundle or changes the content of one. *)

From stdpp Require Import base tactics list strings gmap relations.
From Stdlib Require Import ZArith Lia Bool.
From S2P Require Import Prelude Cboring GoSort Flags Crc DtnTime Endpoint BundleId ExtensionBlocks Blocks.
From S2P Require Import Bundle Samples BundleValid BundleCodec IdKeeper Descriptor Store StoreInv.
From S2P Require Import StoreHistory StoreExamples Cla Routing RoutingProps Mailbox MailboxProps AgentManager.
From S2P Require Import Processing Forwarding ForwardingSpec Content Transport Integrity.
Local Open Scope Z_scope.

Section Network.
Context `{Cboring} `{!CboringLaws _} `{Crc16} `{GoMapRange} `{Ed25519} `{Badgerhold} `{!BadgerholdLaws _} `{Sha256}.
Context `{!Inj (=) (=) sha256_hex}.
Context (ebm : ExtensionBlockManager) `{!Transport ebm}.
Hypothesis prev_registered : createBlock ebm BlockTypePreviousNodeBlock = KPreviousNode.

(** A routing algorithm that leaves the bundles alone: it changes the store by upkeep
    only and has the stored bundle sent. *)
Class PlainRouting (A : Algorithm) : Prop := {
  select_upkeep rnd now loc peers s : rtc upkeep s (SelectPeersForForwarding rnd now loc peers s).2;
  select_plain rnd now loc peers s sel b s' : SelectPeersForForwarding rnd now loc peers s = (Ok (sel, b), s') → b = None;
  notify_upkeep (new : bool) loc b s : rtc upkeep s ((if new then NotifyNewBundle else NotifyReceivedBundle) loc b s).2;
}.

#[global] Instance epidemic_plain : PlainRouting EpidemicRouting.
Proof.
  constructor; simpl.
  - intros rnd now loc peers s. by destruct (st_heap s !! loc).
  - intros rnd now loc peers s sel b s'. destruct (st_heap s !! loc); [|done]. by intros [= <- <-].
  - by intros [] loc b s.
Qed.

Lemma setSprayCopies_upkeep loc copies s : rtc upkeep s (setSprayCopies loc copies s).2.
Proof.
  unfold setSprayCopies. pose proof (up_SetMiscData sprayBundleCopiesKey (VUint64 copies) loc s) as Hu.
  destruct (bd_SetMiscData _ _ _ _) as [[] s']; by apply rtc_once.
Qed.

Lemma spray_copies_upkeep router loc s : rtc upkeep s (spray_copies router loc s).2.
Proof.
  unfold spray_copies, getSprayCopies, mbind, M_bind. destruct (st_heap s !! loc) as [bd|]; [|done].
  destruct (GetMiscData bd _) as [[]|]; [done..|]. pose proof (setSprayCopies_upkeep loc (sw_copies router) s) as Hu.
  by destruct (setSprayCopies _ _ _) as [[] s'].
Qed.

(** Spray and wait without splitting; the binary mode writes its copies into a block. *)
#[global] Instance spray_plain router : sw_binary router = false → PlainRouting (SprayRouting ebm router).
Proof.
  intros Hb. assert (∀ rnd now loc peers s, rtc upkeep s (spray_Select ebm router rnd now loc peers s).2 ∧
    ∀ sel b s', spray_Select ebm router rnd now loc peers s = (Ok (sel, b), s') → b = None) as Hsel.
  { intros rnd now loc peers s. unfold spray_Select, mbind, M_bind. rewrite Hb. pose proof (spray_copies_upkeep router loc s) as Hu.
    destruct (spray_copies router loc s) as [[copies| |] s1]; [|done..]. simpl in *. destruct (negb (0 <? copies)); [by split; [|intros ??? [= <- <-]]|].
    simpl. destruct (st_heap s1 !! loc) as [bd|]; [|done]. destruct (negb _); [by split; [|intros ??? [= <- <-]]|].
    unfold selectBasicSpray. destruct (if _ <=? copies then _ else _) as [n sel0]. unfold mbind, M_bind.
    pose proof (setSprayCopies_upkeep loc n s1) as Hu2. destruct (setSprayCopies _ _ _) as [[] s2]; simpl in *;
      (split; [by etrans|]); by intros ??? [= <- <-]. }
  constructor; simpl.
  - intros. apply Hsel.
  - intros rnd now loc peers s sel b s'. apply Hsel.
  - intros [] loc b s; [apply setSprayCopies_upkeep|]. unfold spray_NotifyReceivedBundle.
    destruct (ExtensionBlockByType _ _) as [[j cb]| |]; [|apply setSprayCopies_upkeep|done].
    destruct (cb_Value cb) as [[]|]; try done. apply setSprayCopies_upkeep.
Qed.

(** ** States *)

Record Network := mkNetwork { nt_nodes : gmap EndpointID Node; nt_created : list Bundle }.

Definition set_node own n net := mkNetwork (<[own := n]> (nt_nodes net)) (nt_created net).

(** Some form of a bundle that was created. *)
Definition authentic (created : list Bundle) (b : Bundle) : Prop := ∃ b0, b0 ∈ created ∧ genuine ebm b0 b.

(** A bundle an application creates: what [Build] checks, and a number of blocks that a
    further block number exists for. *)
Definition creatable (b : Bundle) : Prop :=
  Bundle_wf ebm b ∧ len (b_ExtensionBlocks b) + 3 < two64 ∧ ∃ now, Bundle_CheckValid now b = Ok [].

Context {A : Algorithm} `{!PlainRouting A}.

(** A step of a goroutine, upkeep of a store, changes of CLAs and of agents' mailboxes by
    clients, dispatching, the creation of a bundle, and the arrival of a transmission,
    which may happen more than once and also if the sender was told of an error. *)
Inductive net_step : Network → Network → Prop :=
  | net_task own n o i t ts w net : nt_nodes net !! own = Some n → n_tasks n !! i = Some t →
      task_step ebm own o t (n_world n) = (Ok ts, w) →
      net_step net (set_node own (mkNode w (delete i (n_tasks n) ++ ts)) net)
  | net_upkeep own n s net : nt_nodes net !! own = Some n → upkeep (w_store (n_world n)) s →
      net_step net (set_node own (mkNode (set_w_store s (n_world n)) (n_tasks n)) net)
  | net_cla own n mg net : nt_nodes net !! own = Some n → mg_step (w_cla (n_world n)) mg →
      net_step net (set_node own (mkNode (set_w_cla mg (n_world n)) (n_tasks n)) net)
  | net_agents own n agents net : nt_nodes net !! own = Some n →
      net_step net (set_node own (mkNode (set_w_agents agents (n_world n)) (n_tasks n)) net)
  | net_dispatch own n net : nt_nodes net !! own = Some n → net_step net (set_node own (DispatchAll n) net)
  | net_create own n b net : nt_nodes net !! own = Some n → creatable b →
      net_step net (mkNetwork (<[own := NewBundle b n]> (nt_nodes net)) (nt_created net ++ [b]))
  | net_transfer own n own' n' tx b net : nt_nodes net !! own = Some n → tx ∈ w_sent (n_world n) →
      transfers ebm (tx_bundle tx) b → nt_nodes net !! own' = Some n' →
      net_step net (set_node own' (ReceiveBundle b n') net).

(** What a network does by itself: a goroutine makes a call, or what a node has sent
    arrives at the node that it was sent to.  Nothing is created, no agent registers or
    changes a mailbox, and no CLA comes or goes. *)
Inductive net_work : Network → Network → Prop :=
  | nw_task own n o i t ts w net : nt_nodes net !! own = Some n → n_tasks n !! i = Some t →
      task_step ebm own o t (n_world n) = (Ok ts, w) →
      net_work net (set_node own (mkNode w (delete i (n_tasks n) ++ ts)) net)
  | nw_transfer own n n' tx b net : nt_nodes net !! own = Some n → tx ∈ w_sent (n_world n) →
      transfers ebm (tx_bundle tx) b → nt_nodes net !! cla_PeerEndpointID (tx_peer tx) = Some n' →
      net_work net (set_node (cla_PeerEndpointID (tx_peer tx)) (ReceiveBundle b n') net).

Lemma net_work_step net net' : net_work net net' → net_step net net'.
Proof.
  intros [own n o i t ts w net1 El Ei Ht|own n n' tx b net1 El Hin Htr El']; [by eapply net_task|].
  eapply (net_transfer own n _ n' tx b); done.
Qed.

(** An application creates [b] at the node [own]. *)
Definition create (own : EndpointID) (n : Node) (b : Bundle) (net : Network) : Network :=
  mkNetwork (<[own := NewBundle b n]> (nt_nodes net)) (nt_created net ++ [b]).

(** A network before anything was created. *)
Definition net_start (net : Network) : Prop :=
  nt_created net = [] ∧ ∀ own n, nt_nodes net !! own = Some n →
    announceable_node own ∧ core_inv (w_store (n_world n)) ∧ st_heap (w_store (n_world n)) = [] ∧ w_sent (n_world n) = [] ∧ n_tasks n = [].

(** ** The invariant *)

(** What a node sends names it, and nobody else, as the previous node. *)
Definition announced (own : EndpointID) (b : Bundle) : Prop :=
  ∃ n, prev_blocks b = [mkCanonical n 0 CRCNo [] (Some (PreviousNodeBlock own))].

Section Good.
Context (created : list Bundle) (own : EndpointID).

Definition sendable (b : Bundle) : Prop := authentic created b ∧ announced own b.

Definition task_good (t : task) : Prop :=
  match t with
  | F_send _ b _ => sendable b
  | R_start b _ | R_deliver _ b _ | R_notify _ b _ => authentic created b
  | _ => True
  end.

Record world_good (w : World) : Prop := {
  wg_store : store_good (authentic created) (w_store w);
  wg_sent : Forall (λ tx, sendable (tx_bundle tx)) (w_sent w);
}.

Record node_good (n : Node) : Prop := {
  ng_world : world_good (n_world n);
  ng_tasks : Forall task_good (n_tasks n);
}.
End Good.

Record net_inv (net : Network) : Prop := {
  ni_created b0 : b0 ∈ nt_created net → len (other_blocks b0) + 3 < two64;
  ni_nodes own n : nt_nodes net !! own = Some n → announceable_node own ∧ node_good (nt_created net) own n;
}.

Lemma authentic_mono created b0 b : authentic created b → authentic (created ++ [b0]) b.
Proof. intros (b1 & Hin & Hg). exists b1. split; [apply elem_of_app; by left|done]. Qed.

Lemma node_good_mono created own b0 n : node_good created own n → node_good (created ++ [b0]) own n.
Proof.
  intros [[[Hc Hf] Hs] Ht]. split; [split; [split; [done|]|]|].
  - intros loc d El Ed. destruct (Hf loc d El Ed) as (b & bs & b' & Hb & Hrest). exists b, bs, b'. split; [by apply authentic_mono|done].
  - eapply Forall_impl; [exact Hs|]. intros tx [Ha ?]. split; [by apply authentic_mono|done].
  - eapply Forall_impl; [exact Ht|]. intros []; simpl; try done; try apply authentic_mono. intros [Ha ?]. split; [by apply authentic_mono|done].
Qed.

Lemma upkeep_star_good created s s' : rtc upkeep s s' → store_good (authentic created) s → store_good (authentic created) s'.
Proof. induction 1; [done|]. intros Hs. by apply IHrtc, (upkeep_good _ x). Qed.

(** ** Steps of a goroutine *)

Section Task.
Context (created : list Bundle) (own : EndpointID).
Hypothesis own_announceable : announceable_node own.
Hypothesis created_small : ∀ b0, b0 ∈ created → len (other_blocks b0) + 3 < two64.

Lemma store_call_good {B} (m : M BundleStore B) w r w' : rtc upkeep (w_store w) (m (w_store w)).2 →
  on_store m w = (r, w') → world_good created own w → world_good created own w'.
Proof.
  intros Hu (s & Hm & ->)%on_store_run [Hs Ht]. rewrite Hm in Hu. split; [|done]. by eapply upkeep_star_good.
Qed.

(** A call of the store whose error is logged only. *)
Lemma logged_good {B} (f : M BundleStore B) w w' : (∀ s, upkeep s (f s).2) →
  logged (on_store f) w = (Ok (), w') → world_good created own w → world_good created own w'.
Proof.
  intros Hf [(x & w1 & Hr & Hret)|(e & Hr & _)]%or_return_run Hw; [unfold mret, M_ret in Hret; simplify_eq|];
    (eapply store_call_good; [|exact Hr|done]); by apply rtc_once.
Qed.

Lemma sending_good loc b peers w ts w' : authentic created b → start_sending own loc b peers w = (Ok ts, w') →
  w' = w ∧ Forall (task_good created own) ts.
Proof.
  intros (b0 & Hin & Hg) (-> & b' & Hu & ->)%start_sending_run. split; [done|]. apply Forall_singleton. simpl.
  destruct (forward_genuine ebm prev_registered own b0 b own_announceable (created_small b0 Hin) Hg) as (b2 & Hu' & Hg' & Ha).
  rewrite Hu in Hu'. injection Hu' as ->. split; [by exists b0|done].
Qed.

Lemma load_authentic now loc s b : store_good (authentic created) s → Load ebm now loc s = Ok b →
  ∃ d, st_heap s !! loc = Some d ∧ d_deleted d = false ∧ Bundle_ID b = m_ID (d_metadata d) ∧ authentic created b.
Proof.
  intros Hs Hl. destruct (Load_good ebm (authentic created) now loc s b) as (d & b1 & bs & El & Ed & (b0 & Hin & Hg) & Hid & _ & Hm); [|done..|].
  - by intros b' (? & _ & []).
  - pose proof (genuine_marshal ebm b0 b1 bs b Hg Hm) as Hg'. exists d. split_and!; [done..| |by exists b0].
    rewrite <- Hid. by rewrite <- (ge_content _ _ _ Hg'), <- (ge_content _ _ _ Hg).
Qed.

Lemma send_good o loc b gs w ts w' : gs ≠ [] → sendable created own b → world_good created own w →
  task_step ebm own o (F_send loc b gs) w = (Ok ts, w') → world_good created own w' ∧ Forall (task_good created own) ts.
Proof.
  intros Hne Hb Hw. destruct gs as [|g gs]; [done|]. unfold task_step. destruct (_ !! _) as [[peer []]|]; [| |done].
  - intros ([] & w1 & Hr & Hret)%bind_run. unfold mret, M_ret in Hret. simplify_eq. split; [|by apply Forall_singleton].
    eapply logged_good; [|exact Hr|done]. intros s. constructor.
  - intros ([] & w1 & Hr & Hret)%bind_run. unfold mret, M_ret in Hret. unfold send in Hr. simplify_eq. destruct Hw as [Hs Ht].
    split; [split; [done|]|by apply Forall_singleton]. simpl. apply Forall_app. split; [done|by apply Forall_singleton].
Qed.

(** A call of the store after which the goroutine goes on with [ts0] or ends. *)
Lemma call_good (f : M BundleStore ()) ts0 w ts w' : (∀ s, upkeep s (f s).2) → Forall (task_good created own) ts0 →
  or_return [] (on_store f) (λ _, mret ts0) w = (Ok ts, w') → world_good created own w →
  world_good created own w' ∧ Forall (task_good created own) ts.
Proof.
  intros Hf Hts [([] & w1 & Hr & Hret)|(e & Hr & ->)]%or_return_run Hw; [unfold mret, M_ret in Hret; simplify_eq|];
    (split; [|done]); (eapply store_call_good; [|exact Hr|done]); by apply rtc_once.
Qed.

Lemma task_step_good o t w ts w' : world_good created own w → task_good created own t →
  task_step ebm own o t w = (Ok ts, w') → world_good created own w' ∧ Forall (task_good created own) ts.
Proof.
  intros Hw Ht Hstep. destruct t as [loc|loc|loc|loc|loc peers|loc b gs|b new|loc b new|loc b new|loc].
  - eapply call_good; [| |exact Hstep|done]; [intros s; constructor|by apply Forall_singleton].
  - eapply call_good; [| |exact Hstep|done]; [intros s; constructor|by apply Forall_singleton].
  - apply bind_run in Hstep as ([peers bundle] & w1 & Hsel & Hk). unfold select_peers in Hsel.
    pose proof (store_call_good _ _ _ _ (select_upkeep (o_rnd o) (o_now o) loc (GetSenders (w_cla w)) (w_store w)) Hsel Hw) as Hw1.
    apply on_store_run in Hsel as (s & Hsel & ->). apply select_plain in Hsel as ->.
    destruct peers; unfold mret, M_ret in Hk; simplify_eq; (split; [done|by apply Forall_singleton]).
  - apply bind_run in Hstep as ([] & w1 & Hr & Hret). unfold mret, M_ret in Hret. simplify_eq.
    split; [|constructor]. eapply logged_good; [|exact Hr|done]. intros s. constructor.
  - apply or_return_run in Hstep as [(b & w1 & Hr & Hk)|(e & Hr & ->)]; unfold load_bundle in Hr; injection Hr as Hr <-; [|done].
    destruct (load_authentic _ _ _ _ (wg_store _ _ _ Hw) Hr) as (d & _ & _ & _ & Hb). by apply sending_good in Hk as [-> ?].
  - destruct gs as [|g gs]; [|by eapply (send_good o loc b (g :: gs) w)]. eapply call_good; [| |exact Hstep|done]; [intros s; constructor|constructor].
  - apply or_return_run in Hstep as [(loc & w1 & Hr & Hret)|(e & Hr & ->)]; apply on_store_run in Hr as (s & Hm & ->);
      pose proof (InsertBundle_good (authentic created) (o_io o) b (w_store w) Ht (wg_store _ _ _ Hw)) as Hi; rewrite Hm in Hi;
      [unfold mret, M_ret in Hret; simplify_eq|]; (split; [split; [done|apply Hw]|]); [by apply Forall_singleton|constructor].
  - apply bind_run in Hstep as ([] & w1 & Hr & Hret). unfold mret, M_ret in Hret. simplify_eq.
    unfold deliver in Hr. destruct (Delivery _ _ _ _) as [r agents]. simplify_eq.
    split; [by destruct Hw; split|by apply Forall_singleton].
  - apply bind_run in Hstep as ([] & w1 & Hr & Hret). unfold mret, M_ret in Hret. simplify_eq. split; [|by apply Forall_singleton].
    eapply store_call_good; [|exact Hr|done]. pose proof (notify_upkeep new loc b (w_store w)) as Hn. by destruct new.
  - unfold task_step, check_dispatch in Hstep. destruct (st_heap (w_store w) !! loc) as [bd|]; [|done].
    destruct (HasConstraint bd DispatchPending) as [[]| |]; simplify_eq; (split; [done|]); repeat constructor.
Qed.
End Task.

(** ** Steps of the network *)

Lemma set_node_inv own n net : net_inv net → announceable_node own → node_good (nt_created net) own n → net_inv (set_node own n net).
Proof.
  intros [Hc Hn] Ho Hg. split; [exact Hc|]. intros own' n'. simpl. intros [[<- <-]|[_ El]]%lookup_insert_Some; [done|by apply Hn].
Qed.

Lemma node_tasks_good created own n ts : node_good created own n → Forall (task_good created own) ts →
  node_good created own (mkNode (n_world n) (n_tasks n ++ ts)).
Proof. intros [Hw Ht] Hts. split; [done|]. by apply Forall_app. Qed.

Lemma creatable_genuine b : creatable b → genuine ebm b b ∧ len (other_blocks b) + 3 < two64.
Proof.
  intros (Hwf & Hlen & now & Hv). split; [split; [done|by eapply valid_well_numbered|done]|].
  pose proof (length_filter (λ cb, has_type BlockTypePreviousNodeBlock cb = false) (b_ExtensionBlocks b)). unfold len in *. lia.
Qed.

Lemma create_inv own n b net : net_inv net → nt_nodes net !! own = Some n → creatable b →
  net_inv (mkNetwork (<[own := NewBundle b n]> (nt_nodes net)) (nt_created net ++ [b])).
Proof.
  intros [Hc Hn] El [Hg Hlen]%creatable_genuine. split.
  - simpl. intros b0 [Hin|E%list_elem_of_singleton]%elem_of_app; [by apply Hc|by subst].
  - simpl. intros own' n' [[<- <-]|[_ El']]%lookup_insert_Some.
    + destruct (Hn own n El) as [Ho Hnode]. split; [done|]. apply node_tasks_good; [by apply node_good_mono|].
      apply Forall_singleton. exists b. split; [apply elem_of_app; right; by left|done].
    + destruct (Hn own' n' El') as [Ho Hnode]. split; [done|by apply node_good_mono].
Qed.

Lemma net_step_inv net net' : net_inv net → net_step net net' → net_inv net'.
Proof.
  intros Hi Hstep. pose proof (ni_nodes net Hi) as Hn.
  destruct Hstep as [own n o i t ts w net El Ei Ht|own n s net El Hu|own n mg net El Hm|own n agents net El|own n net El|own n b net El Hb|
    own n own' n' tx b net El Hin Htr El']; [..|by apply create_inv|]; destruct (Hn own n El) as [Ho [Hw Hts]].
  - apply set_node_inv; [done..|]. pose proof (Forall_lookup_1 _ _ _ _ Hts Ei) as Hti.
    destruct (task_step_good _ own Ho (ni_created net Hi) o t _ ts w Hw Hti Ht) as [Hw' Hts']. split; [done|].
    apply Forall_app. split; [by apply Forall_delete|done].
  - apply set_node_inv; [done..|]. split; [|done]. destruct Hw as [Hs Hsent]. split; [|done]. by eapply upkeep_good.
  - apply set_node_inv; [done..|]. split; [|done]. by destruct Hw.
  - apply set_node_inv; [done..|]. split; [|done]. by destruct Hw.
  - apply set_node_inv; [done..|]. apply node_tasks_good; [done|]. apply Forall_fmap, Forall_true. done.
  - destruct (Hn own' n' El') as [Ho' Hg']. apply set_node_inv; [done..|]. apply node_tasks_good; [done|]. apply Forall_singleton.
    destruct (proj1 (Forall_forall _ _) (wg_sent _ _ _ Hw) tx Hin) as [(b0 & Hb0 & Hg) _]. exists b0. split; [done|].
    destruct (transfers_sound ebm _ _ (ge_wf _ _ _ Hg) Htr). by eapply genuine_erase.
Qed.

Lemma net_start_inv net : net_start net → net_inv net.
Proof.
  intros [Hc Hn]. split; [rewrite Hc; by intros b0 ?%not_elem_of_nil|]. intros own n El.
  destruct (Hn own n El) as (Ho & Hcore & Hh & Hsent & Ht). split; [done|]. split; [split; [split; [done|]|]|].
  - intros loc d Eloc. by rewrite Hh in Eloc.
  - by rewrite Hsent.
  - by rewrite Ht.
Qed.

Lemma net_steps_inv net net' : net_start net → rtc net_step net net' → net_inv net'.
Proof. intros Hs%net_start_inv Hsteps. induction Hsteps; [done|]. by eapply IHHsteps, net_step_inv. Qed.

(** The goroutines of one node at work. *)
Lemma schedule_steps own schedule : ∀ n n' net, nt_nodes net !! own = Some n →
  run_schedule ebm own schedule n = Some n' → rtc net_step net (set_node own n' net).
Proof.
  induction schedule as [|[i o] schedule IH]; intros n n' net El Hr; simpl in Hr.
  - injection Hr as <-. unfold set_node. rewrite insert_id by done. by destruct net.
  - destruct (n_tasks n !! i) as [t|] eqn:Ei; [|done]. simpl in Hr.
    destruct (task_step ebm own o t (n_world n)) as [[ts| |] w] eqn:Et; [|done..].
    eapply rtc_l; [by eapply net_task|]. set (net1 := set_node own _ net).
    assert (set_node own n' net = set_node own n' net1) as ->; [|eapply IH; [apply lookup_insert_eq|exact Hr]].
    unfold set_node, net1. simpl. by rewrite insert_insert_eq.
Qed.

Lemma authentic_content created b : authentic created b → ∃ b0, b0 ∈ created ∧ same_content b0 b.
Proof. intros (b0 & Hin & Hg). exists b0. split; [done|apply Hg]. Qed.

(** C2: In a network whose nodes run any plain routing algorithm over any transport that
    keeps its promise, and over every interleaving of goroutines, store upkeep, CLA and
    mailbox changes, creations and transmissions (lost, repeated or reported as failed
    alike): a transmission carries the content of a bundle that an application created,
    and its one previous node block names the sender; what a node loads from its store,
    and what a client fetches from a mailbox under an id, is the content of a created
    bundle with that very id. *)
Theorem network_integrity net0 net own n : net_start net0 → rtc net_step net0 net → nt_nodes net !! own = Some n →
  (∀ tx, tx ∈ w_sent (n_world n) → announced own (tx_bundle tx) ∧ ∃ b0, b0 ∈ nt_created net ∧ same_content b0 (tx_bundle tx)) ∧
  (∀ now loc b, Load ebm now loc (w_store (n_world n)) = Ok b → ∃ d b0, st_heap (w_store (n_world n)) !! loc = Some d ∧
     b0 ∈ nt_created net ∧ Bundle_ID b0 = m_ID (d_metadata d) ∧ same_content b0 b) ∧
  (∀ now bid remove mb mb' b, Mailbox_Get ebm now bid remove (w_store (n_world n)) mb = (Ok b, mb') →
     ∃ b0, b0 ∈ nt_created net ∧ Bundle_ID b0 = bid ∧ same_content b0 b).
Proof.
  intros Hs Hsteps El. pose proof (net_steps_inv _ _ Hs Hsteps) as Hi. destruct (ni_nodes net Hi own n El) as [Ho [[Hst Hsent] _]].
  assert (∀ now loc b, Load ebm now loc (w_store (n_world n)) = Ok b → ∃ d b0, st_heap (w_store (n_world n)) !! loc = Some d ∧
    b0 ∈ nt_created net ∧ Bundle_ID b0 = m_ID (d_metadata d) ∧ same_content b0 b) as Hload.
  { intros now loc b Hl. destruct (load_authentic _ now loc _ b Hst Hl) as (d & Ed & _ & Hid & (b0 & Hin & Hg)).
    exists d, b0. split_and!; [done..| |apply Hg]. rewrite <- Hid. apply Bundle_ID_proper, Hg. }
  split; [|split; [exact Hload|]].
  - intros tx Hin. destruct (proj1 (Forall_forall _ _) Hsent tx Hin) as [Ha Han]. split; [done|by apply authentic_content].
  - intros now bid remove mb mb' b. unfold Mailbox_Get. destruct (mb !! bid) as [seen|]; [|done].
    destruct (GetBundleDescriptor bid (w_store (n_world n))) as [loc| |] eqn:Eg; [|done..]. simpl.
    destruct (Load ebm now loc (w_store (n_world n))) as [b1| |] eqn:El1; [|done..]. intros [= <- _].
    destruct (Hload now loc b1 El1) as (d & b0 & Ed & Hin & Hid & Hc). exists b0. split_and!; [done| |done].
    unfold GetBundleDescriptor in Eg. destruct (st_bundles _ !! bid) as [loc'|] eqn:Eb; [|done].
    destruct (ci_map _ (sg_core _ _ Hst) _ _ Eb) as (d' & Ed' & Hid'). rewrite Ed' in Eg. destruct (Deleted d'); simplify_eq. by rewrite Hid.
Qed.
End Network.


(** ** An example *)

#[local] Existing Instance EpidemicRouting.
#[local] Instance mtcp_net : Transport GetExtensionBlockManager := mtcp_transport GetExtensionBlockManager (λ _, 0).
#[local] Instance plain_names_inj : Inj (=) (=) sha256_hex := λ s t E, E.

Definition node_b : EndpointID := dtn "b" "".
Definition idle_node (own : EndpointID) (l : list Convergence) : Node :=
  mkNode (mkWorld (mkStore own (∅ : gmap string BundleMetadata) ∅ ∅ [] []) (senders l) ∅ []) [].
Definition two_nodes : Network := mkNetwork {[own_node := idle_node own_node [peer_b]; node_b := idle_node node_b []]} [].

Lemma two_nodes_start : net_start two_nodes.
Proof.
  split; [reflexivity|]. intros own n. simpl. intros [[<- <-]|[_ [<- <-]%lookup_singleton_Some]]%lookup_insert_Some.
  all: split_and!; try reflexivity; [..|apply empty_inv; intros k m E; simpl in E; by rewrite lookup_empty in E].
  all: by repeat constructor.
Qed.

(** The sample bundle is created at the first node, which sends it to the second one. *)
Definition sender_run : option Node :=
  run_schedule GetExtensionBlockManager own_node (replicate 9 (0%nat, some_oracle)) (NewBundle sample_bundle (idle_node own_node [peer_b])).
Definition sender_node : Node := default (idle_node own_node []) sender_run.
Definition sent_tx : Transmission := default (mkTx 0 sample_bundle peer_b true) (head (w_sent (n_world sender_node))).
Definition arrived : bytes * Bundle := match Bundle_MarshalCbor (tx_bundle sent_tx) with Ok r => r | _ => ([], sample_bundle) end.
Definition receiver_run : option Node :=
  run_schedule GetExtensionBlockManager node_b [(0%nat, some_oracle)] (ReceiveBundle arrived.2 (idle_node node_b [])).
Definition receiver_node : Node := default (idle_node node_b []) receiver_run.
Definition after_create : Network :=
  mkNetwork (<[own_node := NewBundle sample_bundle (idle_node own_node [peer_b])]> (nt_nodes two_nodes)) [sample_bundle].
Definition after_send : Network := set_node own_node sender_node after_create.
Definition after_transfer : Network := set_node node_b (ReceiveBundle arrived.2 (idle_node node_b [])) after_send.
Definition after_receipt : Network := set_node node_b receiver_node after_transfer.

Lemma is_Some_default {T} (d : T) x : is_Some_b x = true → x = Some (default d x).
Proof. by destruct x. Qed.

Lemma sent_tx_sent : sent_tx ∈ w_sent (n_world sender_node).
Proof.
  assert (Hs : is_Some_b (head (w_sent (n_world sender_node))) = true) by (vm_compute; reflexivity).
  unfold sent_tx. destruct (w_sent (n_world sender_node)); [discriminate Hs|left].
Qed.

Lemma sent_tx_arrives : transfers GetExtensionBlockManager (tx_bundle sent_tx) arrived.2.
Proof.
  apply (mtcp_arrives _ _ _ arrived.1); [|vm_compute; reflexivity|vm_compute; by split|vm_compute; reflexivity].
  let b := eval vm_compute in (tx_bundle sent_tx) in replace (tx_bundle sent_tx) with b by (vm_compute; reflexivity).
  repeat constructor; vm_compute; repeat split; auto; discriminate.
Qed.

Lemma after_receipt_reached : rtc (net_step GetExtensionBlockManager) two_nodes after_receipt.
Proof.
  apply (rtc_l _ _ after_create).
  { apply (net_create _ own_node (idle_node own_node [peer_b]) sample_bundle); [reflexivity|].
    split; [exact sample_bundle_wf|]. split; [vm_compute; reflexivity|]. exists 0. exact sample_bundle_valid. }
  trans after_send.
  { apply (schedule_steps _ own_node (replicate 9 (0%nat, some_oracle)) (NewBundle sample_bundle (idle_node own_node [peer_b])));
      [apply lookup_insert_eq|]. apply (is_Some_default (idle_node own_node []) sender_run). vm_compute. reflexivity. }
  apply (rtc_l _ _ after_transfer).
  { apply (net_transfer _ own_node sender_node node_b (idle_node node_b []) sent_tx);
      [apply lookup_insert_eq|exact sent_tx_sent|exact sent_tx_arrives|reflexivity]. }
  apply (schedule_steps _ node_b [(0%nat, some_oracle)] (ReceiveBundle arrived.2 (idle_node node_b []))); [apply lookup_insert_eq|].
  apply (is_Some_default (idle_node node_b []) receiver_run). vm_compute. reflexivity.
Qed.

(** A client of the second node fetches the bundle. *)
Definition fetched : res Bundle * Mailbox :=
  Mailbox_Get GetExtensionBlockManager 0 (Bundle_ID sample_bundle) true (w_store (n_world receiver_node)) {[Bundle_ID sample_bundle := false]}.

Lemma network_integrity_witness : ∃ b, fetched.1 = Ok b ∧
  ∃ b0, b0 ∈ [sample_bundle] ∧ Bundle_ID b0 = Bundle_ID sample_bundle ∧ same_content b0 b.
Proof.
  assert (Hok : is_ok fetched.1 = true) by (vm_compute; reflexivity).
  destruct (network_integrity GetExtensionBlockManager eq_refl two_nodes after_receipt node_b receiver_node two_nodes_start
    after_receipt_reached (lookup_insert_eq _ _ _)) as (_ & _ & Hget).
  specialize (Hget 0 (Bundle_ID sample_bundle) true {[Bundle_ID sample_bundle := false]}). fold fetched in Hget.
  destruct fetched as [[b| |] mb']; [|discriminate Hok..]. exists b. split; [reflexivity|]. exact (Hget mb' b eq_refl).
Defined.
