(* ===== verification/Validity.v ===== *)
(** * Validity on the way

    What [Bundle.CheckValid] accepts, as a predicate on the blocks that does not depend on
    their order; hence a node that replaces the previous node block of a valid bundle by
    its own forwards a valid bundle. *)

From stdpp Require Import base tactics list strings gmap.
From Stdlib Require Import ZArith Lia Bool.
From S2P Require Import Prelude Cboring GoSort Flags Crc DtnTime Endpoint BundleId ExtensionBlocks Blocks.
From S2P Require Import Bundle Samples BundleValid BundleCodec IdKeeper Descriptor Store StoreInv.
From S2P Require Import StoreHistory StoreExamples Cla Routing RoutingProps Mailbox AgentManager Processing Forwarding Content.
Local Open Scope Z_scope.

Abbreviation blocks_of t b := (filter (λ cb, has_type t cb = true) (b_ExtensionBlocks b)).

Section Validity.
Context `{Cboring} `{!CboringLaws _} `{Crc16} `{GoMapRange} `{Ed25519}.

(** What [CheckContextValid] wants of a block. *)
Definition context_ok (b : Bundle) (cb : CanonicalBlock) (v : ExtensionBlock) : Prop :=
  match v with
  | PreviousNodeBlock _ => blocks_of BlockTypePreviousNodeBlock b = [cb]
  | BundleAgeBlock _ => blocks_of BlockTypeBundleAgeBlock b = [cb]
  | HopCountBlock _ _ => blocks_of BlockTypeHopCountBlock b = [cb]
  | SignatureBlock pk sig => HasFragmentation (b_PrimaryBlock b) = true ∨ SignatureBlock_Verify pk sig b = Ok true
  | _ => True
  end.

(** The lifetime of a bundle without a creation time is compared with its age block. *)
Definition alive (now : Z) (b : Bundle) : Prop :=
  if IsZeroTime (pb_CreationTimestamp (b_PrimaryBlock b))
  then ∃ cb age, blocks_of BlockTypeBundleAgeBlock b = [cb] ∧ cb_Value cb = Some (BundleAgeBlock age) ∧ age ≤ pb_Lifetime (b_PrimaryBlock b)
  else IsLifetimeExceeded now b = Ok false.

Record valid_at (now : Z) (b : Bundle) : Prop := {
  va_primary : PrimaryBlock_CheckValid (b_PrimaryBlock b) = [];
  va_payload : CanonicalBlock_CheckValid (b_PayloadBlock b) = Ok [] ∧ Has (cb_BlockControlFlags (b_PayloadBlock b)) StatusReportBlock = false;
  va_numbers : NoDup (block_numbers (b_ExtensionBlocks b));
  va_blocks cb : cb ∈ b_ExtensionBlocks b → CanonicalBlock_CheckValid cb = Ok [] ∧ ∃ v, cb_Value cb = Some v ∧ context_ok b cb v;
  va_alive : alive now b;
}.

Lemma unique_block_iff b i t cb : all_valued (b_ExtensionBlocks b) → b_ExtensionBlocks b !! i = Some cb → has_type t cb = true →
  unique_block b i t = Ok [] ↔ blocks_of t b = [cb].
Proof.
  intros Hv Hi Ht. unfold unique_block. split.
  - intros Hu. destruct (unique_block_nil b i t Hu) as (cb' & Hi' & ->). congruence.
  - intros Hf. pose proof (proj2 (ExtensionBlockByType_Ok b t i cb) (conj Hv (conj Hi Hf))) as ->. by rewrite Nat.eqb_refl.
Qed.

Lemma context_iff b i cb v : all_valued (b_ExtensionBlocks b) → b_ExtensionBlocks b !! i = Some cb → cb_Value cb = Some v →
  CheckContextValid b i v = Ok [] ↔ context_ok b cb v.
Proof.
  intros Hv Hi Ev. assert (has_type (BlockTypeCode v) cb = true) as Ht by (unfold has_type; rewrite Ev; apply Z.eqb_refl).
  destruct v; simpl; try done; try (by apply unique_block_iff).
  unfold HasFragmentation. destruct (Has _ _); [naive_solver|].
  destruct (SignatureBlock_Verify _ _ _) as [[]| |]; simpl; naive_solver.
Qed.

Lemma alive_iff now b : all_valued (b_ExtensionBlocks b) → IsLifetimeExceeded now b = Ok false ↔ alive now b.
Proof.
  intros Hv. unfold alive. destruct (IsZeroTime _) eqn:Ez; [|done]. unfold IsLifetimeExceeded. rewrite Ez. split.
  - destruct (ExtensionBlockByType b _) as [[j cb]| |] eqn:E; [|done..]. apply ExtensionBlockByType_Ok in E as (_ & _ & Hf).
    destruct (cb_Value cb) as [[]|] eqn:Ev; try done. intros Hl%Ok_inj. apply Z.ltb_ge in Hl. eauto.
  - intros (cb & age & Hf & Ev & Hle). assert (cb ∈ blocks_of BlockTypeBundleAgeBlock b) as [_ Hin]%list_elem_of_filter by (rewrite Hf; by left).
    apply list_elem_of_lookup in Hin as [j Hj].
    pose proof (proj2 (ExtensionBlockByType_Ok b BlockTypeBundleAgeBlock j cb) (conj Hv (conj Hj Hf))) as ->.
    rewrite Ev. f_equal. by apply Z.ltb_ge.
Qed.

Lemma check_blocks_complete b l : ∀ i seen, NoDup (block_numbers l) → (∀ n, n ∈ block_numbers l → n ∉ seen) →
  (∀ j cb, l !! j = Some cb → ∃ v, cb_Value cb = Some v ∧ CheckContextValid b (i + j) v = Ok []) → check_blocks b i seen l = Ok [].
Proof.
  induction l as [|c l IH]; intros i seen Hnd Hs Hc; simpl; [done|].
  destruct (Hc 0%nat c eq_refl) as (v & -> & Hv). rewrite Nat.add_0_r in Hv. rewrite Hv. simpl.
  apply NoDup_cons in Hnd as [Hn Hnd]. rewrite IH; [|done|..].
  - rewrite bool_decide_eq_false_2; [done|]. apply Hs. by left.
  - intros n Hin [->|Hseen]%elem_of_cons; [done|]. apply (Hs n); [by right|done].
  - intros j cb Hj. replace (S i + j)%nat with (i + S j)%nat by lia. by apply Hc.
Qed.

(** The predicate is what the code computes. *)
Lemma CheckValid_iff now b : Bundle_CheckValid now b = Ok [] ↔ valid_at now b.
Proof.
  split.
  - intros (Hp & He & Hpl & Hs & Hb & Hl)%Bundle_CheckValid_nil. destruct (check_blocks_nil _ _ _ _ Hb) as (Hnd & _ & Hctx).
    rewrite check_each_nil in He. assert (all_valued (b_ExtensionBlocks b)) as Hv.
    { apply Forall_lookup. intros i cb Hi. destruct (Hctx i cb Hi) as (v & Ev & _). by exists v. }
    split; [done..| |by apply alive_iff]. intros cb [i Hi]%list_elem_of_lookup. destruct (Hctx i cb Hi) as (v & Ev & Hc).
    split; [by eapply Forall_lookup_1 in He|]. exists v. split; [done|]. by apply (context_iff b i cb v).
  - intros [Hp [Hpl Hs] Hnd Hb Hl]. assert (all_valued (b_ExtensionBlocks b)) as Hv.
    { apply Forall_forall. intros cb Hin. destruct (Hb cb Hin) as (_ & v & Ev & _). by exists v. }
    unfold Bundle_CheckValid. rewrite (proj2 (check_each_nil _)); [|apply Forall_forall; intros cb Hin; by apply Hb]. rewrite Hpl. simpl.
    rewrite check_blocks_complete; [|done|by intros n _ ?%not_elem_of_nil|].
    2:{ intros j cb Hj. destruct (Hb cb) as (_ & v & Ev & Hc); [by eapply list_elem_of_lookup_2|]. exists v. split; [done|].
        by apply (context_iff b j cb v). }
    simpl. rewrite (proj2 (alive_iff now b Hv) Hl), Hp, Hs. simpl. unfold alive in Hl. destruct (IsZeroTime _); [|done].
    destruct Hl as (cb & age & Hf & _ & _). unfold HasExtensionBlock, ExtensionBlocksByType.
    destruct (blocks_of_type_total BlockTypeBundleAgeBlock 0 _ Hv) as [cbs E]. rewrite E. simpl.
    destruct (blocks_of_type_Ok _ _ _ _ E) as (_ & Hf' & _). rewrite Hf in Hf'. by destruct cbs.
Qed.

(** ** Forwarding *)

Lemma blocks_of_other t b : t ≠ BlockTypePreviousNodeBlock → blocks_of t b = filter (λ cb, has_type t cb = true) (other_blocks b).
Proof.
  intros Hne. rewrite list_filter_filter_l; [done|]. unfold has_type. intros cb. destruct (cb_Value cb) as [v|]; [|done].
  intros ->%Z.eqb_eq. by apply Z.eqb_neq.
Qed.

Lemma blocks_of_kept t b b' cb : t ≠ BlockTypePreviousNodeBlock → other_blocks b' ≡ₚ other_blocks b → blocks_of t b = [cb] → blocks_of t b' = [cb].
Proof. intros Hne Ho. rewrite !blocks_of_other by done. intros Hf. apply Permutation_singleton_r. by rewrite Ho, Hf. Qed.

Lemma replaced_valid now b b' p own : valid_at now b → b_PrimaryBlock b' = b_PrimaryBlock b → b_PayloadBlock b' = b_PayloadBlock b →
  other_blocks b' ≡ₚ other_blocks b → NoDup (block_numbers (b_ExtensionBlocks b')) → prev_blocks b' = [p] →
  cb_Value p = Some (PreviousNodeBlock own) → CanonicalBlock_CheckValid p = Ok [] → valid_at now b'.
Proof.
  intros [Hp Hpl Hnd Hb Hl] Epr Epl Ho Hnd' Hprev Ep Hpv. split; rewrite ?Epr, ?Epl; [done..| |].
  - intros cb Hin. destruct (has_type BlockTypePreviousNodeBlock cb) eqn:Et.
    + assert (cb ∈ prev_blocks b') as Hc by (by apply list_elem_of_filter). rewrite Hprev in Hc. apply list_elem_of_singleton in Hc as ->.
      split; [done|]. by exists (PreviousNodeBlock own).
    + assert (cb ∈ other_blocks b') as Hc by (by apply list_elem_of_filter). rewrite Ho in Hc. apply list_elem_of_filter in Hc as [_ Hc].
      destruct (Hb cb Hc) as (Hcv & v & Ev & Hctx). split; [done|]. exists v. split; [done|].
      destruct v; simpl in *; try done; try (by eapply blocks_of_kept).
      * unfold has_type in Et. rewrite Ev in Et. discriminate Et.
      * unfold SignatureBlock_Verify, signatureBundleData in *. by rewrite Epr, Epl.
  - unfold alive in *. rewrite Epr. destruct (IsZeroTime _) eqn:Ez; [|unfold IsLifetimeExceeded in *; rewrite Epr; by rewrite Ez in *].
    destruct Hl as (cb & age & Hf & Ev & Hle). exists cb, age. split; [by eapply blocks_of_kept|done].
Qed.

(** A valid bundle is forwarded as a valid bundle. *)
Lemma forward_valid own now b b' : EndpointID_CheckValid own = [] → (length (prev_blocks b) ≤ 1)%nat →
  update_previous_node own b = Ok b' → valid_at now b → valid_at now b'.
Proof.
  intros Ho Hl Hu Hv. assert (all_valued (b_ExtensionBlocks b)) as Hall.
  { apply Forall_forall. intros cb Hin. destruct (va_blocks _ _ Hv cb Hin) as (_ & v & Ev & _). by exists v. }
  destruct (previous_node_replaced own b Hall (va_numbers _ _ Hv) Hl) as (b2 & n & Hu2 & Hp & Hoth & Epr & Epl & Hnd & _).
  rewrite Hu in Hu2. injection Hu2 as <-. eapply replaced_valid; try done. unfold CanonicalBlock_CheckValid. simpl. by rewrite Ho.
Qed.
End Validity.
