(* ===== verification/Delivered.v ===== *)
(** * The way of a bundle

    From every reachable state of a network, a valid bundle that an application creates at
    one node can travel along a route of connected nodes and gets into the mailboxes at its
    end.  A hop is the composition of the goroutines of both nodes and of the transport;
    the goroutines are run call by call. *)

From stdpp Require Import base tactics list strings gmap relations.
From Stdlib Require Import ZArith Lia Bool.
From S2P Require Import Prelude Cboring GoSort Flags Crc DtnTime Endpoint BundleId ExtensionBlocks Blocks.
From S2P Require Import Bundle Samples BundleValid BundleCodec Fragmentation IdKeeper Descriptor Store StoreInv.
From S2P Require Import StoreHistory StoreExamples Cla Routing RoutingProps Mailbox MailboxProps AgentManager.
From S2P Require Import Processing Forwarding ForwardingSpec Content Transport Integrity Network Validity.
Local Open Scope Z_scope.

#[local] Existing Instance EpidemicRouting.

Section Delivered.
Context `{Cboring} `{!CboringLaws _} `{Crc16} `{GoMapRange} `{Ed25519} `{Badgerhold} `{!BadgerholdLaws _} `{Sha256}.
Context `{!Inj (=) (=) sha256_hex}.
Context (ebm : ExtensionBlockManager).
Hypothesis prev_registered : createBlock ebm BlockTypePreviousNodeBlock = KPreviousNode.

(** The disk has room: the database takes a new key. *)
Hypothesis db_works : ∀ k m d, db_get d k = None → (db_Insert k m d).1 = Ok ().

(** ** Insertion *)

Lemma previous_node_total b : Bundle_wf ebm b → ∃ prev, previous_node b = Ok prev.
Proof.
  intros Hwf. unfold previous_node, ExtensionBlockByType, ExtensionBlocksByType.
  destruct (blocks_of_type_total BlockTypePreviousNodeBlock 0 _ (wf_all_valued ebm b Hwf)) as [cbs E]. rewrite E.
  destruct (blocks_of_type_Ok _ _ _ _ E) as (_ & _ & Hin). destruct cbs as [|[j cb] [|]]; simpl; [by eexists| |by eexists].
  destruct (proj1 (Hin j cb)) as (_ & Hj & Ht); [by left|]. destruct Hwf as (_ & Hl & _).
  eapply Forall_lookup_1 in Hl as [(_ & _ & _ & _ & Hv) _]; [|exact Hj].
  unfold has_type in Ht. destruct (cb_Value cb) as [v|]; [|done]. destruct Hv as (_ & _ & _ & Hr).
  apply Z.eqb_eq in Ht. unfold registered in Hr. rewrite Ht, prev_registered in Hr. destruct v; try discriminate Hr. by eexists.
Qed.

Lemma previous_node_announced own b : Bundle_wf ebm b → announced own b → previous_node b = Ok (Some own).
Proof.
  intros Hwf [n Hp]. assert (mkCanonical n 0 CRCNo [] (Some (PreviousNodeBlock own)) ∈ prev_blocks b) as [_ Hin]%list_elem_of_filter
    by (rewrite Hp; by left).
  apply list_elem_of_lookup in Hin as [j Hj]. unfold previous_node.
  pose proof (proj2 (ExtensionBlockByType_Ok b BlockTypePreviousNodeBlock j _) (conj (wf_all_valued ebm b Hwf) (conj Hj Hp))) as ->. done.
Qed.

(** Neither the store nor its database knows the bundle. *)
Definition unknown (b : Bundle) (s : BundleStore) : Prop :=
  st_bundles s !! Bundle_ID b = None ∧ db_get (st_metadataStore s) (BundleID_String (Bundle_ID b)) = None.

(** The bundle [b] is in the store at [loc] with the bytes [bs]. *)
Record holds (b : Bundle) (bs : bytes) (loc : nat) (d : BundleDescriptor) (s : BundleStore) : Prop := {
  ho_heap : st_heap s !! loc = Some d;
  ho_live : d_deleted d = false;
  ho_id : m_ID (d_metadata d) = Bundle_ID b;
  ho_destination : m_Destination (d_metadata d) = pb_Destination (b_PrimaryBlock b);
  ho_found : st_bundles s !! Bundle_ID b = Some loc;
  ho_file : st_files s !! m_SerialisedFileName (d_metadata d) = Some bs;
}.

Lemma insert_unknown b bs b1 prev s : unknown b s → Bundle_MarshalCbor b = Ok (bs, b1) → previous_node b = Ok prev →
  ∃ loc s1, InsertBundle io_ok b s = (Ok loc, s1) ∧ holds b bs loc (NewBundleDescriptor (new_metadata (st_nodeID s) b prev)) s1.
Proof.
  intros [Hb Hd] Hm Hp. set (m := new_metadata (st_nodeID s) b prev). unfold InsertBundle, insertNewBundleUnsafe. rewrite Hb, Hp. fold m.
  pose proof (db_works (m_IDString m) m (st_metadataStore s) Hd) as Hok. destruct (db_Insert _ _ _) as [r d]. simpl in Hok. subst r.
  simpl. rewrite Hm. eexists _, _. split; [reflexivity|]. split; simpl; try done.
  - by apply list_lookup_middle.
  - apply lookup_insert_eq.
  - apply lookup_insert_eq.
Qed.

Lemma holds_load now b bs b1 loc d s : Bundle_wf ebm b → Bundle_MarshalCbor b = Ok (bs, b1) → valid_at now b → holds b bs loc d s →
  Load ebm now loc s = Ok b1.
Proof.
  intros Hwf Hm Hv [Hh Hl Hid Hdst Hb Hf]. unfold Load, loadEntireBundle. rewrite Hh, Hl, Hf. unfold ParseBundle.
  destruct (unmarshal_written ebm b bs b1 now [] Hwf Hm) as (Hu & _ & He & _). rewrite app_nil_r in Hu. rewrite Hu.
  by rewrite (check_bundle_erase now b b1 He (proj2 (CheckValid_iff now b) Hv)).
Qed.

Lemma holds_found b bs loc d s : holds b bs loc d s → GetBundleDescriptor (Bundle_ID b) s = Ok loc.
Proof. intros [Hh Hl _ _ Hb _]. unfold GetBundleDescriptor, Deleted. by rewrite Hb, Hh, Hl. Qed.

Lemma holds_get now b bs b1 loc d s remove mb : Bundle_wf ebm b → Bundle_MarshalCbor b = Ok (bs, b1) → valid_at now b → holds b bs loc d s →
  is_Some (mb !! Bundle_ID b) → ∃ mb', Mailbox_Get ebm now (Bundle_ID b) remove s mb = (Ok b1, mb').
Proof.
  intros Hwf Hm Hv Hh [seen Hin]. unfold Mailbox_Get. rewrite Hin, (holds_found b bs loc d s Hh). simpl. rewrite (holds_load now b bs b1 loc d s Hwf Hm Hv Hh). by eexists.
Qed.

(** An operation on the descriptor that keeps its metadata. *)
Lemma holds_op {T} (f : BundleDescriptor → res T * BundleDescriptor * bool) b bs loc d r d' s : holds b bs loc d s → f d = (r, d', false) →
  d_deleted d' = false → d_metadata d' = d_metadata d → ∃ s', desc_op f loc s = (r, s') ∧ holds b bs loc d' s'.
Proof.
  intros [Hh Hl Hid Hdst Hb Hf] Ef Hl' Em. unfold desc_op. rewrite Hh, Ef. eexists. split; [reflexivity|].
  split; simpl; rewrite ?Em; try done. apply list_lookup_insert_eq. by eapply lookup_lt_Some.
Qed.

(** ** Goroutines *)

(** One call of a goroutine at node [own], after which it goes on. *)
Definition goes (own : EndpointID) (p q : World * task) : Prop := ∃ o, task_step ebm own o p.2 p.1 = (Ok [q.2], q.1).

Section Net.
Context `{!Transport ebm}.

Lemma goes_net own ts0 p q net : rtc (goes own) p q → nt_nodes net !! own = Some (mkNode p.1 (ts0 ++ [p.2])) →
  rtc (net_work ebm) net (set_node own (mkNode q.1 (ts0 ++ [q.2])) net).
Proof.
  intros Hr. revert net. induction Hr as [p|p p1 q [o Ho] _ IH]; intros net El.
  - unfold set_node. rewrite insert_id by done. by destruct net.
  - eapply rtc_l; [eapply (nw_task _ own _ o (length ts0)); [exact El| |exact Ho]; simpl; by apply list_lookup_middle|].
    simpl n_tasks. rewrite delete_middle, app_nil_r. set (net1 := set_node own _ net).
    assert (set_node own (mkNode q.1 (ts0 ++ [q.2])) net = set_node own (mkNode q.1 (ts0 ++ [q.2])) net1) as ->;
      [|apply IH, lookup_insert_eq].
    unfold set_node, net1. simpl. by rewrite insert_insert_eq.
Qed.
End Net.

(** Every agent with a mailbox for the destination of [b] has its id there. *)
Definition notified (b : Bundle) (agents agents' : gmap string ApplicationAgent) : Prop :=
  ∀ name a mb, agents !! name = Some a → mb_mailboxes (Agent_mailboxes a) !! pb_Destination (b_PrimaryBlock b) = Some mb →
    ∃ a' mb', agents' !! name = Some a' ∧ mb_mailboxes (Agent_mailboxes a') !! pb_Destination (b_PrimaryBlock b) = Some mb' ∧
      is_Some (mb' !! Bundle_ID b).

Lemma deliver_notifies b bs loc d s agents : core_inv s → holds b bs loc d s →
  ∃ agents', Delivery ((map_to_list agents).*1) loc s agents = (Ok (), agents') ∧ notified b agents agents'.
Proof.
  intros Hs Hh. destruct (Delivery_result (map_to_list agents).*1 loc s d agents Hs (ho_heap _ _ _ _ _ Hh)) as [Hr Hl];
    [apply NoDup_fst_map_to_list|].
  destruct (Delivery _ _ _ _) as [r agents']. simpl in Hr, Hl. subst r. exists agents'. split; [done|].
  intros name a mb Ea Em. specialize (Hl name). rewrite decide_True in Hl.
  2:{ apply list_elem_of_fmap. exists (name, a). split; [done|by apply elem_of_map_to_list]. }
  rewrite Ea in Hl. destruct (Agent_Deliver_mailbox s loc d a Hs (ho_heap _ _ _ _ _ Hh) (ho_live _ _ _ _ _ Hh)) as [_ Hm].
  rewrite (ho_destination _ _ _ _ _ Hh), Em, (ho_id _ _ _ _ _ Hh) in Hm. eexists _, _. split; [exact Hl|]. split; [exact Hm|].
  destruct (mb !! Bundle_ID b) eqn:E; [by rewrite E|rewrite lookup_insert_eq; by eexists].
Qed.

(** [receiveAsync], up to the question whether the bundle is to be forwarded *)
Lemma receive_goes own b bs b1 prev new w : core_inv (w_store w) → unknown b (w_store w) → Bundle_MarshalCbor b = Ok (bs, b1) →
  previous_node b = Ok prev →
  ∃ loc s agents, rtc (goes own) (w, R_start b new) (mkWorld s (w_cla w) agents (w_sent w), R_check loc) ∧
    holds b bs loc (NewBundleDescriptor (new_metadata (st_nodeID (w_store w)) b prev)) s ∧ notified b (w_agents w) agents.
Proof.
  intros Hs Hu Hm Hp. destruct (insert_unknown b bs b1 prev _ Hu Hm Hp) as (loc & s & Hi & Hh).
  assert (core_inv s) as Hs1 by (pose proof (InsertBundle_inv io_ok b _ Hs) as Hs1; by rewrite Hi in Hs1).
  destruct (deliver_notifies b bs loc _ s (w_agents w) Hs1 Hh) as (agents & Hd & Hn). exists loc, s, agents. split; [|done].
  set (o := mkOracle 0 0 io_ok (map_to_list (w_agents w)).*1 0 true). set (w1 := set_w_store s w). set (w2 := mkWorld s _ _ _).
  apply (rtc_l _ _ (w1, R_deliver loc b new)); [exists o; simpl; unfold or_return, on_store; by rewrite Hi|].
  apply (rtc_l _ _ (w2, R_notify loc b new)); [exists o; simpl; unfold mbind, M_bind, deliver; simpl; by rewrite Hd|].
  apply rtc_once. exists o. simpl. by destruct new.
Qed.

(** [forwardingAsync], up to the transmission to the peer [cs] *)
Lemma forward_goes own now b bs b1 b2 loc m cs w : Bundle_wf ebm b → Bundle_MarshalCbor b = Ok (bs, b1) → valid_at now b →
  update_previous_node own b1 = Ok b2 → holds b bs loc (NewBundleDescriptor m) (w_store w) →
  cs ∈ GetSenders (w_cla w) → cla_PeerEndpointID cs ∉ m_KnownHolders m →
  ∃ w' t, rtc (goes own) (w, R_check loc) (w', t) ∧ mkTx loc b2 cs true ∈ w_sent w'.
Proof.
  intros Hwf Hm Hv Hu Hh Hcs Hk.
  set (d1 := mkDescriptor m [DispatchPending; ForwardPending] true false false false).
  set (d2 := mkDescriptor m [ForwardPending] true false false false).
  destruct (holds_op (λ d, (AddConstraint ForwardPending d, false)) b bs loc _ (Ok ()) d1 _ Hh eq_refl eq_refl eq_refl) as (s1 & E1 & Hh1).
  destruct (holds_op (RemoveConstraint DispatchPending) b bs loc _ (Ok ()) d2 _ Hh1 eq_refl eq_refl eq_refl) as (s2 & E2 & Hh2).
  set (w1 := set_w_store s1 w). set (w2 := set_w_store s2 w). set (peers := filterPeers d2 (GetSenders (w_cla w))).
  assert (cs ∈ peers) as Hin.
  { apply list_elem_of_filter. split; [|done]. apply not_true_is_false. intros (e & He & Heq%bool_decide_eq_true)%existsb_exists.
    apply Hk. rewrite Heq. by apply list_elem_of_In. }
  destruct (proj1 (list_elem_of_lookup _ _) Hin) as [i Hi]. pose proof (lookup_lt_Some _ _ _ Hi) as Hlt.
  set (o := mkOracle now 0 io_ok [] i true). set (gs := (λ peer, (peer, false)) <$> peers).
  exists (set_w_sent (w_sent w2 ++ [mkTx loc b2 cs true]) w2), (F_send loc b2 (<[i := (cs, true)]> gs)).
  split; [|simpl; apply elem_of_app; right; by left].
  apply (rtc_l _ _ (w, F_start loc)); [exists o; simpl; unfold check_dispatch; by rewrite (ho_heap _ _ _ _ _ Hh)|].
  apply (rtc_l _ _ (w1, F_dispatch loc)); [exists o; simpl; unfold or_return, on_store, bd_AddConstraint; by rewrite E1|].
  apply (rtc_l _ _ (w2, F_select loc)); [exists o; simpl; unfold or_return, on_store, bd_RemoveConstraint; simpl; by rewrite E2|].
  apply (rtc_l _ _ (w2, F_load loc peers)).
  { exists o. simpl. unfold mbind, M_bind, select_peers, on_store. simpl. rewrite (ho_heap _ _ _ _ _ Hh2). fold peers.
    by destruct peers as [|p l]; [apply not_elem_of_nil in Hin|]. }
  apply (rtc_l _ _ (w2, F_send loc b2 gs)).
  { exists o. simpl. unfold or_return, load_bundle. simpl. rewrite (holds_load now b bs b1 loc d2 s2 Hwf Hm Hv Hh2).
    unfold start_sending, mbind, M_bind, lift_res. by rewrite Hu. }
  apply rtc_once. exists o. assert (gs !! i = Some (cs, false)) as Hgs by (unfold gs; by rewrite list_lookup_fmap, Hi).
  assert ((i `mod` length gs)%nat = i) as Hmod by (unfold gs; rewrite length_fmap; by apply Nat.mod_small).
  simpl. destruct gs as [|g gs']; [done|]. unfold o_pick. change (o_pick o) with i. rewrite Hmod, Hgs. done.
Qed.

(** ** The hop *)

Lemma valid_erase now b b' : erase_crc b' = erase_crc b → valid_at now b → valid_at now b'.
Proof. intros He Hv. apply CheckValid_iff. rewrite <- Bundle_CheckValid_erase, He, Bundle_CheckValid_erase. by apply CheckValid_iff. Qed.

(** What a node puts on the wire for a bundle that it has stored, and what the receiver
    reads from it. *)
Definition hop (own : EndpointID) (b : Bundle) : res (bytes * Bundle) :=
  '(_, b1) ← Bundle_MarshalCbor b;
  b2 ← update_previous_node own b1;
  Bundle_MarshalCbor b2.

Lemma previous_node_erase b b' : erase_crc b = erase_crc b' → previous_node b = previous_node b'.
Proof.
  intros E. assert (∀ x, previous_node x = previous_node (erase_crc x)) as Hx; [|by rewrite Hx, E, <- Hx].
  intros x. unfold previous_node. rewrite ExtensionBlockByType_erase. by destruct (ExtensionBlockByType x _) as [[j cb]| |].
Qed.

Context `{T : !Transport ebm} (now : Z) `{!LiveTransport ebm T now}.

(** Serialising a genuine bundle and forwarding it. *)
Lemma hop_spec own b0 b : announceable_node own → EndpointID_CheckValid own = [] → len (other_blocks b0) + 3 < two64 → genuine ebm b0 b → valid_at now b →
  ∃ bs1 b1 b2 bs3 b3, Bundle_MarshalCbor b = Ok (bs1, b1) ∧ update_previous_node own b1 = Ok b2 ∧ Bundle_MarshalCbor b2 = Ok (bs3, b3) ∧
    hop own b = Ok (bs3, b3) ∧ genuine ebm b0 b2 ∧ genuine ebm b0 b3 ∧ valid_at now b3 ∧ previous_node b3 = Ok (Some own).
Proof.
  intros Ho Hov Hlen Hg Hv.
  destruct (Bundle_Marshal_wf ebm b (ge_wf _ _ _ Hg)) as (body & b1 & Hm & He & _). pose proof (genuine_marshal ebm b0 b _ b1 Hg Hm) as Hg1.
  destruct (forward_genuine ebm prev_registered own b0 b1 Ho Hlen Hg1) as (b2 & Hu & Hg2 & Ha).
  destruct (Bundle_Marshal_wf ebm b2 (ge_wf _ _ _ Hg2)) as (body3 & b3 & Hm3 & He3 & _).
  eexists _, b1, b2, _, b3. split_and!; try done.
  - unfold hop. rewrite Hm. simpl. rewrite Hu. exact Hm3.
  - by eapply genuine_marshal.
  - apply (valid_erase now b2); [done|]. eapply forward_valid; [done|apply Hg1|exact Hu|]. by apply (valid_erase now b).
  - rewrite (previous_node_erase _ _ He3). by apply previous_node_announced; [apply Hg2|].
Qed.

(** A node with the bundle: the goroutine that received it is to ask whether the bundle
    is to be forwarded. *)
Record carrier (b : Bundle) (holders : list EndpointID) (senders : list Convergence) (n : Node) : Prop := {
  ca_task : ∃ ts0 loc bs b1 m, n_tasks n = ts0 ++ [R_check loc] ∧ Bundle_MarshalCbor b = Ok (bs, b1) ∧
    holds b bs loc (NewBundleDescriptor m) (w_store (n_world n)) ∧ m_KnownHolders m = holders;
  ca_senders : GetSenders (w_cla (n_world n)) = senders;
}.

(** Reception makes a node a carrier. *)
Lemma reception own n b new prev net : core_inv (w_store (n_world n)) → unknown b (w_store (n_world n)) → Bundle_wf ebm b → previous_node b = Ok prev →
  nt_nodes net !! own = Some (mkNode (n_world n) (n_tasks n ++ [R_start b new])) →
  ∃ n', rtc (net_work ebm) net (set_node own n' net) ∧
    carrier b (st_nodeID (w_store (n_world n)) :: option_list prev) (GetSenders (w_cla (n_world n))) n' ∧
    notified b (w_agents (n_world n)) (w_agents (n_world n')).
Proof.
  intros Hcore Hu Hwf Hp El. destruct (Bundle_Marshal_wf ebm b Hwf) as (body & b1 & Hm & _).
  destruct (receive_goes own b _ b1 prev new _ Hcore Hu Hm Hp) as (loc & s & agents & Hrec & Hh & Hn).
  eexists. split; [exact (goes_net own (n_tasks n) _ _ net Hrec El)|]. split; [|exact Hn]. split; [|done].
  by eexists (n_tasks n), loc, _, b1, _.
Qed.

(** A carrier sends its bundle, and the next node becomes a carrier. *)
Lemma carrier_hop x nx y ny b0 b holders senders cs net : net_inv ebm net → nt_nodes net !! x = Some nx → nt_nodes net !! y = Some ny → x ≠ y →
  carrier b holders senders nx → len (other_blocks b0) + 3 < two64 → genuine ebm b0 b → valid_at now b →
  EndpointID_CheckValid x = [] → cs ∈ senders → cla_PeerEndpointID cs = y → y ∉ holders → unknown b (w_store (n_world ny)) →
  (∀ bs b', hop x b = Ok (bs, b') → is_u64 (len bs + 18)) →
  ∃ net' ny' b' bs, hop x b = Ok (bs, b') ∧ previous_node b' = Ok (Some x) ∧ rtc (net_work ebm) net net' ∧ nt_nodes net' !! y = Some ny' ∧
    carrier b' [st_nodeID (w_store (n_world ny)); x] (GetSenders (w_cla (n_world ny))) ny' ∧ genuine ebm b0 b' ∧ valid_at now b' ∧
    notified b' (w_agents (n_world ny)) (w_agents (n_world ny')) ∧ ∀ z, z ≠ x → z ≠ y → nt_nodes net' !! z = nt_nodes net !! z.
Proof.
  intros Hi Ex Ey Hne [(ts0 & loc & bs1 & b1 & m & Hts & Hm & Hh & Hk) Hse] Hlen Hg Hv Hxv Hcs Hpeer Hnk Hunk Hsize.
  destruct (ni_nodes _ _ Hi x nx Ex) as [Ho _]. destruct (ni_nodes _ _ Hi y ny Ey) as [_ [[[Hcore _] _] _]].
  destruct (hop_spec x b0 b Ho Hxv Hlen Hg Hv) as (bs1' & b1' & b2 & bs3 & b3 & Hm1 & Hu & Hm3 & Hhop & Hg2 & Hg3 & Hv3 & Hp3).
  rewrite Hm in Hm1. injection Hm1 as <- <-.
  destruct (forward_goes x now b bs1 b1 b2 loc m cs (n_world nx)) as (w & t & Hfwd & Htx);
    [apply Hg|done..|by rewrite Hse|by rewrite Hpeer, Hk|].
  set (net1 := set_node x (mkNode w (ts0 ++ [t])) net). set (net2 := set_node y (ReceiveBundle b3 ny) net1).
  assert (rtc (net_work ebm) net net1) as Hr1
    by (apply (goes_net x ts0 _ _ net Hfwd); simpl; rewrite <- Hts; by destruct nx).
  assert (net_work ebm net1 net2) as Hr2.
  { unfold net2. rewrite <- Hpeer. eapply (nw_transfer _ x _ _ (mkTx loc b2 cs true)); [apply lookup_insert_eq|exact Htx| |simpl; by rewrite Hpeer, lookup_insert_ne].
    apply (transfers_live ebm b2 bs3 b3); [apply Hg2|done|by apply (Hsize bs3 b3)|by apply check_bundle_Ok, CheckValid_iff]. }
  assert (unknown b3 (w_store (n_world ny))) as Hunk3
    by (unfold unknown; by rewrite <- (Bundle_ID_proper _ _ (ge_content _ _ _ Hg3)), (Bundle_ID_proper _ _ (ge_content _ _ _ Hg))).
  destruct (reception y ny b3 false (Some x) net2 Hcore Hunk3 (ge_wf _ _ _ Hg3) Hp3) as (ny' & Hr3 & Hc & Hn); [apply lookup_insert_eq|].
  exists (set_node y ny' net2), ny', b3, bs3. split_and!; try done.
  - etrans; [exact Hr1|]. by eapply rtc_l.
  - apply lookup_insert_eq.
  - intros z Hzx Hzy. simpl. by rewrite !lookup_insert_ne.
Qed.

(** ** Routes *)

(** The bundle [b] at [x] may travel along [rest]: each node has a sender for the next
    one, which is neither a known holder nor has the bundle in its store, and what is sent
    fits the length field of MTCP. *)
Fixpoint route (nodes : gmap EndpointID Node) (b : Bundle) (x : EndpointID) (holders : list EndpointID) (senders : list Convergence)
    (rest : list EndpointID) : Prop :=
  match rest with
  | [] => True
  | y :: rest => EndpointID_CheckValid x = [] ∧ (∃ cs, cs ∈ senders ∧ cla_PeerEndpointID cs = y) ∧ (y ∉ holders) ∧
      ∃ ny, nodes !! y = Some ny ∧ unknown b (w_store (n_world ny)) ∧
        ∀ bs b', hop x b = Ok (bs, b') → is_u64 (len bs + 18) ∧
          route nodes b' y [st_nodeID (w_store (n_world ny)); x] (GetSenders (w_cla (n_world ny))) rest
  end.

Lemma route_agree nodes nodes' rest : ∀ b x holders senders, (∀ z, z ∈ rest → nodes' !! z = nodes !! z) →
  route nodes b x holders senders rest → route nodes' b x holders senders rest.
Proof.
  induction rest as [|y rest IH]; intros b x holders senders Hz; simpl; [done|].
  intros (Hx & Hcs & Hh & ny & Ey & Hu & Hr). do 3 (split; [done|]). exists ny. split; [rewrite Hz; [done|by left]|]. split; [done|].
  intros bs b' Hhop. destruct (Hr bs b' Hhop) as [Hs Hr']. split; [done|]. apply IH; [|done]. intros z Hin. apply Hz. by right.
Qed.

Lemma net_inv_work net net' : net_inv ebm net → rtc (net_work ebm) net net' → net_inv ebm net'.
Proof. intros Hi Hr. induction Hr; [done|]. by eapply IHHr, (net_step_inv ebm prev_registered), net_work_step. Qed.

(** The node that the last node of a route has the bundle from. *)
Fixpoint last_hop (prev : option EndpointID) (x : EndpointID) (rest : list EndpointID) : option EndpointID :=
  match rest with [] => prev | y :: rest => last_hop (Some x) y rest end.

(** At the end of the way: some form of the bundle is there, and so are the mails. *)
Definition arrived_at (b0 : Bundle) (prev : option EndpointID) (nz nz' : Node) : Prop :=
  ∃ b holders senders, carrier b holders senders nz' ∧ previous_node b = Ok prev ∧ genuine ebm b0 b ∧ valid_at now b ∧ notified b (w_agents (n_world nz)) (w_agents (n_world nz')).

Lemma arrived_served b0 prev nz nz' : arrived_at b0 prev nz nz' →
  ∃ loc b', GetBundleDescriptor (Bundle_ID b0) (w_store (n_world nz')) = Ok loc ∧ Load ebm now loc (w_store (n_world nz')) = Ok b' ∧ same_content b0 b' ∧
    Bundle_CheckValid now b' = Ok [] ∧ previous_node b' = Ok prev ∧
    ∀ name ag mb, w_agents (n_world nz) !! name = Some ag →
      mb_mailboxes (Agent_mailboxes ag) !! pb_Destination (b_PrimaryBlock b0) = Some mb →
      ∃ ag' mb', w_agents (n_world nz') !! name = Some ag' ∧
        mb_mailboxes (Agent_mailboxes ag') !! pb_Destination (b_PrimaryBlock b0) = Some mb' ∧
        ∀ remove, ∃ mb2, Mailbox_Get ebm now (Bundle_ID b0) remove (w_store (n_world nz')) mb' = (Ok b', mb2).
Proof.
  intros (b & holders & senders & [(ts0 & loc & bs & b' & m & _ & Hm & Hh & _) _] & Hp & Hg & Hv & Hn).
  rewrite (Bundle_ID_proper _ _ (ge_content _ _ _ Hg)).
  assert (pb_Destination (b_PrimaryBlock b0) = pb_Destination (b_PrimaryBlock b)) as -> by exact (destination_proper _ _ (ge_content _ _ _ Hg)).
  pose proof (ge_wf _ _ _ Hg) as Hwf. destruct (unmarshal_written ebm b bs b' now [] Hwf Hm) as (_ & _ & He & _).
  exists loc, b'. split_and!.
  - by eapply holds_found.
  - by eapply holds_load.
  - exact (ge_content _ _ _ (genuine_marshal ebm b0 b _ b' Hg Hm)).
  - apply CheckValid_iff. by apply (valid_erase now b).
  - by rewrite (previous_node_erase _ _ He).
  - intros name ag mb Ea Em. destruct (Hn name ag mb Ea Em) as (ag' & mb' & E1 & E2 & E3).
    exists ag', mb'. do 2 (split; [done|]). intros remove. by eapply holds_get.
Qed.

Lemma route_goes b0 rest : len (other_blocks b0) + 3 < two64 → ∀ x nx nx' b prev holders senders z nz net, net_inv ebm net → NoDup (x :: rest) →
  nt_nodes net !! x = Some nx' → carrier b holders senders nx' → previous_node b = Ok prev → genuine ebm b0 b → valid_at now b →
  notified b (w_agents (n_world nx)) (w_agents (n_world nx')) → route (nt_nodes net) b x holders senders rest →
  last (x :: rest) = Some z → (if decide (z = x) then nz = nx else nt_nodes net !! z = Some nz) →
  ∃ net' nz', rtc (net_work ebm) net net' ∧ nt_nodes net' !! z = Some nz' ∧ arrived_at b0 (last_hop prev x rest) nz nz'.
Proof.
  intros Hlen. induction rest as [|y rest IH]; intros x nx nx' b prev holders senders z nz net Hi Hnd Ex Hc Hp Hg Hv Hn Hr Hl Hz.
  { simpl in Hl. injection Hl as <-. rewrite decide_True in Hz by done. subst nz. exists net, nx'. split; [done|]. split; [done|]. by exists b, holders, senders. }
  apply NoDup_cons in Hnd as [Hx Hnd]. destruct Hr as (Hxv & (cs & Hcs & Hpeer) & Hnk & ny & Ey & Hunk & Hrest).
  destruct (carrier_hop x nx' y ny b0 b holders senders cs net) as (net1 & ny' & b' & bs & Hhop & Hp' & Hsteps & Ey' & Hc' & Hg' & Hv' & Hn' & Hsame);
    try done; [set_solver|by intros bs b' [? _]%Hrest|].
  destruct (Hrest bs b' Hhop) as [_ Hroute]. rewrite last_cons_cons in Hl.
  assert (z ∈ y :: rest) as Hzin by (by apply last_Some_elem_of).
  destruct (IH y ny ny' b' _ _ _ z nz net1 (net_inv_work _ _ Hi Hsteps) Hnd Ey' Hc' Hp' Hg' Hv' Hn') as (net' & nz' & Hr' & Hres); [|done| |].
  - apply (route_agree (nt_nodes net)); [|done]. intros u Hu. apply NoDup_cons in Hnd as [Hy _]. apply Hsame; set_solver.
  - rewrite decide_False in Hz by set_solver. case_decide as Hzy; [subst; congruence|]. rewrite Hsame; [done|set_solver|done].
  - exists net', nz'. split; [by etrans|done].
Qed.

(** C1: liveness of a route.  Take any reachable state of a network of epidemic nodes, in
    whatever state the goroutines, stores and agents are, and let an application create a
    valid bundle at a node from which a route leads to another one: each node on it has a
    sender for the next, which is no known holder and does not know the bundle.  From
    there the network alone, by calls of goroutines and by arrivals at the peers that
    bundles were sent to, with no creation and no change of agents or CLAs, can get to a
    state in which the last node has the bundle under its id, with its content, still
    valid at the given time, and from the node before it on the route; and in every
    mailbox that was registered there for the bundle's destination a client can fetch it.
    On every hop the goroutines of both nodes, the serialisation to disk, the replacement
    of the previous node block, the transport and the delivery to the agents take part. *)
Theorem route_delivered net0 net a na b prev rest z nz : net_start net0 → rtc (net_step ebm) net0 net →
  nt_nodes net !! a = Some na → creatable ebm b → Bundle_CheckValid now b = Ok [] → previous_node b = Ok prev → unknown b (w_store (n_world na)) →
  NoDup (a :: rest) → route (nt_nodes net) b a (st_nodeID (w_store (n_world na)) :: option_list prev) (GetSenders (w_cla (n_world na))) rest →
  last (a :: rest) = Some z → nt_nodes net !! z = Some nz →
  ∃ net' nz' loc b', rtc (net_work ebm) (create a na b net) net' ∧ nt_nodes net' !! z = Some nz' ∧
    GetBundleDescriptor (Bundle_ID b) (w_store (n_world nz')) = Ok loc ∧ Load ebm now loc (w_store (n_world nz')) = Ok b' ∧ same_content b b' ∧
    Bundle_CheckValid now b' = Ok [] ∧ previous_node b' = Ok (last_hop prev a rest) ∧
    ∀ name ag mb, w_agents (n_world nz) !! name = Some ag →
      mb_mailboxes (Agent_mailboxes ag) !! pb_Destination (b_PrimaryBlock b) = Some mb →
      ∃ ag' mb', w_agents (n_world nz') !! name = Some ag' ∧
        mb_mailboxes (Agent_mailboxes ag') !! pb_Destination (b_PrimaryBlock b) = Some mb' ∧
        ∀ remove, ∃ mb2, Mailbox_Get ebm now (Bundle_ID b) remove (w_store (n_world nz')) mb' = (Ok b', mb2).
Proof.
  intros Hs Hsteps Ea Hcr Hv Hp Hunk Hnd Hroute Hl Ez. pose proof (net_steps_inv _ prev_registered _ _ Hs Hsteps) as Hi.
  destruct (creatable_genuine ebm prev_registered b Hcr) as [Hg Hlen]. destruct (ni_nodes _ _ Hi a na Ea) as [_ [[[Hcore _] _] _]].
  set (net1 := create a na b net).
  assert (net_step ebm net net1) as Hr1 by (by apply net_create).
  destruct (reception a na b true prev net1 Hcore Hunk (ge_wf _ _ _ Hg) Hp) as (na' & Hr2 & Hc & Hn); [apply lookup_insert_eq|].
  set (net2 := set_node a na' net1) in *.
  assert (∀ u, u ≠ a → nt_nodes net2 !! u = nt_nodes net !! u) as Hsame by (intros u Hu; simpl; by rewrite !lookup_insert_ne).
  edestruct (route_goes b rest Hlen a na na' b) with (z := z) (prev := prev) (nz := nz) (net := net2) as (net' & nz' & Hr3 & Ez' & Harr);
    try done.
  - eapply net_inv_work; [by eapply (net_step_inv ebm prev_registered)|done].
  - apply lookup_insert_eq.
  - by apply CheckValid_iff.
  - apply (route_agree (nt_nodes net)); [|done]. intros u Hu. apply Hsame. apply NoDup_cons in Hnd as [Hna _]. set_solver.
  - case_decide as Hza; [subst; congruence|]. by rewrite Hsame.
  - destruct (arrived_served b _ nz nz' Harr) as (loc & b' & Hget & Hload & Hcont & Hval & Hlast & Hmail).
    exists net', nz', loc, b'. split_and!; try done. by etrans.
Qed.
End Delivered.


(** ** An example *)

#[local] Existing Instance plain_names_inj.
#[local] Existing Instance mtcp_net.

(** Three nodes in a row; the last one has an agent with a mailbox for the sample bundle. *)
Definition node_c : EndpointID := dtn "c" "".
Definition peer_c : Convergence := mkCLA "c" true true node_c.
Definition mail_node : Node := mkNode (set_w_agents sample_agents (n_world (idle_node node_c []))) [].
Definition mail_net : Network :=
  mkNetwork {[own_node := idle_node own_node [peer_b]; node_b := idle_node node_b [peer_c]; node_c := mail_node]} [].

Lemma map_db_works k m (d : db) : db_get d k = None → (db_Insert k m d).1 = Ok ().
Proof. simpl. intros E. by rewrite E. Qed.

Lemma mail_net_start : net_start mail_net.
Proof.
  assert (∀ own l, core_inv (w_store (n_world (idle_node own l)))) as Hc
    by (intros own l; apply empty_inv; intros k m E; simpl in E; by rewrite lookup_empty in E).
  split; [reflexivity|]. intros own n. simpl.
  intros [[<- <-]|[_ [[<- <-]|[_ [<- <-]%lookup_singleton_Some]]%lookup_insert_Some]]%lookup_insert_Some;
    (split; [by repeat constructor|split; [|done]]); [apply Hc..|apply (Hc node_c [])].
Qed.

(** The size of what is sent, on both hops. *)
Definition small_hop (own : EndpointID) (b : Bundle) : bool :=
  match hop own b with Ok (wire, _) => len wire <=? 1000 | _ => false end.

Lemma small_hop_fits own b bs b' : small_hop own b = true → hop own b = Ok (bs, b') → is_u64 (len bs + 18).
Proof. unfold small_hop. intros Hs Hh. rewrite Hh in Hs. apply Z.leb_le in Hs. unfold len in *. u64_lia. Qed.

Definition first_hop : Bundle := match hop own_node sample_bundle with Ok (_, b) => b | _ => sample_bundle end.

Lemma sample_route : route (nt_nodes mail_net) sample_bundle own_node [own_node] [peer_b] [node_b; node_c].
Proof.
  split; [vm_compute; reflexivity|]. split; [exists peer_b; split; [left|reflexivity]|]. split; [by intros [= ]%list_elem_of_singleton|].
  exists (idle_node node_b [peer_c]). split; [reflexivity|]. split; [split; reflexivity|]. intros bs b' Hh.
  split; [by eapply (small_hop_fits own_node sample_bundle); [vm_compute; reflexivity|]|].
  assert (b' = first_hop) as -> by (unfold first_hop; by rewrite Hh). clear Hh.
  split; [vm_compute; reflexivity|]. split; [exists peer_c; split; [left|reflexivity]|]. split; [by intros [[= ]|[= ]%list_elem_of_singleton]%elem_of_cons|].
  exists mail_node. split; [reflexivity|]. split; [split; vm_compute; reflexivity|]. intros bs2 b2 Hh.
  split; [|done]. eapply (small_hop_fits node_b first_hop); [vm_compute; reflexivity|done].
Qed.

Lemma route_delivered_witness :
  ∃ net' nc' b', rtc (net_work GetExtensionBlockManager) (create own_node (idle_node own_node [peer_b]) sample_bundle mail_net) net' ∧ nt_nodes net' !! node_c = Some nc' ∧ same_content sample_bundle b' ∧
    previous_node b' = Ok (Some node_b) ∧
    ∃ ag' mb' mb2, w_agents (n_world nc') !! Agent_Name unix_agent = Some ag' ∧
      mb_mailboxes (Agent_mailboxes ag') !! dtn "dst" "in" = Some mb' ∧
      Mailbox_Get GetExtensionBlockManager 0 (Bundle_ID sample_bundle) true (w_store (n_world nc')) mb' = (Ok b', mb2).
Proof.
  destruct (route_delivered GetExtensionBlockManager eq_refl map_db_works 0 mail_net mail_net own_node (idle_node own_node [peer_b])
    sample_bundle None [node_b; node_c] node_c mail_node mail_net_start (rtc_refl _ _) eq_refl)
    as (net' & nc' & loc & b' & Hr & Ec & _ & _ & Hc & _ & Hp & Hmail).
  - split; [exact sample_bundle_wf|]. split; [vm_compute; reflexivity|]. exists 0. exact sample_bundle_valid.
  - exact sample_bundle_valid.
  - vm_compute. reflexivity.
  - split; reflexivity.
  - apply (bool_decide_unpack _). vm_compute. exact I.
  - exact sample_route.
  - reflexivity.
  - reflexivity.
  - exists net', nc', b'. split; [exact Hr|]. split; [exact Ec|]. split; [exact Hc|]. split; [exact Hp|].
    destruct (Hmail (Agent_Name unix_agent) unix_agent ∅) as (ag' & mb' & Ha & Hm & Hget); [vm_compute; reflexivity..|].
    destruct (Hget true) as [mb2 Hg]. exists ag', mb', mb2. split; [exact Ha|]. split; [exact Hm|exact Hg].
Defined.
